(** * Open Floor Protocol (openfloor-js): value objects, schema validator
      and floor-management agents, embedded in Rocq.

    The TypeScript sources are embedded function by function.  The option
    and instance types follow the interfaces of [types.ts]; decoded JSON
    (the [Record<string, unknown>] arguments of the [fromObject] operations,
    the results of [toObject], schemas and validated data) is the type
    [json] below.  JavaScript numbers are exact rationals ([Q]): the
    rounding of IEEE doubles, [NaN] and the infinities are not part of the
    model. *)

From Stdlib Require Import String Ascii List ZArith QArith Qround Lia Bool.
From Stdlib Require Import DecimalString DecimalZ DecimalPos Znumtheory.
Import ListNotations.
Local Close Scope Q_scope.
Local Open Scope list_scope.
Local Open Scope string_scope.
Set Warnings "-register-all".

(** ** Outcome of fallible code

    [Throw m] is a JavaScript exception whose message is [m].  [IllTyped]
    marks a run in which a value flows through an [as T] cast although it
    does not inhabit [T]; the typed model does not follow such a run any
    further. *)
Inductive result (A : Type) : Type :=
| Ok (a : A)
| Throw (message : string)
| IllTyped.
Arguments Ok {A} a.
Arguments Throw {A} message.
Arguments IllTyped {A}.

Definition bind {A B : Type} (r : result A) (k : A -> result B) : result B :=
  match r with
  | Ok a => k a
  | Throw m => Throw m
  | IllTyped => IllTyped
  end.

Notation "x <- e ;; k" := (bind e (fun x => k))
  (at level 61, e at next level, right associativity).

Fixpoint mapM {A B : Type} (f : A -> result B) (l : list A) : result (list B) :=
  match l with
  | [] => Ok []
  | a :: l' => b <- f a ;; bs <- mapM f l' ;; Ok (b :: bs)
  end.

Definition is_ok {A : Type} (r : result A) : bool :=
  match r with Ok _ => true | _ => false end.

(** The double-quote character, for messages that quote a value. *)
Definition dquote : string := String (ascii_of_nat 34) EmptyString.

(** ** Decoded JSON and plain JavaScript values *)
Inductive json : Type :=
| JUndefined
| JNull
| JBool (b : bool)
| JNum (q : Q)
| JStr (s : string)
| JArr (items : list json)
| JObj (fields : list (string * json)).

(** [typeof v] *)
Definition typeof (v : json) : string :=
  match v with
  | JUndefined => "undefined"
  | JNull => "object"
  | JBool _ => "boolean"
  | JNum _ => "number"
  | JStr _ => "string"
  | JArr _ => "object"
  | JObj _ => "object"
  end.

(** Truthiness of a string: the empty string is falsy. *)
Definition str_truthy (s : string) : bool := negb (String.eqb s "").

(** Truthiness of a value in a condition. *)
Definition truthy (v : json) : bool :=
  match v with
  | JUndefined | JNull => false
  | JBool b => b
  | JNum q => negb (Qeq_bool q 0%Q)
  | JStr s => str_truthy s
  | JArr _ | JObj _ => true
  end.

Definition opt_truthy (o : option string) : bool :=
  match o with Some s => str_truthy s | None => false end.

Definition is_undefined (v : json) : bool :=
  match v with JUndefined => true | _ => false end.

Definition isArray (v : json) : bool :=
  match v with JArr _ => true | _ => false end.

(** Own-property lookup in an object literal: the first binding of the key. *)
Fixpoint assoc {A : Type} (k : string) (l : list (string * A)) : option A :=
  match l with
  | [] => None
  | (k', v) :: l' => if String.eqb k' k then Some v else assoc k l'
  end.

(** Printing of integers, as [String(n)] does for an integral number.
    The numbers of the code are IEEE doubles: they hold every integer up
    to 2^53 in absolute value, and [String] prints an integer below
    10^21 in plain decimal digits, which is what this function does for
    every [z]; statements about printed numbers carry that bound. *)
Definition Number_toString (z : Z) : string :=
  NilZero.string_of_int (Z.to_int z).

Definition is_digit (c : ascii) : bool :=
  (48 <=? nat_of_ascii c)%nat && (nat_of_ascii c <=? 57)%nat.

(** The longest prefix matched by [\d*], and what follows it. *)
Fixpoint take_digits (s : string) : string * string :=
  match s with
  | EmptyString => (EmptyString, EmptyString)
  | String c s' =>
      if is_digit c
      then let (d, r) := take_digits s' in (String c d, r)
      else (EmptyString, s)
  end.

(** [parseInt(s, 10)] on a string of decimal digits. *)
Definition parseInt (s : string) : Z :=
  match NilEmpty.uint_of_string s with
  | Some d => Z.of_uint d
  | None => 0
  end.

(** An array index as a property name, and back. *)
Definition index_name (i : nat) : string := Number_toString (Z.of_nat i).

Definition index_of_name (k : string) : option nat :=
  let (d, r) := take_digits k in
  match d, r with
  | String _ _, EmptyString =>
      let i := Z.to_nat (parseInt k) in
      if String.eqb (index_name i) k then Some i else None
  | _, _ => None
  end.

Fixpoint entries_from (i : nat) (l : list json) : list (string * json) :=
  match l with
  | [] => []
  | v :: l' => (index_name i, v) :: entries_from (S i) l'
  end.

(** [Object.entries(v)] for a value that is not [null] or [undefined]. *)
Definition Object_entries (v : json) : list (string * json) :=
  match v with
  | JObj fields => fields
  | JArr items => entries_from 0 items
  | JStr s => entries_from 0 (map (fun c => JStr (String c EmptyString)) (list_ascii_of_string s))
  | _ => []
  end.

(** The own property [k] of an object or array [v] of decoded JSON.
    This is what [k in v] tests and [v[k]] reads for the names that the
    classes of the package use, none of which is inherited; for names
    that the data chooses, see [in_operator] and [member] below. *)
Definition has_property (k : string) (v : json) : bool :=
  match v with
  | JObj fields => match assoc k fields with Some _ => true | None => false end
  | JArr items =>
      String.eqb k "length" ||
      match index_of_name k with
      | Some i => (i <? length items)%nat
      | None => false
      end
  | _ => false
  end.

(** [v[k]] for a value that is not [null] or [undefined]. *)
Definition get_property (v : json) (k : string) : json :=
  match v with
  | JObj fields => match assoc k fields with Some x => x | None => JUndefined end
  | JArr items =>
      if String.eqb k "length" then JNum (inject_Z (Z.of_nat (length items)))
      else match index_of_name k with
           | Some i => nth i items JUndefined
           | None => JUndefined
           end
  | _ => JUndefined
  end.

(** ** Values that are no decoded JSON

    An object or an array of decoded JSON inherits the members of
    [Object.prototype] and of [Array.prototype]: [k in v] holds for
    their names too, and [v[k]] is then a built-in function or, for
    [__proto__], the prototype itself.  These are the values that code
    which tests names taken from its input can come across. *)
Inductive jsvalue : Type :=
| Decoded (j : json)
| Builtin (name : string)
| ObjectPrototype
| ArrayPrototype.

Coercion Decoded : json >-> jsvalue.

(** The methods of [Object.prototype], and those of [Array.prototype]
    as of ECMAScript 2023; [constructor] and the accessor [__proto__]
    are treated apart. *)
Definition Object_prototype_methods : list string :=
  ["__defineGetter__"; "__defineSetter__"; "hasOwnProperty"; "__lookupGetter__";
   "__lookupSetter__"; "isPrototypeOf"; "propertyIsEnumerable"; "toString";
   "valueOf"; "toLocaleString"].

Definition Array_prototype_methods : list string :=
  ["at"; "concat"; "copyWithin"; "fill"; "find"; "findIndex"; "findLast";
   "findLastIndex"; "lastIndexOf"; "pop"; "push"; "reverse"; "shift"; "unshift";
   "slice"; "sort"; "splice"; "includes"; "indexOf"; "join"; "keys"; "entries";
   "values"; "forEach"; "filter"; "flat"; "flatMap"; "map"; "every"; "some";
   "reduce"; "reduceRight"; "toLocaleString"; "toString"; "toReversed";
   "toSorted"; "toSpliced"; "with"].

Definition Object_method (k : string) : option jsvalue :=
  if String.eqb k "constructor" then Some (Builtin "Object")
  else if existsb (String.eqb k) Object_prototype_methods
       then Some (Builtin ("Object.prototype." ++ k))
       else None.

Definition Array_method (k : string) : option jsvalue :=
  if String.eqb k "constructor" then Some (Builtin "Array")
  else if existsb (String.eqb k) Array_prototype_methods
       then Some (Builtin ("Array.prototype." ++ k))
       else Object_method k.

(** The member [k] of an object [v], own or inherited, if there is one.
    The accessor [__proto__] answers with the prototype of [v]. *)
Definition lookup (v : jsvalue) (k : string) : option jsvalue :=
  match v with
  | Decoded (JObj fields) =>
      match assoc k fields with
      | Some x => Some (Decoded x)
      | None => if String.eqb k "__proto__" then Some ObjectPrototype
                else Object_method k
      end
  | Decoded (JArr items) =>
      if has_property k (JArr items)
      then Some (Decoded (get_property (JArr items) k))
      else if String.eqb k "__proto__" then Some ArrayPrototype
           else Array_method k
  | ObjectPrototype =>
      if String.eqb k "__proto__" then Some (Decoded JNull) else Object_method k
  | ArrayPrototype =>
      if String.eqb k "length" then Some (Decoded (JNum 0))
      else if String.eqb k "__proto__" then Some ObjectPrototype
           else Array_method k
  | _ => None
  end.

(** [k in v] for an object [v] *)
Definition in_operator (k : string) (v : jsvalue) : bool :=
  match lookup v k with Some _ => true | None => false end.

(** [v[k]] for an object [v] *)
Definition member (v : jsvalue) (k : string) : jsvalue :=
  match lookup v k with Some x => x | None => Decoded JUndefined end.

Definition typeof_value (v : jsvalue) : string :=
  match v with
  | Decoded j => typeof j
  | Builtin _ => "function"
  | ObjectPrototype | ArrayPrototype => "object"
  end.

Definition truthy_value (v : jsvalue) : bool :=
  match v with Decoded j => truthy j | _ => true end.

Definition is_undefined_value (v : jsvalue) : bool :=
  match v with Decoded j => is_undefined j | _ => false end.

(** The elements of an array: [Array.prototype] is an array, an empty
    one. *)
Definition elements_of (v : jsvalue) : option (list json) :=
  match v with
  | Decoded (JArr items) => Some items
  | ArrayPrototype => Some []
  | _ => None
  end.

(** [Array.isArray(v)] *)
Definition isArray_value (v : jsvalue) : bool :=
  match elements_of v with Some _ => true | None => false end.

(** [Object.entries(v)]: the members of the prototypes are not
    enumerable. *)
Definition entries_of (v : jsvalue) : list (string * json) :=
  match v with Decoded j => Object_entries j | _ => [] end.

(** [v.k]: reading a property of [null] or [undefined] is a TypeError. *)
Definition read_property (v : json) (k : string) : result json :=
  match v with
  | JUndefined =>
      Throw ("Cannot read properties of undefined (reading '" ++ k ++ "')")
  | JNull =>
      Throw ("Cannot read properties of null (reading '" ++ k ++ "')")
  | _ => Ok (get_property v k)
  end.

(** ** utils.ts *)
Module Utils.

(** One optional group [(?:(\d+)X)?] of the duration pattern. *)
Definition group_int (X : ascii) (s : string) : option string * string :=
  let (ds, r) := take_digits s in
  match ds, r with
  | String _ _, String c r' =>
      if Ascii.eqb c X then (Some ds, r') else (None, s)
  | _, _ => (None, s)
  end.

(** The optional group [(?:(\d+(?:\.\d+)?)S)?]: integer digits and,
    when present, the digits after the point. *)
Definition group_seconds (s : string)
  : option (string * option string) * string :=
  let (ds, r) := take_digits s in
  match ds, r with
  | String _ _, String c r1 =>
      if Ascii.eqb c "S" then (Some (ds, None), r1)
      else if Ascii.eqb c "." then
        let (fs, r2) := take_digits r1 in
        match fs, r2 with
        | String _ _, String c2 r3 =>
            if Ascii.eqb c2 "S" then (Some (ds, Some fs), r3) else (None, s)
        | _, _ => (None, s)
        end
      else (None, s)
  | _, _ => (None, s)
  end.

(** [duration.match(regex)] for
    [/^P(?:(\d+)D)?(?:T(?:(\d+)H)?(?:(\d+)M)?(?:(\d+(?:\.\d+)?)S)?)?$/]:
    the four capture groups, or [None] when the string does not match. *)
Definition duration_match (duration : string)
  : option (option string * option string * option string
            * option (string * option string)) :=
  match duration with
  | String c0 s0 =>
      if Ascii.eqb c0 "P" then
        let (d, s1) := group_int "D" s0 in
        match s1 with
        | EmptyString => Some (d, None, None, None)
        | String c1 s2 =>
            if Ascii.eqb c1 "T" then
              let (h, s3) := group_int "H" s2 in
              let (m, s4) := group_int "M" s3 in
              let (sec, s5) := group_seconds s4 in
              match s5 with
              | EmptyString => Some (d, h, m, sec)
              | String _ _ => None
              end
            else None
        end
      else None
  | EmptyString => None
  end.

(** [parseInt(g || '0', 10)] *)
Definition group_value (g : option string) : Z :=
  match g with Some ds => parseInt ds | None => parseInt "0" end.

(** [parseFloat(g || '0')] on [digits] or [digits.digits] *)
Definition parseFloat (g : option (string * option string)) : Q :=
  match g with
  | Some (ds, None) => inject_Z (parseInt ds)
  | Some (ds, Some fs) =>
      (inject_Z (parseInt ds)
       + inject_Z (parseInt fs) / inject_Z (10 ^ Z.of_nat (String.length fs)))%Q
  | None => inject_Z (parseInt "0")
  end.

(** [parseIsoDuration(duration)].  The sum is computed exactly here
    and in doubles by the code: the two agree when the parts are read
    from digit strings without a fraction and the parts and the sum
    stay within 2^53. *)
Definition parseIsoDuration (duration : string) : result Q :=
  match duration_match duration with
  | None => Throw ("Invalid ISO 8601 duration: " ++ duration)
  | Some (g1, g2, g3, g4) =>
      let days := group_value g1 in
      let hours := group_value g2 in
      let minutes := group_value g3 in
      let seconds := parseFloat g4 in
      Ok (inject_Z (((days * 24 + hours) * 60 + minutes) * 60000)
          + seconds * inject_Z 1000)%Q
  end.

(** [millisecondsToIsoDuration(milliseconds)]: [Math.floor(x / d)] is
    the floor of the quotient and [x % d] is [Z.rem].  The quotients
    are exact here and rounded to doubles by the code; for a number of
    milliseconds between 0 and 2^53 the rounding does not reach the
    next whole number, so that the parts printed are the same. *)
Definition millisecondsToIsoDuration (milliseconds : Q) : string :=
  let totalSeconds := Qfloor (milliseconds / inject_Z 1000)%Q in
  let hours := (totalSeconds / 3600)%Z in
  let minutes := (Z.rem totalSeconds 3600 / 60)%Z in
  let seconds := Z.rem totalSeconds 60 in
  let parts : list string := [] in
  let parts :=
    if (0 <? hours)%Z
    then (parts ++ [(Number_toString hours ++ "H")%string])%list else parts in
  let parts :=
    if (0 <? minutes)%Z
    then (parts ++ [(Number_toString minutes ++ "M")%string])%list else parts in
  let parts :=
    if (0 <? seconds)%Z || (length parts =? 0)%nat
    then (parts ++ [(Number_toString seconds ++ "S")%string])%list else parts in
  ("PT" ++ String.concat "" parts)%string.

(** [typeof value === 'string' ? `"${value}"` : typeof value] is passed
    already rendered as [got]. *)
Definition createValidationError (fieldName got requirement : string) : string :=
  fieldName ++ ": expected " ++ requirement ++ ", got " ++ got.

Definition got_string (value : string) : string := dquote ++ value ++ dquote.

Definition hasRequiredProperties (obj : json) (requiredProps : list string) : bool :=
  if negb (truthy obj) || negb (String.eqb (typeof obj) "object") then false
  else forallb (fun prop =>
                  in_operator prop obj && negb (is_undefined_value (member obj prop)))
               requiredProps.

Definition is_alpha (c : ascii) : bool :=
  let n := nat_of_ascii c in
  ((65 <=? n) && (n <=? 90) || (97 <=? n) && (n <=? 122))%nat.

(** Characters of [[a-zA-Z0-9+.-]]. *)
Definition is_scheme_char (c : ascii) : bool :=
  is_alpha c || is_digit c || Ascii.eqb c "+" || Ascii.eqb c "." || Ascii.eqb c "-".

(** [uri.indexOf(':')] splits the string into [scheme] and [path]. *)
Fixpoint split_colon (s : string) : option (string * string) :=
  match s with
  | EmptyString => None
  | String c s' =>
      if Ascii.eqb c ":" then Some (EmptyString, s')
      else match split_colon s' with
           | Some (a, b) => Some (String c a, b)
           | None => None
           end
  end.

Definition isValidUri (uri : string) : bool :=
  match split_colon uri with
  | None => false
  | Some (EmptyString, _) => false
  | Some (String c scheme, path) =>
      if negb (is_alpha c && forallb is_scheme_char (list_ascii_of_string scheme))
      then false
      else if negb (str_truthy path) then false
      else true
  end.

Definition isValidConfidence (confidence : Q) : bool :=
  Qle_bool 0%Q confidence && Qle_bool confidence 1%Q.

Definition isValidEncoding (encoding : string) : bool :=
  existsb (String.eqb encoding) ["ISO-8859-1"; "iso-8859-1"; "UTF-8"; "utf-8"].

End Utils.


(** ** validation.ts: the dependency-free schema validator *)
Module Validation.

(** [ValidationResult] of [types.ts] *)
Record ValidationResult : Type := {
  valid : bool;
  errors : list string
}.

(** How a statement completes: normally, or by an exception with the
    given message. *)
Inductive completion (A : Type) : Type :=
| Normal (a : A)
| Abrupt (message : string).
Arguments Normal {A} a.
Arguments Abrupt {A} message.

(** Statements of [_validateObject] run against the [errors] array they
    are given: pushes made before an exception stay in the array. *)
Definition V (A : Type) : Type := list string -> completion A * list string.

Definition vret {A : Type} (a : A) : V A := fun errs => (Normal a, errs).

Definition vthrow {A : Type} (message : string) : V A :=
  fun errs => (Abrupt message, errs).

Definition vbind {A B : Type} (m : V A) (k : A -> V B) : V B :=
  fun errs =>
    match m errs with
    | (Normal a, errs') => k a errs'
    | (Abrupt e, errs') => (Abrupt e, errs')
    end.

Notation "m ;;; k" := (vbind m (fun _ => k))
  (at level 62, right associativity).

(** [errors.push(e)] *)
Definition push (e : string) : V unit :=
  fun errs => (Normal tt, (errs ++ [e])%list).

Definition for_each {A : Type} (f : A -> V unit) : list A -> V unit :=
  fix go (l : list A) : V unit :=
    match l with
    | [] => vret tt
    | a :: l' => f a ;;; go l'
    end.

Definition for_each_indexed (f : nat -> json -> V unit)
  : nat -> list json -> V unit :=
  fix go (i : nat) (l : list json) : V unit :=
    match l with
    | [] => vret tt
    | a :: l' => f i a ;;; go (S i) l'
    end.

(** [schema.name] of a schema object, handed to [k]; [d] when the
    property is absent. *)
Definition with_field {A : Type} (name : string) (k : json -> A) (d : A)
  : list (string * json) -> A :=
  fix go (l : list (string * json)) : A :=
    match l with
    | [] => d
    | (k', v) :: l' => if String.eqb k' name then k v else go l'
    end.

(** [path || 'root'] *)
Definition path_label (path : string) : string :=
  if str_truthy path then path else "root".

(** [path ? `${path}.${propName}` : propName] *)
Definition prop_path (path propName : string) : string :=
  if str_truthy path then path ++ "." ++ propName else propName.

(** [`${path}[${index}]`] *)
Definition item_path (path : string) (index : nat) : string :=
  path ++ "[" ++ index_name index ++ "]".

(** [data && typeof data === 'object'] *)
Definition is_object (data : jsvalue) : bool :=
  truthy_value data && String.eqb (typeof_value data) "object".

Section Host.

(** Functions of the JavaScript host: number printing, [JSON.stringify]
    inside a template literal, and [new RegExp(pattern)], which throws
    a SyntaxError with the given message ([inl]) on a malformed pattern
    and otherwise yields the [test] function of the expression.

    The data is decoded JSON; the values that the validator meets
    below it are those and, through the names that a schema lists
    under [required] and [properties], the inherited members of
    objects and arrays. *)
Variable Number_print : Q -> string.
Variable JSON_stringify : json -> string.
Variable RegExp_new : string -> string + (string -> bool).

(** [String(v)], as a template literal renders a value. *)
Fixpoint toString (v : json) : string :=
  match v with
  | JUndefined => "undefined"
  | JNull => "null"
  | JBool true => "true"
  | JBool false => "false"
  | JNum q => Number_print q
  | JStr s => s
  | JArr items =>
      String.concat ","
        (map (fun x => match x with
                       | JUndefined | JNull => ""
                       | _ => toString x
                       end) items)
  | JObj _ => "[object Object]"
  end.

(** [items.join(sep)] *)
Definition join (sep : string) (items : list json) : string :=
  String.concat sep
    (map (fun x => match x with
                   | JUndefined | JNull => ""
                   | _ => toString x
                   end) items).

(** [a === b] on decoded JSON (also the comparison of
    [Array.prototype.includes]): objects and arrays are compared by
    identity, and a schema shares no object with the data. *)
Definition strict_equal (a b : json) : bool :=
  match a, b with
  | JUndefined, JUndefined => true
  | JNull, JNull => true
  | JBool x, JBool y => Bool.eqb x y
  | JNum x, JNum y => Qeq_bool x y
  | JStr x, JStr y => String.eqb x y
  | _, _ => false
  end.

(** [l.includes(v)] for the values [l] of a schema: a function or a
    prototype is equal to none of them. *)
Definition includes (l : list json) (v : jsvalue) : bool :=
  match v with
  | Decoded j => existsb (fun x => strict_equal x j) l
  | _ => false
  end.

(** [JSON.stringify(v)] inside a template literal: [undefined] for a
    function, and the prototypes have no enumerable member. *)
Definition stringify (v : jsvalue) : string :=
  match v with
  | Decoded j => JSON_stringify j
  | Builtin _ => "undefined"
  | ObjectPrototype => "{}"
  | ArrayPrototype => "[]"
  end.

(** [new RegExp(pattern)], then [k] on its [test] function *)
Definition with_regex {A : Type} (pattern : string) (k : (string -> bool) -> V A)
  : V A :=
  match RegExp_new pattern with
  | inr test => k test
  | inl message => vthrow message
  end.

(** Type validation; [false] when the function returns early. *)
Definition check_type (ty : json) (data : jsvalue) (path : string) : V bool :=
  if truthy ty then
    if strict_equal ty (JStr "array") then
      if negb (isArray_value data) then
        push (path_label path ++ ": expected array, got " ++ typeof_value data) ;;;
        vret false
      else vret true
    else if negb (strict_equal (JStr (typeof_value data)) ty) then
      if negb (strict_equal ty (JStr "object") && truthy_value data
               && String.eqb (typeof_value data) "object") then
        push (path_label path ++ ": expected " ++ toString ty
              ++ ", got " ++ typeof_value data) ;;;
        vret false
      else vret true
    else vret true
  else vret true.

(** Required properties validation *)
Definition check_required (required : json) (data : jsvalue) (path : string)
  : V unit :=
  match required with
  | JArr props =>
      if is_object data then
        for_each (fun requiredProp =>
                    let name := toString requiredProp in
                    if negb (in_operator name data)
                       || is_undefined_value (member data name)
                    then push (path_label path ++ ": missing required property '"
                               ++ name ++ "'")
                    else vret tt) props
      else vret tt
  | _ => vret tt
  end.

(** Properties validation; [validate_with s] is the recursive call
    with schema [s]. *)
Definition check_properties
    (validate_with : json -> jsvalue -> string -> V unit)
    (properties : json) (data : jsvalue) (path : string) : V unit :=
  if truthy properties && is_object data then
    match properties with
    | JObj entries =>
        for_each (fun entry =>
                    let '(propName, propSchema) := entry in
                    if in_operator propName data then
                      validate_with propSchema (member data propName)
                                    (prop_path path propName)
                    else vret tt) entries
    | JArr schemas =>
        for_each_indexed
          (fun i propSchema =>
             if in_operator (index_name i) data then
               validate_with propSchema (member data (index_name i))
                             (prop_path path (index_name i))
             else vret tt) 0 schemas
    | _ =>
        (* the entries of a string are one-character strings, which
           hold no keyword; numbers and booleans have no entries *)
        vret tt
    end
  else vret tt.

Definition check_one_pattern (pattern : string)
    (check : jsvalue -> string -> V unit) (data : jsvalue) (path : string)
  : V unit :=
  with_regex pattern (fun test =>
    for_each (fun entry =>
                let '(propName, propValue) := entry in
                if test propName
                then check (Decoded propValue) (prop_path path propName)
                else vret tt)
             (entries_of data)).

(** Pattern properties validation *)
Definition check_patternProperties
    (validate_with : json -> jsvalue -> string -> V unit)
    (patternProperties : json) (data : jsvalue) (path : string) : V unit :=
  if truthy patternProperties && is_object data then
    match patternProperties with
    | JObj entries =>
        for_each (fun entry =>
                    let '(pattern, propSchema) := entry in
                    check_one_pattern pattern (validate_with propSchema) data path)
                 entries
    | JArr schemas =>
        for_each_indexed
          (fun i propSchema =>
             check_one_pattern (index_name i) (validate_with propSchema) data path)
          0 schemas
    | JStr s =>
        for_each_indexed
          (fun i _ => check_one_pattern (index_name i) (fun _ _ => vret tt) data path)
          0 (map (fun c => JStr (String c EmptyString)) (list_ascii_of_string s))
    | _ => vret tt
    end
  else vret tt.

(** Array validation *)
Definition check_items (validate_with : json -> jsvalue -> string -> V unit)
    (items : json) (data : jsvalue) (path : string) : V unit :=
  if truthy items then
    match elements_of data with
    | Some elements =>
        for_each_indexed
          (fun index item =>
             validate_with items (Decoded item) (item_path path index))
          0 elements
    | None => vret tt
    end
  else vret tt.

(** Enum validation *)
Definition check_enum (enum : json) (data : jsvalue) (path : string) : V unit :=
  match enum with
  | JArr values =>
      if negb (includes values data)
      then push (path_label path ++ ": value must be one of [" ++ join ", " values
                 ++ "], got " ++ stringify data)
      else vret tt
  | _ => vret tt
  end.

(** Number range validation *)
Definition check_range (minimum maximum : json) (data : jsvalue) (path : string)
  : V unit :=
  match data with
  | Decoded (JNum x) =>
      match minimum with
      | JNum lo =>
          if negb (Qle_bool lo x)
          then push (path_label path ++ ": value " ++ toString (JNum x)
                     ++ " is below minimum " ++ toString minimum)
          else vret tt
      | _ => vret tt
      end ;;;
      match maximum with
      | JNum hi =>
          if negb (Qle_bool x hi)
          then push (path_label path ++ ": value " ++ toString (JNum x)
                     ++ " is above maximum " ++ toString maximum)
          else vret tt
      | _ => vret tt
      end
  | _ => vret tt
  end.

(** String pattern validation *)
Definition check_pattern (pattern : json) (data : jsvalue) (path : string)
  : V unit :=
  match data with
  | Decoded (JStr s) =>
      if truthy pattern then
        with_regex (toString pattern) (fun test =>
          if negb (test s)
          then push (path_label path ++ ": string does not match pattern "
                     ++ toString pattern)
          else vret tt)
      else vret tt
  | _ => vret tt
  end.

(** AnyOf validation: every branch is tried against a fresh
    [subErrors] array. *)
Definition check_anyOf (validate_with : json -> jsvalue -> string -> V unit)
    (anyOf : json) (data : jsvalue) (path : string) : V unit :=
  match anyOf with
  | JArr subSchemas =>
      vbind
        ((fix any (l : list json) : V bool :=
            match l with
            | [] => vret false
            | subSchema :: l' =>
                fun errs =>
                  match validate_with subSchema data path [] with
                  | (Normal _, []) => (Normal true, errs)
                  | (Normal _, _ :: _) => any l' errs
                  | (Abrupt m, _) => (Abrupt m, errs)
                  end
            end) subSchemas)
        (fun valid =>
           if negb valid
           then push (path_label path
                      ++ ": value does not match any of the allowed schemas")
           else vret tt)
  | _ => vret tt
  end.

(** [_validateObject(data, schema, path, errors)].  The recursion
    follows the schema: into the member schemas of [properties] and
    [patternProperties], into [items] and into the branches of
    [anyOf]. *)
Fixpoint _validateObject (data : jsvalue) (schema : json) (path : string)
    {struct schema} : V unit :=
  match schema with
  | JUndefined =>
      vthrow "Cannot read properties of undefined (reading 'type')"
  | JNull =>
      vthrow "Cannot read properties of null (reading 'type')"
  | JObj fields =>
      let field name := get_property schema name in
      let validate_with s d p := _validateObject d s p in
      vbind (check_type (field "type") data path) (fun continue =>
      if negb continue then vret tt else
      check_required (field "required") data path ;;;
      with_field "properties"
        (fun properties => check_properties validate_with properties data path)
        (vret tt) fields ;;;
      with_field "patternProperties"
        (fun patternProperties =>
           check_patternProperties validate_with patternProperties data path)
        (vret tt) fields ;;;
      with_field "items"
        (fun items => check_items validate_with items data path)
        (vret tt) fields ;;;
      check_enum (field "enum") data path ;;;
      check_range (field "minimum") (field "maximum") data path ;;;
      check_pattern (field "pattern") data path ;;;
      with_field "anyOf"
        (fun anyOf => check_anyOf validate_with anyOf data path)
        (vret tt) fields)
  | JBool _ | JNum _ | JStr _ | JArr _ =>
      (* no keyword is a property of a primitive or of an array *)
      vret tt
  end.

(** [SimpleValidator.validate(data, schema)] *)
Definition validate (data : jsvalue) (schema : json) : ValidationResult :=
  let errors : list string := [] in
  let errors :=
    match _validateObject data schema "" errors with
    | (Normal _, errors) => errors
    | (Abrupt message, errors) =>
        (errors ++ [("Validation error: " ++ message)%string])%list
    end in
  {| valid := (length errors =? 0)%nat; errors := errors |}.

End Host.

End Validation.

(** ** The host: dates and the printing of numbers

    [Date] is the type of JavaScript [Date] objects, invalid dates
    included: [Date_toISOString] throws a RangeError on those.
    [Date_new s] is [new Date(s)] and [Date_now] is the reading of the
    clock, [new Date()], during the run considered.
    [String_of_number x] is [String(x)] for a number [x]. *)
Class Host : Type := {
  Date : Type;
  Date_toISOString : Date -> result string;
  Date_new : string -> Date;
  Date_now : Date;
  String_of_number : Q -> string
}.

(** A date that was printed is read back as the same date. *)
Definition Date_round_trip `{Host} : Prop :=
  forall (d : Date) (s : string), Date_toISOString d = Ok s -> Date_new s = d.

(** ** Casts of decoded JSON to the types of [types.ts] *)

Definition as_string (v : json) : result string :=
  match v with JStr s => Ok s | _ => IllTyped end.

(** [v !== undefined ? { k: v as string } : {}] *)
Definition as_opt_string (v : json) : result (option string) :=
  match v with
  | JUndefined => Ok None
  | JStr s => Ok (Some s)
  | _ => IllTyped
  end.

Definition as_opt_number (v : json) : result (option Q) :=
  match v with
  | JUndefined => Ok None
  | JNum q => Ok (Some q)
  | _ => IllTyped
  end.

Definition as_opt_boolean (v : json) : result (option bool) :=
  match v with
  | JUndefined => Ok None
  | JBool b => Ok (Some b)
  | _ => IllTyped
  end.

Definition as_array (v : json) : result (list json) :=
  match v with JArr items => Ok items | _ => IllTyped end.

Definition as_string_array (v : json) : result (list string) :=
  items <- as_array v ;; mapM as_string items.

Definition as_opt_string_array (v : json) : result (option (list string)) :=
  match v with
  | JUndefined => Ok None
  | _ => l <- as_string_array v ;; Ok (Some l)
  end.

Definition as_record (v : json) : result (list (string * json)) :=
  match v with JObj fields => Ok fields | _ => IllTyped end.

Definition as_opt_record (v : json) : result (option (list (string * json))) :=
  match v with
  | JUndefined => Ok None
  | JObj fields => Ok (Some fields)
  | _ => IllTyped
  end.

(** Members of an object literal that are written only under a condition. *)
Definition member_if (b : bool) (k : string) (v : json) : list (string * json) :=
  if b then [(k, v)] else [].

Definition member_opt {A : Type} (o : option A) (k : string) (f : A -> json)
  : list (string * json) :=
  match o with Some a => [(k, f a)] | None => [] end.

(** A string member written when the string is truthy. *)
Definition member_truthy (o : option string) (k : string) : list (string * json) :=
  match o with
  | Some s => member_if (str_truthy s) k (JStr s)
  | None => []
  end.

Definition JStrings (l : list string) : json := JArr (map JStr l).

(** [o.k] of an optional string, in a condition. *)
Definition falsy (o : option string) : bool := negb (opt_truthy o).

(** ** dialog-event.ts *)

Module SpanOptions.
Section WithHost.
Context `{Host}.
Record t : Type := {
  startTime : option Date;
  startOffset : option Q;
  endTime : option Date;
  endOffset : option Q
}.
Definition empty : t :=
  {| startTime := None; startOffset := None; endTime := None; endOffset := None |}.
End WithHost.
End SpanOptions.

Module Span.
Section WithHost.
Context `{Host}.

Record t : Type := {
  startTime : option Date;
  startOffset : option Q;
  endTime : option Date;
  endOffset : option Q
}.

(** [new Span(options)]; a [Date] object is always truthy. *)
Definition new (options : SpanOptions.t) : result t :=
  let '(startTime, startOffset) :=
    match SpanOptions.startTime options, SpanOptions.startOffset options with
    | None, None => (Some Date_now, None)
    | st, so => (st, so)
    end in
  let endTime := SpanOptions.endTime options in
  let endOffset := SpanOptions.endOffset options in
  match startTime, startOffset with
  | Some _, Some _ =>
      Throw (Utils.createValidationError "Span"
               (Utils.got_string "both startTime and startOffset")
               "either startTime or startOffset, not both")
  | _, _ =>
      match endTime, endOffset with
      | Some _, Some _ =>
          Throw (Utils.createValidationError "Span"
                   (Utils.got_string "both endTime and endOffset")
                   "either endTime or endOffset, not both")
      | _, _ =>
          match startTime, startOffset with
          | None, None =>
              Throw (Utils.createValidationError "Span"
                       (Utils.got_string "neither startTime nor startOffset")
                       "either startTime or startOffset")
          | _, _ =>
              Ok {| startTime := startTime; startOffset := startOffset;
                    endTime := endTime; endOffset := endOffset |}
          end
      end
  end.

(** A [Span] instance handed over where [SpanOptions] are expected. *)
Definition as_options (s : t) : SpanOptions.t :=
  {| SpanOptions.startTime := startTime s;
     SpanOptions.startOffset := startOffset s;
     SpanOptions.endTime := endTime s;
     SpanOptions.endOffset := endOffset s |}.

Definition time_member (o : option Date) (k : string)
  : result (list (string * json)) :=
  match o with
  | Some d => s <- Date_toISOString d ;; Ok [(k, JStr s)]
  | None => Ok []
  end.

Definition offset_member (o : option Q) (k : string) : list (string * json) :=
  member_opt o k (fun ms => JStr (Utils.millisecondsToIsoDuration ms)).

Definition toObject (s : t) : result json :=
  st <- time_member (startTime s) "startTime" ;;
  let so := offset_member (startOffset s) "startOffset" in
  et <- time_member (endTime s) "endTime" ;;
  let eo := offset_member (endOffset s) "endOffset" in
  Ok (JObj (st ++ so ++ et ++ eo)%list).

(** [typeof v === 'string' ? new Date(v) : v instanceof Date ? v : absent];
    decoded JSON holds no [Date]. *)
Definition time_of (v : json) : option Date :=
  match v with JStr s => Some (Date_new s) | _ => None end.

Definition offset_of (v : json) : result (option Q) :=
  match v with
  | JStr s => ms <- Utils.parseIsoDuration s ;; Ok (Some ms)
  | JNum q => Ok (Some q)
  | _ => Ok None
  end.

Definition fromObject (data : json) : result t :=
  startTime <- read_property data "startTime" ;;
  endTime <- read_property data "endTime" ;;
  startOffset <- read_property data "startOffset" ;;
  so <- offset_of startOffset ;;
  endOffset <- read_property data "endOffset" ;;
  eo <- offset_of endOffset ;;
  new {| SpanOptions.startTime := time_of startTime;
         SpanOptions.startOffset := so;
         SpanOptions.endTime := time_of endTime;
         SpanOptions.endOffset := eo |}.

(** [v as SpanOptions] for decoded JSON: the times of [SpanOptions] are
    [Date] objects and the offsets are numbers, which the strings written
    by [toObject] are not. *)
Definition as_SpanOptions (v : json) : result SpanOptions.t :=
  match get_property v "startTime", get_property v "endTime" with
  | JUndefined, JUndefined =>
      so <- as_opt_number (get_property v "startOffset") ;;
      eo <- as_opt_number (get_property v "endOffset") ;;
      Ok {| SpanOptions.startTime := None; SpanOptions.startOffset := so;
            SpanOptions.endTime := None; SpanOptions.endOffset := eo |}
  | _, _ => IllTyped
  end.

End WithHost.
End Span.

Module TokenOptions.
Section WithHost.
Context `{Host}.
Record t : Type := {
  value : json;                       (* [JUndefined] when absent *)
  valueUrl : option string;
  span : option SpanOptions.t;
  confidence : option Q;
  links : option (list string)
}.
End WithHost.
End TokenOptions.

Module Token.
Section WithHost.
Context `{Host}.

Record t : Type := {
  value : json;
  valueUrl : option string;
  span : option Span.t;
  confidence : option Q;
  links : list string
}.

Definition new (options : TokenOptions.t) : result t :=
  let value := TokenOptions.value options in
  let valueUrl := TokenOptions.valueUrl options in
  let confidence := TokenOptions.confidence options in
  let links := match TokenOptions.links options with Some l => l | None => [] end in
  span <- match TokenOptions.span options with
          | Some o => s <- Span.new o ;; Ok (Some s)
          | None => Ok None
          end ;;
  if is_undefined value && falsy valueUrl then
    Throw (Utils.createValidationError "Token"
             (Utils.got_string "neither value nor valueUrl")
             "either value or valueUrl")
  else if negb (is_undefined value) && opt_truthy valueUrl then
    Throw (Utils.createValidationError "Token"
             (Utils.got_string "both value and valueUrl")
             "either value or valueUrl, not both")
  else if match confidence with
          | Some c => negb (Utils.isValidConfidence c)
          | None => false
          end then
    Throw (Utils.createValidationError "Token.confidence" "number"
             "number between 0 and 1")
  else
    Ok {| value := value; valueUrl := valueUrl; span := span;
          confidence := confidence; links := links |}.

Definition toObject (tk : t) : result json :=
  sp <- match span tk with
        | Some s => j <- Span.toObject s ;; Ok [("span", j)]
        | None => Ok []
        end ;;
  Ok (JObj (member_if (negb (is_undefined (value tk))) "value" (value tk)
            ++ member_truthy (valueUrl tk) "valueUrl"
            ++ sp
            ++ member_opt (confidence tk) "confidence" JNum
            ++ member_if (0 <? length (links tk))%nat "links" (JStrings (links tk)))%list).

(** [v as TokenOptions] for decoded JSON *)
Definition as_TokenOptions (v : json) : result TokenOptions.t :=
  valueUrl <- as_opt_string (get_property v "valueUrl") ;;
  span <- match get_property v "span" with
          | JUndefined => Ok None
          | s => o <- Span.as_SpanOptions s ;; Ok (Some o)
          end ;;
  confidence <- as_opt_number (get_property v "confidence") ;;
  links <- as_opt_string_array (get_property v "links") ;;
  Ok {| TokenOptions.value := get_property v "value";
        TokenOptions.valueUrl := valueUrl;
        TokenOptions.span := span;
        TokenOptions.confidence := confidence;
        TokenOptions.links := links |}.

(** [const options: TokenOptions = { ...data }], the span replaced by
    [Span.fromObject(data.span).toObject() as SpanOptions] when
    [data.span] is an object. *)
Definition fromObject (data : json) : result t :=
  dspan <- read_property data "span" ;;
  span <- (if truthy dspan && String.eqb (typeof dspan) "object" then
             s <- Span.fromObject dspan ;;
             j <- Span.toObject s ;;
             o <- Span.as_SpanOptions j ;;
             Ok (Some o)
           else match dspan with
                | JUndefined => Ok None
                | _ => IllTyped
                end) ;;
  valueUrl <- as_opt_string (get_property data "valueUrl") ;;
  confidence <- as_opt_number (get_property data "confidence") ;;
  links <- as_opt_string_array (get_property data "links") ;;
  new {| TokenOptions.value := get_property data "value";
         TokenOptions.valueUrl := valueUrl;
         TokenOptions.span := span;
         TokenOptions.confidence := confidence;
         TokenOptions.links := links |}.

End WithHost.
End Token.

Module FeatureOptions.
Section WithHost.
Context `{Host}.
Record t : Type := {
  mimeType : string;
  tokens : option (list TokenOptions.t);
  alternates : option (list (list TokenOptions.t));
  lang : option string;
  encoding : option string;
  tokenSchema : option string
}.
End WithHost.
End FeatureOptions.

Module Feature.
Section WithHost.
Context `{Host}.

Record t : Type := {
  mimeType : string;
  tokens : list Token.t;
  alternates : list (list Token.t);
  lang : option string;
  encoding : option string;
  tokenSchema : option string
}.

Definition new (options : FeatureOptions.t) : result t :=
  let mimeType := FeatureOptions.mimeType options in
  let alternates :=
    match FeatureOptions.alternates options with Some a => a | None => [] end in
  let encoding := FeatureOptions.encoding options in
  if negb (str_truthy mimeType) then Throw "Feature.mimeType is required"
  else match FeatureOptions.tokens options with
       | None => Throw "Feature.tokens is required"
       | Some tokens =>
           tks <- mapM Token.new tokens ;;
           alts <- mapM (mapM Token.new) alternates ;;
           if match encoding with
              | Some e => str_truthy e && negb (Utils.isValidEncoding e)
              | None => false
              end
           then Throw (Utils.createValidationError "Feature.encoding"
                         (Utils.got_string
                            (match encoding with Some e => e | None => "" end))
                         (dquote ++ "ISO-8859-1" ++ dquote ++ ", "
                          ++ dquote ++ "iso-8859-1" ++ dquote ++ ", "
                          ++ dquote ++ "UTF-8" ++ dquote ++ ", or "
                          ++ dquote ++ "utf-8" ++ dquote))
           else Ok {| mimeType := mimeType; tokens := tks; alternates := alts;
                      lang := FeatureOptions.lang options;
                      encoding := encoding;
                      tokenSchema := FeatureOptions.tokenSchema options |}
       end.

Definition toObject (f : t) : result json :=
  tks <- mapM Token.toObject (tokens f) ;;
  alts <- mapM (fun alt => l <- mapM Token.toObject alt ;; Ok (JArr l))
               (alternates f) ;;
  Ok (JObj ([("mimeType", JStr (mimeType f)); ("tokens", JArr tks)]
            ++ member_if (0 <? length (alternates f))%nat "alternates" (JArr alts)
            ++ member_truthy (lang f) "lang"
            ++ member_truthy (encoding f) "encoding"
            ++ member_truthy (tokenSchema f) "tokenSchema")%list).

(** [Token.fromObject(t).toObject() as TokenOptions] *)
Definition token_options_of (tokenData : json) : result TokenOptions.t :=
  tk <- Token.fromObject tokenData ;;
  j <- Token.toObject tk ;;
  Token.as_TokenOptions j.

Definition fromObject (data : json) : result t :=
  dmimeType <- read_property data "mimeType" ;;
  tokens <- match get_property data "tokens" with
            | JArr items => mapM token_options_of items
            | _ => Ok []
            end ;;
  alternates <- match get_property data "alternates" with
                | JUndefined => Ok None
                | JArr alts =>
                    l <- mapM (fun alt => match alt with
                                          | JArr items => mapM token_options_of items
                                          | _ => Ok []
                                          end) alts ;;
                    Ok (Some l)
                | _ => IllTyped
                end ;;
  lang <- as_opt_string (get_property data "lang") ;;
  encoding <- as_opt_string (get_property data "encoding") ;;
  tokenSchema <- as_opt_string (get_property data "tokenSchema") ;;
  mimeType <- as_string dmimeType ;;
  new {| FeatureOptions.mimeType := mimeType;
         FeatureOptions.tokens := Some tokens;
         FeatureOptions.alternates := alternates;
         FeatureOptions.lang := lang;
         FeatureOptions.encoding := encoding;
         FeatureOptions.tokenSchema := tokenSchema |}.

(** [v as FeatureOptions] for decoded JSON *)
Definition as_FeatureOptions (v : json) : result FeatureOptions.t :=
  mimeType <- as_string (get_property v "mimeType") ;;
  tokens <- match get_property v "tokens" with
            | JUndefined => Ok None
            | JArr items => l <- mapM Token.as_TokenOptions items ;; Ok (Some l)
            | _ => IllTyped
            end ;;
  alternates <- match get_property v "alternates" with
                | JUndefined => Ok None
                | JArr alts =>
                    l <- mapM (fun alt => items <- as_array alt ;;
                                          mapM Token.as_TokenOptions items) alts ;;
                    Ok (Some l)
                | _ => IllTyped
                end ;;
  lang <- as_opt_string (get_property v "lang") ;;
  encoding <- as_opt_string (get_property v "encoding") ;;
  tokenSchema <- as_opt_string (get_property v "tokenSchema") ;;
  Ok {| FeatureOptions.mimeType := mimeType;
        FeatureOptions.tokens := tokens;
        FeatureOptions.alternates := alternates;
        FeatureOptions.lang := lang;
        FeatureOptions.encoding := encoding;
        FeatureOptions.tokenSchema := tokenSchema |}.

End WithHost.
End Feature.

Module DialogEventOptions.
Section WithHost.
Context `{Host}.
Record t : Type := {
  speakerUri : string;
  id : option string;
  span : option SpanOptions.t;
  features : option (list (string * FeatureOptions.t));
  previousId : option string;
  context : option string
}.
End WithHost.
End DialogEventOptions.

Module DialogEvent.
Section WithHost.
Context `{Host}.

(** [features] is a [Map]: an association list without repeated keys,
    in insertion order. *)
Record t : Type := {
  id : string;
  speakerUri : string;
  span : Span.t;
  features : list (string * Feature.t);
  previousId : option string;
  context : option string
}.

Definition new (options : DialogEventOptions.t) : result t :=
  if falsy (DialogEventOptions.id options) then Throw "DialogEvent.id is required"
  else if negb (str_truthy (DialogEventOptions.speakerUri options))
  then Throw "DialogEvent.speakerUri is required"
  else
    match DialogEventOptions.id options,
          DialogEventOptions.span options,
          DialogEventOptions.features options with
    | _, None, _ => Throw "DialogEvent.span is required"
    | _, _, None => Throw "DialogEvent.features is required"
    | None, _, _ => Throw "DialogEvent.id is required"
    | Some id, Some span, Some features =>
        sp <- Span.new span ;;
        fs <- mapM (fun kv => f <- Feature.new (snd kv) ;; Ok (fst kv, f)) features ;;
        Ok {| id := id;
              speakerUri := DialogEventOptions.speakerUri options;
              span := sp;
              features := fs;
              previousId := DialogEventOptions.previousId options;
              context := DialogEventOptions.context options |}
    end.

Definition toObject (e : t) : result json :=
  sp <- Span.toObject (span e) ;;
  fs <- mapM (fun kv => j <- Feature.toObject (snd kv) ;; Ok (fst kv, j)) (features e) ;;
  Ok (JObj ([("id", JStr (id e));
             ("speakerUri", JStr (speakerUri e));
             ("span", sp);
             ("features", JObj fs)]
            ++ member_truthy (previousId e) "previousId"
            ++ member_truthy (context e) "context")%list).

(** The filter of [fromObject]: objects whose [mimeType] is a string. *)
Definition is_feature_data (v : json) : bool :=
  truthy v && String.eqb (typeof v) "object"
  && String.eqb (typeof (get_property v "mimeType")) "string".

Definition fromObject (data : json) : result t :=
  dspeakerUri <- read_property data "speakerUri" ;;
  sp <- Span.fromObject (get_property data "span") ;;
  features <-
    match get_property data "features" with
    | JUndefined | JNull => Throw "Cannot convert undefined or null to object"
    | dfeatures =>
        mapM (fun kv =>
                f <- Feature.fromObject (snd kv) ;;
                j <- Feature.toObject f ;;
                o <- Feature.as_FeatureOptions j ;;
                Ok (fst kv, o))
             (filter (fun kv => is_feature_data (snd kv)) (Object_entries dfeatures))
    end ;;
  id <- as_opt_string (get_property data "id") ;;
  previousId <- as_opt_string (get_property data "previousId") ;;
  context <- as_opt_string (get_property data "context") ;;
  speakerUri <- as_string dspeakerUri ;;
  new {| DialogEventOptions.speakerUri := speakerUri;
         DialogEventOptions.id := id;
         DialogEventOptions.span := Some (Span.as_options sp);
         DialogEventOptions.features := Some features;
         DialogEventOptions.previousId := previousId;
         DialogEventOptions.context := context |}.

(** [v as DialogEventOptions] for decoded JSON *)
Definition as_DialogEventOptions (v : json) : result DialogEventOptions.t :=
  speakerUri <- as_string (get_property v "speakerUri") ;;
  id <- as_opt_string (get_property v "id") ;;
  span <- match get_property v "span" with
          | JUndefined => Ok None
          | s => o <- Span.as_SpanOptions s ;; Ok (Some o)
          end ;;
  features <- match get_property v "features" with
              | JUndefined => Ok None
              | JObj fields =>
                  l <- mapM (fun kv => o <- Feature.as_FeatureOptions (snd kv) ;;
                                       Ok (fst kv, o)) fields ;;
                  Ok (Some l)
              | _ => IllTyped
              end ;;
  previousId <- as_opt_string (get_property v "previousId") ;;
  context <- as_opt_string (get_property v "context") ;;
  Ok {| DialogEventOptions.speakerUri := speakerUri;
        DialogEventOptions.id := id;
        DialogEventOptions.span := span;
        DialogEventOptions.features := features;
        DialogEventOptions.previousId := previousId;
        DialogEventOptions.context := context |}.

End WithHost.
End DialogEvent.

(** ** envelope.ts *)

Module SchemaOptions.
Record t : Type := { version : string; url : option string }.
End SchemaOptions.

Module Schema.

Record t : Type := { version : string; url : option string }.

Definition new (options : SchemaOptions.t) : t :=
  {| version := SchemaOptions.version options; url := SchemaOptions.url options |}.

Definition toObject (s : t) : json :=
  JObj ([("version", JStr (version s))] ++ member_truthy (url s) "url")%list.

Definition fromObject (data : json) : result t :=
  if negb (Utils.hasRequiredProperties data ["version"])
  then Throw "Schema requires version"
  else
    version <- as_string (get_property data "version") ;;
    url <- as_opt_string (get_property data "url") ;;
    Ok (new {| SchemaOptions.version := version; SchemaOptions.url := url |}).

(** [{ version: s.version, ...(s.url ? { url: s.url } : {}) }] *)
Definition options_of (s : t) : SchemaOptions.t :=
  {| SchemaOptions.version := version s;
     SchemaOptions.url := if opt_truthy (url s) then url s else None |}.

End Schema.

Module IdentificationOptions.
Record t : Type := {
  speakerUri : string;
  serviceUrl : string;
  organization : string;
  conversationalName : string;
  synopsis : string;
  department : option string;
  role : option string
}.
End IdentificationOptions.

Module Identification.

Record t : Type := {
  speakerUri : string;
  serviceUrl : string;
  organization : option string;
  conversationalName : option string;
  department : option string;
  role : option string;
  synopsis : option string
}.

Definition required_fields : list string :=
  ["speakerUri"; "serviceUrl"; "organization"; "conversationalName"; "synopsis"].

Definition missing (field value : string) : string :=
  Utils.createValidationError ("Identification." ++ field)
    (Utils.got_string value) "non-empty string".

Definition new (options : IdentificationOptions.t) : result t :=
  let speakerUri := IdentificationOptions.speakerUri options in
  let serviceUrl := IdentificationOptions.serviceUrl options in
  let organization := IdentificationOptions.organization options in
  let conversationalName := IdentificationOptions.conversationalName options in
  let synopsis := IdentificationOptions.synopsis options in
  let department := IdentificationOptions.department options in
  let role := IdentificationOptions.role options in
  if negb (str_truthy speakerUri) then Throw (missing "speakerUri" speakerUri)
  else if negb (str_truthy serviceUrl) then Throw (missing "serviceUrl" serviceUrl)
  else if negb (str_truthy organization)
  then Throw (missing "organization" organization)
  else if negb (str_truthy conversationalName)
  then Throw (missing "conversationalName" conversationalName)
  else if negb (str_truthy synopsis) then Throw (missing "synopsis" synopsis)
  else Ok {| speakerUri := speakerUri;
             serviceUrl := serviceUrl;
             organization := Some organization;
             conversationalName := Some conversationalName;
             synopsis := Some synopsis;
             department := if opt_truthy department then department else None;
             role := if opt_truthy role then role else None |}.

Definition toObject (i : t) : json :=
  JObj ([("speakerUri", JStr (speakerUri i)); ("serviceUrl", JStr (serviceUrl i))]
        ++ member_truthy (organization i) "organization"
        ++ member_truthy (conversationalName i) "conversationalName"
        ++ member_truthy (department i) "department"
        ++ member_truthy (role i) "role"
        ++ member_truthy (synopsis i) "synopsis")%list.

(** The options literal built from a decoded identification:
    [{ speakerUri: idObj.speakerUri as string, ...,
       ...(idObj.department !== undefined ? { department: ... } : {}),
       ...(idObj.role !== undefined ? { role: ... } : {}) }] *)
Definition options_of_object (idObj : json) : result IdentificationOptions.t :=
  speakerUri <- as_string (get_property idObj "speakerUri") ;;
  serviceUrl <- as_string (get_property idObj "serviceUrl") ;;
  organization <- as_string (get_property idObj "organization") ;;
  conversationalName <- as_string (get_property idObj "conversationalName") ;;
  synopsis <- as_string (get_property idObj "synopsis") ;;
  department <- as_opt_string (get_property idObj "department") ;;
  role <- as_opt_string (get_property idObj "role") ;;
  Ok {| IdentificationOptions.speakerUri := speakerUri;
        IdentificationOptions.serviceUrl := serviceUrl;
        IdentificationOptions.organization := organization;
        IdentificationOptions.conversationalName := conversationalName;
        IdentificationOptions.synopsis := synopsis;
        IdentificationOptions.department := department;
        IdentificationOptions.role := role |}.

Definition fromObject (data : json) : result t :=
  if negb (Utils.hasRequiredProperties data required_fields)
  then Throw ("Identification requires speakerUri, serviceUrl, organization, "
              ++ "conversationalName, and synopsis")
  else o <- options_of_object data ;; new o.

End Identification.

Module SupportedLayersOptions.
Record t : Type := { input : option (list string); output : option (list string) }.
End SupportedLayersOptions.

Module SupportedLayers.

Record t : Type := { input : list string; output : list string }.

(** [options.input || ['text']]: an array is truthy. *)
Definition new (options : SupportedLayersOptions.t) : t :=
  {| input := match SupportedLayersOptions.input options with
              | Some l => l | None => ["text"] end;
     output := match SupportedLayersOptions.output options with
               | Some l => l | None => ["text"] end |}.

Definition toObject (s : t) : json :=
  JObj [("input", JStrings (input s)); ("output", JStrings (output s))].

(** [v as SupportedLayersOptions] for decoded JSON *)
Definition as_SupportedLayersOptions (v : json) : result SupportedLayersOptions.t :=
  match v with
  | JObj _ =>
      input <- as_opt_string_array (get_property v "input") ;;
      output <- as_opt_string_array (get_property v "output") ;;
      Ok {| SupportedLayersOptions.input := input;
            SupportedLayersOptions.output := output |}
  | _ => IllTyped
  end.

Definition fromObject (data : json) : result t :=
  dinput <- read_property data "input" ;;
  input <- as_opt_string_array dinput ;;
  output <- as_opt_string_array (get_property data "output") ;;
  Ok (new {| SupportedLayersOptions.input := input;
             SupportedLayersOptions.output := output |}).

End SupportedLayers.

Module CapabilityOptions.
Record t : Type := {
  keyphrases : list string;
  descriptions : list string;
  languages : option (list string);
  supportedLayers : option SupportedLayersOptions.t
}.
End CapabilityOptions.

Module Capability.

Record t : Type := {
  keyphrases : list string;
  descriptions : list string;
  languages : option (list string);
  supportedLayers : SupportedLayers.t
}.

Definition new (options : CapabilityOptions.t) : result t :=
  let keyphrases := CapabilityOptions.keyphrases options in
  let descriptions := CapabilityOptions.descriptions options in
  if (length keyphrases =? 0)%nat then
    Throw (Utils.createValidationError "Capability.keyphrases" "object"
             "non-empty array of strings")
  else if (length descriptions =? 0)%nat then
    Throw (Utils.createValidationError "Capability.descriptions" "object"
             "non-empty array of strings")
  else
    Ok {| keyphrases := keyphrases;
          descriptions := descriptions;
          languages := CapabilityOptions.languages options;
          supportedLayers :=
            match CapabilityOptions.supportedLayers options with
            | Some o => SupportedLayers.new o
            | None => SupportedLayers.new
                        {| SupportedLayersOptions.input := None;
                           SupportedLayersOptions.output := None |}
            end |}.

Definition toObject (c : t) : json :=
  JObj ([("keyphrases", JStrings (keyphrases c));
         ("descriptions", JStrings (descriptions c));
         ("supportedLayers", SupportedLayers.toObject (supportedLayers c))]
        ++ member_opt (languages c) "languages" JStrings)%list.

Definition fromObject (data : json) : result t :=
  if negb (Utils.hasRequiredProperties data ["keyphrases"; "descriptions"])
  then Throw "Capability requires keyphrases and descriptions"
  else
    keyphrases <- as_string_array (get_property data "keyphrases") ;;
    descriptions <- as_string_array (get_property data "descriptions") ;;
    languages <- as_opt_string_array (get_property data "languages") ;;
    supportedLayers <-
      match get_property data "supportedLayers" with
      | JUndefined => Ok None
      | v => s <- SupportedLayers.fromObject v ;;
             o <- SupportedLayers.as_SupportedLayersOptions (SupportedLayers.toObject s) ;;
             Ok (Some o)
      end ;;
    new {| CapabilityOptions.keyphrases := keyphrases;
           CapabilityOptions.descriptions := descriptions;
           CapabilityOptions.languages := languages;
           CapabilityOptions.supportedLayers := supportedLayers |}.

(** [v as CapabilityOptions] for decoded JSON *)
Definition as_CapabilityOptions (v : json) : result CapabilityOptions.t :=
  keyphrases <- as_string_array (get_property v "keyphrases") ;;
  descriptions <- as_string_array (get_property v "descriptions") ;;
  languages <- as_opt_string_array (get_property v "languages") ;;
  supportedLayers <-
    match get_property v "supportedLayers" with
    | JUndefined => Ok None
    | s => o <- SupportedLayers.as_SupportedLayersOptions s ;; Ok (Some o)
    end ;;
  Ok {| CapabilityOptions.keyphrases := keyphrases;
        CapabilityOptions.descriptions := descriptions;
        CapabilityOptions.languages := languages;
        CapabilityOptions.supportedLayers := supportedLayers |}.

(** The options literal that [Manifest.fromObject] builds from a decoded
    capability, [{ keyphrases: ..., descriptions: ..., ... } as
    CapabilityOptions] *)
Definition options_of_object (capObj : json) : result CapabilityOptions.t :=
  if negb (Utils.hasRequiredProperties capObj ["keyphrases"; "descriptions"])
  then Throw "Capability requires keyphrases and descriptions"
  else as_CapabilityOptions capObj.

End Capability.

Module ManifestOptions.
Record t : Type := {
  identification : IdentificationOptions.t;
  capabilities : list CapabilityOptions.t
}.
End ManifestOptions.

Module Manifest.

Record t : Type := {
  identification : Identification.t;
  capabilities : list Capability.t
}.

Definition new (options : ManifestOptions.t) : result t :=
  i <- Identification.new (ManifestOptions.identification options) ;;
  caps <- mapM Capability.new (ManifestOptions.capabilities options) ;;
  Ok {| identification := i; capabilities := caps |}.

Definition toObject (m : t) : json :=
  JObj [("identification", Identification.toObject (identification m));
        ("capabilities", JArr (map Capability.toObject (capabilities m)))].

(** The options that [fromObject] hands to the constructor *)
Definition options_of_object (data : json) : result ManifestOptions.t :=
  if negb (Utils.hasRequiredProperties data ["identification"; "capabilities"])
  then Throw "Manifest requires identification and capabilities"
  else
    let idObj := get_property data "identification" in
    if negb (Utils.hasRequiredProperties idObj Identification.required_fields)
    then Throw "Identification requires all required fields"
    else
      capabilitiesArr <-
        match get_property data "capabilities" with
        | JArr items => mapM Capability.options_of_object items
        | _ => Ok []
        end ;;
      i <- Identification.options_of_object idObj ;;
      Ok {| ManifestOptions.identification := i;
            ManifestOptions.capabilities := capabilitiesArr |}.

Definition fromObject (data : json) : result t :=
  o <- options_of_object data ;; new o.

(** [v as ManifestOptions] for decoded JSON *)
Definition as_ManifestOptions (v : json) : result ManifestOptions.t :=
  i <- Identification.options_of_object (get_property v "identification") ;;
  items <- as_array (get_property v "capabilities") ;;
  caps <- mapM Capability.as_CapabilityOptions items ;;
  Ok {| ManifestOptions.identification := i; ManifestOptions.capabilities := caps |}.

End Manifest.

Module ConversantOptions.
Record t : Type := {
  identification : IdentificationOptions.t;
  persistentState : option (list (string * json))
}.
End ConversantOptions.

Module Conversant.

Record t : Type := {
  identification : Identification.t;
  persistentState : list (string * json)
}.

Definition new (options : ConversantOptions.t) : result t :=
  i <- Identification.new (ConversantOptions.identification options) ;;
  Ok {| identification := i;
        persistentState :=
          match ConversantOptions.persistentState options with
          | Some s => s | None => [] end |}.

Definition toObject (c : t) : json :=
  JObj ([("identification", Identification.toObject (identification c))]
        ++ member_if (0 <? length (persistentState c))%nat
                     "persistentState" (JObj (persistentState c)))%list.

(** The options literal built from a decoded conversant whose
    identification was checked:
    [{ identification: {...},
       ...(obj.persistentState !== undefined ? { persistentState: ... } : {}) }] *)
Definition options_of_object (convObj : json) : result ConversantOptions.t :=
  i <- Identification.options_of_object (get_property convObj "identification") ;;
  persistentState <- as_opt_record (get_property convObj "persistentState") ;;
  Ok {| ConversantOptions.identification := i;
        ConversantOptions.persistentState := persistentState |}.

(** The block shared by [Conversant.fromObject] and
    [Conversation.fromObject] *)
Definition checked_options_of_object (convObj : json) : result ConversantOptions.t :=
  if negb (Utils.hasRequiredProperties convObj ["identification"])
  then Throw "Conversant requires identification"
  else if negb (Utils.hasRequiredProperties (get_property convObj "identification")
                  Identification.required_fields)
  then Throw "Identification requires all required fields"
  else options_of_object convObj.

Definition fromObject (data : json) : result t :=
  o <- checked_options_of_object data ;; new o.

(** The conversant options that [processEnvelope], [toPayload] and
    [Envelope.fromObject] rebuild from [c.toObject()] *)
Definition options_of (c : t) : result ConversantOptions.t :=
  let obj := toObject c in
  let idObj := get_property obj "identification" in
  if negb (truthy idObj) || negb (String.eqb (typeof idObj) "object")
     || negb (Utils.hasRequiredProperties idObj Identification.required_fields)
  then Throw "Conversant.identification is missing required fields"
  else options_of_object obj.

End Conversant.

Module ConversationOptions.
Record t : Type := {
  id : string;
  conversants : option (list ConversantOptions.t)
}.
End ConversationOptions.

Module Conversation.

Record t : Type := {
  id : string;
  conversants : list Conversant.t
}.

Definition new (options : ConversationOptions.t) : result t :=
  if negb (str_truthy (ConversationOptions.id options))
  then Throw "Conversation.id is required"
  else
    cs <- mapM Conversant.new
               (match ConversationOptions.conversants options with
                | Some l => l | None => [] end) ;;
    Ok {| id := ConversationOptions.id options; conversants := cs |}.

Definition toObject (c : t) : json :=
  JObj ([("id", JStr (id c))]
        ++ member_if (0 <? length (conversants c))%nat "conversants"
                     (JArr (map Conversant.toObject (conversants c))))%list.

Definition fromObject (data : json) : result t :=
  if negb (Utils.hasRequiredProperties data ["id"])
  then Throw "Conversation requires id"
  else
    conversantsArr <-
      match get_property data "conversants" with
      | JArr items =>
          l <- mapM Conversant.checked_options_of_object items ;; Ok (Some l)
      | _ => Ok None
      end ;;
    id <- as_string (get_property data "id") ;;
    new {| ConversationOptions.id := id;
           ConversationOptions.conversants := conversantsArr |}.

(** [{ id: c.id, ...(c.conversants && c.conversants.length > 0
       ? { conversants: c.conversants.map(...) } : {}) }] *)
Definition options_of (c : t) : result ConversationOptions.t :=
  cs <- (if (0 <? length (conversants c))%nat
         then l <- mapM Conversant.options_of (conversants c) ;; Ok (Some l)
         else Ok None) ;;
  Ok {| ConversationOptions.id := id c; ConversationOptions.conversants := cs |}.

End Conversation.

Module SenderOptions.
Record t : Type := { speakerUri : string; serviceUrl : option string }.
End SenderOptions.

Module Sender.

Record t : Type := { speakerUri : string; serviceUrl : option string }.

Definition new (options : SenderOptions.t) : result t :=
  let speakerUri := SenderOptions.speakerUri options in
  if negb (str_truthy speakerUri) then
    Throw (Utils.createValidationError "Sender.speakerUri"
             (Utils.got_string speakerUri) "non-empty string")
  else if negb (Utils.isValidUri speakerUri) then
    Throw (Utils.createValidationError "Sender.speakerUri"
             (Utils.got_string speakerUri) "valid URI format")
  else Ok {| speakerUri := speakerUri;
             serviceUrl := SenderOptions.serviceUrl options |}.

Definition toObject (s : t) : json :=
  JObj ([("speakerUri", JStr (speakerUri s))]
        ++ member_truthy (serviceUrl s) "serviceUrl")%list.

Definition fromObject (data : json) : result t :=
  if negb (Utils.hasRequiredProperties data ["speakerUri"])
  then Throw "Sender requires speakerUri"
  else
    speakerUri <- as_string (get_property data "speakerUri") ;;
    serviceUrl <- as_opt_string (get_property data "serviceUrl") ;;
    new {| SenderOptions.speakerUri := speakerUri;
           SenderOptions.serviceUrl := serviceUrl |}.

(** [{ speakerUri: s.speakerUri,
       ...(s.serviceUrl ? { serviceUrl: s.serviceUrl } : {}) }] *)
Definition options_of (s : t) : SenderOptions.t :=
  {| SenderOptions.speakerUri := speakerUri s;
     SenderOptions.serviceUrl :=
       if opt_truthy (serviceUrl s) then serviceUrl s else None |}.

End Sender.

Module ToOptions.
Record t : Type := {
  speakerUri : option string;
  serviceUrl : option string;
  private : option bool
}.
End ToOptions.

Module To.

Record t : Type := {
  speakerUri : option string;
  serviceUrl : option string;
  private : bool
}.

Definition new (options : ToOptions.t) : result t :=
  if falsy (ToOptions.speakerUri options) && falsy (ToOptions.serviceUrl options)
  then Throw "To requires at least speakerUri or serviceUrl"
  else Ok {| speakerUri := ToOptions.speakerUri options;
             serviceUrl := ToOptions.serviceUrl options;
             private := match ToOptions.private options with
                        | Some b => b | None => false end |}.

Definition toObject (t0 : t) : json :=
  JObj (member_truthy (speakerUri t0) "speakerUri"
        ++ member_truthy (serviceUrl t0) "serviceUrl"
        ++ member_if (private t0) "private" (JBool (private t0)))%list.

(** [v as ToOptions] for decoded JSON *)
Definition as_ToOptions (v : json) : result ToOptions.t :=
  speakerUri <- as_opt_string (get_property v "speakerUri") ;;
  serviceUrl <- as_opt_string (get_property v "serviceUrl") ;;
  private <- as_opt_boolean (get_property v "private") ;;
  Ok {| ToOptions.speakerUri := speakerUri;
        ToOptions.serviceUrl := serviceUrl;
        ToOptions.private := private |}.

Definition fromObject (data : json) : result t :=
  dspeakerUri <- read_property data "speakerUri" ;;
  if negb (truthy dspeakerUri) && negb (truthy (get_property data "serviceUrl"))
  then Throw "To requires at least speakerUri or serviceUrl"
  else o <- as_ToOptions data ;; new o.

(** [To.fromObject(data.to).toObject() as ToOptions] *)
Definition options_of_object (dto : json) : result ToOptions.t :=
  t0 <- fromObject dto ;; as_ToOptions (toObject t0).

End To.

Module BaseEventOptions.
Record t : Type := {
  eventType : string;
  to : option ToOptions.t;
  reason : option string;
  parameters : option (list (string * json))
}.
End BaseEventOptions.

Module Event.

Record t : Type := {
  eventType : string;
  to : option To.t;
  reason : option string;
  parameters : list (string * json)
}.

Definition allowedEventTypes : list string :=
  ["utterance"; "context"; "invite"; "uninvite"; "declineInvite"; "bye";
   "getManifests"; "publishManifests"; "requestFloor"; "grantFloor";
   "revokeFloor"; "yieldFloor"].

Definition includes (l : list string) (s : string) : bool :=
  existsb (String.eqb s) l.

Definition new (options : BaseEventOptions.t) : result t :=
  let eventType := BaseEventOptions.eventType options in
  if negb (str_truthy eventType) || negb (includes allowedEventTypes eventType)
  then Throw ("Invalid eventType: " ++ eventType)
  else
    to <- match BaseEventOptions.to options with
          | Some o => t0 <- To.new o ;; Ok (Some t0)
          | None => Ok None
          end ;;
    Ok {| eventType := eventType;
          to := to;
          reason := BaseEventOptions.reason options;
          parameters := match BaseEventOptions.parameters options with
                        | Some p => p | None => [] end |}.

Definition toObject (e : t) : json :=
  JObj ([("eventType", JStr (eventType e))]
        ++ member_opt (to e) "to" To.toObject
        ++ member_truthy (reason e) "reason"
        ++ member_if (0 <? length (parameters e))%nat
                     "parameters" (JObj (parameters e)))%list.

Definition fromObject (data : json) : result t :=
  if negb (Utils.hasRequiredProperties data ["eventType"])
  then Throw "Event requires eventType"
  else
    match get_property data "eventType" with
    | JStr eventTypeValue =>
        if negb (includes allowedEventTypes eventTypeValue)
        then Throw "Invalid eventType"
        else
          let dto := get_property data "to" in
          to <- (if truthy dto && String.eqb (typeof dto) "object"
                 then o <- To.options_of_object dto ;; Ok (Some o)
                 else Ok None) ;;
          reason <- as_opt_string (get_property data "reason") ;;
          parameters <- as_opt_record (get_property data "parameters") ;;
          new {| BaseEventOptions.eventType := eventTypeValue;
                 BaseEventOptions.to := to;
                 BaseEventOptions.reason := reason;
                 BaseEventOptions.parameters := parameters |}
    | _ => Throw "Invalid eventType"
    end.

(** [{ eventType: e.eventType, parameters: e.parameters }], then [to]
    and [reason] when truthy *)
Definition options_of (e : t) : result BaseEventOptions.t :=
  to <- match to e with
        | Some t0 => o <- To.as_ToOptions (To.toObject t0) ;; Ok (Some o)
        | None => Ok None
        end ;;
  Ok {| BaseEventOptions.eventType := eventType e;
        BaseEventOptions.parameters := Some (parameters e);
        BaseEventOptions.to := to;
        BaseEventOptions.reason :=
          if opt_truthy (reason e) then reason e else None |}.

End Event.

Module EnvelopeOptions.
Record t : Type := {
  schema : SchemaOptions.t;
  conversation : ConversationOptions.t;
  sender : SenderOptions.t;
  events : list BaseEventOptions.t
}.
End EnvelopeOptions.

Module Envelope.

Record t : Type := {
  schema : Schema.t;
  conversation : Conversation.t;
  sender : Sender.t;
  events : list Event.t
}.

Definition new (options : EnvelopeOptions.t) : result t :=
  let s := Schema.new (EnvelopeOptions.schema options) in
  c <- Conversation.new (EnvelopeOptions.conversation options) ;;
  sd <- Sender.new (EnvelopeOptions.sender options) ;;
  es <- mapM Event.new (EnvelopeOptions.events options) ;;
  Ok {| schema := s; conversation := c; sender := sd; events := es |}.

Definition toObject (e : t) : json :=
  JObj [("schema", Schema.toObject (schema e));
        ("conversation", Conversation.toObject (conversation e));
        ("sender", Sender.toObject (sender e));
        ("events", JArr (map Event.toObject (events e)))].

Definition fromObject (data : json) : result t :=
  if negb (Utils.hasRequiredProperties data
             ["schema"; "conversation"; "sender"; "events"])
  then Throw "Envelope requires schema, conversation, sender, and events"
  else
    schemaObj <- Schema.fromObject (get_property data "schema") ;;
    conversationObj <- Conversation.fromObject (get_property data "conversation") ;;
    senderObj <- Sender.fromObject (get_property data "sender") ;;
    eventsArr <- match get_property data "events" with
                 | JArr items => mapM Event.fromObject items
                 | _ => Ok []
                 end ;;
    conversation <- Conversation.options_of conversationObj ;;
    events <- mapM Event.options_of eventsArr ;;
    new {| EnvelopeOptions.schema := Schema.options_of schemaObj;
           EnvelopeOptions.conversation := conversation;
           EnvelopeOptions.sender := Sender.options_of senderObj;
           EnvelopeOptions.events := events |}.

End Envelope.

(** ** events.ts

    An instance of a subclass of [Event] is its [Event] part ([base])
    together with the members the subclass adds; the eight classes that
    add none are represented by their [Event] part. *)

(** The options [{ to?, reason? }] of the events without parameters *)
Module BareEventOptions.
Record t : Type := { to : option ToOptions.t; reason : option string }.
Definition empty : t := {| to := None; reason := None |}.
End BareEventOptions.

Module BareEvent.

(** [super({ eventType, parameters: {}, to?, reason? })] *)
Definition new (eventType : string) (options : BareEventOptions.t) : result Event.t :=
  Event.new {| BaseEventOptions.eventType := eventType;
               BaseEventOptions.parameters := Some [];
               BaseEventOptions.to := BareEventOptions.to options;
               BaseEventOptions.reason := BareEventOptions.reason options |}.

(** [if (data.to && typeof data.to === 'object') options.to = ...] *)
Definition to_of (data : json) : result (option ToOptions.t) :=
  dto <- read_property data "to" ;;
  if truthy dto && String.eqb (typeof dto) "object"
  then o <- To.options_of_object dto ;; Ok (Some o)
  else Ok None.

(** [if (typeof data.reason === 'string') options.reason = data.reason] *)
Definition reason_of (data : json) : option string :=
  match get_property data "reason" with JStr s => Some s | _ => None end.

Definition fromObject (eventType : string) (data : json) : result Event.t :=
  to <- to_of data ;;
  new eventType {| BareEventOptions.to := to;
                   BareEventOptions.reason := reason_of data |}.

End BareEvent.

Module InviteEvent.
Definition new := BareEvent.new "invite".
Definition fromObject := BareEvent.fromObject "invite".
End InviteEvent.

Module UninviteEvent.
Definition new := BareEvent.new "uninvite".
Definition fromObject := BareEvent.fromObject "uninvite".
End UninviteEvent.

Module DeclineInviteEvent.
Definition new := BareEvent.new "declineInvite".
Definition fromObject := BareEvent.fromObject "declineInvite".
End DeclineInviteEvent.

Module ByeEvent.
Definition new := BareEvent.new "bye".
Definition fromObject := BareEvent.fromObject "bye".
End ByeEvent.

Module RequestFloorEvent.
Definition new := BareEvent.new "requestFloor".
Definition fromObject := BareEvent.fromObject "requestFloor".
End RequestFloorEvent.

Module GrantFloorEvent.
Definition new := BareEvent.new "grantFloor".
Definition fromObject := BareEvent.fromObject "grantFloor".
End GrantFloorEvent.

Module RevokeFloorEvent.
Definition new := BareEvent.new "revokeFloor".
Definition fromObject := BareEvent.fromObject "revokeFloor".
End RevokeFloorEvent.

Module YieldFloorEvent.
Definition new := BareEvent.new "yieldFloor".
Definition fromObject := BareEvent.fromObject "yieldFloor".
End YieldFloorEvent.

Module UtteranceEventOptions.
Section WithHost.
Context `{Host}.
Record t : Type := {
  dialogEvent : DialogEventOptions.t;
  to : option ToOptions.t;
  reason : option string
}.
End WithHost.
End UtteranceEventOptions.

Module UtteranceEvent.
Section WithHost.
Context `{Host}.

Record t : Type := { base : Event.t; dialogEvent : DialogEvent.t }.

Definition new (options : UtteranceEventOptions.t) : result t :=
  dialogEventInstance <- DialogEvent.new (UtteranceEventOptions.dialogEvent options) ;;
  j <- DialogEvent.toObject dialogEventInstance ;;
  b <- Event.new {| BaseEventOptions.eventType := "utterance";
                    BaseEventOptions.parameters := Some [("dialogEvent", j)];
                    BaseEventOptions.to := UtteranceEventOptions.to options;
                    BaseEventOptions.reason := UtteranceEventOptions.reason options |} ;;
  Ok {| base := b; dialogEvent := dialogEventInstance |}.

Definition fromObject (data : json) : result t :=
  params <- read_property data "parameters" ;;
  if negb (truthy params) || negb (String.eqb (typeof params) "object")
  then Throw "UtteranceEvent requires parameters with dialogEvent"
  else
    let dde := get_property params "dialogEvent" in
    if negb (truthy dde) || negb (String.eqb (typeof dde) "object")
    then Throw "UtteranceEvent requires dialogEvent parameter"
    else
      de <- DialogEvent.fromObject dde ;;
      j <- DialogEvent.toObject de ;;
      reason <- as_opt_string (get_property data "reason") ;;
      to <- BareEvent.to_of data ;;
      dialogEvent <- DialogEvent.as_DialogEventOptions j ;;
      new {| UtteranceEventOptions.dialogEvent := dialogEvent;
             UtteranceEventOptions.to := to;
             UtteranceEventOptions.reason := reason |}.

End WithHost.
End UtteranceEvent.

Module ContextEventOptions.
Section WithHost.
Context `{Host}.
(** [additionalParams] are the members other than [dialogHistory],
    [to] and [reason]. *)
Record t : Type := {
  dialogHistory : option (list DialogEventOptions.t);
  to : option ToOptions.t;
  reason : option string;
  additionalParams : list (string * json)
}.
End WithHost.
End ContextEventOptions.

Module ContextEvent.
Section WithHost.
Context `{Host}.

Record t : Type := { base : Event.t; dialogHistory : list DialogEvent.t }.

Definition new (options : ContextEventOptions.t) : result t :=
  dialogHistoryInstance <-
    mapM DialogEvent.new
         (match ContextEventOptions.dialogHistory options with
          | Some l => l | None => [] end) ;;
  js <- mapM DialogEvent.toObject dialogHistoryInstance ;;
  b <- Event.new
         {| BaseEventOptions.eventType := "context";
            BaseEventOptions.parameters :=
              Some (("dialogHistory", JArr js)
                    :: ContextEventOptions.additionalParams options);
            BaseEventOptions.to := ContextEventOptions.to options;
            BaseEventOptions.reason := ContextEventOptions.reason options |} ;;
  Ok {| base := b; dialogHistory := dialogHistoryInstance |}.

Definition other_member (kv : string * json) : bool :=
  negb (String.eqb (fst kv) "dialogHistory" || String.eqb (fst kv) "to"
        || String.eqb (fst kv) "reason").

(** [{ dialogHistory: (params.dialogHistory || []).map(...), ...params }]:
    the members of [params] are written over the mapped history. *)
Definition fromObject (data : json) : result t :=
  dparams <- read_property data "parameters" ;;
  let params := if truthy dparams then dparams else JObj [] in
  let dhistory := get_property params "dialogHistory" in
  mapped <-
    (if truthy dhistory then
       items <- as_array dhistory ;;
       mapM (fun eventData =>
               de <- DialogEvent.fromObject eventData ;;
               j <- DialogEvent.toObject de ;;
               DialogEvent.as_DialogEventOptions j) items
     else Ok []) ;;
  dialogHistory <-
    (if has_property "dialogHistory" params then
       match dhistory with
       | JUndefined => Ok None
       | _ => items <- as_array dhistory ;;
              l <- mapM DialogEvent.as_DialogEventOptions items ;;
              Ok (Some l)
       end
     else Ok (Some mapped)) ;;
  reason <- match get_property data "reason" with
            | JStr s => Ok (Some s)
            | _ => as_opt_string (get_property params "reason")
            end ;;
  dto <- BareEvent.to_of data ;;
  to <- match dto with
        | Some o => Ok (Some o)
        | None => match get_property params "to" with
                  | JUndefined => Ok None
                  | v => o <- To.as_ToOptions v ;; Ok (Some o)
                  end
        end ;;
  new {| ContextEventOptions.dialogHistory := dialogHistory;
         ContextEventOptions.to := to;
         ContextEventOptions.reason := reason;
         ContextEventOptions.additionalParams :=
           filter other_member (Object_entries params) |}.

End WithHost.
End ContextEvent.

(** [RecommendScope] of [types.ts] *)
Inductive RecommendScope : Type := internal | external | all.

Definition RecommendScope_string (s : RecommendScope) : string :=
  match s with internal => "internal" | external => "external" | all => "all" end.

Definition as_RecommendScope (v : json) : result RecommendScope :=
  match v with
  | JStr s =>
      if String.eqb s "internal" then Ok internal
      else if String.eqb s "external" then Ok external
      else if String.eqb s "all" then Ok all
      else IllTyped
  | _ => IllTyped
  end.

Module GetManifestsEventOptions.
Record t : Type := {
  recommendScope : option RecommendScope;
  to : option ToOptions.t;
  reason : option string
}.
End GetManifestsEventOptions.

Module GetManifestsEvent.

Record t : Type := { base : Event.t; recommendScope : RecommendScope }.

Definition new (options : GetManifestsEventOptions.t) : result t :=
  let recommendScope :=
    match GetManifestsEventOptions.recommendScope options with
    | Some s => s | None => internal end in
  b <- Event.new
         {| BaseEventOptions.eventType := "getManifests";
            BaseEventOptions.parameters :=
              Some [("recommendScope", JStr (RecommendScope_string recommendScope))];
            BaseEventOptions.to := GetManifestsEventOptions.to options;
            BaseEventOptions.reason := GetManifestsEventOptions.reason options |} ;;
  Ok {| base := b; recommendScope := recommendScope |}.

(** [(data.parameters as any)?.recommendScope ?? 'internal'] *)
Definition fromObject (data : json) : result t :=
  dparams <- read_property data "parameters" ;;
  let dscope := match dparams with
                | JUndefined | JNull => JUndefined
                | _ => get_property dparams "recommendScope"
                end in
  recommendScope <- match dscope with
                    | JUndefined | JNull => Ok internal
                    | v => as_RecommendScope v
                    end ;;
  to <- BareEvent.to_of data ;;
  new {| GetManifestsEventOptions.recommendScope := Some recommendScope;
         GetManifestsEventOptions.to := to;
         GetManifestsEventOptions.reason := BareEvent.reason_of data |}.

End GetManifestsEvent.

Module PublishManifestsEventOptions.
Record t : Type := {
  servicingManifests : option (list ManifestOptions.t);
  discoveryManifests : option (list ManifestOptions.t);
  to : option ToOptions.t;
  reason : option string
}.
End PublishManifestsEventOptions.

Module PublishManifestsEvent.

Record t : Type := {
  base : Event.t;
  servicingManifests : list Manifest.t;
  discoveryManifests : list Manifest.t
}.

Definition new (options : PublishManifestsEventOptions.t) : result t :=
  servicingInstances <-
    mapM Manifest.new
         (match PublishManifestsEventOptions.servicingManifests options with
          | Some l => l | None => [] end) ;;
  discoveryInstances <-
    mapM Manifest.new
         (match PublishManifestsEventOptions.discoveryManifests options with
          | Some l => l | None => [] end) ;;
  b <- Event.new
         {| BaseEventOptions.eventType := "publishManifests";
            BaseEventOptions.parameters :=
              Some [("servicingManifests",
                     JArr (map Manifest.toObject servicingInstances));
                    ("discoveryManifests",
                     JArr (map Manifest.toObject discoveryInstances))];
            BaseEventOptions.to := PublishManifestsEventOptions.to options;
            BaseEventOptions.reason := PublishManifestsEventOptions.reason options |} ;;
  Ok {| base := b;
        servicingManifests := servicingInstances;
        discoveryManifests := discoveryInstances |}.

(** [Array.isArray(v) ? v : []], taken as [ManifestOptions[]] *)
Definition manifests_of (v : json) : result (list ManifestOptions.t) :=
  match v with
  | JArr items => mapM Manifest.as_ManifestOptions items
  | _ => Ok []
  end.

Definition fromObject (data : json) : result t :=
  dparams <- read_property data "parameters" ;;
  let params := if truthy dparams then dparams else JObj [] in
  servicing <- manifests_of (get_property params "servicingManifests") ;;
  discovery <- manifests_of (get_property params "discoveryManifests") ;;
  to <- BareEvent.to_of data ;;
  new {| PublishManifestsEventOptions.servicingManifests := Some servicing;
         PublishManifestsEventOptions.discoveryManifests := Some discovery;
         PublishManifestsEventOptions.to := to;
         PublishManifestsEventOptions.reason := BareEvent.reason_of data |}.

End PublishManifestsEvent.

Module Events.
Section WithHost.
Context `{Host}.

(** [createEvent(data)]: the instance built by the class of the tag,
    seen as an [Event]. *)
Definition createEvent (data : json) : result Event.t :=
  deventType <- read_property data "eventType" ;;
  match deventType with
  | JStr eventType =>
      if String.eqb eventType "utterance" then
        e <- UtteranceEvent.fromObject data ;; Ok (UtteranceEvent.base e)
      else if String.eqb eventType "context" then
        e <- ContextEvent.fromObject data ;; Ok (ContextEvent.base e)
      else if String.eqb eventType "invite" then InviteEvent.fromObject data
      else if String.eqb eventType "uninvite" then UninviteEvent.fromObject data
      else if String.eqb eventType "declineInvite"
      then DeclineInviteEvent.fromObject data
      else if String.eqb eventType "bye" then ByeEvent.fromObject data
      else if String.eqb eventType "getManifests" then
        e <- GetManifestsEvent.fromObject data ;; Ok (GetManifestsEvent.base e)
      else if String.eqb eventType "publishManifests" then
        e <- PublishManifestsEvent.fromObject data ;;
        Ok (PublishManifestsEvent.base e)
      else if String.eqb eventType "requestFloor"
      then RequestFloorEvent.fromObject data
      else if String.eqb eventType "grantFloor" then GrantFloorEvent.fromObject data
      else if String.eqb eventType "revokeFloor"
      then RevokeFloorEvent.fromObject data
      else if String.eqb eventType "yieldFloor" then YieldFloorEvent.fromObject data
      else Throw ("Unknown event type: " ++ eventType)
  | tag =>
      (* a tag that is not a string matches no case; the message prints it *)
      Throw ("Unknown event type: " ++ Validation.toString String_of_number tag)
  end.

(** The names that [events.ts] exports, classes first. *)
Definition exported_names : list string :=
  ["UtteranceEvent"; "ContextEvent"; "InviteEvent"; "UninviteEvent";
   "DeclineInviteEvent"; "ByeEvent"; "GetManifestsEvent";
   "PublishManifestsEvent"; "RequestFloorEvent"; "GrantFloorEvent";
   "RevokeFloorEvent"; "YieldFloorEvent"; "createEvent";
   "isUtteranceEvent"; "isContextEvent"; "isInviteEvent"; "isUninviteEvent";
   "isDeclineInviteEvent"; "isByeEvent"; "isGetManifestsEvent";
   "isPublishManifestsEvent"; "isRequestFloorEvent"; "isGrantFloorEvent";
   "isRevokeFloorEvent"; "isYieldFloorEvent"; "Event"].

(** The exported class of the given name that is constructed from
    publish-manifests options, if there is one. *)
Definition exported_manifests_class (name : string)
  : option (PublishManifestsEventOptions.t -> result PublishManifestsEvent.t) :=
  if existsb (String.eqb name) exported_names
     && String.eqb name "PublishManifestsEvent"
  then Some PublishManifestsEvent.new
  else None.

Definition isUtteranceEvent (e : Event.t) : bool :=
  String.eqb (Event.eventType e) "utterance".
Definition isContextEvent (e : Event.t) : bool :=
  String.eqb (Event.eventType e) "context".
Definition isInviteEvent (e : Event.t) : bool :=
  String.eqb (Event.eventType e) "invite".
Definition isUninviteEvent (e : Event.t) : bool :=
  String.eqb (Event.eventType e) "uninvite".
Definition isByeEvent (e : Event.t) : bool :=
  String.eqb (Event.eventType e) "bye".
Definition isGetManifestsEvent (e : Event.t) : bool :=
  String.eqb (Event.eventType e) "getManifests".
Definition isRequestFloorEvent (e : Event.t) : bool :=
  String.eqb (Event.eventType e) "requestFloor".
Definition isGrantFloorEvent (e : Event.t) : bool :=
  String.eqb (Event.eventType e) "grantFloor".
Definition isRevokeFloorEvent (e : Event.t) : bool :=
  String.eqb (Event.eventType e) "revokeFloor".

End WithHost.
End Events.

(** ** agents.ts

    A handler is a function of the agent object and of the outbound
    envelope, both of which it may assign to; what it leaves behind is
    kept when it throws.  [await f(...)] of a handler is the call of [f]
    run to completion. *)

Definition Step (S X : Type) : Type := S -> result X * S.

Definition sret {S X : Type} (x : X) : Step S X := fun s => (Ok x, s).

Definition sbind {S X Y : Type} (m : Step S X) (k : X -> Step S Y) : Step S Y :=
  fun s =>
    match m s with
    | (Ok x, s') => k x s'
    | (Throw e, s') => (Throw e, s')
    | (IllTyped, s') => (IllTyped, s')
    end.

Notation "x <~ m ;; k" := (sbind m (fun x => k))
  (at level 61, m at next level, right associativity).

(** A computation that touches no state *)
Definition lift {S X : Type} (r : result X) : Step S X := fun s => (r, s).

Definition modify {S : Type} (f : S -> S) : Step S unit := fun s => (Ok tt, f s).

(** [for (const x of l) await f(x)] *)
Fixpoint for_of {S A : Type} (f : A -> Step S unit) (l : list A) : Step S unit :=
  match l with
  | [] => sret tt
  | a :: l' => _ <~ f a ;; for_of f l'
  end.

(** The response envelope as an object: an [Envelope] instance, whose
    members the constructor has set and nothing assigns to afterwards
    ([events] is a readonly member holding a frozen array), and the
    property [_events], which is no member of the class and exists once
    a handler has assigned to it.  [toObject] reads [events]. *)
Module EnvelopeObject.

Record t : Type := {
  instance : Envelope.t;
  _events : option (list Event.t)
}.

(** The object that [new Envelope(...)] returns *)
Definition of_instance (e : Envelope.t) : t :=
  {| instance := e; _events := None |}.

(** [outEnvelope.events] *)
Definition events (o : t) : list Event.t := Envelope.events (instance o).

(** [outEnvelope.toObject()] *)
Definition toObject (o : t) : json := Envelope.toObject (instance o).

End EnvelopeObject.

Module OpenFloorAgent.
Section WithHost.
Context `{Host}.

(** [new Manifest(manifest)] of the constructor *)
Definition new (manifest : ManifestOptions.t) : result Manifest.t :=
  Manifest.new manifest.

Definition speakerUri (_manifest : Manifest.t) : string :=
  Identification.speakerUri (Manifest.identification _manifest).

Definition serviceUrl (_manifest : Manifest.t) : string :=
  Identification.serviceUrl (Manifest.identification _manifest).

(** The response envelope that [processEnvelope] creates: same schema
    and conversation, this agent as sender, no events. *)
Definition responseEnvelope (_manifest : Manifest.t) (inEnvelope : Envelope.t)
  : result Envelope.t :=
  conversation <- Conversation.options_of (Envelope.conversation inEnvelope) ;;
  Envelope.new
    {| EnvelopeOptions.schema := Schema.options_of (Envelope.schema inEnvelope);
       EnvelopeOptions.conversation := conversation;
       EnvelopeOptions.sender :=
         {| SenderOptions.speakerUri := speakerUri _manifest;
            SenderOptions.serviceUrl := Some (serviceUrl _manifest) |};
       EnvelopeOptions.events := [] |}.

(** [!event.to || event.to.speakerUri === this.speakerUri
     || event.to.serviceUrl === this.serviceUrl] *)
Definition addressedToMe (_manifest : Manifest.t) (event : Event.t) : bool :=
  match Event.to event with
  | None => true
  | Some to =>
      match To.speakerUri to with
      | Some u => String.eqb u (speakerUri _manifest)
      | None => false
      end
      || match To.serviceUrl to with
         | Some u => String.eqb u (serviceUrl _manifest)
         | None => false
         end
  end.

Definition addMetadata (_manifest : Manifest.t) (events : list Event.t)
  : list (Event.t * bool) :=
  map (fun event => (event, addressedToMe _manifest event)) events.

(** What [processEnvelope] leaves: the envelope it returns, as it is
    once the [onEnvelope] listener has run to completion, and the
    exception of the listener, which [dispatchEvent] does not hand to
    its caller.  The promise of [processEnvelope] resolves before the
    listener has finished; this is the state of affairs when it has,
    nothing else having used the agent meanwhile. *)
Record Processed : Type := {
  outEnvelope : EnvelopeObject.t;
  uncaught : option string
}.

(** [processEnvelope(inEnvelope)] of an agent whose [onEnvelope]
    listener is [listener]; [S] is the mutable part of the agent. *)
Definition processEnvelope {S : Type}
    (listener : Envelope.t -> Step (S * EnvelopeObject.t) unit)
    (_manifest : Manifest.t) (inEnvelope : Envelope.t) : Step S Processed :=
  fun agent =>
    match responseEnvelope _manifest inEnvelope with
    | Ok outEnvelope =>
        match listener inEnvelope
                (agent, EnvelopeObject.of_instance outEnvelope) with
        | (Ok _, (agent', out)) =>
            (Ok {| outEnvelope := out; uncaught := None |}, agent')
        | (Throw e, (agent', out)) =>
            (Ok {| outEnvelope := out; uncaught := Some e |}, agent')
        | (IllTyped, (agent', _)) => (IllTyped, agent')
        end
    | Throw e => (Throw e, agent)
    | IllTyped => (IllTyped, agent)
    end.

End WithHost.
End OpenFloorAgent.

(** [(outEnvelope as any)._events = [...outEnvelope.events, event]] *)
Definition append_event (event : Event.t) (outEnvelope : EnvelopeObject.t)
  : EnvelopeObject.t :=
  {| EnvelopeObject.instance := EnvelopeObject.instance outEnvelope;
     EnvelopeObject._events :=
       Some (EnvelopeObject.events outEnvelope ++ [event])%list |}.

Module BotAgent.
Section WithHost.
Context `{Host}.

(** The private members of a bot *)
Record t : Type := {
  _currentContext : list Event.t;
  _activeConversation : option Conversation.t;
  _hasFloor : bool
}.

(** The members as the field initialisers leave them *)
Definition initial : t :=
  {| _currentContext := []; _activeConversation := None; _hasFloor := false |}.

Definition set_currentContext (c : list Event.t) (b : t) : t :=
  {| _currentContext := c;
     _activeConversation := _activeConversation b;
     _hasFloor := _hasFloor b |}.

Definition set_activeConversation (c : option Conversation.t) (b : t) : t :=
  {| _currentContext := _currentContext b;
     _activeConversation := c;
     _hasFloor := _hasFloor b |}.

Definition set_hasFloor (f : bool) (b : t) : t :=
  {| _currentContext := _currentContext b;
     _activeConversation := _activeConversation b;
     _hasFloor := f |}.

(** Handlers run on the bot and on the outbound envelope. *)
Definition Handler : Type := Step (t * EnvelopeObject.t) unit.

Definition on_bot (f : t -> t) : Handler :=
  modify (fun s => (f (fst s), snd s)).

Definition on_out (f : EnvelopeObject.t -> EnvelopeObject.t) : Handler :=
  modify (fun s => (fst s, f (snd s))).

Variable _manifest : Manifest.t.

Definition _handleGrantFloor (event : Event.t) (inEnvelope : Envelope.t) : Handler :=
  on_bot (set_hasFloor true).

Definition _handleRevokeFloor (event : Event.t) (inEnvelope : Envelope.t) : Handler :=
  on_bot (set_hasFloor false).

Definition _handleInvite (event : Event.t) (inEnvelope : Envelope.t) : Handler :=
  c <~ lift (Conversation.new
               {| ConversationOptions.id :=
                    Conversation.id (Envelope.conversation inEnvelope);
                  ConversationOptions.conversants := None |}) ;;
  _ <~ on_bot (set_activeConversation (Some c)) ;;
  grant <~ lift (GrantFloorEvent.new
                   {| BareEventOptions.to := None;
                      BareEventOptions.reason :=
                        Some "Automatic floor grant as a result of invitation" |}) ;;
  _handleGrantFloor grant inEnvelope.

(** The options of the canned reply *)
Definition responseOptions : UtteranceEventOptions.t :=
  {| UtteranceEventOptions.dialogEvent :=
       {| DialogEventOptions.speakerUri := OpenFloorAgent.speakerUri _manifest;
          DialogEventOptions.id := None;
          DialogEventOptions.span := None;
          DialogEventOptions.features :=
            Some [("text",
                   {| FeatureOptions.mimeType := "text/plain";
                      FeatureOptions.tokens :=
                        Some [{| TokenOptions.value :=
                                   JStr ("Sorry! I'm a simple bot that has not "
                                         ++ "been programmed to do anything yet.");
                                 TokenOptions.valueUrl := None;
                                 TokenOptions.span := None;
                                 TokenOptions.confidence := None;
                                 TokenOptions.links := None |}];
                      FeatureOptions.alternates := None;
                      FeatureOptions.lang := None;
                      FeatureOptions.encoding := None;
                      FeatureOptions.tokenSchema := None |})];
          DialogEventOptions.previousId := None;
          DialogEventOptions.context := None |};
     UtteranceEventOptions.to := None;
     UtteranceEventOptions.reason := None |}.

Definition _handleUtterance (event : Event.t) (inEnvelope : Envelope.t) : Handler :=
  responseEvent <~ lift (UtteranceEvent.new responseOptions) ;;
  on_out (append_event (UtteranceEvent.base responseEvent)).

Definition _handleContext (event : Event.t) (inEnvelope : Envelope.t) : Handler :=
  on_bot (fun b => set_currentContext (_currentContext b ++ [event])%list b).

Definition _handleUninvite (event : Event.t) (inEnvelope : Envelope.t) : Handler :=
  _ <~ on_bot (set_activeConversation None) ;;
  on_bot (set_hasFloor false).

(** The binding of [import { PublishManifestEvent } from './events'] *)
Definition PublishManifestEvent
  : option (PublishManifestsEventOptions.t -> result PublishManifestsEvent.t) :=
  Events.exported_manifests_class "PublishManifestEvent".

(** [new C(options)] for an imported binding [C]; a binding that holds
    no class cannot be constructed: a TypeError. *)
Definition construct {O I : Type} (name : string) (C : option (O -> result I))
    (options : result O) : result I :=
  match C with
  | Some constructor => o <- options ;; constructor o
  | None => Throw (name ++ " is not a constructor")
  end.

(** [{ servicingManifests: [this._manifest.toObject() as any],
       discoveryManifests: [] }] *)
Definition publishOptions : result PublishManifestsEventOptions.t :=
  own <- Manifest.as_ManifestOptions (Manifest.toObject _manifest) ;;
  Ok {| PublishManifestsEventOptions.servicingManifests := Some [own];
        PublishManifestsEventOptions.discoveryManifests := Some [];
        PublishManifestsEventOptions.to := None;
        PublishManifestsEventOptions.reason := None |}.

Definition _handleGetManifests (event : Event.t) (inEnvelope : Envelope.t) : Handler :=
  responseEvent <~
    lift (construct "PublishManifestEvent" PublishManifestEvent publishOptions) ;;
  on_out (append_event (PublishManifestsEvent.base responseEvent)).

Definition _handleEvent (event : Event.t) (inEnvelope : Envelope.t) : Handler :=
  if Events.isInviteEvent event then _handleInvite event inEnvelope
  else if Events.isUtteranceEvent event then _handleUtterance event inEnvelope
  else if Events.isContextEvent event then _handleContext event inEnvelope
  else if Events.isUninviteEvent event then _handleUninvite event inEnvelope
  else if Events.isGrantFloorEvent event then _handleGrantFloor event inEnvelope
  else if Events.isRevokeFloorEvent event then _handleRevokeFloor event inEnvelope
  else if Events.isGetManifestsEvent event then _handleGetManifests event inEnvelope
  else sret tt.

(** [this._activeConversation &&
     this._activeConversation.id !== inEnvelope.conversation.id] *)
Definition conflict (b : t) (inEnvelope : Envelope.t) : bool :=
  match _activeConversation b with
  | Some c => negb (String.eqb (Conversation.id c)
                               (Conversation.id (Envelope.conversation inEnvelope)))
  | None => false
  end.

(** The events that the envelope handler hands to [_handleEvent] *)
Definition myEvents (inEnvelope : Envelope.t) : list Event.t :=
  map fst (filter (fun em => snd em)
                  (OpenFloorAgent.addMetadata _manifest (Envelope.events inEnvelope))).

Definition _handleEnvelope (inEnvelope : Envelope.t) : Handler :=
  _ <~ on_bot (set_currentContext []) ;;
  fun s =>
    if conflict (fst s) inEnvelope
    then (Throw "Bot is already in a different conversation", s)
    else for_of (fun eventObj => _handleEvent eventObj inEnvelope)
                (myEvents inEnvelope) s.

Definition processEnvelope (inEnvelope : Envelope.t)
  : Step t OpenFloorAgent.Processed :=
  OpenFloorAgent.processEnvelope _handleEnvelope _manifest inEnvelope.

End WithHost.
End BotAgent.

(** ** The listener of the bot as the event loop runs it

    [_handleEnvelope] is an async function, which [dispatchEvent] calls
    and whose promise it drops.  The call runs the function up to its
    first suspension: the context is cleared, the conflict is checked
    and, when the envelope holds an event for the bot, [_handleEvent] is
    called on the first one.  A handler makes its assignments at the
    call, before it suspends.  The loop hands over one more event each
    time it is resumed, and it ends when a handler throws.  What the
    program does between two turns of the loop, other calls of
    [processEnvelope] included, happens between them: [processEnvelope]
    resolves without waiting for the loop.

    [BotAgent._handleEnvelope] above is the run of one listener from
    its start to its end with nothing in between. *)
Module BotRun.
Section WithHost.
Context `{Host}.

Variable _manifest : Manifest.t.

(** A listener that was started: the envelope it serves, the response
    envelope it was given, the events that its loop has still to hand
    over, and the exception that ended it, if any. *)
Record Listener : Type := {
  inEnvelope : Envelope.t;
  outEnvelope : EnvelopeObject.t;
  remaining : list Event.t;
  outcome : result unit
}.

(** The bot and the listeners started so far, in the order of their
    calls *)
Record t : Type := {
  bot : BotAgent.t;
  listeners : list Listener
}.

(** One turn of the loop: [await this._handleEvent(eventObj, ...)] on
    the next event. *)
Definition turn (b : BotAgent.t) (l : Listener) : BotAgent.t * Listener :=
  match remaining l with
  | [] => (b, l)
  | eventObj :: rest =>
      match BotAgent._handleEvent _manifest eventObj (inEnvelope l)
              (b, outEnvelope l) with
      | (Ok _, (b', out)) =>
          (b', {| inEnvelope := inEnvelope l; outEnvelope := out;
                  remaining := rest; outcome := Ok tt |})
      | (r, (b', out)) =>
          (b', {| inEnvelope := inEnvelope l; outEnvelope := out;
                  remaining := []; outcome := r |})
      end
  end.

(** The call of the listener by [dispatchEvent] *)
Definition start (inEnvelope : Envelope.t) (out : EnvelopeObject.t)
    (b : BotAgent.t) : BotAgent.t * Listener :=
  let b := BotAgent.set_currentContext [] b in
  if BotAgent.conflict b inEnvelope
  then (b, {| inEnvelope := inEnvelope; outEnvelope := out; remaining := [];
              outcome := Throw "Bot is already in a different conversation" |})
  else turn b {| inEnvelope := inEnvelope; outEnvelope := out;
                 remaining := BotAgent.myEvents _manifest inEnvelope;
                 outcome := Ok tt |}.

(** What happens next: the program calls [processEnvelope], or the
    loop of the [k]-th listener is resumed. *)
Inductive Action : Type :=
| Submit (inEnvelope : Envelope.t)
| Resume (k : nat).

Fixpoint set_nth {A : Type} (k : nat) (x : A) (l : list A) : list A :=
  match l, k with
  | [], _ => []
  | _ :: l', O => x :: l'
  | a :: l', S k' => a :: set_nth k' x l'
  end.

(** [processEnvelope] starts no listener when it cannot build the
    response envelope. *)
Definition step (s : t) (a : Action) : t :=
  match a with
  | Submit inEnvelope =>
      match OpenFloorAgent.responseEnvelope _manifest inEnvelope with
      | Ok out =>
          let (b, l) := start inEnvelope (EnvelopeObject.of_instance out) (bot s) in
          {| bot := b; listeners := (listeners s ++ [l])%list |}
      | _ => s
      end
  | Resume k =>
      match nth_error (listeners s) k with
      | Some l =>
          let (b, l') := turn (bot s) l in
          {| bot := b; listeners := set_nth k l' (listeners s) |}
      | None => s
      end
  end.

Definition run (actions : list Action) (s : t) : t := fold_left step actions s.

End WithHost.
End BotRun.

Module FloorManager.
Section WithHost.
Context `{Host}.

(** The private members: a [Map] from speaker URI to manifest, in
    insertion order, and the current speaker. *)
Record t : Type := {
  _activeConversants : list (string * Manifest.t);
  _currentSpeaker : option string
}.

Definition initial : t := {| _activeConversants := []; _currentSpeaker := None |}.

(** [map.delete(key)] *)
Definition Map_delete {A : Type} (key : string) (m : list (string * A))
  : list (string * A) :=
  filter (fun kv => negb (String.eqb (fst kv) key)) m.

(** [map.set(key, value)]: a present key keeps its place. *)
Fixpoint Map_set {A : Type} (key : string) (value : A) (m : list (string * A))
  : list (string * A) :=
  match m with
  | [] => [(key, value)]
  | (k, v) :: m' =>
      if String.eqb k key then (k, value) :: m' else (k, v) :: Map_set key value m'
  end.

(** [this._currentSpeaker === uri] *)
Definition speaking (uri : string) (f : t) : bool :=
  match _currentSpeaker f with
  | Some u => String.eqb u uri
  | None => false
  end.

Definition removeConversant (speakerUri : string) (f : t) : t :=
  {| _activeConversants := Map_delete speakerUri (_activeConversants f);
     _currentSpeaker :=
       if speaking speakerUri f then None else _currentSpeaker f |}.

Definition addConversant (manifest : Manifest.t) (f : t) : t :=
  {| _activeConversants :=
       Map_set (OpenFloorAgent.speakerUri manifest) manifest (_activeConversants f);
     _currentSpeaker := _currentSpeaker f |}.

Definition set_currentSpeaker (u : option string) (f : t) : t :=
  {| _activeConversants := _activeConversants f; _currentSpeaker := u |}.

Definition activeConversants (f : t) : list string :=
  map fst (_activeConversants f).

Definition Handler : Type := Step (t * EnvelopeObject.t) unit.

Definition on_manager (g : t -> t) : Handler :=
  modify (fun s => (g (fst s), snd s)).

Definition on_out (g : EnvelopeObject.t -> EnvelopeObject.t) : Handler :=
  modify (fun s => (fst s, g (snd s))).

Definition _forwardEvent (event : Event.t) (inEnvelope : Envelope.t) : Handler :=
  let senderUri := Sender.speakerUri (Envelope.sender inEnvelope) in
  _ <~ (if Events.isByeEvent event then
          on_manager (removeConversant senderUri)
        else if Events.isRequestFloorEvent event then
          grantEvent <~
            lift (GrantFloorEvent.new
                    {| BareEventOptions.to :=
                         Some {| ToOptions.speakerUri := Some senderUri;
                                 ToOptions.serviceUrl := None;
                                 ToOptions.private := None |};
                       BareEventOptions.reason := None |}) ;;
          _ <~ on_out (append_event grantEvent) ;;
          on_manager (set_currentSpeaker (Some senderUri))
        else sret tt) ;;
  on_out (append_event event).

Definition _handleEnvelope (inEnvelope : Envelope.t) : Handler :=
  for_of (fun eventObj => _forwardEvent eventObj inEnvelope)
         (Envelope.events inEnvelope).

Definition processEnvelope (_manifest : Manifest.t) (inEnvelope : Envelope.t)
  : Step t OpenFloorAgent.Processed :=
  OpenFloorAgent.processEnvelope _handleEnvelope _manifest inEnvelope.

End WithHost.
End FloorManager.

(** * Vocabulary of the properties *)

(** A printed natural number: a non-empty run of decimal digits. *)
Definition digit_run (s : string) : Prop :=
  exists d, d <> Decimal.Nil /\ s = NilEmpty.string_of_uint d.

(** A printed duration: ["PT"], then the hour, minute and second parts
    that are present. *)
Definition duration_part (o : option string) (X : ascii) : string :=
  match o with
  | Some s => s ++ String X EmptyString
  | None => EmptyString
  end.

Definition run_or_absent (o : option string) : Prop :=
  match o with Some s => digit_run s | None => True end.

(** Places of a document, named as the validator names them: [located
    data path d] when the value [d] sits in [data] at the dotted path
    [path], as a member, own or inherited, of an object or as an
    element of an array. *)
Inductive located (data : jsvalue) : string -> jsvalue -> Prop :=
| located_root : located data "" data
| located_property (path name : string) (d v : jsvalue) :
    located data path d ->
    Validation.is_object d = true ->
    (in_operator name d = true /\ v = member d name)
    \/ (exists x, In (name, x) (entries_of d) /\ v = Decoded x) ->
    located data (Validation.prop_path path name) v
| located_item (path : string) (d : jsvalue) (elements : list json) (index : nat)
    (v : json) :
    located data path d ->
    elements_of d = Some elements ->
    nth_error elements index = Some v ->
    located data (Validation.item_path path index) (Decoded v).

(** A path-qualified error: [<path>: <message>] for a place of the
    validated document, [root] standing for the empty path. *)
Definition path_qualified (data : jsvalue) (e : string) : Prop :=
  exists path d message,
    located data path d /\ e = Validation.path_label path ++ ": " ++ message.

(** The character [c] occurs in [s]. *)
Fixpoint has_char (c : ascii) (s : string) : bool :=
  match s with
  | EmptyString => false
  | String a s' => Ascii.eqb a c || has_char c s'
  end.

(** The entry pushed when an exception is caught by [validate]. *)
Definition caught_entry (e : string) : Prop :=
  exists message, e = "Validation error: " ++ message.

(** A statement that only appends to the errors array, and appends
    entries that satisfy [Q]. *)
Definition appends {A : Type} (Q : string -> Prop) (m : Validation.V A) : Prop :=
  forall errs, exists new, snd (m errs) = (errs ++ new)%list /\ Forall Q new.

(** Number of constructors of a decoded value. *)
Fixpoint json_size (v : json) : nat :=
  match v with
  | JArr items => S (fold_right (fun x n => json_size x + n)%nat 0%nat items)
  | JObj fields => S (fold_right (fun kv n => json_size (snd kv) + n)%nat 0%nat fields)
  | _ => 1%nat
  end.

(** The recursive calls [rec] of a check are made on the member schemas of
    [schema], and append path-qualified entries. *)
Definition recursive_calls_append (data0 : jsvalue) (schema : json)
    (rec : json -> jsvalue -> string -> Validation.V unit) : Prop :=
  forall s d p,
    (json_size s < json_size schema)%nat -> located data0 p d ->
    appends (path_qualified data0) (rec s d p).

(** Stand-ins for the host functions, for closed examples: integral
    numbers are printed in decimal, [JSON.stringify] covers the values
    without escapes, and the expression engine accepts no pattern. *)
Definition integral_Number_print (q : Q) : string := Number_toString (Qfloor q).

Fixpoint plain_JSON_stringify (v : json) : string :=
  match v with
  | JUndefined => "undefined"
  | JNull => "null"
  | JBool true => "true"
  | JBool false => "false"
  | JNum q => integral_Number_print q
  | JStr s => dquote ++ s ++ dquote
  | JArr items => "[" ++ String.concat "," (map plain_JSON_stringify items) ++ "]"
  | JObj fields =>
      "{" ++ String.concat ","
               (map (fun kv => dquote ++ fst kv ++ dquote ++ ":"
                               ++ plain_JSON_stringify (snd kv)) fields)
          ++ "}"
  end.

Definition no_RegExp_new (pattern : string) : string + (string -> bool) :=
  inl ("Invalid regular expression: /" ++ pattern ++ "/").

Definition sample_validate : jsvalue -> json -> Validation.ValidationResult :=
  Validation.validate integral_Number_print plain_JSON_stringify no_RegExp_new.
(** The target of an event can be built: it names a speaker or a
    service. *)
Definition to_constructible (o : option ToOptions.t) : Prop :=
  match o with
  | None => True
  | Some t0 => opt_truthy (ToOptions.speakerUri t0) = true
               \/ opt_truthy (ToOptions.serviceUrl t0) = true
  end.


(** The target of event data can be built: [data.to] is no object, or
    it names a speaker or a service. *)
Definition target_named (data : json) : bool :=
  let dto := get_property data "to" in
  negb (truthy dto && String.eqb (typeof dto) "object")
  || truthy (get_property dto "speakerUri")
  || truthy (get_property dto "serviceUrl").

(** *** What the constructors establish *)

Definition absent_or_truthy (o : option string) : bool :=
  match o with None => true | Some s => str_truthy s end.

(** An optional string as [toObject] shows it: absent when falsy. *)
Definition shown (o : option string) : option string :=
  if opt_truthy o then o else None.

Definition Identification_wf (i : Identification.t) : bool :=
  str_truthy (Identification.speakerUri i)
  && str_truthy (Identification.serviceUrl i)
  && opt_truthy (Identification.organization i)
  && opt_truthy (Identification.conversationalName i)
  && opt_truthy (Identification.synopsis i)
  && absent_or_truthy (Identification.department i)
  && absent_or_truthy (Identification.role i).

Definition Capability_wf (c : Capability.t) : bool :=
  (0 <? length (Capability.keyphrases c))%nat
  && (0 <? length (Capability.descriptions c))%nat.

Definition Manifest_wf (m : Manifest.t) : bool :=
  Identification_wf (Manifest.identification m)
  && forallb Capability_wf (Manifest.capabilities m).

Definition Conversant_wf (c : Conversant.t) : bool :=
  Identification_wf (Conversant.identification c).

Definition Conversation_wf (c : Conversation.t) : bool :=
  str_truthy (Conversation.id c) && forallb Conversant_wf (Conversation.conversants c).

Definition Sender_wf (s : Sender.t) : bool :=
  str_truthy (Sender.speakerUri s) && Utils.isValidUri (Sender.speakerUri s).

Definition To_wf (t0 : To.t) : bool :=
  opt_truthy (To.speakerUri t0) || opt_truthy (To.serviceUrl t0).

Definition Event_wf (e : Event.t) : bool :=
  Event.includes Event.allowedEventTypes (Event.eventType e)
  && match Event.to e with Some t0 => To_wf t0 | None => true end.

Definition Envelope_wf (e : Envelope.t) : bool :=
  Conversation_wf (Envelope.conversation e)
  && Sender_wf (Envelope.sender e)
  && forallb Event_wf (Envelope.events e).

(** *** The instance that [fromObject] rebuilds from a projection *)

Definition Schema_shown (s : Schema.t) : Schema.t :=
  {| Schema.version := Schema.version s; Schema.url := shown (Schema.url s) |}.

Definition Sender_shown (s : Sender.t) : Sender.t :=
  {| Sender.speakerUri := Sender.speakerUri s;
     Sender.serviceUrl := shown (Sender.serviceUrl s) |}.

Definition To_shown (t0 : To.t) : To.t :=
  {| To.speakerUri := shown (To.speakerUri t0);
     To.serviceUrl := shown (To.serviceUrl t0);
     To.private := To.private t0 |}.

Definition Event_shown (e : Event.t) : Event.t :=
  {| Event.eventType := Event.eventType e;
     Event.to := option_map To_shown (Event.to e);
     Event.reason := shown (Event.reason e);
     Event.parameters := Event.parameters e |}.

Definition Envelope_shown (e : Envelope.t) : Envelope.t :=
  {| Envelope.schema := Schema_shown (Envelope.schema e);
     Envelope.conversation := Envelope.conversation e;
     Envelope.sender := Sender_shown (Envelope.sender e);
     Envelope.events := map Event_shown (Envelope.events e) |}.

(** The options literal that the [fromObject] operations build from the
    projection of an identification. *)
Definition Identification_options (i : Identification.t) : IdentificationOptions.t :=
  {| IdentificationOptions.speakerUri := Identification.speakerUri i;
     IdentificationOptions.serviceUrl := Identification.serviceUrl i;
     IdentificationOptions.organization :=
       match Identification.organization i with Some s => s | None => "" end;
     IdentificationOptions.conversationalName :=
       match Identification.conversationalName i with Some s => s | None => "" end;
     IdentificationOptions.synopsis :=
       match Identification.synopsis i with Some s => s | None => "" end;
     IdentificationOptions.department := Identification.department i;
     IdentificationOptions.role := Identification.role i |}.


Definition Capability_options (c : Capability.t) : CapabilityOptions.t :=
  {| CapabilityOptions.keyphrases := Capability.keyphrases c;
     CapabilityOptions.descriptions := Capability.descriptions c;
     CapabilityOptions.languages := Capability.languages c;
     CapabilityOptions.supportedLayers :=
       Some {| SupportedLayersOptions.input :=
                 Some (SupportedLayers.input (Capability.supportedLayers c));
               SupportedLayersOptions.output :=
                 Some (SupportedLayers.output (Capability.supportedLayers c)) |} |}.

Definition Manifest_options (m : Manifest.t) : ManifestOptions.t :=
  {| ManifestOptions.identification := Identification_options (Manifest.identification m);
     ManifestOptions.capabilities := map Capability_options (Manifest.capabilities m) |}.

Definition Conversant_options (c : Conversant.t) : ConversantOptions.t :=
  {| ConversantOptions.identification :=
       Identification_options (Conversant.identification c);
     ConversantOptions.persistentState :=
       if (0 <? length (Conversant.persistentState c))%nat
       then Some (Conversant.persistentState c) else None |}.

Definition To_options (t0 : To.t) : ToOptions.t :=
  {| ToOptions.speakerUri := shown (To.speakerUri t0);
     ToOptions.serviceUrl := shown (To.serviceUrl t0);
     ToOptions.private := if To.private t0 then Some true else None |}.

Definition Conversation_options (c : Conversation.t) : ConversationOptions.t :=
  {| ConversationOptions.id := Conversation.id c;
     ConversationOptions.conversants :=
       if (0 <? length (Conversation.conversants c))%nat
       then Some (map Conversant_options (Conversation.conversants c)) else None |}.

Definition Event_options (e : Event.t) : BaseEventOptions.t :=
  {| BaseEventOptions.eventType := Event.eventType e;
     BaseEventOptions.to := option_map To_options (Event.to e);
     BaseEventOptions.reason := shown (Event.reason e);
     BaseEventOptions.parameters := Some (Event.parameters e) |}.

(** *** Dialog events *)

Section DialogVocabulary.

Context `{Host}.

Definition nonnegative (o : option Q) : Prop :=
  match o with Some q => (0 <= q)%Q | None => True end.

(** A span as the constructor leaves it: one start, at most one end. *)
Definition Span_wf (s : Span.t) : bool :=
  match Span.startTime s, Span.startOffset s with
  | Some _, None | None, Some _ => true
  | _, _ => false
  end
  && match Span.endTime s, Span.endOffset s with
     | Some _, Some _ => false
     | _, _ => true
     end.

Definition Span_nonnegative (s : Span.t) : Prop :=
  nonnegative (Span.startOffset s) /\ nonnegative (Span.endOffset s).

(** An offset, when present, lies between 0 and 2^53 milliseconds: the
    range in which the code computes and prints durations exactly. *)
Definition offset_in_range (o : option Q) : Prop :=
  match o with
  | Some q => (0 <= q)%Q /\ (q <= inject_Z (2 ^ 53))%Q
  | None => True
  end.

Definition Span_in_range (s : Span.t) : Prop :=
  offset_in_range (Span.startOffset s) /\ offset_in_range (Span.endOffset s).

(** The value of an optional part of a duration *)
Definition part_value (o : option Z) : Z :=
  match o with Some z => z | None => 0%Z end.

(** A token as the constructor leaves it: a value or a URL, and a
    confidence within bounds. *)
Definition Token_wf (tk : Token.t) : bool :=
  (if is_undefined (Token.value tk) then opt_truthy (Token.valueUrl tk)
   else negb (opt_truthy (Token.valueUrl tk)))
  && match Token.confidence tk with
     | Some c => Utils.isValidConfidence c
     | None => true
     end.

Definition Token_spanless (tk : Token.t) : bool :=
  match Token.span tk with None => true | Some _ => false end.

Definition Token_shown (tk : Token.t) : Token.t :=
  {| Token.value := Token.value tk;
     Token.valueUrl := shown (Token.valueUrl tk);
     Token.span := Token.span tk;
     Token.confidence := Token.confidence tk;
     Token.links := Token.links tk |}.

Definition Token_options (tk : Token.t) : TokenOptions.t :=
  {| TokenOptions.value := Token.value tk;
     TokenOptions.valueUrl := shown (Token.valueUrl tk);
     TokenOptions.span := None;
     TokenOptions.confidence := Token.confidence tk;
     TokenOptions.links :=
       if (0 <? length (Token.links tk))%nat then Some (Token.links tk) else None |}.

(** The projection of a token without span *)
Definition Token_object (tk : Token.t) : json :=
  JObj (member_if (negb (is_undefined (Token.value tk))) "value" (Token.value tk)
        ++ member_truthy (Token.valueUrl tk) "valueUrl"
        ++ member_opt (Token.confidence tk) "confidence" JNum
        ++ member_if (0 <? length (Token.links tk))%nat "links"
                     (JStrings (Token.links tk)))%list.

Definition Feature_wf (f : Feature.t) : bool :=
  str_truthy (Feature.mimeType f)
  && forallb Token_wf (Feature.tokens f)
  && forallb (forallb Token_wf) (Feature.alternates f)
  && match Feature.encoding f with
     | Some e => negb (str_truthy e) || Utils.isValidEncoding e
     | None => true
     end.

Definition Feature_spanless (f : Feature.t) : bool :=
  forallb Token_spanless (Feature.tokens f)
  && forallb (forallb Token_spanless) (Feature.alternates f).

Definition Feature_shown (f : Feature.t) : Feature.t :=
  {| Feature.mimeType := Feature.mimeType f;
     Feature.tokens := map Token_shown (Feature.tokens f);
     Feature.alternates := map (map Token_shown) (Feature.alternates f);
     Feature.lang := shown (Feature.lang f);
     Feature.encoding := shown (Feature.encoding f);
     Feature.tokenSchema := shown (Feature.tokenSchema f) |}.

Definition Feature_options (f : Feature.t) : FeatureOptions.t :=
  {| FeatureOptions.mimeType := Feature.mimeType f;
     FeatureOptions.tokens := Some (map Token_options (Feature.tokens f));
     FeatureOptions.alternates :=
       if (0 <? length (Feature.alternates f))%nat
       then Some (map (map Token_options) (Feature.alternates f)) else None;
     FeatureOptions.lang := shown (Feature.lang f);
     FeatureOptions.encoding := shown (Feature.encoding f);
     FeatureOptions.tokenSchema := shown (Feature.tokenSchema f) |}.

(** The projection of a feature whose tokens have no span *)
Definition Feature_object (f : Feature.t) : json :=
  JObj ([("mimeType", JStr (Feature.mimeType f));
         ("tokens", JArr (map Token_object (Feature.tokens f)))]
        ++ member_if (0 <? length (Feature.alternates f))%nat "alternates"
                     (JArr (map (fun alt => JArr (map Token_object alt))
                                (Feature.alternates f)))
        ++ member_truthy (Feature.lang f) "lang"
        ++ member_truthy (Feature.encoding f) "encoding"
        ++ member_truthy (Feature.tokenSchema f) "tokenSchema")%list.

Definition DialogEvent_wf (e : DialogEvent.t) : bool :=
  str_truthy (DialogEvent.id e)
  && str_truthy (DialogEvent.speakerUri e)
  && Span_wf (DialogEvent.span e)
  && forallb (fun kv => Feature_wf (snd kv)) (DialogEvent.features e).

(** No token of the dialog event carries a span of its own. *)
Definition DialogEvent_spanless (e : DialogEvent.t) : bool :=
  forallb (fun kv => Feature_spanless (snd kv)) (DialogEvent.features e).

End DialogVocabulary.

(** ** Sample values

    A host that keeps a date as its ISO 8601 text, and prints
    integral numbers. *)
Definition text_dates : Host :=
  {| Date := string;
     Date_toISOString := fun d => Ok d;
     Date_new := fun s => s;
     Date_now := "2025-01-01T00:00:00.000Z";
     String_of_number := integral_Number_print |}.

Definition sample_token_options : @TokenOptions.t text_dates :=
  {| TokenOptions.value := JStr "hello";
     TokenOptions.valueUrl := None;
     TokenOptions.span := None;
     TokenOptions.confidence := Some (9 # 10)%Q;
     TokenOptions.links := None |}.

Definition sample_feature_options : @FeatureOptions.t text_dates :=
  {| FeatureOptions.mimeType := "text/plain";
     FeatureOptions.tokens := Some [sample_token_options];
     FeatureOptions.alternates := None;
     FeatureOptions.lang := Some "en";
     FeatureOptions.encoding := Some "utf-8";
     FeatureOptions.tokenSchema := None |}.

(** A dialog event whose span starts [startOffset] milliseconds in. *)
Definition sample_dialog_options (startOffset : Q) : @DialogEventOptions.t text_dates :=
  {| DialogEventOptions.speakerUri := "tag:example.com,2025:user1";
     DialogEventOptions.id := Some "de:1";
     DialogEventOptions.span :=
       Some {| SpanOptions.startTime := None;
               SpanOptions.startOffset := Some startOffset;
               SpanOptions.endTime := None;
               SpanOptions.endOffset := None |};
     DialogEventOptions.features := Some [("text", sample_feature_options)];
     DialogEventOptions.previousId := None;
     DialogEventOptions.context := None |}.

Definition sample_identification_options : IdentificationOptions.t :=
  {| IdentificationOptions.speakerUri := "tag:example.com,2025:bot1";
     IdentificationOptions.serviceUrl := "https://example.com/bot1";
     IdentificationOptions.organization := "Example";
     IdentificationOptions.conversationalName := "Bot";
     IdentificationOptions.synopsis := "A sample agent";
     IdentificationOptions.department := None;
     IdentificationOptions.role := None |}.

Definition sample_manifest_options : ManifestOptions.t :=
  {| ManifestOptions.identification := sample_identification_options;
     ManifestOptions.capabilities :=
       [ {| CapabilityOptions.keyphrases := ["weather"];
            CapabilityOptions.descriptions := ["Tells the weather"];
            CapabilityOptions.languages := None;
            CapabilityOptions.supportedLayers := None |} ] |}.

Definition sample_event_options (eventType : string) : BaseEventOptions.t :=
  {| BaseEventOptions.eventType := eventType;
     BaseEventOptions.to :=
       Some {| ToOptions.speakerUri := Some "tag:example.com,2025:bot1";
               ToOptions.serviceUrl := None;
               ToOptions.private := None |};
     BaseEventOptions.reason := None;
     BaseEventOptions.parameters := None |}.

Definition sample_envelope_options (conversation : string)
    (events : list BaseEventOptions.t) : EnvelopeOptions.t :=
  {| EnvelopeOptions.schema :=
       {| SchemaOptions.version := "1.0.0"; SchemaOptions.url := None |};
     EnvelopeOptions.conversation :=
       {| ConversationOptions.id := conversation;
          ConversationOptions.conversants := None |};
     EnvelopeOptions.sender :=
       {| SenderOptions.speakerUri := "tag:example.com,2025:user1";
          SenderOptions.serviceUrl := None |};
     EnvelopeOptions.events := events |}.

Definition sample_manifest : Manifest.t :=
  {| Manifest.identification :=
       {| Identification.speakerUri := "tag:example.com,2025:bot1";
          Identification.serviceUrl := "https://example.com/bot1";
          Identification.organization := Some "Example";
          Identification.conversationalName := Some "Bot";
          Identification.department := None;
          Identification.role := None;
          Identification.synopsis := Some "A sample agent" |};
     Manifest.capabilities := [] |}.

Definition sample_event (eventType : string) (to : option To.t) : Event.t :=
  {| Event.eventType := eventType;
     Event.to := to;
     Event.reason := None;
     Event.parameters := [] |}.

Definition to_speaker (speakerUri : string) : To.t :=
  {| To.speakerUri := Some speakerUri; To.serviceUrl := None; To.private := false |}.

Definition sample_envelope (conversation : string) (events : list Event.t)
  : Envelope.t :=
  {| Envelope.schema := {| Schema.version := "1.0.0"; Schema.url := None |};
     Envelope.conversation :=
       {| Conversation.id := conversation; Conversation.conversants := [] |};
     Envelope.sender :=
       {| Sender.speakerUri := "tag:example.com,2025:user1";
          Sender.serviceUrl := None |};
     Envelope.events := events |}.

(** ** Vocabulary of the agent properties *)

(** The grant that the floor manager makes up for a request of [senderUri] *)
Definition grant_to (senderUri : string) : Event.t :=
  {| Event.eventType := "grantFloor";
     Event.to := Some (to_speaker senderUri);
     Event.reason := None;
     Event.parameters := [] |}.

(** The last element of a list, if there is one *)
Definition final_event (l : list Event.t) : option Event.t :=
  fold_left (fun _ e => Some e) l None.



(** The floor manager after it has forwarded one inbound event *)
Definition floor_after (inEnvelope : Envelope.t) (f : FloorManager.t)
    (event : Event.t) : FloorManager.t :=
  let senderUri := Sender.speakerUri (Envelope.sender inEnvelope) in
  if Events.isByeEvent event then FloorManager.removeConversant senderUri f
  else if Events.isRequestFloorEvent event
       then FloorManager.set_currentSpeaker (Some senderUri) f
       else f.

(** *** The bot and its listeners *)

Section BotVocabulary.

Context `{Host}.




(** No listener has an event left to hand over. *)
Definition quiescent (s : BotRun.t) : Prop :=
  Forall (fun l => BotRun.remaining l = []) (BotRun.listeners s).

(** [n] turns of the loop of a listener *)
Fixpoint turns (_manifest : Manifest.t) (n : nat) (x : BotAgent.t * BotRun.Listener)
  : BotAgent.t * BotRun.Listener :=
  match n with
  | O => x
  | S n' => turns _manifest n' (BotRun.turn _manifest (fst x) (snd x))
  end.

End BotVocabulary.

(** * Further parts of the library *)

(** ** dialog-event.ts: [TextFeature] *)

(** [TextFeatureOptions]: the options of a feature without [mimeType],
    and [values]; the optional [mimeType] of the interface has the
    single value ['text/plain'], which is also its default. *)
Module TextFeatureOptions.
Section WithHost.
Context `{Host}.
Record t : Type := {
  values : option (list string);
  tokens : option (list TokenOptions.t);
  alternates : option (list (list TokenOptions.t));
  lang : option string;
  encoding : option string;
  tokenSchema : option string
}.
End WithHost.
End TextFeatureOptions.

Module TextFeature.
Section WithHost.
Context `{Host}.

(** [{ value }] *)
Definition value_token (value : string) : TokenOptions.t :=
  {| TokenOptions.value := JStr value;
     TokenOptions.valueUrl := None;
     TokenOptions.span := None;
     TokenOptions.confidence := None;
     TokenOptions.links := None |}.

(** [super({ mimeType, tokens, ...rest })]: the members of [rest], among
    them [tokens] when the options have it, are written over [tokens]. *)
Definition new (options : TextFeatureOptions.t) : result Feature.t :=
  let mimeType := "text/plain" in
  let tokens :=
    match TextFeatureOptions.values options with
    | Some values => map value_token values
    | None => match TextFeatureOptions.tokens options with
              | Some l => l
              | None => []
              end
    end in
  Feature.new
    {| FeatureOptions.mimeType := mimeType;
       FeatureOptions.tokens :=
         match TextFeatureOptions.tokens options with
         | Some l => Some l
         | None => Some tokens
         end;
       FeatureOptions.alternates := TextFeatureOptions.alternates options;
       FeatureOptions.lang := TextFeatureOptions.lang options;
       FeatureOptions.encoding := TextFeatureOptions.encoding options;
       FeatureOptions.tokenSchema := TextFeatureOptions.tokenSchema options |}.

End WithHost.
End TextFeature.

(** ** envelope.ts: [Payload] and [Envelope.toPayload] *)

Module PayloadOptions.
Record t : Type := { openFloor : EnvelopeOptions.t }.
End PayloadOptions.

Module Payload.

Record t : Type := { openFloor : Envelope.t }.

Definition new (options : PayloadOptions.t) : result t :=
  e <- Envelope.new (PayloadOptions.openFloor options) ;;
  Ok {| openFloor := e |}.

Definition toObject (p : t) : json :=
  JObj [("openFloor", Envelope.toObject (openFloor p))].

(** The options literal that [toPayload] and [Payload.fromObject] build
    from an [Envelope] instance *)
Definition options_of (e : Envelope.t) : result PayloadOptions.t :=
  conversation <- Conversation.options_of (Envelope.conversation e) ;;
  events <- mapM Event.options_of (Envelope.events e) ;;
  Ok {| PayloadOptions.openFloor :=
          {| EnvelopeOptions.schema := Schema.options_of (Envelope.schema e);
             EnvelopeOptions.conversation := conversation;
             EnvelopeOptions.sender := Sender.options_of (Envelope.sender e);
             EnvelopeOptions.events := events |} |}.

(** [envelope.toPayload()] *)
Definition of_envelope (e : Envelope.t) : result t :=
  o <- options_of e ;; new o.

Definition fromObject (data : json) : result t :=
  if negb (Utils.hasRequiredProperties data ["openFloor"])
  then Throw "Payload requires openFloor"
  else
    openFloorObj <- Envelope.fromObject (get_property data "openFloor") ;;
    o <- options_of openFloorObj ;;
    new o.

Section WithParser.

(** [JSON.parse] of the host: the decoded value, or the message of
    the SyntaxError it throws. *)
Variable JSON_parse : string -> result json.

(** [Payload.fromJSON(jsonString)]: whatever is thrown inside the
    [try] block is thrown again under one message. *)
Definition fromJSON (jsonString : string) : result t :=
  match (data <- JSON_parse jsonString ;; fromObject data) with
  | Ok p => Ok p
  | Throw message => Throw ("Failed to parse JSON payload: " ++ message)
  | IllTyped => IllTyped
  end.

End WithParser.

End Payload.

(** ** events.ts: the remaining type guards *)

Module EventGuards.

Definition isDeclineInviteEvent (e : Event.t) : bool :=
  String.eqb (Event.eventType e) "declineInvite".
Definition isPublishManifestsEvent (e : Event.t) : bool :=
  String.eqb (Event.eventType e) "publishManifests".
Definition isYieldFloorEvent (e : Event.t) : bool :=
  String.eqb (Event.eventType e) "yieldFloor".

(** The twelve type guards of [events.ts], in the order of the file *)
Definition all : list (Event.t -> bool) :=
  [Events.isUtteranceEvent; Events.isContextEvent; Events.isInviteEvent;
   Events.isUninviteEvent; isDeclineInviteEvent; Events.isByeEvent;
   Events.isGetManifestsEvent; isPublishManifestsEvent;
   Events.isRequestFloorEvent; Events.isGrantFloorEvent;
   Events.isRevokeFloorEvent; isYieldFloorEvent].

End EventGuards.

(** ** agents.ts: [ConvenerAgent]

    The four methods build an event for other agents; none of them
    reads or changes the agent. *)
Module ConvenerAgent.

(** [const options = { to: { speakerUri } };
     if (reason !== undefined) options.reason = reason;] *)
Definition addressed (speakerUri : string) (reason : option string)
  : BareEventOptions.t :=
  {| BareEventOptions.to :=
       Some {| ToOptions.speakerUri := Some speakerUri;
               ToOptions.serviceUrl := None;
               ToOptions.private := None |};
     BareEventOptions.reason := reason |}.

Definition grantFloor (speakerUri : string) (reason : option string)
  : result Event.t :=
  GrantFloorEvent.new (addressed speakerUri reason).

Definition revokeFloor (speakerUri : string) (reason : option string)
  : result Event.t :=
  RevokeFloorEvent.new (addressed speakerUri reason).

Definition uninviteAgent (speakerUri : string) (reason : option string)
  : result Event.t :=
  UninviteEvent.new (addressed speakerUri reason).

(** [const to = { serviceUrl };
     if (speakerUri !== undefined) to.speakerUri = speakerUri;] *)
Definition inviteAgent (serviceUrl : string) (speakerUri reason : option string)
  : result Event.t :=
  InviteEvent.new
    {| BareEventOptions.to :=
         Some {| ToOptions.speakerUri := speakerUri;
                 ToOptions.serviceUrl := Some serviceUrl;
                 ToOptions.private := None |};
       BareEventOptions.reason := reason |}.

End ConvenerAgent.

(** ** validation.ts: the schemas and the validators of the entities

    The two schema files of the package, member for member and in the
    order of the files. *)
Module Schemas.

(** [schemas/assistant-manifest/1.0.0/assistant-manifest-schema.json] *)
Definition assistantManifestSchema : json :=
  JObj
  [("$id", JStr "https://github.com/open-voice-interoperability/docs/tree/main/schemas/assistant-manifest/1.0.0/assistant-manifest-schema.json");
   ("$schema", JStr "https://json-schema.org/draft/2020-12/schema");
   ("description", JStr "A representation of an 'assistant manifest’ - a standard format for publishing the identity and capability of an Open-Floor agent.");
   ("type", JStr "object");
   ("required", JArr [JStr "identification"; JStr "capabilities"]);
   ("properties", JObj
    [("identification", JObj
      [("required", JArr [JStr "serviceUrl"; JStr "organization"; JStr "conversationalName"]);
       ("properties", JObj
        [("speakerUri", JObj
          [("$ref", JStr "#/$defs/uri");
           ("description", JStr "The unique identity of the agent.")]);
         ("serviceUrl", JObj
          [("$ref", JStr "#/$defs/url");
           ("description", JStr "The endpoint of the conversational assistant.")]);
         ("organization", JObj
          [("type", JStr "string");
           ("description", JStr "The name of the organization administering this assistant.")]);
         ("conversationalName", JObj
          [("type", JStr "string");
           ("description", JStr "The 'given name' of the conversational agent.")]);
         ("department", JObj
          [("type", JStr "string");
           ("description", JStr "The department within the organization.")]);
         ("role", JObj
          [("type", JStr "string");
           ("description", JStr "The 'job title', or 'role' of the assistant.")]);
         ("synopsis", JObj
          [("type", JStr "string");
           ("description", JStr "A sentence signposting the who the assistant is and their area of expertise.")])])]);
     ("capabilities", JObj
      [("type", JStr "array");
       ("description", JStr "A list of capabilities supported by this endpoint.");
       ("items", JObj
        [("type", JStr "object");
         ("description", JStr "One of the capabilities supported by this endpoint.");
         ("required", JArr [JStr "keyphrases"; JStr "descriptions"]);
         ("properties", JObj
          [("keyphrases", JObj
            [("type", JStr "array");
             ("description", JStr "A list of searchable key phrases.");
             ("items", JObj
              [("type", JStr "string");
               ("description", JStr "A searchable key phrase")])]);
           ("languages", JObj
            [("type", JStr "array");
             ("description", JStr "A list of the languages supported by this capability.");
             ("items", JObj
              [("type", JStr "string");
               ("description", JStr "A language supported by this capability")])]);
           ("descriptions", JObj
            [("type", JStr "array");
             ("description", JStr "A set of searchable texts, in no particular order, describing the services and capabilities of the assistant.");
             ("items", JObj
              [("type", JStr "string");
               ("description", JStr "A searchable text describing one of the services or capabilities of the assistant.")])]);
           ("supportedLayers", JObj
            [("type", JStr "object");
             ("description", JStr "The input and output capabilities supported by this endpoint.");
             ("required", JArr [JStr "input"; JStr "output"]);
             ("properties", JObj
              [("input", JObj
                [("type", JStr "array");
                 ("description", JStr "A list of the dialogEvent layers supported as input for this capability.");
                 ("items", JObj
                  [("type", JStr "string");
                   ("description", JStr "A dialogEvent input layer supported by this capability")])]);
               ("output", JObj
                [("type", JStr "array");
                 ("description", JStr "A list of the dialogEvent layers supported as output for this capability.");
                 ("items", JObj
                  [("type", JStr "string");
                   ("description", JStr "A dialogEvent output layer supported by this capability")])])])])])])])]);
   ("$defs", JObj
    [("url", JObj
      [("type", JStr "string");
       ("description", JStr "Any valid URL")]);
     ("uri", JObj
      [("type", JStr "string");
       ("description", JStr "Any valid URI")])])].

(** [schemas/conversation-envelope/1.0.0/conversation-envelope-schema.json] *)
Definition conversationEnvelopeSchema : json :=
  JObj
  [("$id", JStr "https://github.com/open-voice-interoperability/docs/tree/main/schemas/conversation-envelope/1.0.0/conversation-envelope-schema.json");
   ("$schema", JStr "https://json-schema.org/draft/2020-12/schema");
   ("description", JStr "A representation of a 'dialogue envelope' - the universal data exchange format for an Open-Floor compliant interoperable agent.");
   ("type", JStr "object");
   ("required", JArr [JStr "openFloor"]);
   ("properties", JObj
    [("openFloor", JObj
      [("required", JArr [JStr "schema"; JStr "conversation"; JStr "sender"; JStr "events"]);
       ("properties", JObj
        [("schema", JObj
          [("type", JStr "object");
           ("required", JArr [JStr "version"]);
           ("properties", JObj
            [("version", JObj
              [("type", JStr "string");
               ("description", JStr "The version of the dialog envelope specification matching this envelope.")]);
             ("url", JObj
              [("$ref", JStr "#/$defs/url")])])]);
         ("conversation", JObj
          [("required", JArr [JStr "id"]);
           ("properties", JObj
            [("id", JObj
              [("type", JStr "string");
               ("description", JStr "Unique identifier for the current conversation with the user.")]);
             ("conversants", JObj
              [("type", JStr "array");
               ("items", JObj
                [("type", JStr "object");
                 ("properties", JObj
                  [("identification", JObj
                    [("required", JArr
                      [JStr "speakerUri";
                       JStr "serviceUrl";
                       JStr "organization";
                       JStr "conversationalName";
                       JStr "synopsis"]);
                     ("properties", JObj
                      [("speakerUri", JObj
                        [("$ref", JStr "#/$defs/uri");
                         ("description", JStr "The unique identity of the agent.")]);
                       ("serviceUrl", JObj
                        [("$ref", JStr "#/$defs/url");
                         ("description", JStr "The endpoint of the conversational assistant.")]);
                       ("organization", JObj
                        [("type", JStr "string");
                         ("description", JStr "The name of the organization administering this assistant.")]);
                       ("conversationalName", JObj
                        [("type", JStr "string");
                         ("description", JStr "The 'given name' of the conversational agent.")]);
                       ("department", JObj
                        [("type", JStr "string");
                         ("description", JStr "The department within the organization.")]);
                       ("role", JObj
                        [("type", JStr "string");
                         ("description", JStr "The 'job title', or 'role' of the assistant.")]);
                       ("synopsis", JObj
                        [("type", JStr "string");
                         ("description", JStr "A sentence signposting the who the assistant is and their area of expertise.")])]);
                     ("additionalProperties", JBool false)]);
                   ("persistent_state", JObj
                    [("type", JStr "object");
                     ("description", JStr "Container for an arbitrary set of key value pairs to be persisted.");
                     ("additionalProperties", JObj
                      [("type", JStr "object")])]);
                   ("additionalProperties", JBool false)])])])])]);
         ("sender", JObj
          [("type", JStr "object");
           ("required", JArr [JStr "speakerUri"]);
           ("properties", JObj
            [("speakerUri", JObj
              [("$ref", JStr "#/$defs/uri");
               ("description", JStr "The URI of the sender of the envelope.")]);
             ("serviceUrl", JObj
              [("$ref", JStr "#/$defs/url");
               ("description", JStr "The endpoint of the conversational assistant.")])])]);
         ("events", JObj
          [("type", JStr "array");
           ("items", JObj
            [("type", JStr "object");
             ("properties", JObj
              [("eventType", JObj
                [("type", JStr "string");
                 ("enum", JArr
                  [JStr "invite";
                   JStr "uninvite";
                   JStr "declineInvite";
                   JStr "utterance";
                   JStr "bye";
                   JStr "context";
                   JStr "getManifests";
                   JStr "publishManifests";
                   JStr "findAssistant";
                   JStr "proposeAssistant";
                   JStr "requestFloor";
                   JStr "grantFloor";
                   JStr "revokeFloor";
                   JStr "yieldFloor"])]);
               ("to", JObj
                [("type", JStr "object");
                 ("properties", JObj
                  [("speakerUri", JObj
                    [("$ref", JStr "#/$defs/uri");
                     ("description", JStr "The URI of the agent to be invited.")]);
                   ("serviceUrl", JObj
                    [("$ref", JStr "#/$defs/url");
                     ("description", JStr "The URL of the agent to be invited.")]);
                   ("private", JObj
                    [("type", JStr "boolean");
                     ("description", JStr "Set to true if the event is intended for the 'to' particpant only.")])])]);
               ("reason", JObj
                [("type", JStr "string");
                 ("description", JStr "Optional reason for the event.")])]);
             ("allOf", JArr
              [JObj
                [("if", JObj
                  [("properties", JObj
                    [("eventType", JObj
                      [("const", JStr "utterance")])]);
                   ("required", JArr [JStr "eventType"])]);
                 ("then", JObj
                  [("properties", JObj
                    [("parameters", JObj
                      [("description", JStr "Parameters for the utterance event.");
                       ("type", JStr "object");
                       ("properties", JObj
                        [("dialogEvent", JObj
                          [("ref", JStr "https://github.com/open-voice-interoperability/lib-interop/tree/main/schemas/dialog-event/1.0.2/dialog-event-schema.json")])]);
                       ("additionalProperties", JBool false)])])])];
               JObj
                [("if", JObj
                  [("properties", JObj
                    [("eventType", JObj
                      [("const", JStr "context")])]);
                   ("required", JArr [JStr "eventType"])]);
                 ("then", JObj
                  [("properties", JObj
                    [("parameters", JObj
                      [("description", JStr "Parameters for the context event.");
                       ("type", JStr "object");
                       ("properties", JObj
                        [("dialogHistory", JObj
                          [("type", JStr "array");
                           ("items", JObj
                            [("type", JStr "object");
                             ("ref", JStr "https://github.com/open-voice-interoperability/lib-interop/tree/main/schemas/dialog-event/1.0.2/dialog-event-schema.json")])])]);
                       ("additionalProperties", JBool true)])])])];
               JObj
                [("if", JObj
                  [("properties", JObj
                    [("eventType", JObj
                      [("const", JStr "invite")])]);
                   ("required", JArr [JStr "eventType"])]);
                 ("then", JObj
                  [("properties", JObj
                    [("parameters", JObj
                      [("description", JStr "Parameters for the invite event.");
                       ("type", JStr "object");
                       ("maxProperties", JNum 0);
                       ("additionalProperties", JBool false)])])])];
               JObj
                [("if", JObj
                  [("properties", JObj
                    [("eventType", JObj
                      [("const", JStr "uninvite")])]);
                   ("required", JArr [JStr "eventType"])]);
                 ("then", JObj
                  [("properties", JObj
                    [("parameters", JObj
                      [("description", JStr "Parameters for the uninvite event.");
                       ("type", JStr "object");
                       ("maxProperties", JNum 0);
                       ("additionalProperties", JBool false)])])])];
               JObj
                [("if", JObj
                  [("properties", JObj
                    [("eventType", JObj
                      [("const", JStr "declineInvite")])]);
                   ("required", JArr [JStr "eventType"])]);
                 ("then", JObj
                  [("properties", JObj
                    [("parameters", JObj
                      [("description", JStr "Parameters for the declineInvite event.");
                       ("type", JStr "object");
                       ("maxProperties", JNum 0);
                       ("additionalProperties", JBool false)])])])];
               JObj
                [("if", JObj
                  [("properties", JObj
                    [("eventType", JObj
                      [("const", JStr "bye")])]);
                   ("required", JArr [JStr "eventType"])]);
                 ("then", JObj
                  [("properties", JObj
                    [("parameters", JObj
                      [("description", JStr "Parameters for the bye event.");
                       ("type", JStr "object");
                       ("maxProperties", JNum 0);
                       ("additionalProperties", JBool false)])])])];
               JObj
                [("if", JObj
                  [("properties", JObj
                    [("eventType", JObj
                      [("const", JStr "getManifests")])]);
                   ("required", JArr [JStr "eventType"])]);
                 ("then", JObj
                  [("properties", JObj
                    [("parameters", JObj
                      [("description", JStr "Parameters for the requestManifest event.");
                       ("type", JStr "object");
                       ("properties", JObj
                        [("recommendScope", JObj
                          [("type", JStr "string");
                           ("description", JStr "The scope of the recommendation.")])]);
                       ("additionalProperties", JBool false)])])])];
               JObj
                [("if", JObj
                  [("properties", JObj
                    [("eventType", JObj
                      [("const", JStr "publishManifests")])]);
                   ("required", JArr [JStr "eventType"])]);
                 ("then", JObj
                  [("properties", JObj
                    [("parameters", JObj
                      [("description", JStr "Parameters for the publishManifests event.");
                       ("type", JStr "object");
                       ("properties", JObj
                        [("servicingManifests", JObj
                          [("ref", JStr "https://github.com/open-voice-interoperability/docs/tree/main/schemas/assistant-manifest/1.0.0/assistant-manifest-schema.json")]);
                         ("discoveryManifests", JObj
                          [("ref", JStr "https://github.com/open-voice-interoperability/docs/tree/main/schemas/assistant-manifest/1.0.0/assistant-manifest-schema.json")])]);
                       ("additionalProperties", JBool false)])])])];
               JObj
                [("if", JObj
                  [("properties", JObj
                    [("eventType", JObj
                      [("const", JStr "requestFloor")])]);
                   ("required", JArr [JStr "eventType"])]);
                 ("then", JObj
                  [("properties", JObj
                    [("parameters", JObj
                      [("description", JStr "Parameters for the requestFloor event.");
                       ("type", JStr "object");
                       ("maxProperties", JNum 0);
                       ("additionalProperties", JBool false)])])])];
               JObj
                [("if", JObj
                  [("properties", JObj
                    [("eventType", JObj
                      [("const", JStr "grantFloor")])]);
                   ("required", JArr [JStr "eventType"])]);
                 ("then", JObj
                  [("properties", JObj
                    [("parameters", JObj
                      [("description", JStr "Parameters for the grantFloor event.");
                       ("type", JStr "object");
                       ("maxProperties", JNum 0);
                       ("additionalProperties", JBool false)])])])];
               JObj
                [("if", JObj
                  [("properties", JObj
                    [("eventType", JObj
                      [("const", JStr "yieldFloor")])]);
                   ("required", JArr [JStr "eventType"])]);
                 ("then", JObj
                  [("properties", JObj
                    [("parameters", JObj
                      [("description", JStr "Parameters for the yieldFloor event.");
                       ("type", JStr "object");
                       ("maxProperties", JNum 0);
                       ("additionalProperties", JBool false)])])])];
               JObj
                [("if", JObj
                  [("properties", JObj
                    [("eventType", JObj
                      [("const", JStr "revokeFloor")])]);
                   ("required", JArr [JStr "eventType"])]);
                 ("then", JObj
                  [("properties", JObj
                    [("parameters", JObj
                      [("description", JStr "Parameters for the revokeFloor event.");
                       ("type", JStr "object");
                       ("maxProperties", JNum 0);
                       ("additionalProperties", JBool false)])])])]])])])])])]);
   ("$defs", JObj
    [("url", JObj
      [("type", JStr "string");
       ("description", JStr "Any valid URL")]);
     ("uri", JObj
      [("type", JStr "string");
       ("description", JStr "Any valid URI")])])].

End Schemas.

Module EntityValidators.
Section Host.

Variable Number_print : Q -> string.
Variable JSON_stringify : json -> string.
Variable RegExp_new : string -> string + (string -> bool).

Definition validateManifest (data : json) : Validation.ValidationResult :=
  Validation.validate Number_print JSON_stringify RegExp_new
    data Schemas.assistantManifestSchema.

Definition validateEnvelope (data : json) : Validation.ValidationResult :=
  Validation.validate Number_print JSON_stringify RegExp_new
    data Schemas.conversationEnvelopeSchema.

End Host.
End EntityValidators.

(** ** index.ts: the convenience functions *)

Module BasicManifestOptions.
Record t : Type := {
  speakerUri : string;
  serviceUrl : string;
  name : string;
  organization : string;
  description : string;
  capabilities : option (list string);
  department : option string;
  role : option string
}.
End BasicManifestOptions.

Definition createBasicManifest (options : BasicManifestOptions.t) : result Manifest.t :=
  let capabilities :=
    match BasicManifestOptions.capabilities options with
    | Some l => l | None => [] end in
  let description := BasicManifestOptions.description options in
  let identification :=
    {| IdentificationOptions.speakerUri := BasicManifestOptions.speakerUri options;
       IdentificationOptions.serviceUrl := BasicManifestOptions.serviceUrl options;
       IdentificationOptions.organization := BasicManifestOptions.organization options;
       IdentificationOptions.conversationalName := BasicManifestOptions.name options;
       IdentificationOptions.synopsis := description;
       IdentificationOptions.department := BasicManifestOptions.department options;
       IdentificationOptions.role := BasicManifestOptions.role options |} in
  let caps :=
    if (0 <? length capabilities)%nat
    then [{| CapabilityOptions.keyphrases := capabilities;
             CapabilityOptions.descriptions := [description];
             CapabilityOptions.languages := None;
             CapabilityOptions.supportedLayers := None |}]
    else [] in
  Manifest.new {| ManifestOptions.identification := identification;
                  ManifestOptions.capabilities := caps |}.

Module TextUtteranceOptions.
Record t : Type := {
  speakerUri : string;
  text : string;
  to : option ToOptions.t;
  confidence : option Q;
  lang : option string
}.
End TextUtteranceOptions.

Module SimpleEnvelopeOptions.
Record t : Type := {
  conversationId : option string;
  senderUri : string;
  senderServiceUrl : option string;
  events : option (list Event.t);
  schemaVersion : option string;
  schemaUrl : option string
}.
End SimpleEnvelopeOptions.

(** [event.toObject() as any], taken as the [BaseEventOptions] that the
    constructor of [Envelope] expects *)
Definition as_BaseEventOptions (v : json) : result BaseEventOptions.t :=
  eventType <- as_string (get_property v "eventType") ;;
  to <- match get_property v "to" with
        | JUndefined => Ok None
        | t0 => o <- To.as_ToOptions t0 ;; Ok (Some o)
        end ;;
  reason <- as_opt_string (get_property v "reason") ;;
  parameters <- as_opt_record (get_property v "parameters") ;;
  Ok {| BaseEventOptions.eventType := eventType;
        BaseEventOptions.to := to;
        BaseEventOptions.reason := reason;
        BaseEventOptions.parameters := parameters |}.

(** What [validateAndParsePayload] returns *)
Module ParsedPayload.
Record t : Type := {
  valid : bool;
  errors : list string;
  payload : option Payload.t
}.
End ParsedPayload.

(** The same record for a callee of which only the manner of completing
    is known: [P] is what [Payload.fromObject] returns. *)
Module ParsedAs.
Record t (P : Type) : Type := {
  valid : bool;
  errors : list string;
  payload : option P
}.
Arguments valid {P} _.
Arguments errors {P} _.
Arguments payload {P} _.
Arguments Build_t {P} _ _ _.
End ParsedAs.

Module Index.
Section WithHost.
Context `{Host}.

(** The string that [generateUUID()] returns in the run considered;
    [new Date()] is [Date_now]. *)
Variable generateUUID : string.

Definition createTextUtterance (options : TextUtteranceOptions.t)
  : result UtteranceEvent.t :=
  let to := TextUtteranceOptions.to options in
  let features :=
    [("text",
      {| FeatureOptions.mimeType := "text/plain";
         FeatureOptions.tokens :=
           Some [{| TokenOptions.value := JStr (TextUtteranceOptions.text options);
                    TokenOptions.valueUrl := None;
                    TokenOptions.span := None;
                    TokenOptions.confidence := TextUtteranceOptions.confidence options;
                    TokenOptions.links := None |}];
         FeatureOptions.alternates := None;
         FeatureOptions.lang := TextUtteranceOptions.lang options;
         FeatureOptions.encoding := None;
         FeatureOptions.tokenSchema := None |})] in
  let dialogEvent :=
    {| DialogEventOptions.id := Some generateUUID;
       DialogEventOptions.speakerUri := TextUtteranceOptions.speakerUri options;
       DialogEventOptions.span :=
         Some {| SpanOptions.startTime := Some Date_now;
                 SpanOptions.startOffset := None;
                 SpanOptions.endTime := None;
                 SpanOptions.endOffset := None |};
       DialogEventOptions.features := Some features;
       DialogEventOptions.previousId := None;
       DialogEventOptions.context := None |} in
  let toOptions :=
    match to with
    | Some t0 =>
        if opt_truthy (ToOptions.speakerUri t0)
           || opt_truthy (ToOptions.serviceUrl t0)
           || match ToOptions.private t0 with Some _ => true | None => false end
        then Some t0 else None
    | None => None
    end in
  UtteranceEvent.new {| UtteranceEventOptions.dialogEvent := dialogEvent;
                        UtteranceEventOptions.to := toOptions;
                        UtteranceEventOptions.reason := None |}.

Definition createSimpleEnvelope (options : SimpleEnvelopeOptions.t)
  : result Envelope.t :=
  let events :=
    match SimpleEnvelopeOptions.events options with Some l => l | None => [] end in
  let schemaVersion :=
    match SimpleEnvelopeOptions.schemaVersion options with
    | Some v => v | None => "1.0.0" end in
  let schemaUrl := SimpleEnvelopeOptions.schemaUrl options in
  let schema :=
    if opt_truthy schemaUrl
    then {| SchemaOptions.version := schemaVersion; SchemaOptions.url := schemaUrl |}
    else {| SchemaOptions.version := schemaVersion; SchemaOptions.url := None |} in
  let conversation :=
    {| ConversationOptions.id :=
         match SimpleEnvelopeOptions.conversationId options with
         | Some id => id | None => generateUUID end;
       ConversationOptions.conversants := None |} in
  let sender :=
    {| SenderOptions.speakerUri := SimpleEnvelopeOptions.senderUri options;
       SenderOptions.serviceUrl := SimpleEnvelopeOptions.senderServiceUrl options |} in
  eventOptions <- mapM (fun event => as_BaseEventOptions (Event.toObject event))
                       events ;;
  Envelope.new {| EnvelopeOptions.schema := schema;
                  EnvelopeOptions.conversation := conversation;
                  EnvelopeOptions.sender := sender;
                  EnvelopeOptions.events := eventOptions |}.

End WithHost.

(** [createPayload(envelope)] *)
Definition createPayload (envelope : Envelope.t) : result Payload.t :=
  Payload.of_envelope envelope.

Section WithParser.

Variable Number_print : Q -> string.
Variable JSON_stringify : json -> string.
Variable RegExp_new : string -> string + (string -> bool).
Variable JSON_parse : string -> result json.

(** [parsePayload(jsonString)] *)
Definition parsePayload (jsonString : string) : result Payload.t :=
  Payload.fromJSON JSON_parse jsonString.

(** [validateAndParsePayload(jsonString)]: what is thrown inside the
    [try] block, by [JSON.parse] or by [Payload.fromObject], is
    reported as a failure of JSON parsing. *)
Definition validateAndParsePayload (jsonString : string)
  : result ParsedPayload.t :=
  match
    (data <- JSON_parse jsonString ;;
     let validation :=
       EntityValidators.validateEnvelope Number_print JSON_stringify RegExp_new
         data in
     if Validation.valid validation then
       payload <- Payload.fromObject data ;;
       Ok {| ParsedPayload.valid := true;
             ParsedPayload.errors := [];
             ParsedPayload.payload := Some payload |}
     else
       Ok {| ParsedPayload.valid := false;
             ParsedPayload.errors := Validation.errors validation;
             ParsedPayload.payload := None |})
  with
  | Ok r => Ok r
  | Throw message =>
      Ok {| ParsedPayload.valid := false;
            ParsedPayload.errors := [("JSON parsing failed: " ++ message)%string];
            ParsedPayload.payload := None |}
  | IllTyped => IllTyped
  end.

(** [validateAndParsePayload(jsonString)] over its callees: [parse]
    is [JSON.parse] and [fromObject] is [Payload.fromObject], each of
    which returns a value or throws an exception with a message,
    whatever the types of the data are. *)
Definition validateAndParsePayload_over {P : Type}
    (parse : string -> Validation.completion json)
    (fromObject : json -> Validation.completion P)
    (jsonString : string) : ParsedAs.t P :=
  let caught (message : string) : ParsedAs.t P :=
    {| ParsedAs.valid := false;
       ParsedAs.errors := [("JSON parsing failed: " ++ message)%string];
       ParsedAs.payload := None |} in
  match parse jsonString with
  | Validation.Normal data =>
      let validation :=
        EntityValidators.validateEnvelope Number_print JSON_stringify RegExp_new
          data in
      if Validation.valid validation then
        match fromObject data with
        | Validation.Normal payload =>
            {| ParsedAs.valid := true;
               ParsedAs.errors := [];
               ParsedAs.payload := Some payload |}
        | Validation.Abrupt message => caught message
        end
      else
        {| ParsedAs.valid := false;
           ParsedAs.errors := Validation.errors validation;
           ParsedAs.payload := None |}
  | Validation.Abrupt message => caught message
  end.

End WithParser.
End Index.

(** A typed result and a manner of completing that agree: where the
    typed model gives an answer, the completion is that answer. *)
Definition completes_as {A : Type} (r : result A) (c : Validation.completion A)
  : Prop :=
  match r with
  | Ok a => c = Validation.Normal a
  | Throw message => c = Validation.Abrupt message
  | IllTyped => True
  end.

(** ** Vocabulary of the further properties *)

(** The bot is bound to no other conversation than that of the
    envelope. *)
Definition bound_here (inEnvelope : Envelope.t) (b : BotAgent.t) : Prop :=
  forall c, BotAgent._activeConversation b = Some c ->
            Conversation.id c = Conversation.id (Envelope.conversation inEnvelope).

(** The context of the bot holds only [context] events that a listener
    of the envelope has been given to hand over, and what the listener
    [l] has still to hand over are such events. *)
Definition context_of_envelope (m : Manifest.t) (inEnvelope : Envelope.t)
    (b : BotAgent.t) (l : BotRun.Listener) : Prop :=
  BotRun.inEnvelope l = inEnvelope
  /\ incl (BotRun.remaining l) (BotAgent.myEvents m inEnvelope)
  /\ forall ev, In ev (BotAgent._currentContext b) ->
                In ev (BotAgent.myEvents m inEnvelope)
                /\ Events.isContextEvent ev = true.

(** The validator finds nothing wrong with [data] under [schema],
    wherever in the document it is and whatever was found before. *)
Definition passes (Number_print : Q -> string) (JSON_stringify : json -> string)
    (RegExp_new : string -> string + (string -> bool)) (data schema : json) : Prop :=
  forall (path : string) (errs : list string),
    Validation._validateObject Number_print JSON_stringify RegExp_new
      data schema path errs
    = (Validation.Normal tt, errs).

(** * Properties *)

(** ** Decimal digits *)

Lemma take_digits_uint (d : Decimal.uint) (r : string) :
  take_digits (NilEmpty.string_of_uint d ++ r)
  = (NilEmpty.string_of_uint d ++ fst (take_digits r), snd (take_digits r)).
Proof.
  induction d; simpl;
    try (rewrite IHd; reflexivity).
  destruct (take_digits r); reflexivity.
Qed.

Lemma digit_run_nonempty (s : string) :
  digit_run s -> exists c s', s = String c s'.
Proof.
  intros (d & Hd & ->). destruct d; try congruence; simpl; eauto.
Qed.

Lemma Number_toString_digit_run (z : Z) :
  (0 <= z)%Z -> digit_run (Number_toString z).
Proof.
  intros Hz. unfold Number_toString, Z.to_int.
  destruct z as [|p|p]; try lia.
  - exists (Decimal.D0 Decimal.Nil). split; [discriminate|reflexivity].
  - exists (Pos.to_uint p). split; [apply Unsigned.to_uint_nonnil|].
    simpl. unfold NilZero.string_of_uint.
    pose proof (Unsigned.to_uint_nonnil p) as Hn.
    destruct (Pos.to_uint p); try congruence; reflexivity.
Qed.

Lemma parseInt_Number_toString (z : Z) :
  (0 <= z)%Z -> parseInt (Number_toString z) = z.
Proof.
  intros Hz. unfold parseInt, Number_toString, Z.to_int.
  destruct z as [|p|p]; try lia.
  - reflexivity.
  - simpl. unfold NilZero.string_of_uint.
    pose proof (Unsigned.to_uint_nonnil p) as Hn.
    assert (E : NilEmpty.uint_of_string (NilEmpty.string_of_uint (Pos.to_uint p))
                = Some (Pos.to_uint p)) by apply NilEmpty.usu.
    destruct (Pos.to_uint p) eqn:Ep; try congruence;
      rewrite E; rewrite <- Ep; unfold Z.of_uint;
      rewrite Unsigned.of_to; reflexivity.
Qed.

Lemma take_digits_run (s : string) (c : ascii) (r : string) :
  digit_run s -> is_digit c = false ->
  take_digits (s ++ String c r) = (s, String c r).
Proof.
  intros (d & _ & ->) Hc. rewrite take_digits_uint. simpl. rewrite Hc. simpl.
  f_equal. clear. induction (NilEmpty.string_of_uint d); simpl; congruence.
Qed.

Lemma take_digits_run_end (s : string) :
  digit_run s -> take_digits s = (s, EmptyString).
Proof.
  intros (d & _ & ->).
  assert (E := take_digits_uint d EmptyString). simpl in E.
  assert (A : forall t : string, t ++ "" = t)
    by (induction t; simpl; congruence).
  rewrite A in E. exact E.
Qed.

(** ** ISO 8601 durations *)

Lemma group_int_hit (X : ascii) (s r : string) :
  digit_run s -> is_digit X = false ->
  Utils.group_int X (s ++ String X r) = (Some s, r).
Proof.
  intros Hs HX. unfold Utils.group_int. rewrite take_digits_run by assumption.
  destruct (digit_run_nonempty s Hs) as (c & s' & ->).
  rewrite Ascii.eqb_refl. reflexivity.
Qed.

Lemma group_int_miss (X Y : ascii) (s r : string) :
  digit_run s -> is_digit Y = false -> Ascii.eqb Y X = false ->
  Utils.group_int X (s ++ String Y r) = (None, s ++ String Y r).
Proof.
  intros Hs HY HXY. unfold Utils.group_int. rewrite take_digits_run by assumption.
  destruct (digit_run_nonempty s Hs) as (c & s' & ->).
  rewrite HXY. reflexivity.
Qed.

Lemma group_int_nondigit (X c : ascii) (r : string) :
  is_digit c = false ->
  Utils.group_int X (String c r) = (None, String c r).
Proof. intros H. unfold Utils.group_int. simpl. rewrite H. reflexivity. Qed.

Lemma group_seconds_hit (s r : string) :
  digit_run s ->
  Utils.group_seconds (s ++ String "S" r) = (Some (s, None), r).
Proof.
  intros Hs. unfold Utils.group_seconds.
  rewrite take_digits_run by (assumption || reflexivity).
  destruct (digit_run_nonempty s Hs) as (c & s' & ->). reflexivity.
Qed.

Lemma string_app_assoc (a b c : string) : ((a ++ b) ++ c = a ++ (b ++ c))%string.
Proof. induction a; simpl; congruence. Qed.

Lemma string_app_nil_r (a : string) : (a ++ "" = a)%string.
Proof. induction a; simpl; congruence. Qed.

(** Seconds, minutes and hours of a non-negative number of whole seconds
    add up to it. *)
Lemma hms_decomposition (t : Z) :
  (0 <= t)%Z ->
  (0 <= t / 3600 /\ 0 <= Z.rem t 3600 / 60 /\ 0 <= Z.rem t 60
   /\ t = (t / 3600) * 3600 + (Z.rem t 3600 / 60) * 60 + Z.rem t 60)%Z.
Proof.
  intros Ht.
  rewrite !Z.rem_mod_nonneg by lia.
  pose proof (Z.mod_pos_bound t 3600 ltac:(lia)).
  pose proof (Z.mod_pos_bound t 60 ltac:(lia)).
  pose proof (Z.div_pos t 3600 Ht ltac:(lia)).
  pose proof (Z.div_pos (t mod 3600) 60 ltac:(lia) ltac:(lia)).
  assert (E : (t mod 60 = (t mod 3600) mod 60)%Z).
  { symmetry. apply Z.mod_mod_divide. exists 60%Z. reflexivity. }
  repeat split; try lia.
  pose proof (Z.div_mod t 3600 ltac:(lia)).
  pose proof (Z.div_mod (t mod 3600) 60 ltac:(lia)).
  lia.
Qed.

Lemma duration_match_parts (oh om os : option string) :
  run_or_absent oh -> run_or_absent om -> run_or_absent os ->
  Utils.duration_match
    ("PT" ++ duration_part oh "H" ++ duration_part om "M" ++ duration_part os "S")
  = Some (None, oh, om, option_map (fun s => (s, None)) os).
Proof.
  intros Hh Hm Hs. unfold Utils.duration_match.
  cbn [append Ascii.eqb Bool.eqb].
  rewrite group_int_nondigit by reflexivity.
  destruct oh as [sh|], om as [sm|], os as [ss|];
    cbn [duration_part run_or_absent option_map append] in *;
    rewrite ?string_app_assoc; cbn [append].
  all: repeat first
    [ rewrite group_int_hit by (assumption || reflexivity)
    | rewrite group_int_miss by (assumption || reflexivity)
    | rewrite group_seconds_hit by assumption ];
    try reflexivity.
Qed.

(** What [parseIsoDuration] reads back from a printed duration: the number
    of whole seconds, in milliseconds. *)
Lemma parseIsoDuration_millisecondsToIsoDuration (ms : Q) :
  (0 <= ms)%Q ->
  exists q,
    Utils.parseIsoDuration (Utils.millisecondsToIsoDuration ms) = Ok q
    /\ (q == inject_Z (1000 * Qfloor (ms / inject_Z 1000)))%Q.
Proof.
  intros Hms. unfold Utils.millisecondsToIsoDuration. cbv zeta.
  assert (Ht : (0 <= Qfloor (ms / inject_Z 1000))%Z).
  { change 0%Z with (Qfloor 0). apply Qfloor_resp_le.
    apply Qle_shift_div_l; [reflexivity|]. rewrite Qmult_0_l. exact Hms. }
  generalize dependent (Qfloor (ms / inject_Z 1000)). intros t Ht.
  destruct (hms_decomposition t Ht) as (Hh & Hm & Hs & Hsum).
  generalize dependent (t / 3600)%Z. intros h Hh.
  generalize dependent (Z.rem t 3600 / 60)%Z. intros m Hm.
  generalize dependent (Z.rem t 60). intros s Hs Hsum.
  pose proof (Number_toString_digit_run h Hh) as Rh.
  pose proof (Number_toString_digit_run m Hm) as Rm.
  pose proof (Number_toString_digit_run s Hs) as Rs.
  pose proof (parseInt_Number_toString h Hh) as Ph.
  pose proof (parseInt_Number_toString m Hm) as Pm.
  pose proof (parseInt_Number_toString s Hs) as Ps.
  set (oh := if (0 <? h)%Z then Some (Number_toString h) else None).
  set (om := if (0 <? m)%Z then Some (Number_toString m) else None).
  set (os := if ((0 <? s)%Z || negb ((0 <? h)%Z || (0 <? m)%Z))%bool
             then Some (Number_toString s) else None).
  match goal with
  | |- context [Utils.parseIsoDuration ?x] =>
      assert (E : x = "PT" ++ duration_part oh "H" ++ duration_part om "M"
                      ++ duration_part os "S")
  end.
  { unfold oh, om, os.
    destruct (0 <? h)%Z, (0 <? m)%Z, (0 <? s)%Z; cbn;
      rewrite ?string_app_assoc, ?string_app_nil_r; reflexivity. }
  rewrite E. unfold Utils.parseIsoDuration.
  rewrite duration_match_parts
    by (unfold oh, om, os;
        repeat match goal with |- context [if ?b then _ else _] => destruct b end;
        simpl; auto).
  eexists. split; [reflexivity|].
  assert (Vh : Utils.group_value oh = h).
  { unfold oh. destruct (0 <? h)%Z eqn:B; simpl; [assumption|].
    apply Z.ltb_ge in B. change (parseInt "0") with 0%Z. lia. }
  assert (Vm : Utils.group_value om = m).
  { unfold om. destruct (0 <? m)%Z eqn:B; simpl; [assumption|].
    apply Z.ltb_ge in B. change (parseInt "0") with 0%Z. lia. }
  assert (Vs : Utils.parseFloat (option_map (fun x => (x, None)) os) = inject_Z s).
  { unfold os.
    destruct ((0 <? s)%Z || negb ((0 <? h)%Z || (0 <? m)%Z))%bool eqn:B; simpl.
    - rewrite Ps. reflexivity.
    - apply orb_false_elim in B. destruct B as [B _].
      apply Z.ltb_ge in B. change (parseInt "0") with 0%Z.
      replace s with 0%Z by lia. reflexivity. }
  rewrite Vh, Vm, Vs. change (Utils.group_value None) with 0%Z.
  rewrite <- inject_Z_mult, <- inject_Z_plus.
  apply inject_Z_injective. lia.
Qed.

Example parseIsoDuration_PT1H30M15S :
  exists q, Utils.parseIsoDuration "PT1H30M15S" = Ok q /\ (q == 5415000)%Q.
Proof. eexists. split; [reflexivity|]. reflexivity. Qed.

Example millisecondsToIsoDuration_5415000 :
  Utils.millisecondsToIsoDuration 5415000%Q = "PT1H30M15S".
Proof. reflexivity. Qed.

Example millisecondsToIsoDuration_negative :
  Utils.millisecondsToIsoDuration (-1)%Q = "PT-1S".
Proof. reflexivity. Qed.

Example millisecondsToIsoDuration_zero :
  Utils.millisecondsToIsoDuration 0%Q = "PT0S".
Proof. reflexivity. Qed.

Example parseIsoDuration_rejects_sign :
  Utils.parseIsoDuration "PT-1S" = Throw "Invalid ISO 8601 duration: PT-1S".
Proof. reflexivity. Qed.

Lemma Qfloor_thousandth (n : Z) :
  Qfloor (inject_Z n / inject_Z 1000) = (n / 1000)%Z.
Proof.
  unfold Qdiv, Qmult, Qinv, inject_Z, Qfloor. simpl.
  rewrite Z.mul_1_r. reflexivity.
Qed.

(** C8, as amended: a non-negative integer number of milliseconds up
    to 2^53, the range in which the numbers of the code are exact, is
    read back from its printed duration rounded down to whole seconds,
    and is read back unchanged exactly when it is a multiple of 1000. *)
Theorem duration_round_trip_whole_seconds (n : Z) :
  (0 <= n <= 2 ^ 53)%Z ->
  exists q,
    Utils.parseIsoDuration (Utils.millisecondsToIsoDuration (inject_Z n)) = Ok q
    /\ (q == inject_Z (1000 * (n / 1000)))%Q
    /\ ((q == inject_Z n)%Q <-> (n mod 1000 = 0)%Z).
Proof.
  intros [Hn _].
  destruct (parseIsoDuration_millisecondsToIsoDuration (inject_Z n)) as (q & Hq & Eq).
  { change 0%Q with (inject_Z 0). rewrite <- Zle_Qle. exact Hn. }
  rewrite Qfloor_thousandth in Eq.
  exists q. split; [exact Hq|]. split; [exact Eq|].
  pose proof (Z.div_mod n 1000 ltac:(lia)) as D.
  split.
  - intros H. rewrite Eq in H.
    apply (proj1 (inject_Z_injective _ _)) in H. lia.
  - intros H. rewrite Eq. apply (proj2 (inject_Z_injective _ _)). lia.
Qed.

Lemma duration_round_trip_whole_seconds_witness :
  (0 <= 5415000 <= 2 ^ 53)%Z /\
  exists q,
    Utils.parseIsoDuration (Utils.millisecondsToIsoDuration (inject_Z 5415000)) = Ok q
    /\ (q == inject_Z (1000 * (5415000 / 1000)))%Q
    /\ ((q == inject_Z 5415000)%Q <-> (5415000 mod 1000 = 0)%Z).
Proof.
  split; [lia|]. apply (duration_round_trip_whole_seconds 5415000). lia.
Defined.

(** C8 as stated fails at n = 1500: "PT1S" is printed and 1000 is read
    back. *)
Lemma duration_round_trip_loses_milliseconds :
  (0 <= 1500)%Z /\
  exists q,
    Utils.parseIsoDuration (Utils.millisecondsToIsoDuration (inject_Z 1500)) = Ok q
    /\ ~ (q == inject_Z 1500)%Q.
Proof.
  split; [lia|]. eexists. split; [reflexivity|].
  intros H. vm_compute in H. discriminate H.
Qed.

(** ** The schema validator *)

Section ValidatorProperties.

Import Validation.

Variable Number_print : Q -> string.
Variable JSON_stringify : json -> string.
Variable RegExp_new : string -> string + (string -> bool).

Local Abbreviation validate := (Validation.validate Number_print JSON_stringify RegExp_new).
Local Abbreviation _validateObject :=
  (Validation._validateObject Number_print JSON_stringify RegExp_new).
Local Abbreviation check_type := (Validation.check_type Number_print).
Local Abbreviation check_required := (Validation.check_required Number_print).
Local Abbreviation check_enum := (Validation.check_enum Number_print JSON_stringify).
Local Abbreviation check_range := (Validation.check_range Number_print).
Local Abbreviation check_pattern := (Validation.check_pattern Number_print RegExp_new).
Local Abbreviation check_patternProperties := (Validation.check_patternProperties RegExp_new).

Lemma validate_valid_iff (data : jsvalue) (schema : json) :
  valid (validate data schema) = true <-> errors (validate data schema) = [].
Proof.
  unfold Validation.validate. cbn [valid errors].
  match goal with |- context [(length ?l =? 0)%nat] => destruct l end;
    simpl; split; congruence.
Qed.

Lemma with_field_constant {A : Type} (name : string) (k : json -> A) (d : A)
    (fields : list (string * json)) :
  (forall v, k v = d) -> with_field name k d fields = d.
Proof.
  intros H. induction fields as [|[k' v] l IH]; simpl; [reflexivity|].
  destruct (String.eqb k' name); auto.
Qed.

Lemma check_type_null_object (path : string) (errs : list string) :
  check_type (JStr "object") JNull path errs = (Normal true, errs).
Proof. reflexivity. Qed.

Lemma check_required_null (required : json) (path : string) :
  check_required required JNull path = vret tt.
Proof. destruct required; reflexivity. Qed.

Lemma check_properties_null rec (properties : json) (path : string) :
  check_properties rec properties JNull path = vret tt.
Proof.
  unfold check_properties. change (is_object JNull) with false.
  rewrite andb_false_r. reflexivity.
Qed.

Lemma check_patternProperties_null rec (patternProperties : json) (path : string) :
  check_patternProperties rec patternProperties JNull path = vret tt.
Proof.
  unfold Validation.check_patternProperties. change (is_object JNull) with false.
  rewrite andb_false_r. reflexivity.
Qed.

Lemma check_items_null rec (items : json) (path : string) :
  check_items rec items JNull path = vret tt.
Proof. unfold check_items. destruct (truthy items); reflexivity. Qed.

(** C10: against a schema whose [type] is ['object'], [null] passes the
    type check, the required, properties and patternProperties checks
    are skipped on it, and only [enum] and [anyOf] are still looked at;
    [validate(null, {type:'object', required:['speakerUri']})] is valid
    with no errors. *)
Theorem null_passes_object_schema
    (fields : list (string * json)) (path : string) (errs : list string) :
  get_property (JObj fields) "type" = JStr "object" ->
  check_type (get_property (JObj fields) "type") JNull path errs
    = (Normal true, errs)
  /\ check_required (get_property (JObj fields) "required") JNull path errs
     = (Normal tt, errs)
  /\ (forall rec properties,
        check_properties rec properties JNull path errs = (Normal tt, errs))
  /\ (forall rec patternProperties,
        check_patternProperties rec patternProperties JNull path errs
        = (Normal tt, errs))
  /\ _validateObject JNull (JObj fields) path errs
     = (check_enum (get_property (JObj fields) "enum") JNull path ;;;
        with_field "anyOf"
          (fun anyOf =>
             check_anyOf (fun s d p => _validateObject d s p) anyOf JNull path)
          (vret tt) fields) errs
  /\ validate JNull
       (JObj [("type", JStr "object");
              ("required", JArr [JStr "speakerUri"])])
     = {| valid := true; errors := [] |}.
Proof.
  intros Hty. rewrite Hty.
  split; [reflexivity|].
  split; [rewrite check_required_null; reflexivity|].
  split; [intros; rewrite check_properties_null; reflexivity|].
  split; [intros; rewrite check_patternProperties_null; reflexivity|].
  split; [|reflexivity].
  cbn [Validation._validateObject]. rewrite Hty.
  unfold vbind at 1. rewrite check_type_null_object. cbn [negb].
  rewrite check_required_null.
  rewrite (with_field_constant "properties") by (intros; apply check_properties_null).
  rewrite (with_field_constant "patternProperties")
    by (intros; apply check_patternProperties_null).
  rewrite (with_field_constant "items") by (intros; apply check_items_null).
  reflexivity.
Qed.

(** *** Every reported defect names a place of the document *)

Lemma appends_ret {A : Type} (Q : string -> Prop) (a : A) : appends Q (vret a).
Proof. intros errs. exists []. simpl. rewrite app_nil_r. auto. Qed.

Lemma appends_throw {A : Type} (Q : string -> Prop) (m : string) :
  appends Q (@vthrow A m).
Proof. intros errs. exists []. simpl. rewrite app_nil_r. auto. Qed.

Lemma appends_push (Q : string -> Prop) (e : string) : Q e -> appends Q (push e).
Proof. intros H errs. exists [e]. simpl. auto. Qed.

Lemma appends_bind {A B : Type} (Q : string -> Prop) (m : V A) (k : A -> V B) :
  appends Q m -> (forall a, appends Q (k a)) -> appends Q (vbind m k).
Proof.
  intros Hm Hk errs. unfold vbind.
  destruct (Hm errs) as (new1 & E1 & F1).
  destruct (m errs) as [[a|msg] errs1]; simpl in E1; subst errs1.
  - destruct (Hk a (errs ++ new1)%list) as (new2 & E2 & F2).
    exists (new1 ++ new2)%list. rewrite E2, app_assoc. split; [reflexivity|].
    apply Forall_app; auto.
  - exists new1. auto.
Qed.

Lemma appends_for_each {A : Type} (Q : string -> Prop) (f : A -> V unit)
    (l : list A) :
  (forall a, In a l -> appends Q (f a)) -> appends Q (for_each f l).
Proof.
  induction l as [|a l IH]; intros H; simpl.
  - apply appends_ret.
  - apply appends_bind; [apply H; left; reflexivity|].
    intros _. apply IH. intros b Hb. apply H. right. exact Hb.
Qed.

Lemma appends_for_each_indexed (Q : string -> Prop) (f : nat -> json -> V unit)
    (l : list json) (n : nat) :
  (forall i a, nth_error l i = Some a -> appends Q (f (n + i)%nat a)) ->
  appends Q (for_each_indexed f n l).
Proof.
  revert n. induction l as [|a l IH]; intros n H; simpl.
  - apply appends_ret.
  - apply appends_bind.
    + specialize (H 0%nat a eq_refl). rewrite Nat.add_0_r in H. exact H.
    + intros _. apply IH. intros i b Hb.
      specialize (H (S i) b Hb). rewrite Nat.add_succ_r in H. exact H.
Qed.

Lemma appends_with_field {A : Type} (Q : string -> Prop) (name : string)
    (k : json -> V A) (d : V A) (fields : list (string * json)) :
  (forall v, In (name, v) fields -> appends Q (k v)) ->
  appends Q d -> appends Q (with_field name k d fields).
Proof.
  intros Hk Hd. induction fields as [|[k' v] l IH]; simpl; [exact Hd|].
  destruct (String.eqb k' name) eqn:E.
  - apply String.eqb_eq in E. subst k'. apply Hk. left. reflexivity.
  - apply IH. intros w Hw. apply Hk. right. exact Hw.
Qed.

Lemma appends_with_regex {A : Type} (Q : string -> Prop) (pattern : string)
    (k : (string -> bool) -> V A) :
  (forall test, appends Q (k test)) ->
  appends Q (with_regex RegExp_new pattern k).
Proof.
  intros H. unfold with_regex. destruct (RegExp_new pattern).
  - apply appends_throw.
  - apply H.
Qed.

Lemma json_size_field (name : string) (v : json) (fields : list (string * json)) :
  In (name, v) fields -> (json_size v < json_size (JObj fields))%nat.
Proof.
  simpl. induction fields as [|[k w] l IH]; simpl; [tauto|].
  intros [E|H]; [inversion E; subst; lia|]. specialize (IH H). lia.
Qed.

Lemma json_size_item (v : json) (items : list json) :
  In v items -> (json_size v < json_size (JArr items))%nat.
Proof.
  simpl. induction items as [|w l IH]; simpl; [tauto|].
  intros [E|H]; [subst; lia|]. specialize (IH H). lia.
Qed.

Lemma qualified_here (data0 data : jsvalue) (path message : string) :
  located data0 path data ->
  path_qualified data0 (path_label path ++ ": " ++ message).
Proof. intros Hat. exists path, data, message. auto. Qed.

Lemma string_app_assoc3 (a b c : string) : (a ++ b) ++ c = a ++ b ++ c.
Proof. induction a; simpl; congruence. Qed.

Ltac here :=
  apply appends_push;
  repeat rewrite string_app_assoc3;
  eapply qualified_here; eassumption.

Ltac split_if :=
  match goal with |- context [if ?b then _ else _] => destruct b end.

Lemma check_type_appends (data0 data : jsvalue) (path : string) (ty : json) :
  located data0 path data ->
  appends (path_qualified data0) (check_type ty data path).
Proof.
  intros Hat. unfold Validation.check_type.
  repeat split_if; try apply appends_ret;
    (apply appends_bind; [here | intros; apply appends_ret]).
Qed.

Lemma check_required_appends (data0 data : jsvalue) (path : string) (required : json) :
  located data0 path data ->
  appends (path_qualified data0) (check_required required data path).
Proof.
  intros Hat. unfold Validation.check_required.
  destruct required; try apply appends_ret.
  destruct (is_object data); [|apply appends_ret].
  apply appends_for_each. intros a _.
  split_if; [here | apply appends_ret].
Qed.

Lemma check_enum_appends (data0 data : jsvalue) (path : string) (enum : json) :
  located data0 path data ->
  appends (path_qualified data0) (check_enum enum data path).
Proof.
  intros Hat. unfold Validation.check_enum.
  destruct enum; try apply appends_ret.
  split_if; [here | apply appends_ret].
Qed.

Lemma check_range_appends (data0 data : jsvalue) (path : string)
    (minimum maximum : json) :
  located data0 path data ->
  appends (path_qualified data0) (check_range minimum maximum data path).
Proof.
  intros Hat. unfold Validation.check_range.
  destruct data as [j| | |] eqn:Ed; try apply appends_ret.
  destruct j; try apply appends_ret.
  apply appends_bind; [|intros _].
  - destruct minimum; try apply appends_ret.
    split_if; [here | apply appends_ret].
  - destruct maximum; try apply appends_ret.
    split_if; [here | apply appends_ret].
Qed.

Lemma check_pattern_appends (data0 data : jsvalue) (path : string) (pattern : json) :
  located data0 path data ->
  appends (path_qualified data0) (check_pattern pattern data path).
Proof.
  intros Hat. unfold Validation.check_pattern.
  destruct data as [j| | |] eqn:Ed; try apply appends_ret.
  destruct j; try apply appends_ret.
  destruct (truthy pattern); [|apply appends_ret].
  apply appends_with_regex. intros test.
  split_if; [here | apply appends_ret].
Qed.

Lemma check_anyOf_appends (data0 data : jsvalue) (path : string) rec (anyOf : json) :
  located data0 path data ->
  appends (path_qualified data0) (check_anyOf rec anyOf data path).
Proof.
  intros Hat. unfold check_anyOf. destruct anyOf; try apply appends_ret.
  apply appends_bind.
  - intros errs. exists []. rewrite app_nil_r. split; [|constructor].
    induction items as [|s l IH]; simpl; [reflexivity|].
    destruct (rec s data path []) as [[u|m] [|e es]]; simpl; auto.
  - intros valid. destruct (negb valid); [here | apply appends_ret].
Qed.

Lemma check_properties_appends (data0 data : jsvalue) (path : string)
    (schema : json) rec (properties : json) :
  located data0 path data ->
  recursive_calls_append data0 schema rec ->
  (json_size properties < json_size schema)%nat ->
  appends (path_qualified data0) (check_properties rec properties data path).
Proof.
  intros Hat Hrec Hsize. unfold check_properties.
  destruct (truthy properties && is_object data) eqn:E; [|apply appends_ret].
  apply andb_prop in E. destruct E as [_ Hobj].
  destruct properties; try apply appends_ret.
  - apply appends_for_each_indexed. intros i s Hs. simpl.
    destruct (in_operator (index_name i) data) eqn:Hp; [|apply appends_ret].
    apply Hrec.
    + apply nth_error_In in Hs. apply json_size_item in Hs. lia.
    + eapply located_property; eauto.
  - apply appends_for_each. intros [propName propSchema] Hin.
    destruct (in_operator propName data) eqn:Hp; [|apply appends_ret].
    apply Hrec.
    + apply json_size_field in Hin. lia.
    + eapply located_property; eauto.
Qed.

Lemma check_one_pattern_appends (data0 data : jsvalue) (path : string)
    (pattern : string) (check : jsvalue -> string -> V unit) :
  located data0 path data ->
  Validation.is_object data = true ->
  (forall d p, located data0 p d -> appends (path_qualified data0) (check d p)) ->
  appends (path_qualified data0)
          (Validation.check_one_pattern RegExp_new pattern check data path).
Proof.
  intros Hat Hobj Hcheck. unfold Validation.check_one_pattern.
  apply appends_with_regex. intros test.
  apply appends_for_each. intros [propName propValue] Hin.
  destruct (test propName); [|apply appends_ret].
  apply Hcheck. eapply located_property; eauto.
Qed.

Lemma check_patternProperties_appends (data0 data : jsvalue) (path : string)
    (schema : json) rec (patternProperties : json) :
  located data0 path data ->
  recursive_calls_append data0 schema rec ->
  (json_size patternProperties < json_size schema)%nat ->
  appends (path_qualified data0)
          (check_patternProperties rec patternProperties data path).
Proof.
  intros Hat Hrec Hsize. unfold Validation.check_patternProperties.
  destruct (truthy patternProperties && is_object data) eqn:E;
    [|apply appends_ret].
  apply andb_prop in E. destruct E as [_ Hobj].
  destruct patternProperties; try apply appends_ret.
  - apply appends_for_each_indexed. intros i c Hc.
    eapply check_one_pattern_appends; eauto.
    intros; apply appends_ret.
  - apply appends_for_each_indexed. intros i sub Hs.
    eapply check_one_pattern_appends; eauto.
    intros d p Hd. apply Hrec; [|exact Hd].
    apply nth_error_In in Hs. apply json_size_item in Hs. lia.
  - apply appends_for_each. intros [pattern propSchema] Hin.
    eapply check_one_pattern_appends; eauto.
    intros d p Hd. apply Hrec; [|exact Hd].
    apply json_size_field in Hin. lia.
Qed.

Lemma check_items_appends (data0 data : jsvalue) (path : string)
    (schema : json) rec (items : json) :
  located data0 path data ->
  recursive_calls_append data0 schema rec ->
  (json_size items < json_size schema)%nat ->
  appends (path_qualified data0) (check_items rec items data path).
Proof.
  intros Hat Hrec Hsize. unfold check_items.
  destruct (truthy items); [|apply appends_ret].
  destruct (elements_of data) as [elements|] eqn:Ed; [|apply appends_ret].
  apply appends_for_each_indexed. intros i item Hi. simpl.
  apply Hrec; [exact Hsize|].
  eapply located_item; eauto.
Qed.


Lemma _validateObject_appends (data0 : jsvalue) (n : nat) :
  forall schema data path,
    (json_size schema < n)%nat ->
    located data0 path data ->
    appends (path_qualified data0) (_validateObject data schema path).
Proof.
  induction n as [|n IH]; intros schema data path Hn Hat; [lia|].
  destruct schema; cbn [Validation._validateObject];
    try apply appends_ret; try apply appends_throw.
  assert (Hrec : recursive_calls_append data0 (JObj fields)
                   (fun s d p => _validateObject d s p)).
  { intros s d p Hs Hd. apply IH; [lia|exact Hd]. }
  apply appends_bind; [eapply check_type_appends; eauto|].
  intros continue. destruct (negb continue); [apply appends_ret|].
  apply appends_bind; [eapply check_required_appends; eauto|intros _].
  apply appends_bind; [|intros _].
  { apply appends_with_field; [|apply appends_ret]. intros v Hv.
    eapply check_properties_appends with (schema := JObj fields); eauto.
    eapply json_size_field; eauto. }
  apply appends_bind; [|intros _].
  { apply appends_with_field; [|apply appends_ret]. intros v Hv.
    eapply check_patternProperties_appends with (schema := JObj fields); eauto.
    eapply json_size_field; eauto. }
  apply appends_bind; [|intros _].
  { apply appends_with_field; [|apply appends_ret]. intros v Hv.
    eapply check_items_appends with (schema := JObj fields); eauto.
    eapply json_size_field; eauto. }
  apply appends_bind; [eapply check_enum_appends; eauto|intros _].
  apply appends_bind; [eapply check_range_appends; eauto|intros _].
  apply appends_bind; [eapply check_pattern_appends; eauto|intros _].
  apply appends_with_field; [|apply appends_ret]. intros v Hv.
  eapply check_anyOf_appends; eauto.
Qed.

(** C7, as amended: no exception leaves [validate]: when the check
    of the data ends with an exception, the result holds the entries
    found until then and one final entry
    ["Validation error: <message>"], and is not valid.  The result is
    valid exactly when its error list is empty.  Every entry found by
    the check is a path-qualified string for a place of the validated
    data; the final entry for an exception names no place. *)
Theorem validate_total_and_reports (data : jsvalue) (schema : json) :
  (exists found,
      (_validateObject data schema "" [] = (Normal tt, found)
       /\ validate data schema
          = {| valid := (length found =? 0)%nat; errors := found |})
      \/ (exists message,
            _validateObject data schema "" [] = (Abrupt message, found)
            /\ validate data schema
               = {| valid := false;
                    errors := (found ++ [("Validation error: " ++ message)%string])%list |}))
  /\ (valid (validate data schema) = true <-> errors (validate data schema) = [])
  /\ exists checked caught,
       errors (validate data schema) = (checked ++ caught)%list
       /\ Forall (path_qualified data) checked
       /\ (caught = [] \/ exists e, caught = [e] /\ caught_entry e).
Proof.
  split; [|split; [apply validate_valid_iff|]].
  - unfold Validation.validate.
    destruct (_validateObject data schema "" []) as [[[]|m] found].
    + exists found. left. split; reflexivity.
    + exists found. right. exists m. split; [reflexivity|].
      f_equal. destruct found; reflexivity.
  - unfold Validation.validate. cbn [errors].
    destruct (_validateObject_appends data (S (json_size schema)) schema data ""
                ltac:(lia) (located_root data) []) as (new & E & F).
    simpl in E.
    destruct (_validateObject data schema "" []) as [[u|m] errs]; simpl in E;
      subst errs.
    + exists new, []. rewrite app_nil_r. auto.
    + exists new, ["Validation error: " ++ m]. split; [reflexivity|].
      split; [exact F|]. right. eexists. split; [reflexivity|].
      exists m. reflexivity.
Qed.

End ValidatorProperties.

Example validate_null_against_object_schema :
  sample_validate JNull
    (JObj [("type", JStr "object"); ("required", JArr [JStr "speakerUri"])])
  = {| Validation.valid := true; Validation.errors := [] |}.
Proof. reflexivity. Qed.

Example validate_missing_required :
  sample_validate (JObj [("serviceUrl", JStr "https://example.com")])
    (JObj [("required", JArr [JStr "speakerUri"])])
  = {| Validation.valid := false;
       Validation.errors := ["root: missing required property 'speakerUri'"] |}.
Proof. reflexivity. Qed.

(** Names that the data inherits are present: [toString] is required
    of [{}] without complaint, and is checked as the function it is. *)
Example validate_inherited_member :
  sample_validate (JObj []) (JObj [("required", JArr [JStr "toString"])])
  = {| Validation.valid := true; Validation.errors := [] |}
  /\ sample_validate (JObj [])
       (JObj [("properties",
               JObj [("toString", JObj [("type", JStr "string")])])])
     = {| Validation.valid := false;
          Validation.errors := ["toString: expected string, got function"] |}.
Proof. split; reflexivity. Qed.

Example validate_anyOf_one_branch_matches :
  sample_validate (JStr "x")
    (JObj [("anyOf", JArr [JObj [("type", JStr "number")];
                           JObj [("type", JStr "string")]])])
  = {| Validation.valid := true; Validation.errors := [] |}.
Proof. reflexivity. Qed.

Example validate_nested_path :
  sample_validate (JObj [("events", JArr [JNum 1; JStr "x"])])
    (JObj [("properties",
            JObj [("events", JObj [("type", JStr "array");
                                   ("items", JObj [("type", JStr "number")])])])])
  = {| Validation.valid := false;
       Validation.errors := ["events[1]: expected number, got string"] |}.
Proof. reflexivity. Qed.

Lemma has_char_app (c : ascii) (a b : string) :
  has_char c (a ++ b) = has_char c a || has_char c b.
Proof.
  induction a as [|x a IH]; [reflexivity|].
  cbn [append has_char]. rewrite IH, orb_assoc. reflexivity.
Qed.

(** The paths of the places of the document [{a: 1}]: the empty path
    of the document itself, the names of its members, own and
    inherited, and below these paths with a dot or a bracket. *)
Lemma located_in_a_1 (path : string) (d : jsvalue) :
  located (JObj [("a", JNum 1)]) path d ->
  (path = "" /\ d = Decoded (JObj [("a", JNum 1)]))
  \/ has_char "." path = true
  \/ has_char "[" path = true
  \/ in_operator path (JObj [("a", JNum 1)]) = true.
Proof.
  induction 1 as [|path name d v Hd IH Hobj Hv|path d elements index v Hd IH He Hv].
  - left. auto.
  - unfold Validation.prop_path.
    destruct IH as [[-> ->]|IH].
    + change (str_truthy "") with false. cbv iota. right. right. right.
      destruct Hv as [[Hp _]|(x & Hin & _)]; [exact Hp|].
      simpl in Hin. destruct Hin as [E|[]]. inversion E. reflexivity.
    + assert (T : str_truthy path = true).
      { destruct path as [|c p]; [|reflexivity].
        destruct IH as [IH|[IH|IH]]; discriminate IH. }
      rewrite T. right. left. rewrite !has_char_app.
      cbn. rewrite orb_true_r. reflexivity.
  - right. right. left. unfold Validation.item_path. rewrite !has_char_app.
    cbn. rewrite orb_true_r. reflexivity.
Qed.

(** C7 as stated fails where an exception is caught: with the member
    schema [null] under [properties], the only entry of the result is
    ["Validation error: ..."], which is qualified by no path of the
    data. *)
Lemma validate_caught_entry_not_path_qualified :
  Validation.errors
    (sample_validate (JObj [("a", JNum 1)])
                     (JObj [("properties", JObj [("a", JNull)])]))
  = ["Validation error: Cannot read properties of null (reading 'type')"]
  /\ ~ Forall (path_qualified (JObj [("a", JNum 1)]))
         (Validation.errors
            (sample_validate (JObj [("a", JNum 1)])
                             (JObj [("properties", JObj [("a", JNull)])]))).
Proof.
  split; [reflexivity|].
  intros H. change (Validation.errors _) with
    ["Validation error: Cannot read properties of null (reading 'type')"] in H.
  inversion H as [|e l Hq _]. subst.
  destruct Hq as (path & d & message & Hloc & E).
  apply located_in_a_1 in Hloc.
  unfold Validation.path_label in E.
  destruct Hloc as [[-> _]|[Hc|[Hc|Hc]]].
  - discriminate E.
  - assert (X : has_char "."
                  "Validation error: Cannot read properties of null (reading 'type')"
                = true).
    { rewrite E. destruct path as [|c p]; [discriminate Hc|].
      change (str_truthy (String c p)) with true. cbv iota.
      rewrite has_char_app, Hc. reflexivity. }
    discriminate X.
  - assert (X : has_char "["
                  "Validation error: Cannot read properties of null (reading 'type')"
                = true).
    { rewrite E. destruct path as [|c p]; [discriminate Hc|].
      change (str_truthy (String c p)) with true. cbv iota.
      rewrite has_char_app, Hc. reflexivity. }
    discriminate X.
  - destruct path as [|c p]; [discriminate Hc|].
    change (str_truthy (String c p)) with true in E. cbn [append] in E.
    inversion E. subst c. vm_compute in Hc. discriminate Hc.
Qed.

Lemma null_passes_object_schema_witness :
  get_property (JObj [("type", JStr "object");
                      ("required", JArr [JStr "speakerUri"])]) "type"
  = JStr "object"
  /\ Validation.check_required integral_Number_print
       (get_property (JObj [("type", JStr "object");
                            ("required", JArr [JStr "speakerUri"])]) "required")
       JNull "" []
     = (Validation.Normal tt, []).
Proof.
  split; [reflexivity|].
  apply (null_passes_object_schema integral_Number_print plain_JSON_stringify
           no_RegExp_new
           [("type", JStr "object"); ("required", JArr [JStr "speakerUri"])]
           "" []).
  reflexivity.
Defined.

(** ** Events: the recognised tags *)

Lemma includes_In (l : list string) (s : string) :
  Event.includes l s = true <-> In s l.
Proof.
  unfold Event.includes. rewrite existsb_exists. split.
  - intros (x & Hx & E). apply String.eqb_eq in E. subst. exact Hx.
  - intros Hs. exists s. split; [exact Hs|apply String.eqb_refl].
Qed.

Lemma Event_new_eventType (o : BaseEventOptions.t) (e : Event.t) :
  Event.new o = Ok e ->
  Event.eventType e = BaseEventOptions.eventType o
  /\ In (Event.eventType e) Event.allowedEventTypes.
Proof.
  unfold Event.new.
  destruct (negb (str_truthy (BaseEventOptions.eventType o))
            || negb (Event.includes Event.allowedEventTypes
                       (BaseEventOptions.eventType o))) eqn:E; [discriminate|].
  apply orb_false_elim in E. destruct E as [_ E].
  apply negb_false_iff in E. apply includes_In in E.
  destruct (BaseEventOptions.to o) as [t0|]; simpl.
  - destruct (To.new t0); simpl; try discriminate.
    intros X. inversion X. subst. simpl. auto.
  - intros X. inversion X. subst. simpl. auto.
Qed.

Lemma allowed_is_truthy (s : string) :
  In s Event.allowedEventTypes -> str_truthy s = true.
Proof.
  intros Hs. simpl in Hs.
  repeat (destruct Hs as [<-|Hs]; [reflexivity|]). destruct Hs.
Qed.

Lemma To_new_ok (o : ToOptions.t) :
  is_ok (To.new o) = true <->
  opt_truthy (ToOptions.speakerUri o) = true
  \/ opt_truthy (ToOptions.serviceUrl o) = true.
Proof.
  unfold To.new, falsy.
  destruct (opt_truthy (ToOptions.speakerUri o)),
           (opt_truthy (ToOptions.serviceUrl o)); simpl; intuition congruence.
Qed.

Lemma Event_new_ok (o : BaseEventOptions.t) :
  is_ok (Event.new o) = true <->
  In (BaseEventOptions.eventType o) Event.allowedEventTypes
  /\ to_constructible (BaseEventOptions.to o).
Proof.
  split.
  - intros Hok. destruct (Event.new o) as [e| |] eqn:E; try discriminate.
    pose proof (Event_new_eventType o e E) as [E1 E2]. rewrite E1 in E2.
    split; [exact E2|].
    unfold Event.new in E.
    destruct (negb (str_truthy (BaseEventOptions.eventType o))
            || negb (Event.includes Event.allowedEventTypes
                       (BaseEventOptions.eventType o))); [discriminate|].
    destruct (BaseEventOptions.to o) as [t0|]; simpl; [|exact I].
    apply To_new_ok. destruct (To.new t0); simpl in *; congruence.
  - intros [Hty Hto]. unfold Event.new.
    rewrite (allowed_is_truthy _ Hty).
    apply includes_In in Hty. rewrite Hty. simpl.
    destruct (BaseEventOptions.to o) as [t0|]; simpl in *; [|reflexivity].
    apply To_new_ok in Hto. destruct (To.new t0); simpl in *; congruence.
Qed.

Lemma read_property_ok (data : json) (k : string) (v : json) :
  read_property data k = Ok v -> v = get_property data k.
Proof. destruct data; simpl; intros E; inversion E; reflexivity. Qed.

Lemma bind_ok {A B : Type} (r : result A) (k : A -> result B) (b : B) :
  bind r k = Ok b -> exists a, r = Ok a /\ k a = Ok b.
Proof. destruct r; simpl; intros E; try discriminate. eauto. Qed.

Ltac bind_inv H :=
  repeat match type of H with
         | bind ?r ?k = Ok _ =>
             let a := fresh "a" in
             let Ha := fresh "Ha" in
             apply bind_ok in H; destruct H as (a & Ha & H)
         | (if ?b then _ else _) = Ok _ =>
             let Hb := fresh "Hb" in
             destruct b eqn:Hb; [try discriminate H|try discriminate H]
         end.

Section EventFactory.

Context `{Host}.

Lemma BareEvent_fromObject_eventType (ty : string) (data : json) (e : Event.t) :
  BareEvent.fromObject ty data = Ok e -> Event.eventType e = ty.
Proof.
  unfold BareEvent.fromObject, BareEvent.new. intros E. bind_inv E.
  apply Event_new_eventType in E. tauto.
Qed.

Lemma UtteranceEvent_fromObject_eventType (data : json) (e : UtteranceEvent.t) :
  UtteranceEvent.fromObject data = Ok e ->
  Event.eventType (UtteranceEvent.base e) = "utterance".
Proof.
  unfold UtteranceEvent.fromObject. intros E. bind_inv E.
  unfold UtteranceEvent.new in E. bind_inv E.
  inversion E. subst. simpl.
  match goal with X : Event.new _ = Ok _ |- _ =>
    apply Event_new_eventType in X; tauto end.
Qed.

Lemma ContextEvent_fromObject_eventType (data : json) (e : ContextEvent.t) :
  ContextEvent.fromObject data = Ok e ->
  Event.eventType (ContextEvent.base e) = "context".
Proof.
  unfold ContextEvent.fromObject. intros E. bind_inv E.
  unfold ContextEvent.new in E. bind_inv E.
  inversion E. subst. simpl.
  match goal with X : Event.new _ = Ok _ |- _ =>
    apply Event_new_eventType in X; tauto end.
Qed.

Lemma GetManifestsEvent_fromObject_eventType (data : json)
    (e : GetManifestsEvent.t) :
  GetManifestsEvent.fromObject data = Ok e ->
  Event.eventType (GetManifestsEvent.base e) = "getManifests".
Proof.
  unfold GetManifestsEvent.fromObject. intros E. bind_inv E.
  unfold GetManifestsEvent.new in E. bind_inv E.
  inversion E. subst. simpl.
  match goal with X : Event.new _ = Ok _ |- _ =>
    apply Event_new_eventType in X; tauto end.
Qed.

Lemma PublishManifestsEvent_fromObject_eventType (data : json)
    (e : PublishManifestsEvent.t) :
  PublishManifestsEvent.fromObject data = Ok e ->
  Event.eventType (PublishManifestsEvent.base e) = "publishManifests".
Proof.
  unfold PublishManifestsEvent.fromObject. intros E. bind_inv E.
  unfold PublishManifestsEvent.new in E. bind_inv E.
  inversion E. subst. simpl.
  match goal with X : Event.new _ = Ok _ |- _ =>
    apply Event_new_eventType in X; tauto end.
Qed.

(** [createEvent] answers only to the twelve tags, and the event it
    builds carries the tag it was given. *)
Lemma createEvent_only_allowed (data : json) (e : Event.t) :
  Events.createEvent data = Ok e ->
  get_property data "eventType" = JStr (Event.eventType e)
  /\ In (Event.eventType e) Event.allowedEventTypes.
Proof.
  unfold Events.createEvent. intros E.
  apply bind_ok in E. destruct E as (v & R & E).
  apply read_property_ok in R. rewrite <- R.
  destruct v as [| | | |ty| |]; try discriminate.
  assert (Hty : Event.eventType e = ty).
  { repeat match type of E with
           | (if ?b then _ else _) = _ =>
               let Hb := fresh "Hb" in
               destruct b eqn:Hb;
               [apply String.eqb_eq in Hb; subst ty|]
           end;
      try discriminate;
      try (eapply BareEvent_fromObject_eventType; eassumption);
      apply bind_ok in E; destruct E as (x & Hx & E); inversion E; subst.
    - eapply UtteranceEvent_fromObject_eventType; eassumption.
    - eapply ContextEvent_fromObject_eventType; eassumption.
    - eapply GetManifestsEvent_fromObject_eventType; eassumption.
    - eapply PublishManifestsEvent_fromObject_eventType; eassumption. }
  rewrite Hty. split; [reflexivity|].
  revert E. clear.
  repeat match goal with
         | |- (if String.eqb ty ?s then _ else _) = _ -> _ =>
             let Hb := fresh "Hb" in
             destruct (String.eqb ty s) eqn:Hb;
             [apply String.eqb_eq in Hb; subst ty; intros _; simpl; tauto|]
         end.
  discriminate.
Qed.

(** For the eight classes without parameters, [createEvent] builds the
    event exactly when the target can be built. *)
Lemma createEvent_bare (data : json) (tag : string) (to : option ToOptions.t) :
  In tag ["invite"; "uninvite"; "declineInvite"; "bye"; "requestFloor";
          "grantFloor"; "revokeFloor"; "yieldFloor"] ->
  get_property data "eventType" = JStr tag ->
  BareEvent.to_of data = Ok to ->
  (is_ok (Events.createEvent data) = true <-> to_constructible to).
Proof.
  intros Hin Hty Hto.
  assert (R : read_property data "eventType" = Ok (JStr tag)).
  { unfold BareEvent.to_of in Hto. destruct data; try discriminate Hto;
      cbn [read_property]; rewrite Hty; reflexivity. }
  unfold Events.createEvent. rewrite R. cbn [bind].
  assert (B : is_ok (BareEvent.fromObject tag data) = true <-> to_constructible to).
  { unfold BareEvent.fromObject. rewrite Hto. cbn [bind]. unfold BareEvent.new.
    rewrite Event_new_ok. cbn [BaseEventOptions.eventType BaseEventOptions.to].
    split; [tauto|]. intros C. split; [|exact C].
    simpl in Hin |- *. tauto. }
  simpl in Hin.
  repeat (destruct Hin as [<-|Hin]; [exact B|]). destruct Hin.
Qed.

(** On data without a [parameters] member, the same holds for every
    class but [UtteranceEvent], which asks for a dialog event. *)
Lemma createEvent_without_parameters (data : json) (tag : string)
    (to : option ToOptions.t) :
  In tag Event.allowedEventTypes ->
  get_property data "eventType" = JStr tag ->
  get_property data "parameters" = JUndefined ->
  BareEvent.to_of data = Ok to ->
  if String.eqb tag "utterance"
  then Events.createEvent data
       = Throw "UtteranceEvent requires parameters with dialogEvent"
  else is_ok (Events.createEvent data) = true <-> to_constructible to.
Proof.
  intros Hin Hty Hp Hto.
  assert (R : forall k, read_property data k = Ok (get_property data k)).
  { unfold BareEvent.to_of in Hto. destruct data; try discriminate Hto;
      reflexivity. }
  assert (N : forall parameters reason,
            is_ok (Event.new {| BaseEventOptions.eventType := tag;
                                BaseEventOptions.to := to;
                                BaseEventOptions.reason := reason;
                                BaseEventOptions.parameters := parameters |}) = true
            <-> to_constructible to).
  { intros parameters reason. rewrite Event_new_ok.
    cbn [BaseEventOptions.eventType BaseEventOptions.to]. tauto. }
  assert (F : forall (A : Type) (o : BaseEventOptions.t) (f : Event.t -> A),
            BaseEventOptions.eventType o = tag ->
            BaseEventOptions.to o = to ->
            is_ok (b <- Event.new o ;; Ok (f b)) = true <-> to_constructible to).
  { intros A o f E1 E2. rewrite <- (N (BaseEventOptions.parameters o)
                                      (BaseEventOptions.reason o)).
    rewrite <- E1, <- E2. destruct o as [ty t0 re pa]; cbn.
    destruct (Event.new _); reflexivity. }
  assert (K : forall (A : Type) (r : result A) (f : A -> Event.t),
            is_ok (a <- r ;; Ok (f a)) = is_ok r).
  { intros A [a| |] f; reflexivity. }
  assert (U : Events.createEvent data
              = (deventType <- Ok (JStr tag) ;;
                 match deventType with
                 | JStr eventType =>
                     if String.eqb eventType "utterance" then
                       e <- UtteranceEvent.fromObject data ;; Ok (UtteranceEvent.base e)
                     else if String.eqb eventType "context" then
                       e <- ContextEvent.fromObject data ;; Ok (ContextEvent.base e)
                     else if String.eqb eventType "invite"
                     then InviteEvent.fromObject data
                     else if String.eqb eventType "uninvite"
                     then UninviteEvent.fromObject data
                     else if String.eqb eventType "declineInvite"
                     then DeclineInviteEvent.fromObject data
                     else if String.eqb eventType "bye" then ByeEvent.fromObject data
                     else if String.eqb eventType "getManifests" then
                       e <- GetManifestsEvent.fromObject data ;;
                       Ok (GetManifestsEvent.base e)
                     else if String.eqb eventType "publishManifests" then
                       e <- PublishManifestsEvent.fromObject data ;;
                       Ok (PublishManifestsEvent.base e)
                     else if String.eqb eventType "requestFloor"
                     then RequestFloorEvent.fromObject data
                     else if String.eqb eventType "grantFloor"
                     then GrantFloorEvent.fromObject data
                     else if String.eqb eventType "revokeFloor"
                     then RevokeFloorEvent.fromObject data
                     else if String.eqb eventType "yieldFloor"
                     then YieldFloorEvent.fromObject data
                     else Throw ("Unknown event type: " ++ eventType)
                 | tag =>
                     Throw ("Unknown event type: "
                            ++ Validation.toString String_of_number tag)
                 end)).
  { unfold Events.createEvent. rewrite (R "eventType"), Hty. reflexivity. }
  simpl in Hin.
  destruct Hin as [<-|Hin].
  { rewrite U. cbn [bind String.eqb Ascii.eqb Bool.eqb].
    unfold UtteranceEvent.fromObject. rewrite (R "parameters"), Hp. reflexivity. }
  destruct Hin as [<-|Hin].
  { rewrite U. cbn [bind String.eqb Ascii.eqb Bool.eqb]. rewrite (K _ _ ContextEvent.base).
    unfold ContextEvent.fromObject. rewrite (R "parameters"), Hp, Hto.
    cbn [bind truthy get_property assoc has_property].
    destruct (get_property data "reason") as [| | | |r| |];
      cbn [bind as_opt_string]; destruct to as [t0|]; cbn [bind];
      unfold ContextEvent.new; cbn [ContextEventOptions.dialogHistory mapM bind
        ContextEventOptions.additionalParams ContextEventOptions.to
        ContextEventOptions.reason Object_entries filter app];
      apply F; reflexivity. }
  destruct Hin as [<-|Hin]; [cbn [String.eqb Ascii.eqb Bool.eqb];
                              match type of Hty with
                              | _ = JStr ?t =>
                                  exact (createEvent_bare data t to
                                           ltac:(cbn; auto 12) Hty Hto)
                              end|].
  destruct Hin as [<-|Hin]; [cbn [String.eqb Ascii.eqb Bool.eqb];
                              match type of Hty with
                              | _ = JStr ?t =>
                                  exact (createEvent_bare data t to
                                           ltac:(cbn; auto 12) Hty Hto)
                              end|].
  destruct Hin as [<-|Hin]; [cbn [String.eqb Ascii.eqb Bool.eqb];
                              match type of Hty with
                              | _ = JStr ?t =>
                                  exact (createEvent_bare data t to
                                           ltac:(cbn; auto 12) Hty Hto)
                              end|].
  destruct Hin as [<-|Hin]; [cbn [String.eqb Ascii.eqb Bool.eqb];
                              match type of Hty with
                              | _ = JStr ?t =>
                                  exact (createEvent_bare data t to
                                           ltac:(cbn; auto 12) Hty Hto)
                              end|].
  destruct Hin as [<-|Hin].
  { rewrite U. cbn [bind String.eqb Ascii.eqb Bool.eqb]. rewrite (K _ _ GetManifestsEvent.base).
    unfold GetManifestsEvent.fromObject. rewrite (R "parameters"), Hp, Hto.
    cbn [bind]. unfold GetManifestsEvent.new.
    cbn [GetManifestsEventOptions.recommendScope GetManifestsEventOptions.to
         GetManifestsEventOptions.reason].
    apply F; reflexivity. }
  destruct Hin as [<-|Hin].
  { rewrite U. cbn [bind String.eqb Ascii.eqb Bool.eqb]. rewrite (K _ _ PublishManifestsEvent.base).
    unfold PublishManifestsEvent.fromObject. rewrite (R "parameters"), Hp, Hto.
    cbn [bind truthy get_property assoc PublishManifestsEvent.manifests_of].
    unfold PublishManifestsEvent.new.
    cbn [PublishManifestsEventOptions.servicingManifests
         PublishManifestsEventOptions.discoveryManifests mapM bind
         PublishManifestsEventOptions.to PublishManifestsEventOptions.reason map].
    apply F; reflexivity. }
  destruct Hin as [<-|Hin]; [cbn [String.eqb Ascii.eqb Bool.eqb];
                              match type of Hty with
                              | _ = JStr ?t =>
                                  exact (createEvent_bare data t to
                                           ltac:(cbn; auto 12) Hty Hto)
                              end|].
  destruct Hin as [<-|Hin]; [cbn [String.eqb Ascii.eqb Bool.eqb];
                              match type of Hty with
                              | _ = JStr ?t =>
                                  exact (createEvent_bare data t to
                                           ltac:(cbn; auto 12) Hty Hto)
                              end|].
  destruct Hin as [<-|Hin]; [cbn [String.eqb Ascii.eqb Bool.eqb];
                              match type of Hty with
                              | _ = JStr ?t =>
                                  exact (createEvent_bare data t to
                                           ltac:(cbn; auto 12) Hty Hto)
                              end|].
  destruct Hin as [<-|Hin]; [cbn [String.eqb Ascii.eqb Bool.eqb];
                              match type of Hty with
                              | _ = JStr ?t =>
                                  exact (createEvent_bare data t to
                                           ltac:(cbn; auto 12) Hty Hto)
                              end|].
  destruct Hin.
Qed.

End EventFactory.

(** ** Round trips of the envelope classes *)

Arguments str_truthy : simpl never.

Lemma mapM_ok {A B : Type} (f : A -> result B) (g : A -> B) (l : list A) :
  (forall a, In a l -> f a = Ok (g a)) -> mapM f l = Ok (map g l).
Proof.
  induction l as [|a l IH]; intros Hf; simpl; [reflexivity|].
  rewrite (Hf a) by (left; reflexivity). simpl.
  rewrite IH by (intros b Hb; apply Hf; right; exact Hb). reflexivity.
Qed.

Lemma mapM_map {A B C : Type} (f : B -> result C) (h : A -> B) (l : list A) :
  mapM f (map h l) = mapM (fun a => f (h a)) l.
Proof. induction l as [|a l IH]; simpl; [reflexivity|]. rewrite IH. reflexivity. Qed.

Lemma mapM_inv {A B : Type} (f : A -> result B) (l : list A) (l' : list B) :
  mapM f l = Ok l' -> Forall2 (fun a b => f a = Ok b) l l'.
Proof.
  revert l'. induction l as [|a l IH]; simpl; intros l' E.
  - inversion E. constructor.
  - apply bind_ok in E. destruct E as (b & Hb & E).
    apply bind_ok in E. destruct E as (bs & Hbs & E).
    inversion E. subst. constructor; auto.
Qed.

Lemma forallb_Forall2 {A B : Type} (R : A -> B -> Prop) (p : B -> bool)
    (l : list A) (l' : list B) :
  Forall2 R l l' -> (forall a b, R a b -> p b = true) -> forallb p l' = true.
Proof.
  induction 1; intros Hp; simpl; [reflexivity|].
  rewrite (Hp _ _ H), IHForall2; auto.
Qed.

Lemma as_string_array_JStrings (l : list string) :
  as_string_array (JStrings l) = Ok l.
Proof.
  unfold as_string_array, JStrings. simpl. rewrite mapM_map.
  rewrite (mapM_ok _ (fun s => s)); [rewrite map_id; reflexivity|].
  reflexivity.
Qed.

Lemma as_opt_string_array_JStrings (l : list string) :
  as_opt_string_array (JStrings l) = Ok (Some l).
Proof.
  unfold as_opt_string_array. change (JStrings l) with (JArr (map JStr l)).
  cbv iota beta. change (JArr (map JStr l)) with (JStrings l).
  rewrite as_string_array_JStrings. reflexivity.
Qed.

Lemma opt_truthy_Some (o : option string) :
  opt_truthy o = true -> exists s, o = Some s /\ str_truthy s = true.
Proof. destruct o; simpl; [eauto|discriminate]. Qed.

Lemma member_truthy_shown (o : option string) (k : string) :
  member_truthy (shown o) k = member_truthy o k.
Proof.
  unfold shown, member_truthy. destruct o as [s|]; simpl; [|reflexivity].
  destruct (str_truthy s) eqn:E; simpl; [rewrite E|]; reflexivity.
Qed.

Lemma shown_shown (o : option string) : shown (shown o) = shown o.
Proof.
  unfold shown. destruct o as [s|]; simpl; [|reflexivity].
  destruct (str_truthy s) eqn:E; simpl; [rewrite E|]; reflexivity.
Qed.

(** Splitting a conjunction of boolean facts into its parts. *)
Ltac andb_split H :=
  repeat match type of H with
         | (_ && _)%bool = true =>
             let H1 := fresh H in
             apply andb_prop in H; destruct H as [H H1]
         end.

(** *** Identification *)

Lemma Identification_new_wf (o : IdentificationOptions.t) (i : Identification.t) :
  Identification.new o = Ok i -> Identification_wf i = true.
Proof.
  unfold Identification.new, Identification_wf. intros E.
  repeat match type of E with
         | (if negb ?b then _ else _) = _ => destruct b eqn:?; simpl in E;
                                              try discriminate E
         end.
  inversion E. subst. clear E. simpl.
  repeat match goal with H : _ = true |- _ => rewrite H; clear H end. simpl.
  destruct (IdentificationOptions.department o) as [d|]; simpl;
    [destruct (str_truthy d) eqn:Ed; simpl; rewrite ?Ed|];
    (destruct (IdentificationOptions.role o) as [r|]; simpl;
     [destruct (str_truthy r) eqn:Er; simpl; rewrite ?Er|]); reflexivity.
Qed.

Lemma Identification_round_trip (i : Identification.t) :
  Identification_wf i = true ->
  Utils.hasRequiredProperties (Identification.toObject i)
    Identification.required_fields = true
  /\ Identification.options_of_object (Identification.toObject i)
     = Ok (Identification_options i)
  /\ Identification.new (Identification_options i) = Ok i.
Proof.
  unfold Identification_wf. intros W. andb_split W.
  destruct i as [su sv org cn dep role syn]. simpl in *.
  apply opt_truthy_Some in W4, W3, W2.
  destruct W4 as (org' & -> & Horg), W3 as (cn' & -> & Hcn), W2 as (syn' & -> & Hsyn).
  unfold Identification.toObject, Identification.options_of_object,
    Identification.new, Identification_options, member_truthy. simpl.
  rewrite Horg, Hcn, Hsyn, W, W5. simpl.
  destruct dep as [d|], role as [r|]; simpl in *;
    rewrite ?W1, ?W0; simpl; auto.
Qed.

(** *** Capability and Manifest *)

Lemma Capability_new_wf (o : CapabilityOptions.t) (c : Capability.t) :
  Capability.new o = Ok c -> Capability_wf c = true.
Proof.
  unfold Capability.new, Capability_wf. intros E.
  destruct (CapabilityOptions.keyphrases o) as [|k ks] eqn:Ek; simpl in E;
    [discriminate|].
  destruct (CapabilityOptions.descriptions o) as [|d ds] eqn:Ed; simpl in E;
    [discriminate|].
  inversion E. subst. simpl. reflexivity.
Qed.

Lemma has_required_cons (fields : list (string * json)) (k : string) (ks : list string) :
  Utils.hasRequiredProperties (JObj fields) (k :: ks)
  = (in_operator k (JObj fields)
     && negb (is_undefined_value (member (JObj fields) k))
     && Utils.hasRequiredProperties (JObj fields) ks)%bool.
Proof. reflexivity. Qed.

Lemma Capability_round_trip (c : Capability.t) :
  Capability_wf c = true ->
  Capability.options_of_object (Capability.toObject c) = Ok (Capability_options c)
  /\ Capability.as_CapabilityOptions (Capability.toObject c)
     = Ok (Capability_options c)
  /\ Capability.new (Capability_options c) = Ok c.
Proof.
  unfold Capability_wf. intros W. andb_split W.
  destruct c as [ks ds langs [inp outp]]. simpl in *.
  assert (A : Capability.as_CapabilityOptions
                (Capability.toObject
                   {| Capability.keyphrases := ks; Capability.descriptions := ds;
                      Capability.languages := langs;
                      Capability.supportedLayers :=
                        {| SupportedLayers.input := inp;
                           SupportedLayers.output := outp |} |})
              = Ok (Capability_options
                      {| Capability.keyphrases := ks; Capability.descriptions := ds;
                         Capability.languages := langs;
                         Capability.supportedLayers :=
                           {| SupportedLayers.input := inp;
                              SupportedLayers.output := outp |} |})).
  { unfold Capability.as_CapabilityOptions, Capability.toObject, Capability_options,
      SupportedLayers.toObject, SupportedLayers.as_SupportedLayersOptions.
    cbn [get_property assoc app String.eqb Ascii.eqb Bool.eqb
         Capability.keyphrases Capability.descriptions Capability.languages
         Capability.supportedLayers SupportedLayers.input SupportedLayers.output].
    rewrite !as_string_array_JStrings. cbn [bind].
    rewrite !as_opt_string_array_JStrings. cbn [bind].
    destruct langs as [l|]; cbn [member_opt get_property assoc String.eqb
                                  Ascii.eqb Bool.eqb];
      [rewrite as_opt_string_array_JStrings|]; reflexivity. }
  split; [|split; [exact A|]].
  - unfold Capability.options_of_object.
    replace (Utils.hasRequiredProperties _ _) with true; [exact A|].
    unfold JStrings. reflexivity.
  - unfold Capability.new, Capability_options. simpl.
    destruct ks; [discriminate|]. destruct ds; [discriminate|]. reflexivity.
Qed.


Lemma Manifest_new_wf (o : ManifestOptions.t) (m : Manifest.t) :
  Manifest.new o = Ok m -> Manifest_wf m = true.
Proof.
  unfold Manifest.new, Manifest_wf. intros E. bind_inv E.
  inversion E. subst. simpl.
  rewrite (Identification_new_wf _ _ Ha). simpl.
  apply mapM_inv in Ha0.
  eapply forallb_Forall2; [exact Ha0|].
  intros x y Hxy. eapply Capability_new_wf. exact Hxy.
Qed.

Lemma forallb_In {A : Type} (p : A -> bool) (l : list A) (a : A) :
  forallb p l = true -> In a l -> p a = true.
Proof. intros H Ha. rewrite forallb_forall in H. auto. Qed.

Lemma Manifest_new_options (m : Manifest.t) :
  Manifest_wf m = true -> Manifest.new (Manifest_options m) = Ok m.
Proof.
  unfold Manifest_wf. intros W. andb_split W.
  unfold Manifest.new, Manifest_options. simpl.
  destruct (Identification_round_trip _ W) as (_ & _ & ->). simpl.
  rewrite mapM_map.
  rewrite (mapM_ok _ (fun c => c)).
  - rewrite map_id. destruct m. reflexivity.
  - intros c Hc. apply Capability_round_trip. eapply forallb_In; eauto.
Qed.

Lemma Manifest_as_options (m : Manifest.t) :
  Manifest_wf m = true ->
  Manifest.as_ManifestOptions (Manifest.toObject m) = Ok (Manifest_options m).
Proof.
  unfold Manifest_wf. intros W. andb_split W.
  unfold Manifest.as_ManifestOptions, Manifest.toObject.
  cbn [get_property assoc String.eqb Ascii.eqb Bool.eqb].
  destruct (Identification_round_trip _ W) as (_ & -> & _). cbn [bind as_array].
  rewrite mapM_map.
  rewrite (mapM_ok _ Capability_options); [reflexivity|].
  intros c Hc. apply Capability_round_trip. eapply forallb_In; eauto.
Qed.

Lemma Manifest_options_of_object (m : Manifest.t) :
  Manifest_wf m = true ->
  Manifest.options_of_object (Manifest.toObject m) = Ok (Manifest_options m).
Proof.
  unfold Manifest_wf. intros W. andb_split W.
  unfold Manifest.options_of_object, Manifest.toObject.
  rewrite has_required_cons.
  cbn [has_property get_property assoc String.eqb Ascii.eqb Bool.eqb
       is_undefined Identification.toObject negb andb].
  rewrite has_required_cons.
  cbn [has_property get_property assoc String.eqb Ascii.eqb Bool.eqb
       is_undefined negb andb].
  change (Utils.hasRequiredProperties _ []) with true. cbn [negb].
  fold (Identification.toObject (Manifest.identification m)).
  destruct (Identification_round_trip _ W) as (-> & -> & _). cbn [negb bind].
  rewrite mapM_map.
  rewrite (mapM_ok _ Capability_options); [reflexivity|].
  intros c Hc. apply Capability_round_trip. eapply forallb_In; eauto.
Qed.

(** The round trip of a manifest gives the manifest back. *)
Lemma Manifest_round_trip (m : Manifest.t) :
  Manifest_wf m = true -> Manifest.fromObject (Manifest.toObject m) = Ok m.
Proof.
  intros W. unfold Manifest.fromObject.
  rewrite Manifest_options_of_object by exact W. simpl.
  apply Manifest_new_options. exact W.
Qed.

(** *** Conversant and Conversation *)

Lemma Conversant_new_wf (o : ConversantOptions.t) (c : Conversant.t) :
  Conversant.new o = Ok c -> Conversant_wf c = true.
Proof.
  unfold Conversant.new, Conversant_wf. intros E. bind_inv E.
  inversion E. subst. simpl. eapply Identification_new_wf; eauto.
Qed.

Lemma Conversant_options_of_object (c : Conversant.t) :
  Conversant_wf c = true ->
  Conversant.options_of_object (Conversant.toObject c) = Ok (Conversant_options c).
Proof.
  unfold Conversant_wf. intros W.
  unfold Conversant.options_of_object, Conversant.toObject, Conversant_options.
  cbn [get_property assoc app String.eqb Ascii.eqb Bool.eqb].
  destruct (Identification_round_trip _ W) as (_ & -> & _). cbn [bind].
  destruct (Conversant.persistentState c) as [|kv ps]; reflexivity.
Qed.

Lemma Conversant_round_trip (c : Conversant.t) :
  Conversant_wf c = true ->
  Conversant.checked_options_of_object (Conversant.toObject c)
  = Ok (Conversant_options c)
  /\ Conversant.options_of c = Ok (Conversant_options c)
  /\ Conversant.new (Conversant_options c) = Ok c.
Proof.
  intros W. pose proof (Conversant_options_of_object c W) as O.
  unfold Conversant_wf in W.
  destruct (Identification_round_trip _ W) as (R & _ & N).
  split; [|split].
  - unfold Conversant.checked_options_of_object.
    replace (Utils.hasRequiredProperties (Conversant.toObject c) ["identification"])
      with true by reflexivity.
    cbn [negb].
    replace (get_property (Conversant.toObject c) "identification")
      with (Identification.toObject (Conversant.identification c)) by reflexivity.
    rewrite R. exact O.
  - unfold Conversant.options_of.
    replace (get_property (Conversant.toObject c) "identification")
      with (Identification.toObject (Conversant.identification c)) by reflexivity.
    rewrite R. exact O.
  - unfold Conversant.new, Conversant_options. simpl. rewrite N. simpl.
    destruct c as [i ps]. simpl. destruct ps; reflexivity.
Qed.

Lemma Conversation_new_wf (o : ConversationOptions.t) (c : Conversation.t) :
  Conversation.new o = Ok c -> Conversation_wf c = true.
Proof.
  unfold Conversation.new, Conversation_wf. intros E. bind_inv E.
  inversion E. subst. simpl.
  apply negb_false_iff in Hb. rewrite Hb. simpl.
  apply mapM_inv in Ha.
  eapply forallb_Forall2; [exact Ha|].
  intros x y Hxy. eapply Conversant_new_wf. exact Hxy.
Qed.

Lemma Conversation_round_trip (c : Conversation.t) :
  Conversation_wf c = true ->
  Conversation.fromObject (Conversation.toObject c) = Ok c
  /\ Conversation.options_of c = Ok (Conversation_options c)
  /\ Conversation.new (Conversation_options c) = Ok c.
Proof.
  unfold Conversation_wf. intros W. andb_split W.
  assert (N : Conversation.new (Conversation_options c) = Ok c).
  { unfold Conversation.new, Conversation_options. simpl. rewrite W. simpl.
    destruct c as [id cs]. simpl in *.
    destruct cs as [|c0 cs]; [reflexivity|].
    cbn [Nat.ltb Nat.leb length]. rewrite mapM_map.
    rewrite (mapM_ok _ (fun x => x)); [rewrite map_id; reflexivity|].
    intros x Hx.
    exact (proj2 (proj2 (Conversant_round_trip x (forallb_In _ _ _ W0 Hx)))). }
  assert (M : forall f,
             (forall x, Conversant_wf x = true -> f x = Ok (Conversant_options x)) ->
             mapM f (Conversation.conversants c)
             = Ok (map Conversant_options (Conversation.conversants c))).
  { intros f Hf. apply mapM_ok. intros x Hx. apply Hf. eapply forallb_In; eauto. }
  split; [|split; [|exact N]].
  - unfold Conversation.fromObject, Conversation.toObject.
    replace (Utils.hasRequiredProperties _ ["id"]) with true by reflexivity.
    cbn [negb].
    destruct (Conversation.conversants c) as [|c0 cs] eqn:Ecs.
    + cbn. rewrite <- N. unfold Conversation_options. rewrite Ecs. reflexivity.
    + cbn [length Nat.ltb Nat.leb member_if app get_property assoc
           String.eqb Ascii.eqb Bool.eqb].
      rewrite mapM_map.
      rewrite (mapM_ok _ Conversant_options).
      * cbn [bind as_string].
        rewrite <- N. unfold Conversation_options.
        rewrite Ecs. reflexivity.
      * intros x Hx.
        exact (proj1 (Conversant_round_trip x (forallb_In _ _ _ W0 Hx))).
  - unfold Conversation.options_of, Conversation_options.
    destruct (0 <? length (Conversation.conversants c))%nat; [|reflexivity].
    rewrite M; [reflexivity|]. intros x Hx.
    exact (proj1 (proj2 (Conversant_round_trip x Hx))).
Qed.

(** *** Schema and Sender *)

Lemma Schema_round_trip (s : Schema.t) :
  Schema.fromObject (Schema.toObject s) = Ok (Schema_shown s)
  /\ Schema.toObject (Schema_shown s) = Schema.toObject s
  /\ Schema.new (Schema.options_of (Schema_shown s)) = Schema_shown s.
Proof.
  destruct s as [v [u|]]; unfold Schema.fromObject, Schema.toObject, Schema_shown,
    Schema.options_of, Schema.new, shown, member_truthy; simpl;
    [destruct (str_truthy u) eqn:E; simpl; rewrite ?E|]; auto.
Qed.

Lemma Sender_new_wf (o : SenderOptions.t) (s : Sender.t) :
  Sender.new o = Ok s -> Sender_wf s = true.
Proof.
  unfold Sender.new, Sender_wf. intros E. bind_inv E. inversion E. subst. simpl.
  apply negb_false_iff in Hb, Hb0. rewrite Hb, Hb0. reflexivity.
Qed.

Lemma Sender_round_trip (s : Sender.t) :
  Sender_wf s = true ->
  Sender.fromObject (Sender.toObject s) = Ok (Sender_shown s)
  /\ Sender.toObject (Sender_shown s) = Sender.toObject s
  /\ Sender.new (Sender.options_of (Sender_shown s)) = Ok (Sender_shown s).
Proof.
  unfold Sender_wf. intros W. andb_split W.
  destruct s as [u [v|]];
    unfold Sender.fromObject, Sender.toObject, Sender_shown, Sender.options_of,
      Sender.new, shown, member_truthy; simpl in *;
    [destruct (str_truthy v) eqn:E; simpl; rewrite ?E|]; rewrite ?W, ?W0; simpl;
    auto.
Qed.

(** *** To and Event *)

Lemma To_new_wf (o : ToOptions.t) (t0 : To.t) :
  To.new o = Ok t0 -> To_wf t0 = true.
Proof.
  unfold To.new, To_wf, falsy. intros E. bind_inv E. inversion E. subst. simpl.
  destruct (opt_truthy (ToOptions.speakerUri o)),
           (opt_truthy (ToOptions.serviceUrl o)); simpl in *; congruence.
Qed.

Lemma To_round_trip (t0 : To.t) :
  To_wf t0 = true ->
  To.as_ToOptions (To.toObject t0) = Ok (To_options t0)
  /\ To.fromObject (To.toObject t0) = Ok (To_shown t0)
  /\ To.new (To_options t0) = Ok (To_shown t0)
  /\ To.toObject (To_shown t0) = To.toObject t0
  /\ To_wf (To_shown t0) = true
  /\ To_options (To_shown t0) = To_options t0.
Proof.
  unfold To_wf. intros W.
  destruct t0 as [[u|] [v|] p]; simpl in W; try discriminate W;
    unfold To.as_ToOptions, To.fromObject, To.toObject, To_options, To_shown,
      To.new, To_wf, shown, member_truthy, falsy; simpl in *;
    repeat match goal with
           | |- context [str_truthy ?s] =>
               let E := fresh "E" in
               destruct (str_truthy s) eqn:E; simpl in *; rewrite ?E; simpl
           end;
    try discriminate W; destruct p; simpl; rewrite ?E, ?E0; simpl; auto 10.
Qed.

Lemma Event_new_wf (o : BaseEventOptions.t) (e : Event.t) :
  Event.new o = Ok e -> Event_wf e = true.
Proof.
  intros E. unfold Event_wf.
  destruct (Event_new_eventType o e E) as [_ Hin].
  apply includes_In in Hin. rewrite Hin. simpl.
  unfold Event.new in E. bind_inv E. inversion E. subst. simpl.
  destruct (BaseEventOptions.to o) as [t0|]; simpl in Ha.
  - bind_inv Ha. inversion Ha. subst. eapply To_new_wf; eauto.
  - inversion Ha. reflexivity.
Qed.

Lemma get_property_members (k : string) (a b : list (string * json)) :
  get_property (JObj (a ++ b)) k
  = match assoc k a with
    | Some v => v
    | None => get_property (JObj b) k
    end.
Proof.
  simpl. induction a as [|[k' v] a IH]; simpl; [reflexivity|].
  destruct (String.eqb k' k); auto.
Qed.

Lemma Event_toObject_shown (e : Event.t) :
  Event_wf e = true -> Event.toObject (Event_shown e) = Event.toObject e.
Proof.
  unfold Event_wf. intros W. andb_split W.
  unfold Event.toObject, Event_shown. simpl.
  rewrite member_truthy_shown.
  destruct (Event.to e) as [t0|]; simpl; [|reflexivity].
  destruct (To_round_trip t0 W0) as (_ & _ & _ & -> & _). reflexivity.
Qed.

Lemma Event_shown_wf (e : Event.t) :
  Event_wf e = true -> Event_wf (Event_shown e) = true.
Proof.
  unfold Event_wf, Event_shown. intros W. andb_split W.
  cbn [Event.eventType Event.to]. rewrite W. cbn [andb].
  destruct (Event.to e) as [t0|]; cbn [option_map]; [|reflexivity].
  apply (To_round_trip t0 W0).
Qed.

Lemma Event_new_options (e : Event.t) :
  Event_wf e = true -> Event.new (Event_options e) = Ok (Event_shown e).
Proof.
  unfold Event_wf. intros W. andb_split W.
  unfold Event.new, Event_options.
  cbn [BaseEventOptions.eventType BaseEventOptions.to BaseEventOptions.reason
       BaseEventOptions.parameters].
  rewrite W. apply includes_In in W. rewrite (allowed_is_truthy _ W).
  cbn [negb orb].
  destruct (Event.to e) as [t0|] eqn:Et; cbn [option_map].
  - destruct (To_round_trip t0 W0) as (_ & _ & -> & _). cbn [bind].
    unfold Event_shown. rewrite Et. reflexivity.
  - unfold Event_shown. rewrite Et. reflexivity.
Qed.

Lemma Event_options_of_shown (e : Event.t) :
  Event_wf e = true ->
  Event.options_of (Event_shown e) = Ok (Event_options e).
Proof.
  unfold Event_wf. intros W. andb_split W.
  unfold Event.options_of, Event_options, Event_shown. simpl.
  destruct (Event.to e) as [t0|]; simpl.
  - destruct (To_round_trip t0 W0) as (A & _ & _ & T & W' & O).
    rewrite T, A. simpl. fold (shown (shown (Event.reason e))).
    rewrite shown_shown. reflexivity.
  - fold (shown (shown (Event.reason e))). rewrite shown_shown. reflexivity.
Qed.

Lemma Event_round_trip (e : Event.t) :
  Event_wf e = true ->
  Event.fromObject (Event.toObject e) = Ok (Event_shown e).
Proof.
  intros W0. pose proof (Event_new_options e W0) as N.
  unfold Event_wf in W0. andb_split W0.
  unfold Event.fromObject, Event.toObject.
  replace (Utils.hasRequiredProperties _ ["eventType"]) with true by reflexivity.
  cbn [negb app get_property assoc String.eqb Ascii.eqb Bool.eqb].
  rewrite W0. cbn [negb].
  rewrite <- N. unfold Event_options.
  destruct e as [ty to reason params]. cbn [Event.eventType Event.to Event.reason
    Event.parameters] in *.
  assert (T : (let dto := match assoc "to" (member_opt to "to" To.toObject) with
                          | Some v => v | None => JUndefined end in
               if truthy dto && String.eqb (typeof dto) "object"
               then o <- To.options_of_object dto ;; Ok (Some o)
               else Ok None) = Ok (option_map To_options to)).
  { destruct to as [t0|]; [|reflexivity].
    cbn [member_opt assoc String.eqb Ascii.eqb Bool.eqb option_map].
    change (truthy (To.toObject t0)) with true.
    change (typeof (To.toObject t0)) with "object".
    cbv beta zeta. cbn [andb String.eqb Ascii.eqb Bool.eqb].
    unfold To.options_of_object.
    destruct (To_round_trip t0 W1) as (A & F & _ & T & _ & O).
    rewrite F. cbn [bind]. rewrite T, A. reflexivity. }
  destruct to as [t0|], reason as [r|], params as [|p ps];
    cbn [member_opt member_truthy member_if length Nat.ltb Nat.leb app
         get_property assoc String.eqb Ascii.eqb Bool.eqb option_map] in *;
    try (destruct (str_truthy r) eqn:Er;
         cbn [member_if app get_property assoc String.eqb Ascii.eqb Bool.eqb]);
    cbv zeta in T; try rewrite T; unfold shown; cbn [opt_truthy bind];
    rewrite ?Er; reflexivity.
Qed.

(** *** Envelope *)

Lemma Envelope_new_wf (o : EnvelopeOptions.t) (e : Envelope.t) :
  Envelope.new o = Ok e -> Envelope_wf e = true.
Proof.
  unfold Envelope.new, Envelope_wf. intros E. bind_inv E.
  inversion E. subst. simpl.
  rewrite (Conversation_new_wf _ _ Ha), (Sender_new_wf _ _ Ha0). simpl.
  apply mapM_inv in Ha1.
  eapply forallb_Forall2; [exact Ha1|].
  intros x y Hxy. eapply Event_new_wf. exact Hxy.
Qed.

Lemma Envelope_toObject_shown (e : Envelope.t) :
  Envelope_wf e = true -> Envelope.toObject (Envelope_shown e) = Envelope.toObject e.
Proof.
  unfold Envelope_wf. intros W. andb_split W.
  unfold Envelope.toObject, Envelope_shown. simpl.
  rewrite (proj1 (proj2 (Schema_round_trip (Envelope.schema e)))).
  rewrite (proj1 (proj2 (Sender_round_trip _ W1))).
  rewrite map_map.
  rewrite (map_ext_in _ Event.toObject); [reflexivity|].
  intros x Hx. apply Event_toObject_shown. eapply forallb_In; eauto.
Qed.

Lemma Envelope_round_trip (e : Envelope.t) :
  Envelope_wf e = true ->
  Envelope.fromObject (Envelope.toObject e) = Ok (Envelope_shown e).
Proof.
  unfold Envelope_wf. intros W. andb_split W.
  unfold Envelope.fromObject.
  replace (Utils.hasRequiredProperties (Envelope.toObject e) _) with true
    by reflexivity.
  unfold Envelope.toObject.
  cbn [negb get_property assoc String.eqb Ascii.eqb Bool.eqb].
  rewrite (proj1 (Schema_round_trip (Envelope.schema e))).
  rewrite (proj1 (Conversation_round_trip _ W)).
  rewrite (proj1 (Sender_round_trip _ W1)). cbn [bind].
  rewrite mapM_map.
  rewrite (mapM_ok _ Event_shown)
    by (intros x Hx; apply Event_round_trip; eapply forallb_In; eauto).
  cbn [bind].
  rewrite (proj1 (proj2 (Conversation_round_trip _ W))). cbn [bind].
  rewrite mapM_map.
  rewrite (mapM_ok _ Event_options)
    by (intros x Hx; apply Event_options_of_shown; eapply forallb_In; eauto).
  cbn [bind]. unfold Envelope.new.
  cbn [EnvelopeOptions.schema EnvelopeOptions.conversation EnvelopeOptions.sender
       EnvelopeOptions.events].
  rewrite (proj2 (proj2 (Schema_round_trip (Envelope.schema e)))).
  rewrite (proj2 (proj2 (Conversation_round_trip _ W))).
  rewrite (proj2 (proj2 (Sender_round_trip _ W1))). cbn [bind].
  rewrite mapM_map.
  rewrite (mapM_ok _ Event_shown)
    by (intros x Hx; apply Event_new_options; eapply forallb_In; eauto).
  reflexivity.
Qed.

(** ** Round trip of dialog events *)

Section DialogRoundTrip.

Context `{Host}.
Hypothesis Hdate : Date_round_trip.

(** *** Span *)

Lemma Span_new_wf (o : SpanOptions.t) (s : Span.t) :
  Span.new o = Ok s -> Span_wf s = true.
Proof.
  unfold Span.new, Span_wf. intros E.
  destruct o as [[st|] [so|] [et|] [eo|]]; simpl in E; try discriminate E;
    inversion E; subst; reflexivity.
Qed.

Lemma Span_new_as_options (s : Span.t) :
  Span_wf s = true -> Span.new (Span.as_options s) = Ok s.
Proof.
  unfold Span.new, Span_wf, Span.as_options.
  destruct s as [[st|] [so|] [et|] [eo|]]; simpl; intros W;
    try discriminate W; reflexivity.
Qed.

(** A printed duration is printed again unchanged after it was read. *)
Lemma millisecondsToIsoDuration_stable (ms q : Q) :
  (0 <= ms)%Q ->
  Utils.parseIsoDuration (Utils.millisecondsToIsoDuration ms) = Ok q ->
  Utils.millisecondsToIsoDuration q = Utils.millisecondsToIsoDuration ms.
Proof.
  intros Hms Hq.
  destruct (parseIsoDuration_millisecondsToIsoDuration ms Hms) as (q' & Hq' & E).
  rewrite Hq in Hq'. inversion Hq'. subst q'. clear Hq'.
  unfold Utils.millisecondsToIsoDuration.
  assert (F : Qfloor (q / inject_Z 1000) = Qfloor (ms / inject_Z 1000)).
  { rewrite E. rewrite Qfloor_thousandth.
    rewrite Z.mul_comm. apply Z.div_mul. discriminate. }
  rewrite F. reflexivity.
Qed.

Lemma offset_round_trip (ms : Q) :
  (0 <= ms)%Q ->
  exists q,
    Span.offset_of (JStr (Utils.millisecondsToIsoDuration ms)) = Ok (Some q)
    /\ Utils.millisecondsToIsoDuration q = Utils.millisecondsToIsoDuration ms.
Proof.
  intros Hms.
  destruct (parseIsoDuration_millisecondsToIsoDuration ms Hms) as (q & Hq & _).
  exists q. split.
  - unfold Span.offset_of. rewrite Hq. reflexivity.
  - eapply millisecondsToIsoDuration_stable; eauto.
Qed.

Lemma Span_round_trip (s : Span.t) (j : json) :
  Span_wf s = true -> Span_nonnegative s ->
  Span.toObject s = Ok j ->
  exists y, Span.fromObject j = Ok y
            /\ Span.toObject y = Ok j
            /\ Span_wf y = true.
Proof.
  unfold Span_wf, Span_nonnegative, Span.toObject.
  destruct s as [[st|] [so|] [et|] [eo|]]; simpl; intros W [N1 N2] E;
    try discriminate W;
    unfold Span.time_member in E;
    repeat match type of E with
           | bind ?r _ = Ok _ =>
               let iso := fresh "iso" in
               let Hiso := fresh "Hiso" in
               apply bind_ok in E; destruct E as (iso & Hiso & E)
           end;
    repeat match goal with
           | X : bind (Date_toISOString ?d) _ = Ok _ |- _ =>
               let iso := fresh "iso" in
               let Hiso := fresh "Hiso" in
               apply bind_ok in X; destruct X as (iso & Hiso & X);
               inversion X; subst; clear X
           | X : Ok _ = Ok _ |- _ => inversion X; subst; clear X
           end.
  all: unfold Span.fromObject, Span.offset_member, Span.time_member.
  all: cbn [read_property get_property assoc app member_opt String.eqb Ascii.eqb
            Bool.eqb bind Span.time_of].
  all: repeat match goal with
              | Hiso : Date_toISOString ?d = Ok ?iso |- _ =>
                  rewrite (Hdate d iso Hiso)
              end.
  all: try (destruct (offset_round_trip so N1) as (q1 & -> & F1)).
  all: try (destruct (offset_round_trip eo N2) as (q2 & -> & F2)).
  all: cbn [bind Span.offset_of].
  all: eexists; split; [reflexivity|].
  all: unfold Span.toObject, Span.time_member, Span.offset_member; simpl.
  all: repeat match goal with
              | Hiso : Date_toISOString ?d = Ok ?iso |- _ => rewrite Hiso
              end; simpl; rewrite ?F1, ?F2; auto.
Qed.

(** *** Token *)

Lemma Token_new_wf (o : TokenOptions.t) (tk : Token.t) :
  Token.new o = Ok tk -> Token_wf tk = true.
Proof.
  unfold Token.new, Token_wf, falsy. intros E.
  apply bind_ok in E. destruct E as (sp & _ & E).
  destruct (is_undefined (TokenOptions.value o)) eqn:Ev;
    destruct (opt_truthy (TokenOptions.valueUrl o)) eqn:Eu;
    simpl in E; try discriminate E;
    destruct (TokenOptions.confidence o) as [c|] eqn:Ec;
    try (destruct (Utils.isValidConfidence c) eqn:Evc; simpl in E;
         try discriminate E);
    inversion E; subst; simpl; rewrite Ev, Eu, ?Evc; reflexivity.
Qed.

Lemma is_undefined_true (v : json) : is_undefined v = true -> v = JUndefined.
Proof. destruct v; simpl; congruence. Qed.

Ltac token_cases tk :=
  let v := fresh "v" in
  let u := fresh "u" in
  let c := fresh "c" in
  let l := fresh "l" in
  let Ev := fresh "Ev" in
  let Eu := fresh "Eu" in
  destruct tk as [v [u|] [?|] [c|] [|? l]];
  cbn [Token_spanless Token.span] in *; try discriminate;
  (destruct (is_undefined v) eqn:Ev;
   [apply is_undefined_true in Ev; subst v|]);
  try (destruct (str_truthy u) eqn:Eu).

Lemma Token_toObject_spanless (tk : Token.t) :
  Token_spanless tk = true -> Token.toObject tk = Ok (Token_object tk).
Proof.
  unfold Token_spanless, Token.toObject, Token_object.
  destruct (Token.span tk); [discriminate|]. reflexivity.
Qed.

Lemma Token_object_shown (tk : Token.t) :
  Token_object (Token_shown tk) = Token_object tk.
Proof.
  unfold Token_object, Token_shown. simpl. rewrite member_truthy_shown. reflexivity.
Qed.

Lemma Token_shown_wf (tk : Token.t) :
  Token_wf tk = true -> Token_spanless tk = true ->
  Token_wf (Token_shown tk) = true /\ Token_spanless (Token_shown tk) = true.
Proof.
  intros W S. split; [|exact S].
  unfold Token_wf, Token_shown, shown in *. simpl.
  destruct (Token.valueUrl tk) as [u|]; simpl in *; [|exact W].
  destruct (str_truthy u) eqn:E; simpl; rewrite ?E; exact W.
Qed.

Lemma Token_round_trip (tk : Token.t) :
  Token_wf tk = true -> Token_spanless tk = true ->
  Token.fromObject (Token_object tk) = Ok (Token_shown tk)
  /\ Token.as_TokenOptions (Token_object tk) = Ok (Token_options tk)
  /\ Token.new (Token_options tk) = Ok (Token_shown tk).
Proof.
  intros W S. unfold Token_wf in W.
  token_cases tk;
    cbn [Token.value Token.valueUrl Token.confidence Token.links is_undefined
         opt_truthy negb andb] in W;
    rewrite ?Eu, ?Ev in W; cbn [negb andb] in W; try discriminate W;
    unfold Token.fromObject, Token.as_TokenOptions, Token.new, Token_object,
      Token_options, Token_shown, shown, member_truthy, falsy;
    cbn [Token.value Token.valueUrl Token.confidence Token.links Token.span
         TokenOptions.value TokenOptions.valueUrl TokenOptions.confidence
         TokenOptions.links TokenOptions.span
         is_undefined opt_truthy negb andb length Nat.ltb Nat.leb
         member_if member_opt app read_property get_property assoc
         String.eqb Ascii.eqb Bool.eqb bind truthy typeof
         as_opt_string as_opt_number];
    rewrite ?Eu, ?Ev;
    cbn [Token.value Token.valueUrl Token.confidence Token.links Token.span
         TokenOptions.value TokenOptions.valueUrl TokenOptions.confidence
         TokenOptions.links TokenOptions.span
         is_undefined opt_truthy negb andb length Nat.ltb Nat.leb
         member_if member_opt app read_property get_property assoc
         String.eqb Ascii.eqb Bool.eqb bind truthy typeof
         as_opt_string as_opt_number];
    rewrite ?as_opt_string_array_JStrings;
    cbn [bind as_opt_string_array is_undefined opt_truthy negb andb];
    rewrite ?Eu, ?Ev, ?W; cbn [negb andb]; auto.
Qed.

(** *** Feature *)

Lemma tokens_toObject (l : list Token.t) :
  forallb Token_spanless l = true ->
  mapM Token.toObject l = Ok (map Token_object l).
Proof.
  intros S. apply mapM_ok. intros tk Htk.
  apply Token_toObject_spanless. eapply forallb_In; eauto.
Qed.

Lemma token_options_of_object (tk : Token.t) :
  Token_wf tk = true -> Token_spanless tk = true ->
  Feature.token_options_of (Token_object tk) = Ok (Token_options tk).
Proof.
  intros W S. unfold Feature.token_options_of.
  destruct (Token_round_trip tk W S) as (F & A & _).
  destruct (Token_shown_wf tk W S) as (_ & S').
  rewrite F. cbn [bind].
  rewrite (Token_toObject_spanless _ S'). cbn [bind].
  rewrite Token_object_shown. exact A.
Qed.

Lemma tokens_options_of (l : list Token.t) :
  forallb Token_wf l = true -> forallb Token_spanless l = true ->
  mapM Feature.token_options_of (map Token_object l) = Ok (map Token_options l).
Proof.
  intros W S. rewrite mapM_map. apply mapM_ok. intros tk Htk.
  apply token_options_of_object; eapply forallb_In; eauto.
Qed.

Lemma tokens_as_options (l : list Token.t) :
  forallb Token_wf l = true -> forallb Token_spanless l = true ->
  mapM Token.as_TokenOptions (map Token_object l) = Ok (map Token_options l).
Proof.
  intros W S. rewrite mapM_map. apply mapM_ok. intros tk Htk.
  apply Token_round_trip; eapply forallb_In; eauto.
Qed.

Lemma tokens_new (l : list Token.t) :
  forallb Token_wf l = true -> forallb Token_spanless l = true ->
  mapM Token.new (map Token_options l) = Ok (map Token_shown l).
Proof.
  intros W S. rewrite mapM_map. apply mapM_ok. intros tk Htk.
  apply Token_round_trip; eapply forallb_In; eauto.
Qed.

Lemma Feature_new_wf (o : FeatureOptions.t) (f : Feature.t) :
  Feature.new o = Ok f -> Feature_wf f = true.
Proof.
  unfold Feature.new, Feature_wf. intros E.
  destruct (str_truthy (FeatureOptions.mimeType o)) eqn:Em; simpl in E;
    [|discriminate E].
  destruct (FeatureOptions.tokens o) as [tokens|]; [|discriminate E].
  apply bind_ok in E. destruct E as (tks & Htks & E).
  apply bind_ok in E. destruct E as (alts & Halts & E).
  match type of E with (if ?b then _ else _) = _ => destruct b eqn:Ee end;
    [discriminate E|].
  inversion E. subst. clear E. simpl. rewrite Em. simpl.
  assert (T : forall l l', mapM Token.new l = Ok l' -> forallb Token_wf l' = true).
  { intros l l' Hl. apply mapM_inv in Hl.
    apply (forallb_Forall2 _ _ _ _ Hl).
    intros x y Hxy. exact (Token_new_wf _ _ Hxy). }
  rewrite (T _ _ Htks). simpl.
  assert (A : forallb (forallb Token_wf) alts = true).
  { apply mapM_inv in Halts.
    apply (forallb_Forall2 _ _ _ _ Halts).
    intros x y Hxy. exact (T _ _ Hxy). }
  rewrite A. simpl.
  destruct (FeatureOptions.encoding o) as [e|]; [|reflexivity].
  destruct (str_truthy e); simpl in *; [|reflexivity].
  apply negb_false_iff in Ee. exact Ee.
Qed.

Lemma Feature_toObject_spanless (f : Feature.t) :
  Feature_spanless f = true -> Feature.toObject f = Ok (Feature_object f).
Proof.
  unfold Feature_spanless, Feature.toObject, Feature_object. intros S. andb_split S.
  rewrite (tokens_toObject _ S). cbn [bind].
  rewrite (mapM_ok _ (fun alt => JArr (map Token_object alt))); [reflexivity|].
  intros alt Halt. rewrite tokens_toObject; [reflexivity|].
  eapply forallb_In; eauto.
Qed.

Lemma Feature_object_shown (f : Feature.t) :
  Feature_object (Feature_shown f) = Feature_object f.
Proof.
  unfold Feature_object, Feature_shown. simpl.
  rewrite !member_truthy_shown, !length_map, !map_map.
  rewrite (map_ext _ Token_object) by apply Token_object_shown.
  rewrite (map_ext (fun x => JArr (map Token_object (map Token_shown x)))
                   (fun alt => JArr (map Token_object alt))); [reflexivity|].
  intros alt. rewrite map_map.
  rewrite (map_ext _ Token_object) by apply Token_object_shown. reflexivity.
Qed.

Lemma forallb_map_shown (p : Token.t -> bool) (l : list Token.t) :
  (forall tk, In tk l -> p (Token_shown tk) = true) ->
  forallb p (map Token_shown l) = true.
Proof.
  intros Hp. rewrite forallb_forall. intros x Hx.
  apply in_map_iff in Hx. destruct Hx as (tk & <- & Htk). auto.
Qed.

Lemma Feature_shown_wf (f : Feature.t) :
  Feature_wf f = true -> Feature_spanless f = true ->
  Feature_spanless (Feature_shown f) = true.
Proof.
  unfold Feature_wf, Feature_spanless, Feature_shown. intros W S.
  andb_split W. andb_split S. simpl.
  rewrite forallb_map_shown.
  - simpl. rewrite forallb_forall. intros x Hx.
    apply in_map_iff in Hx. destruct Hx as (alt & <- & Halt).
    apply forallb_map_shown. intros tk Htk.
    apply Token_shown_wf.
    + eapply forallb_In; [|exact Htk]. eapply forallb_In; eauto.
    + eapply forallb_In; [|exact Htk]. eapply forallb_In; eauto.
  - intros tk Htk. apply Token_shown_wf; eapply forallb_In; eauto.
Qed.

Lemma Feature_round_trip (f : Feature.t) :
  Feature_wf f = true -> Feature_spanless f = true ->
  Feature.fromObject (Feature_object f) = Ok (Feature_shown f)
  /\ Feature.as_FeatureOptions (Feature_object f) = Ok (Feature_options f)
  /\ Feature.new (Feature_options f) = Ok (Feature_shown f).
Proof.
  unfold Feature_wf, Feature_spanless. intros W S. andb_split W. andb_split S.
  assert (N : Feature.new (Feature_options f) = Ok (Feature_shown f)).
  { unfold Feature.new, Feature_options, Feature_shown.
    cbn [FeatureOptions.mimeType FeatureOptions.tokens FeatureOptions.alternates
         FeatureOptions.lang FeatureOptions.encoding FeatureOptions.tokenSchema].
    rewrite W. cbn [negb].
    rewrite (tokens_new _ W2 S). cbn [bind].
    assert (A : mapM (mapM Token.new)
                  (if (0 <? length (Feature.alternates f))%nat
                   then map (map Token_options) (Feature.alternates f) else [])
                = Ok (map (map Token_shown) (Feature.alternates f))).
    { destruct (Feature.alternates f) as [|a0 alts] eqn:Ea; [reflexivity|].
      cbn [length Nat.ltb Nat.leb]. rewrite mapM_map. apply mapM_ok.
      intros alt Halt. apply tokens_new; eapply forallb_In; eauto. }
    destruct (0 <? length (Feature.alternates f))%nat; rewrite A; cbn [bind];
      (destruct (Feature.encoding f) as [e|]; unfold shown; cbn [opt_truthy];
       [destruct (str_truthy e) eqn:Ee; cbn [andb orb negb] in *;
        rewrite ?Ee, ?W0; cbn [andb negb]|]; reflexivity). }
  assert (A1 : forall l, forallb (forallb Token_wf) l = true ->
               forallb (forallb Token_spanless) l = true ->
               mapM (fun alt => match alt with
                                | JArr items => mapM Feature.token_options_of items
                                | _ => Ok []
                                end)
                    (map (fun alt => JArr (map Token_object alt)) l)
               = Ok (map (map Token_options) l)).
  { intros l Wl Sl. rewrite mapM_map. apply mapM_ok. intros alt Halt.
    apply tokens_options_of; eapply forallb_In; eauto. }
  assert (A2 : forall l, forallb (forallb Token_wf) l = true ->
               forallb (forallb Token_spanless) l = true ->
               mapM (fun alt => items <- as_array alt ;;
                                mapM Token.as_TokenOptions items)
                    (map (fun alt => JArr (map Token_object alt)) l)
               = Ok (map (map Token_options) l)).
  { intros l Wl Sl. rewrite mapM_map. apply mapM_ok. intros alt Halt.
    cbn [as_array bind]. apply tokens_as_options; eapply forallb_In; eauto. }
  specialize (A1 _ W1 S0). specialize (A2 _ W1 S0).
  split; [|split; [|exact N]].
  - rewrite <- N. clear N.
    unfold Feature.fromObject, Feature_object, Feature_options.
    cbn [read_property get_property assoc app String.eqb Ascii.eqb Bool.eqb bind].
    rewrite (tokens_options_of _ W2 S). cbn [bind].
    destruct (Feature.alternates f) as [|a0 alts];
      cbn [length Nat.ltb Nat.leb member_if app];
      destruct (Feature.lang f) as [l|]; try destruct (str_truthy l) eqn:El;
      destruct (Feature.encoding f) as [e|]; try destruct (str_truthy e) eqn:Ee;
      destruct (Feature.tokenSchema f) as [s|]; try destruct (str_truthy s) eqn:Es;
      unfold member_truthy, shown, opt_truthy; rewrite ?El, ?Ee, ?Es;
      cbn [member_if assoc app String.eqb Ascii.eqb Bool.eqb bind as_opt_string
           as_string];
      rewrite ?A1; reflexivity.
  - unfold Feature.as_FeatureOptions, Feature_object, Feature_options.
    cbn [read_property get_property assoc app String.eqb Ascii.eqb Bool.eqb bind
         as_string].
    rewrite (tokens_as_options _ W2 S). cbn [bind].
    destruct (Feature.alternates f) as [|a0 alts];
      cbn [length Nat.ltb Nat.leb member_if app];
      destruct (Feature.lang f) as [l|]; try destruct (str_truthy l) eqn:El;
      destruct (Feature.encoding f) as [e|]; try destruct (str_truthy e) eqn:Ee;
      destruct (Feature.tokenSchema f) as [s|]; try destruct (str_truthy s) eqn:Es;
      unfold member_truthy, shown, opt_truthy; rewrite ?El, ?Ee, ?Es;
      cbn [member_if assoc app String.eqb Ascii.eqb Bool.eqb bind as_opt_string
           as_string];
      rewrite ?A2; reflexivity.
Qed.

(** *** DialogEvent *)

Lemma DialogEvent_new_wf (o : DialogEventOptions.t) (e : DialogEvent.t) :
  DialogEvent.new o = Ok e -> DialogEvent_wf e = true.
Proof.
  unfold DialogEvent.new, DialogEvent_wf, falsy. intros E.
  destruct (DialogEventOptions.id o) as [i|]; cbn [opt_truthy negb] in E;
    [|discriminate E].
  destruct (str_truthy i) eqn:Ei; cbn [negb] in E; [|discriminate E].
  destruct (str_truthy (DialogEventOptions.speakerUri o)) eqn:Eu; cbn [negb] in E;
    [|discriminate E].
  destruct (DialogEventOptions.span o) as [sp|]; [|discriminate E].
  destruct (DialogEventOptions.features o) as [fs|]; [|discriminate E].
  apply bind_ok in E. destruct E as (s & Hs & E).
  apply bind_ok in E. destruct E as (l & Hl & E).
  inversion E. subst. clear E. cbn [DialogEvent.id DialogEvent.speakerUri
    DialogEvent.span DialogEvent.features].
  rewrite Ei, Eu, (Span_new_wf _ _ Hs). cbn [andb].
  apply mapM_inv in Hl. apply (forallb_Forall2 _ _ _ _ Hl).
  intros a b Hab. apply bind_ok in Hab. destruct Hab as (f & Hf & Hab).
  inversion Hab. subst. exact (Feature_new_wf _ _ Hf).
Qed.

Lemma is_feature_data_object (f : Feature.t) :
  DialogEvent.is_feature_data (Feature_object f) = true.
Proof. reflexivity. Qed.

Lemma filter_all {A : Type} (p : A -> bool) (l : list A) :
  forallb p l = true -> filter p l = l.
Proof.
  induction l as [|a l IH]; simpl; [reflexivity|].
  intros E. apply andb_true_iff in E. destruct E as (Ea & El).
  rewrite Ea, IH; auto.
Qed.

Lemma DialogEvent_round_trip (x : DialogEvent.t) (j : json) :
  DialogEvent_wf x = true -> DialogEvent_spanless x = true ->
  Span_nonnegative (DialogEvent.span x) ->
  DialogEvent.toObject x = Ok j ->
  exists y, DialogEvent.fromObject j = Ok y /\ DialogEvent.toObject y = Ok j.
Proof.
  unfold DialogEvent_wf, DialogEvent_spanless. intros W S P E. andb_split W.
  unfold DialogEvent.toObject in E.
  apply bind_ok in E. destruct E as (sp & Hsp & E).
  destruct (Span_round_trip _ _ W1 P Hsp) as (ys & Fs & Ts & Ws).
  assert (Tf : forall l, forallb (fun kv => Feature_spanless (snd kv)) l = true ->
               mapM (fun kv : string * Feature.t =>
                       o <- Feature.toObject (snd kv) ;; Ok (fst kv, o)) l
               = Ok (map (fun kv => (fst kv, Feature_object (snd kv))) l)).
  { intros l Sl. apply mapM_ok. intros kv Hkv.
    rewrite Feature_toObject_spanless; [reflexivity|].
    exact (forallb_In _ _ _ Sl Hkv). }
  rewrite (Tf _ S) in E. cbn [bind] in E. inversion E. subst j. clear E.
  exists {| DialogEvent.id := DialogEvent.id x;
            DialogEvent.speakerUri := DialogEvent.speakerUri x;
            DialogEvent.span := ys;
            DialogEvent.features :=
              map (fun kv => (fst kv, Feature_shown (snd kv))) (DialogEvent.features x);
            DialogEvent.previousId := shown (DialogEvent.previousId x);
            DialogEvent.context := shown (DialogEvent.context x) |}.
  split.
  - unfold DialogEvent.fromObject.
    cbn [read_property get_property assoc app String.eqb Ascii.eqb Bool.eqb bind].
    rewrite Fs. cbn [bind Object_entries].
    rewrite filter_all
      by (rewrite forallb_forall; intros kv Hkv; apply in_map_iff in Hkv;
          destruct Hkv as (kv0 & <- & _); reflexivity).
    rewrite mapM_map.
    rewrite (mapM_ok _ (fun kv => (fst kv, Feature_options (snd kv)))).
    2:{ intros kv Hkv. cbn [fst snd].
        pose proof (forallb_In _ _ _ W0 Hkv) as Wk.
        pose proof (forallb_In _ _ _ S Hkv) as Sk. cbn beta in Wk, Sk.
        destruct (Feature_round_trip _ Wk Sk) as (Fk & Ak & _).
        rewrite Fk. cbn [bind].
        rewrite (Feature_toObject_spanless _ (Feature_shown_wf _ Wk Sk)).
        cbn [bind]. rewrite Feature_object_shown, Ak. reflexivity. }
    cbn [bind as_opt_string as_string].
    assert (N : mapM (fun kv : string * FeatureOptions.t =>
                        f <- Feature.new (snd kv) ;; Ok (fst kv, f))
                     (map (fun kv => (fst kv, Feature_options (snd kv)))
                          (DialogEvent.features x))
                = Ok (map (fun kv => (fst kv, Feature_shown (snd kv)))
                          (DialogEvent.features x))).
    { rewrite mapM_map. apply mapM_ok. intros kv Hkv. cbn [fst snd].
      pose proof (forallb_In _ _ _ W0 Hkv) as Wk.
      pose proof (forallb_In _ _ _ S Hkv) as Sk. cbn beta in Wk, Sk.
      destruct (Feature_round_trip _ Wk Sk) as (_ & _ & Nk).
      rewrite Nk. reflexivity. }
    destruct (DialogEvent.previousId x) as [p|]; try destruct (str_truthy p) eqn:Ep;
      destruct (DialogEvent.context x) as [c|]; try destruct (str_truthy c) eqn:Ec;
      unfold member_truthy, shown, opt_truthy; rewrite ?Ep, ?Ec;
      cbn [member_if assoc app String.eqb Ascii.eqb Bool.eqb bind as_opt_string
           as_string];
      unfold DialogEvent.new, falsy;
      cbn [DialogEventOptions.id DialogEventOptions.speakerUri DialogEventOptions.span
           DialogEventOptions.features DialogEventOptions.previousId
           DialogEventOptions.context opt_truthy];
      rewrite W, W2; cbn [negb];
      rewrite (Span_new_as_options _ Ws); cbn [bind];
      rewrite N; reflexivity.
  - unfold DialogEvent.toObject.
    cbn [DialogEvent.id DialogEvent.speakerUri DialogEvent.span DialogEvent.features
         DialogEvent.previousId DialogEvent.context].
    rewrite Ts. cbn [bind]. rewrite !member_truthy_shown.
    rewrite Tf.
    + cbn [bind]. rewrite map_map. cbn [fst snd].
      rewrite (map_ext _ (fun kv => (fst kv, Feature_object (snd kv))));
        [reflexivity|].
      intros kv. rewrite Feature_object_shown. reflexivity.
    + rewrite forallb_forall. intros kv Hkv.
      apply in_map_iff in Hkv. destruct Hkv as (kv0 & <- & Hkv0). cbn [snd].
      apply Feature_shown_wf.
      * exact (forallb_In _ _ _ W0 Hkv0).
      * exact (forallb_In _ _ _ S Hkv0).
Qed.

End DialogRoundTrip.

(** *** The recognised tags, and what else construction asks for *)

(** What [createEvent] makes of the [to] member of well-typed data: no
    target when it is no object, the target it describes when it names
    a speaker or a service, and otherwise the error of [To]. *)
Lemma to_of_named (data : json) (tag : string) :
  get_property data "eventType" = JStr tag ->
  BareEvent.to_of data <> IllTyped ->
  if target_named data
  then exists to, BareEvent.to_of data = Ok to
  else BareEvent.to_of data = Throw "To requires at least speakerUri or serviceUrl".
Proof.
  intros Hty. unfold BareEvent.to_of, target_named.
  assert (R : read_property data "to" = Ok (get_property data "to")).
  { destruct data; try discriminate Hty; reflexivity. }
  rewrite R. cbn [bind].
  set (dto := get_property data "to").
  destruct (truthy dto && String.eqb (typeof dto) "object") eqn:O;
    cbn [negb orb]; [|intros _; eexists; reflexivity].
  apply andb_prop in O. destruct O as [Ot _].
  assert (Rs : read_property dto "speakerUri" = Ok (get_property dto "speakerUri")).
  { destruct dto; try discriminate Ot; reflexivity. }
  unfold To.options_of_object, To.fromObject. rewrite Rs. cbn [bind].
  destruct (truthy (get_property dto "speakerUri") || truthy (get_property dto "serviceUrl"))
    eqn:T.
  - assert (Tn : negb (truthy (get_property dto "speakerUri"))
                 && negb (truthy (get_property dto "serviceUrl")) = false).
    { destruct (truthy (get_property dto "speakerUri")),
               (truthy (get_property dto "serviceUrl")); try reflexivity;
        discriminate T. }
    rewrite Tn.
    destruct (To.as_ToOptions dto) as [o|message|] eqn:A; cbn [bind].
    + assert (N : exists t0, To.new o = Ok t0).
      { unfold To.as_ToOptions in A.
        destruct (get_property dto "speakerUri") as [| | | |su| |];
          cbn [as_opt_string bind] in A; try discriminate A;
          destruct (get_property dto "serviceUrl") as [| | | |sv| |];
          cbn [as_opt_string bind] in A; try discriminate A;
          destruct (as_opt_boolean (get_property dto "private")) as [pr| |];
          cbn [bind] in A; try discriminate A;
          inversion A; subst o; unfold To.new, falsy;
          cbn [ToOptions.speakerUri ToOptions.serviceUrl ToOptions.private
               opt_truthy truthy orb] in *;
          try discriminate T;
          repeat match goal with
                 | |- context [str_truthy ?x] => destruct (str_truthy x)
                 end;
          try discriminate T; cbn [negb andb]; eexists; reflexivity. }
      destruct N as (t0 & N). rewrite N. cbn [bind]. intros _.
      destruct (To_round_trip t0 (To_new_wf _ _ N)) as (A' & _).
      rewrite A'. eexists. reflexivity.
    + exfalso. unfold To.as_ToOptions in A.
      destruct (as_opt_string (get_property dto "speakerUri")) as [x| |] eqn:E1;
        cbn [bind] in A;
        [|destruct (get_property dto "speakerUri"); discriminate E1|discriminate A].
      destruct (as_opt_string (get_property dto "serviceUrl")) as [y| |] eqn:E2;
        cbn [bind] in A;
        [|destruct (get_property dto "serviceUrl"); discriminate E2|discriminate A].
      destruct (as_opt_boolean (get_property dto "private")) as [z| |] eqn:E3;
        cbn [bind] in A;
        [discriminate A|destruct (get_property dto "private"); discriminate E3
        |discriminate A].
    + intros X. exfalso. apply X. reflexivity.
  - apply orb_false_elim in T. destruct T as [Ts Tv]. rewrite Ts, Tv.
    cbn [negb andb bind]. intros _. reflexivity.
Qed.

(** A target that [createEvent] has read can be built. *)
Lemma to_of_constructible (data : json) (to : option ToOptions.t) :
  BareEvent.to_of data = Ok to -> to_constructible to.
Proof.
  intros T. destruct to as [o|]; [|exact I].
  unfold BareEvent.to_of in T.
  destruct (read_property data "to") as [dto| |]; cbn [bind] in T;
    try discriminate T.
  destruct (truthy dto && String.eqb (typeof dto) "object");
    [|discriminate T].
  unfold To.options_of_object in T.
  destruct (To.fromObject dto) as [t0| |] eqn:F; cbn [bind] in T;
    try discriminate T.
  assert (W : To_wf t0 = true).
  { unfold To.fromObject in F.
    destruct (read_property dto "speakerUri"); cbn [bind] in F;
      try discriminate F.
    destruct (_ && _) in F; [discriminate F|].
    destruct (To.as_ToOptions dto) as [o'| |]; cbn [bind] in F;
      try discriminate F.
    exact (To_new_wf _ _ F). }
  destruct (To_round_trip t0 W) as (A & _ & N & _).
  destruct (To.as_ToOptions (To.toObject t0)) as [o'| |]; cbn [bind] in T;
    try discriminate T.
  inversion A. inversion T. subst.
  apply To_new_ok. rewrite N. reflexivity.
Qed.

Section EventFactoryTargets.

Context `{Host}.

Lemma createEvent_bare_named (data : json) (tag : string) :
  In tag ["invite"; "uninvite"; "declineInvite"; "bye"; "requestFloor";
          "grantFloor"; "revokeFloor"; "yieldFloor"] ->
  get_property data "eventType" = JStr tag ->
  BareEvent.to_of data <> IllTyped ->
  (is_ok (Events.createEvent data) = true <-> target_named data = true)
  /\ (target_named data = false ->
      Events.createEvent data
      = Throw "To requires at least speakerUri or serviceUrl").
Proof.
  intros Hin Hty Hto.
  pose proof (to_of_named data tag Hty Hto) as T.
  destruct (target_named data).
  - destruct T as (to & T).
    split; [|discriminate].
    split; [reflexivity|]. intros _.
    apply (createEvent_bare data tag to Hin Hty T).
    exact (to_of_constructible data to T).
  - assert (E : Events.createEvent data
                = Throw "To requires at least speakerUri or serviceUrl").
    { assert (R : read_property data "eventType" = Ok (JStr tag)).
      { destruct data; try discriminate Hty; cbn [read_property];
          rewrite Hty; reflexivity. }
      unfold Events.createEvent. rewrite R. cbn [bind].
      assert (B : BareEvent.fromObject tag data
                  = Throw "To requires at least speakerUri or serviceUrl").
      { unfold BareEvent.fromObject. rewrite T. reflexivity. }
      simpl in Hin.
      repeat (destruct Hin as [<-|Hin]; [exact B|]). destruct Hin. }
    split; [|intros _; exact E].
    rewrite E. split; discriminate.
Qed.

Lemma createEvent_without_parameters_named (data : json) (tag : string) :
  In tag Event.allowedEventTypes ->
  get_property data "eventType" = JStr tag ->
  get_property data "parameters" = JUndefined ->
  BareEvent.to_of data <> IllTyped ->
  if String.eqb tag "utterance"
  then Events.createEvent data
       = Throw "UtteranceEvent requires parameters with dialogEvent"
  else is_ok (Events.createEvent data) = true <-> target_named data = true.
Proof.
  intros Hin Hty Hp Hto.
  pose proof (to_of_named data tag Hty Hto) as T.
  destruct (target_named data) eqn:Tn.
  { destruct T as (to & T).
    pose proof (createEvent_without_parameters data tag to Hin Hty Hp T) as C.
    destruct (String.eqb tag "utterance"); [exact C|].
    split; [reflexivity|]. intros _. apply C.
    exact (to_of_constructible data to T). }
  assert (R : forall k, read_property data k = Ok (get_property data k)).
  { destruct data; try discriminate Hty; reflexivity. }
  assert (B : forall t, BareEvent.fromObject t data
              = Throw "To requires at least speakerUri or serviceUrl").
  { intros t. unfold BareEvent.fromObject. rewrite T. reflexivity. }
  unfold Events.createEvent. rewrite (R "eventType"), Hty. cbn [bind].
  unfold InviteEvent.fromObject, UninviteEvent.fromObject,
    DeclineInviteEvent.fromObject, ByeEvent.fromObject,
    RequestFloorEvent.fromObject, GrantFloorEvent.fromObject,
    RevokeFloorEvent.fromObject, YieldFloorEvent.fromObject.
  simpl in Hin.
  destruct Hin as [<-|Hin].
  { cbn [String.eqb Ascii.eqb Bool.eqb].
    unfold UtteranceEvent.fromObject. rewrite (R "parameters"), Hp. reflexivity. }
  destruct Hin as [<-|Hin].
  { cbn [String.eqb Ascii.eqb Bool.eqb].
    unfold ContextEvent.fromObject. rewrite (R "parameters"), Hp, T.
    cbn [bind truthy get_property assoc has_property].
    destruct (get_property data "reason") as [| | | |r| |];
      cbn [bind as_opt_string is_ok]; split; discriminate. }
  destruct Hin as [<-|Hin];
    [cbn [String.eqb Ascii.eqb Bool.eqb]; rewrite B; cbn [is_ok];
     split; discriminate|].
  destruct Hin as [<-|Hin];
    [cbn [String.eqb Ascii.eqb Bool.eqb]; rewrite B; cbn [is_ok];
     split; discriminate|].
  destruct Hin as [<-|Hin];
    [cbn [String.eqb Ascii.eqb Bool.eqb]; rewrite B; cbn [is_ok];
     split; discriminate|].
  destruct Hin as [<-|Hin];
    [cbn [String.eqb Ascii.eqb Bool.eqb]; rewrite B; cbn [is_ok];
     split; discriminate|].
  destruct Hin as [<-|Hin].
  { cbn [String.eqb Ascii.eqb Bool.eqb].
    unfold GetManifestsEvent.fromObject. rewrite (R "parameters"), Hp, T.
    cbn [bind is_ok]. split; discriminate. }
  destruct Hin as [<-|Hin].
  { cbn [String.eqb Ascii.eqb Bool.eqb].
    unfold PublishManifestsEvent.fromObject. rewrite (R "parameters"), Hp, T.
    cbn [bind truthy get_property assoc PublishManifestsEvent.manifests_of is_ok].
    split; discriminate. }
  destruct Hin as [<-|Hin];
    [cbn [String.eqb Ascii.eqb Bool.eqb]; rewrite B; cbn [is_ok];
     split; discriminate|].
  destruct Hin as [<-|Hin];
    [cbn [String.eqb Ascii.eqb Bool.eqb]; rewrite B; cbn [is_ok];
     split; discriminate|].
  destruct Hin as [<-|Hin];
    [cbn [String.eqb Ascii.eqb Bool.eqb]; rewrite B; cbn [is_ok];
     split; discriminate|].
  destruct Hin as [<-|Hin];
    [cbn [String.eqb Ascii.eqb Bool.eqb]; rewrite B; cbn [is_ok];
     split; discriminate|].
  destruct Hin.
Qed.

End EventFactoryTargets.

(** C9, as amended: an [Event] is constructed exactly when its tag is one
    of the twelve and its target, when given, names a speaker or a
    service.  [createEvent] succeeds only on the twelve tags.  On data
    whose [to] member is of the type of [ToOptions], it builds an event
    of the eight classes without parameters exactly when that member is
    no object or names a speaker or a service, and throws the error of
    [To] otherwise.  On such data without a [parameters] member, the
    same condition decides for every tag of the twelve but
    ['utterance'], which is rejected for want of a dialog event.  The
    singular ['publishManifest'] is rejected by both. *)
Theorem event_construction_by_tag `{Host} :
  (forall o : BaseEventOptions.t,
      is_ok (Event.new o) = true <->
      In (BaseEventOptions.eventType o) Event.allowedEventTypes
      /\ to_constructible (BaseEventOptions.to o))
  /\ (forall (data : json) (e : Event.t),
         Events.createEvent data = Ok e ->
         get_property data "eventType" = JStr (Event.eventType e)
         /\ In (Event.eventType e) Event.allowedEventTypes)
  /\ (forall (data : json) (tag : string),
         In tag ["invite"; "uninvite"; "declineInvite"; "bye"; "requestFloor";
                 "grantFloor"; "revokeFloor"; "yieldFloor"] ->
         get_property data "eventType" = JStr tag ->
         BareEvent.to_of data <> IllTyped ->
         (is_ok (Events.createEvent data) = true <-> target_named data = true)
         /\ (target_named data = false ->
             Events.createEvent data
             = Throw "To requires at least speakerUri or serviceUrl"))
  /\ (forall (data : json) (tag : string),
         In tag Event.allowedEventTypes ->
         get_property data "eventType" = JStr tag ->
         get_property data "parameters" = JUndefined ->
         BareEvent.to_of data <> IllTyped ->
         if String.eqb tag "utterance"
         then Events.createEvent data
              = Throw "UtteranceEvent requires parameters with dialogEvent"
         else is_ok (Events.createEvent data) = true <-> target_named data = true)
  /\ Event.allowedEventTypes
     = ["utterance"; "context"; "invite"; "uninvite"; "declineInvite"; "bye";
        "getManifests"; "publishManifests"; "requestFloor"; "grantFloor";
        "revokeFloor"; "yieldFloor"]
  /\ (forall to reason parameters,
         Event.new {| BaseEventOptions.eventType := "publishManifest";
                      BaseEventOptions.to := to;
                      BaseEventOptions.reason := reason;
                      BaseEventOptions.parameters := parameters |}
         = Throw "Invalid eventType: publishManifest")
  /\ (forall fields,
         Events.createEvent (JObj (("eventType", JStr "publishManifest") :: fields))
         = Throw "Unknown event type: publishManifest").
Proof.
  split; [exact Event_new_ok|].
  split; [exact createEvent_only_allowed|].
  split; [exact createEvent_bare_named|].
  split; [exact createEvent_without_parameters_named|].
  split; [reflexivity|].
  split; reflexivity.
Qed.

(** [createEvent] builds events: a ['bye'] addressed to a speaker, and a
    ['getManifests'] without parameters. *)
Example createEvent_builds_events :
  is_ok (@Events.createEvent text_dates
           (JObj [("eventType", JStr "bye");
                  ("to", JObj [("speakerUri", JStr "tag:example.com,2025:bot1")])]))
  = true
  /\ is_ok (@Events.createEvent text_dates (JObj [("eventType", JStr "getManifests")]))
     = true.
Proof. split; reflexivity. Qed.

(** Data without a tag is met with the error of an unknown type. *)
Example createEvent_without_tag :
  @Events.createEvent text_dates (JObj [("reason", JStr "none")])
  = Throw "Unknown event type: undefined".
Proof. reflexivity. Qed.

(** C9 as stated fails for a recognised tag with a target that names
    nobody: the constructor of [To] rejects it, in [new Event] and in
    [createEvent] alike; and [createEvent] rejects an ['utterance']
    that brings no dialog event. *)
Lemma event_with_empty_target_rejected :
  In "bye" Event.allowedEventTypes
  /\ Event.new {| BaseEventOptions.eventType := "bye";
                  BaseEventOptions.to :=
                    Some {| ToOptions.speakerUri := None;
                            ToOptions.serviceUrl := None;
                            ToOptions.private := None |};
                  BaseEventOptions.reason := None;
                  BaseEventOptions.parameters := None |}
     = Throw "To requires at least speakerUri or serviceUrl"
  /\ @Events.createEvent text_dates
       (JObj [("eventType", JStr "bye"); ("to", JObj [])])
     = Throw "To requires at least speakerUri or serviceUrl"
  /\ In "utterance" Event.allowedEventTypes
  /\ @Events.createEvent text_dates (JObj [("eventType", JStr "utterance")])
     = Throw "UtteranceEvent requires parameters with dialogEvent".
Proof.
  split; [simpl; tauto|]. split; [reflexivity|]. split; [reflexivity|].
  split; [simpl; tauto|reflexivity].
Qed.

(** *** The round trip of the four entities *)

Lemma text_dates_round_trip : @Date_round_trip text_dates.
Proof. intros d s E. inversion E. reflexivity. Qed.

Lemma Span_in_range_nonnegative `{Host} (s : Span.t) :
  Span_in_range s -> Span_nonnegative s.
Proof.
  unfold Span_in_range, Span_nonnegative, offset_in_range, nonnegative.
  destruct (Span.startOffset s), (Span.endOffset s); tauto.
Qed.

(** C1 (amended).  For every constructible Envelope, Event or Manifest [x],
    [fromObject(toObject(x))] yields an instance with the same canonical
    projection as [x].  For a constructible DialogEvent [x] the same holds
    when the offsets of its span lie between 0 and 2^53 milliseconds,
    none of its tokens carries a span of its own, and its projection
    exists (the dates of its span can be printed); dates that were
    printed are read back as the same dates by the host. *)
Theorem round_trip_canonical_projection `{Host} :
  Date_round_trip ->
  (forall o x, Envelope.new o = Ok x ->
     exists y, Envelope.fromObject (Envelope.toObject x) = Ok y
               /\ Envelope.toObject y = Envelope.toObject x)
  /\ (forall o x, Event.new o = Ok x ->
        exists y, Event.fromObject (Event.toObject x) = Ok y
                  /\ Event.toObject y = Event.toObject x)
  /\ (forall o x, Manifest.new o = Ok x ->
        exists y, Manifest.fromObject (Manifest.toObject x) = Ok y
                  /\ Manifest.toObject y = Manifest.toObject x)
  /\ (forall o x j,
        DialogEvent.new o = Ok x ->
        DialogEvent_spanless x = true ->
        Span_in_range (DialogEvent.span x) ->
        DialogEvent.toObject x = Ok j ->
        exists y, DialogEvent.fromObject j = Ok y
                  /\ DialogEvent.toObject y = Ok j).
Proof.
  intros Hdate. repeat split.
  - intros o x Hx. apply Envelope_new_wf in Hx.
    exists (Envelope_shown x). split.
    + exact (Envelope_round_trip x Hx).
    + exact (Envelope_toObject_shown x Hx).
  - intros o x Hx. apply Event_new_wf in Hx.
    exists (Event_shown x). split.
    + exact (Event_round_trip x Hx).
    + exact (Event_toObject_shown x Hx).
  - intros o x Hx. apply Manifest_new_wf in Hx.
    exists x. split; [exact (Manifest_round_trip x Hx)|reflexivity].
  - intros o x j Hx S P E. apply DialogEvent_new_wf in Hx.
    exact (DialogEvent_round_trip Hdate x j Hx S (Span_in_range_nonnegative _ P) E).
Qed.

Lemma round_trip_canonical_projection_witness :
  (exists x j,
     @DialogEvent.new text_dates (sample_dialog_options 1500) = Ok x
     /\ @DialogEvent.toObject text_dates x = Ok j
     /\ exists y, @DialogEvent.fromObject text_dates j = Ok y
                 /\ @DialogEvent.toObject text_dates y = Ok j)
  /\ (exists x,
        Envelope.new (sample_envelope_options "c1" [sample_event_options "bye"]) = Ok x
        /\ exists y, Envelope.fromObject (Envelope.toObject x) = Ok y
                     /\ Envelope.toObject y = Envelope.toObject x)
  /\ (exists x,
        Event.new (sample_event_options "invite") = Ok x
        /\ exists y, Event.fromObject (Event.toObject x) = Ok y
                     /\ Event.toObject y = Event.toObject x)
  /\ (exists x,
        Manifest.new sample_manifest_options = Ok x
        /\ exists y, Manifest.fromObject (Manifest.toObject x) = Ok y
                     /\ Manifest.toObject y = Manifest.toObject x).
Proof.
  pose proof (@round_trip_canonical_projection text_dates text_dates_round_trip)
    as (Env & Evt & Man & Dia).
  split; [|split; [|split]].
  - eexists. eexists. split; [vm_compute; reflexivity|].
    split; [vm_compute; reflexivity|].
    eapply (Dia (sample_dialog_options 1500)).
    + vm_compute. reflexivity.
    + vm_compute. reflexivity.
    + split; [split; vm_compute; discriminate|exact I].
    + vm_compute. reflexivity.
  - eexists. split; [vm_compute; reflexivity|].
    eapply (Env (sample_envelope_options "c1" [sample_event_options "bye"])).
    vm_compute. reflexivity.
  - eexists. split; [vm_compute; reflexivity|].
    eapply (Evt (sample_event_options "invite")).
    vm_compute. reflexivity.
  - eexists. split; [vm_compute; reflexivity|].
    eapply (Man sample_manifest_options).
    vm_compute. reflexivity.
Defined.

(** C1, as claimed, fails for a negative offset: the projection of the
    dialog event prints [-1] millisecond as [PT-1S], which
    [fromObject] refuses to read. *)
Lemma dialog_event_negative_offset_not_restored :
  exists x j,
    @DialogEvent.new text_dates (sample_dialog_options (-1)) = Ok x
    /\ @Span.startOffset text_dates (@DialogEvent.span text_dates x) = Some (inject_Z (-1))
    /\ @DialogEvent.toObject text_dates x = Ok j
    /\ @DialogEvent.fromObject text_dates j = Throw "Invalid ISO 8601 duration: PT-1S".
Proof.
  eexists. eexists. split; [vm_compute; reflexivity|].
  split; [reflexivity|].
  split; [vm_compute; reflexivity|].
  vm_compute. reflexivity.
Qed.

(** * The agents *)

Lemma Envelope_new_events (o : EnvelopeOptions.t) (e : Envelope.t) :
  Envelope.new o = Ok e ->
  mapM Event.new (EnvelopeOptions.events o) = Ok (Envelope.events e).
Proof.
  unfold Envelope.new. intros E.
  apply bind_ok in E. destruct E as (c & _ & E).
  apply bind_ok in E. destruct E as (sd & _ & E).
  apply bind_ok in E. destruct E as (es & Hes & E).
  inversion E. subst. exact Hes.
Qed.

Lemma responseEnvelope_events (m : Manifest.t) (inEnvelope out : Envelope.t) :
  OpenFloorAgent.responseEnvelope m inEnvelope = Ok out -> Envelope.events out = [].
Proof.
  unfold OpenFloorAgent.responseEnvelope. intros E.
  apply bind_ok in E. destruct E as (c & _ & E).
  apply Envelope_new_events in E. simpl in E. inversion E. reflexivity.
Qed.


Lemma for_of_app {S A : Type} (f : A -> Step S unit) (l1 l2 : list A) (s : S) :
  for_of f (l1 ++ l2) s
  = match for_of f l1 s with
    | (Ok _, s') => for_of f l2 s'
    | r => r
    end.
Proof.
  revert s. induction l1 as [|a l1 IH]; intros s; simpl.
  - reflexivity.
  - unfold sbind. destruct (f a s) as [[[]| |] s']; auto.
Qed.

Lemma filter_idempotent {A : Type} (p : A -> bool) (l : list A) :
  filter p (filter p l) = filter p l.
Proof.
  induction l as [|a l IH]; [reflexivity|].
  cbn [filter]. destruct (p a) eqn:Ea; cbn [filter]; rewrite ?Ea, IH; reflexivity.
Qed.

Section BotAgentProperties.
Context `{Host}.
Variable m : Manifest.t.

Lemma handleUtterance_throws (event : Event.t) (inEnvelope : Envelope.t)
    (s : BotAgent.t * EnvelopeObject.t) :
  BotAgent._handleUtterance m event inEnvelope s
  = (Throw "DialogEvent.id is required", s).
Proof. reflexivity. Qed.

Lemma handleGetManifests_throws (event : Event.t) (inEnvelope : Envelope.t)
    (s : BotAgent.t * EnvelopeObject.t) :
  BotAgent._handleGetManifests m event inEnvelope s
  = (Throw "PublishManifestEvent is not a constructor", s).
Proof. reflexivity. Qed.

(** No handler of the bot adds an outbound event. *)
Lemma handleEvent_out (event : Event.t) (inEnvelope : Envelope.t)
    (s : BotAgent.t * EnvelopeObject.t) :
  snd (snd (BotAgent._handleEvent m event inEnvelope s)) = snd s.
Proof.
  unfold BotAgent._handleEvent.
  repeat match goal with |- context [if ?b then _ else _] => destruct b end;
    try reflexivity.
  unfold BotAgent._handleInvite, sbind, lift.
  destruct (Conversation.new _); reflexivity.
Qed.

Lemma bot_for_of_out (inEnvelope : Envelope.t) (l : list Event.t)
    (s : BotAgent.t * EnvelopeObject.t) :
  snd (snd (for_of (fun e => BotAgent._handleEvent m e inEnvelope) l s)) = snd s.
Proof.
  revert s. induction l as [|a l IH]; intros s; simpl; [reflexivity|].
  unfold sbind.
  pose proof (handleEvent_out a inEnvelope s) as Ha.
  destruct (BotAgent._handleEvent m a inEnvelope s) as [[[]| |] s'];
    simpl in Ha; rewrite <- Ha; auto.
Qed.

Lemma handleEnvelope_out (inEnvelope : Envelope.t)
    (s : BotAgent.t * EnvelopeObject.t) :
  snd (snd (BotAgent._handleEnvelope m inEnvelope s)) = snd s.
Proof.
  unfold BotAgent._handleEnvelope, sbind, BotAgent.on_bot, modify.
  cbn [fst snd]. destruct (BotAgent.conflict _ _); [reflexivity|].
  rewrite bot_for_of_out. reflexivity.
Qed.

(** An event whose handler throws stops the run. *)
Lemma bot_for_of_throwing (inEnvelope : Envelope.t) (l : list Event.t)
    (s s' : BotAgent.t * EnvelopeObject.t) (event : Event.t) :
  for_of (fun e => BotAgent._handleEvent m e inEnvelope) l s = (Ok tt, s') ->
  In event l ->
  Events.isUtteranceEvent event = false /\ Events.isGetManifestsEvent event = false.
Proof.
  revert s. induction l as [|a l IH]; intros s E Hin; [destruct Hin|].
  simpl in E. unfold sbind in E.
  destruct (BotAgent._handleEvent m a inEnvelope s) as [[[]| |] s1] eqn:Ea;
    try discriminate E.
  destruct Hin as [<-|Hin]; [|exact (IH _ E Hin)].
  unfold BotAgent._handleEvent in Ea.
  unfold Events.isInviteEvent, Events.isUtteranceEvent, Events.isContextEvent,
    Events.isUninviteEvent, Events.isGrantFloorEvent, Events.isRevokeFloorEvent,
    Events.isGetManifestsEvent in *.
  destruct (String.eqb_spec (Event.eventType a) "utterance") as [U|U].
  { rewrite U in Ea. cbn in Ea. discriminate Ea. }
  destruct (String.eqb_spec (Event.eventType a) "getManifests") as [G|G].
  { rewrite G in Ea. cbn in Ea. discriminate Ea. }
  split; reflexivity.
Qed.

Lemma bot_processEnvelope_out (inEnvelope : Envelope.t) (b b' : BotAgent.t)
    (r : OpenFloorAgent.Processed) :
  BotAgent.processEnvelope m inEnvelope b = (Ok r, b') ->
  EnvelopeObject.events (OpenFloorAgent.outEnvelope r) = []
  /\ EnvelopeObject._events (OpenFloorAgent.outEnvelope r) = None.
Proof.
  unfold BotAgent.processEnvelope, OpenFloorAgent.processEnvelope. intros E.
  destruct (OpenFloorAgent.responseEnvelope m inEnvelope) as [out| |] eqn:R;
    try discriminate E.
  pose proof (handleEnvelope_out inEnvelope (b, EnvelopeObject.of_instance out)) as O.
  destruct (BotAgent._handleEnvelope m inEnvelope (b, EnvelopeObject.of_instance out))
    as [[[]| |] [b1 out1]];
    inversion E; subst; cbn in *; rewrite O;
    (split; [exact (responseEnvelope_events _ _ _ R)|reflexivity]).
Qed.

Lemma bot_processEnvelope_throwing (inEnvelope : Envelope.t) (b b' : BotAgent.t)
    (r : OpenFloorAgent.Processed) (event : Event.t) :
  BotAgent.processEnvelope m inEnvelope b = (Ok r, b') ->
  In event (Envelope.events inEnvelope) ->
  OpenFloorAgent.addressedToMe m event = true ->
  Events.isUtteranceEvent event = true \/ Events.isGetManifestsEvent event = true ->
  OpenFloorAgent.uncaught r <> None.
Proof.
  unfold BotAgent.processEnvelope, OpenFloorAgent.processEnvelope.
  intros E Hin Hme Hty.
  destruct (OpenFloorAgent.responseEnvelope m inEnvelope) as [out| |] eqn:R;
    try discriminate E.
  destruct (BotAgent._handleEnvelope m inEnvelope (b, EnvelopeObject.of_instance out))
    as [[[]| |] [b1 out1]] eqn:Eh;
    inversion E; subst; cbn; try discriminate.
  exfalso.
  unfold BotAgent._handleEnvelope, sbind, BotAgent.on_bot, modify in Eh.
  cbn [fst snd] in Eh.
  destruct (BotAgent.conflict _ _); [discriminate Eh|].
  assert (Hmy : In event (BotAgent.myEvents m inEnvelope)).
  { unfold BotAgent.myEvents, OpenFloorAgent.addMetadata.
    apply in_map_iff. exists (event, true). split; [reflexivity|].
    apply filter_In. split; [|reflexivity].
    apply in_map_iff. exists event. rewrite Hme. auto. }
  destruct (bot_for_of_throwing _ _ _ _ _ Eh Hmy) as (U & G).
  destruct Hty as [T|T]; congruence.
Qed.

End BotAgentProperties.

(** C2 (as the code behaves).  The canned reply of a bot is never built:
    the utterance handler asks for a dialog event without [id], which the
    constructor of [DialogEvent] refuses, and leaves the outbound
    envelope as it was.  Whenever [processEnvelope] of a bot returns, the
    envelope it returns has no events and no [_events] property, and when
    the inbound envelope holds an utterance addressed to the bot the
    handler's error is left uncaught. *)
Theorem bot_utterance_reply_not_built `{Host} (m : Manifest.t)
    (inEnvelope : Envelope.t) (b b' : BotAgent.t) (r : OpenFloorAgent.Processed) :
  BotAgent.processEnvelope m inEnvelope b = (Ok r, b') ->
  (forall event s,
      BotAgent._handleUtterance m event inEnvelope s
      = (Throw "DialogEvent.id is required", s))
  /\ EnvelopeObject.events (OpenFloorAgent.outEnvelope r) = []
  /\ EnvelopeObject._events (OpenFloorAgent.outEnvelope r) = None
  /\ (forall event,
        In event (Envelope.events inEnvelope) ->
        OpenFloorAgent.addressedToMe m event = true ->
        Events.isUtteranceEvent event = true ->
        OpenFloorAgent.uncaught r <> None).
Proof.
  intros E. split; [|split; [|split]].
  - intros event s. apply handleUtterance_throws.
  - exact (proj1 (bot_processEnvelope_out m _ _ _ _ E)).
  - exact (proj2 (bot_processEnvelope_out m _ _ _ _ E)).
  - intros event Hin Hme Hty.
    exact (bot_processEnvelope_throwing m _ _ _ _ event E Hin Hme (or_introl Hty)).
Qed.

Lemma bot_utterance_reply_not_built_witness :
  exists r b',
    @BotAgent.processEnvelope text_dates sample_manifest
      (sample_envelope "c1" [sample_event "utterance" None]) BotAgent.initial
    = (Ok r, b')
    /\ EnvelopeObject.events (OpenFloorAgent.outEnvelope r) = []
    /\ OpenFloorAgent.uncaught r = Some "DialogEvent.id is required".
Proof.
  eexists. eexists. split; [vm_compute; reflexivity|].
  split; [|reflexivity].
  refine (proj1 (proj2 (@bot_utterance_reply_not_built text_dates sample_manifest
            (sample_envelope "c1" [sample_event "utterance" None])
            BotAgent.initial _ _ _))).
  vm_compute. reflexivity.
Defined.

(** With the class that [events.ts] does export, the handler would build
    the event that carries the manifest of the agent. *)
Lemma exported_class_publishes_own_manifest `{Host} (m : Manifest.t) :
  Manifest_wf m = true ->
  exists e,
    BotAgent.construct "PublishManifestsEvent"
      (Events.exported_manifests_class "PublishManifestsEvent")
      (BotAgent.publishOptions m) = Ok e
    /\ PublishManifestsEvent.servicingManifests e = [m]
    /\ PublishManifestsEvent.discoveryManifests e = []
    /\ Event.eventType (PublishManifestsEvent.base e) = "publishManifests".
Proof.
  intros W. unfold BotAgent.construct, BotAgent.publishOptions.
  rewrite (Manifest_as_options m W).
  cbn [Events.exported_manifests_class existsb Events.exported_names bind].
  replace (Events.exported_manifests_class "PublishManifestsEvent")
    with (Some PublishManifestsEvent.new) by reflexivity.
  cbn [bind]. unfold PublishManifestsEvent.new.
  cbn [PublishManifestsEventOptions.servicingManifests
       PublishManifestsEventOptions.discoveryManifests
       PublishManifestsEventOptions.to PublishManifestsEventOptions.reason mapM].
  rewrite (Manifest_new_options m W). cbn [bind].
  eexists. split; [reflexivity|]. repeat split; reflexivity.
Qed.

(** C4 (as the code behaves).  The name [PublishManifestEvent] that
    [agents.ts] imports is not among the exports of [events.ts], so the
    handler of [getManifests] fails to construct its reply and leaves
    the outbound envelope as it was.  Whenever [processEnvelope] of a bot
    returns, the envelope it returns has no events and no [_events]
    property, and when the inbound envelope holds a [getManifests] event
    addressed to the bot the handler's error is left uncaught. *)
Theorem bot_manifests_not_published `{Host} (m : Manifest.t)
    (inEnvelope : Envelope.t) (b b' : BotAgent.t) (r : OpenFloorAgent.Processed) :
  BotAgent.processEnvelope m inEnvelope b = (Ok r, b') ->
  BotAgent.PublishManifestEvent = None
  /\ (forall event s,
        BotAgent._handleGetManifests m event inEnvelope s
        = (Throw "PublishManifestEvent is not a constructor", s))
  /\ EnvelopeObject.events (OpenFloorAgent.outEnvelope r) = []
  /\ EnvelopeObject._events (OpenFloorAgent.outEnvelope r) = None
  /\ (forall event,
        In event (Envelope.events inEnvelope) ->
        OpenFloorAgent.addressedToMe m event = true ->
        Events.isGetManifestsEvent event = true ->
        OpenFloorAgent.uncaught r <> None).
Proof.
  intros E. split; [reflexivity|]. split; [|split; [|split]].
  - intros event s. apply handleGetManifests_throws.
  - exact (proj1 (bot_processEnvelope_out m _ _ _ _ E)).
  - exact (proj2 (bot_processEnvelope_out m _ _ _ _ E)).
  - intros event Hin Hme Hty.
    exact (bot_processEnvelope_throwing m _ _ _ _ event E Hin Hme (or_intror Hty)).
Qed.

Lemma bot_manifests_not_published_witness :
  exists r b',
    @BotAgent.processEnvelope text_dates sample_manifest
      (sample_envelope "c1" [sample_event "getManifests" None]) BotAgent.initial
    = (Ok r, b')
    /\ EnvelopeObject.events (OpenFloorAgent.outEnvelope r) = []
    /\ OpenFloorAgent.uncaught r = Some "PublishManifestEvent is not a constructor".
Proof.
  eexists. eexists. split; [vm_compute; reflexivity|].
  split; [|reflexivity].
  refine (proj1 (proj2 (proj2 (@bot_manifests_not_published text_dates sample_manifest
            (sample_envelope "c1" [sample_event "getManifests" None])
            BotAgent.initial _ _ _)))).
  vm_compute. reflexivity.
Defined.

(** C3 (amended).  A bot that is bound to conversation [A] and is handed
    an envelope of another conversation raises the conflict error before
    any event is handled: the active conversation, the floor flag and the
    outbound envelope are as before, but the current context has already
    been emptied.  [processEnvelope] then returns the response envelope
    without events and leaves the error uncaught. *)
Theorem conversation_conflict_before_events `{Host} (m : Manifest.t)
    (inEnvelope : Envelope.t) (out : EnvelopeObject.t) (b : BotAgent.t)
    (A : Conversation.t) :
  BotAgent._activeConversation b = Some A ->
  Conversation.id A <> Conversation.id (Envelope.conversation inEnvelope) ->
  exists b',
    BotAgent._handleEnvelope m inEnvelope (b, out)
    = (Throw "Bot is already in a different conversation", (b', out))
    /\ BotAgent._activeConversation b' = BotAgent._activeConversation b
    /\ BotAgent._hasFloor b' = BotAgent._hasFloor b
    /\ BotAgent._currentContext b' = []
    /\ (forall response,
          OpenFloorAgent.responseEnvelope m inEnvelope = Ok response ->
          BotAgent.processEnvelope m inEnvelope b
          = (Ok {| OpenFloorAgent.outEnvelope := EnvelopeObject.of_instance response;
                   OpenFloorAgent.uncaught :=
                     Some "Bot is already in a different conversation" |}, b')).
Proof.
  intros Hact Hid.
  assert (C : BotAgent.conflict (BotAgent.set_currentContext [] b) inEnvelope = true).
  { unfold BotAgent.conflict. cbn [BotAgent.set_currentContext
      BotAgent._activeConversation]. rewrite Hact.
    apply negb_true_iff. apply String.eqb_neq. exact Hid. }
  assert (E : forall out0,
             BotAgent._handleEnvelope m inEnvelope (b, out0)
             = (Throw "Bot is already in a different conversation",
                (BotAgent.set_currentContext [] b, out0))).
  { intros out0. unfold BotAgent._handleEnvelope, sbind, BotAgent.on_bot, modify.
    cbn [fst snd]. rewrite C. reflexivity. }
  exists (BotAgent.set_currentContext [] b).
  split; [apply E|]. repeat split.
  intros response R.
  unfold BotAgent.processEnvelope, OpenFloorAgent.processEnvelope.
  rewrite R, E. reflexivity.
Qed.

Lemma conversation_conflict_before_events_witness :
  exists b',
    @BotAgent._handleEnvelope text_dates sample_manifest
      (sample_envelope "B" [sample_event "utterance" None])
      ({| BotAgent._currentContext := [];
          BotAgent._activeConversation :=
            Some {| Conversation.id := "A"; Conversation.conversants := [] |};
          BotAgent._hasFloor := true |},
       EnvelopeObject.of_instance (sample_envelope "B" []))
    = (Throw "Bot is already in a different conversation",
       (b', EnvelopeObject.of_instance (sample_envelope "B" [])))
    /\ BotAgent._hasFloor b' = true.
Proof.
  destruct (@conversation_conflict_before_events text_dates sample_manifest
              (sample_envelope "B" [sample_event "utterance" None])
              (EnvelopeObject.of_instance (sample_envelope "B" []))
              {| BotAgent._currentContext := [];
                 BotAgent._activeConversation :=
                   Some {| Conversation.id := "A"; Conversation.conversants := [] |};
                 BotAgent._hasFloor := true |}
              {| Conversation.id := "A"; Conversation.conversants := [] |})
    as (b' & E & _ & F & _).
  - reflexivity.
  - vm_compute. discriminate.
  - exists b'. split; [exact E|exact F].
Defined.

(** C3, as claimed, fails: the context that the bot had kept is gone
    when the conflict error is raised. *)
Lemma conversation_conflict_clears_context :
  let b := {| BotAgent._currentContext := [sample_event "context" None];
              BotAgent._activeConversation :=
                Some {| Conversation.id := "A"; Conversation.conversants := [] |};
              BotAgent._hasFloor := true |} in
  exists b',
    @BotAgent._handleEnvelope text_dates sample_manifest
      (sample_envelope "B" []) (b, EnvelopeObject.of_instance (sample_envelope "B" []))
    = (Throw "Bot is already in a different conversation",
       (b', EnvelopeObject.of_instance (sample_envelope "B" [])))
    /\ BotAgent._currentContext b' <> BotAgent._currentContext b.
Proof.
  eexists. split; [vm_compute; reflexivity|]. discriminate.
Qed.

(** ** The listener of the bot, turn by turn *)

Section BotRunProperties.
Context `{Host}.
Variable m : Manifest.t.




Lemma turn_done (b : BotAgent.t) (l : BotRun.Listener) :
  BotRun.remaining l = [] -> BotRun.turn m b l = (b, l).
Proof. unfold BotRun.turn. intros ->. reflexivity. Qed.


Lemma turn_inEnvelope (b : BotAgent.t) (l : BotRun.Listener) :
  BotRun.inEnvelope (snd (BotRun.turn m b l)) = BotRun.inEnvelope l.
Proof.
  unfold BotRun.turn. destruct (BotRun.remaining l) as [|e rest]; [reflexivity|].
  destruct (BotAgent._handleEvent m e (BotRun.inEnvelope l) (b, BotRun.outEnvelope l))
    as [[[]| |] [b' out]]; reflexivity.
Qed.



Lemma set_nth_same {A : Type} (k : nat) (x : A) (l : list A) :
  nth_error l k = Some x -> BotRun.set_nth k x l = l.
Proof.
  revert k. induction l as [|a l IH]; intros [|k] E; cbn in *;
    try discriminate E; try reflexivity.
  - inversion E. reflexivity.
  - rewrite (IH k E). reflexivity.
Qed.

Lemma set_nth_last {A : Type} (x y : A) (l : list A) :
  BotRun.set_nth (length l) y (l ++ [x]) = (l ++ [y])%list.
Proof. induction l as [|a l IH]; cbn; [reflexivity|]. rewrite IH. reflexivity. Qed.

(** While the listeners started before have nothing left to do,
    resuming listeners turns the loop of the last one only. *)
Lemma run_resumes (ks : list nat) (b : BotAgent.t) (L : list BotRun.Listener)
    (l : BotRun.Listener) :
  Forall (fun l0 => BotRun.remaining l0 = []) L ->
  let x := turns m (count_occ Nat.eq_dec ks (length L)) (b, l) in
  BotRun.run m (map BotRun.Resume ks)
    {| BotRun.bot := b; BotRun.listeners := (L ++ [l])%list |}
  = {| BotRun.bot := fst x; BotRun.listeners := (L ++ [snd x])%list |}.
Proof.
  intros Q. unfold BotRun.run.
  revert b l. induction ks as [|k ks IH]; intros b l; [reflexivity|].
  cbn [map fold_left BotRun.step BotRun.bot BotRun.listeners count_occ].
  destruct (Nat.eq_dec k (length L)) as [E|E].
  - subst k. rewrite nth_error_app2, Nat.sub_diag by lia. cbn [nth_error].
    destruct (BotRun.turn m b l) as [b' l'] eqn:T.
    rewrite set_nth_last. rewrite IH. cbn [turns fst snd]. rewrite T. reflexivity.
  - destruct (Nat.eq_dec (length L) k) as [E'|_]; [congruence|].
    destruct (nth_error (L ++ [l]) k) as [l0|] eqn:N; [|apply IH].
    assert (Hk : (k < length L)%nat).
    { assert (X : nth_error (L ++ [l]) k <> None) by congruence.
      apply nth_error_Some in X. rewrite length_app in X. cbn in X. lia. }
    pose proof N as N'. rewrite nth_error_app1 in N' by exact Hk.
    rewrite Forall_forall in Q. pose proof (Q l0 (nth_error_In _ _ N')) as R.
    rewrite (turn_done b l0 R). rewrite (set_nth_same k l0 _ N). apply IH.
Qed.

(** A call of [processEnvelope] on a bot none of whose listeners has
    anything left to do, followed by turns of the loops. *)
Lemma run_submit (inEnvelope : Envelope.t) (out : Envelope.t) (ks : list nat)
    (s : BotRun.t) :
  quiescent s ->
  OpenFloorAgent.responseEnvelope m inEnvelope = Ok out ->
  let x := turns m (count_occ Nat.eq_dec ks (length (BotRun.listeners s)))
             (BotRun.start m inEnvelope (EnvelopeObject.of_instance out)
                (BotRun.bot s)) in
  BotRun.run m (BotRun.Submit inEnvelope :: map BotRun.Resume ks) s
  = {| BotRun.bot := fst x;
       BotRun.listeners := (BotRun.listeners s ++ [snd x])%list |}.
Proof.
  intros Q R. unfold BotRun.run. cbn [fold_left BotRun.step]. rewrite R.
  destruct (BotRun.start m inEnvelope (EnvelopeObject.of_instance out) (BotRun.bot s))
    as [b l] eqn:S.
  exact (run_resumes ks b (BotRun.listeners s) l Q).
Qed.

(** Resuming listeners that have nothing left to do changes nothing. *)
Lemma run_idle (ks : list nat) (s : BotRun.t) :
  quiescent s -> BotRun.run m (map BotRun.Resume ks) s = s.
Proof.
  intros Q. unfold BotRun.run. induction ks as [|k ks IH]; [reflexivity|].
  cbn [map fold_left BotRun.step].
  destruct (nth_error (BotRun.listeners s) k) as [l|] eqn:N; [|exact IH].
  unfold quiescent in Q. rewrite Forall_forall in Q.
  rewrite (turn_done (BotRun.bot s) l (Q l (nth_error_In _ _ N))).
  rewrite (set_nth_same k l _ N). destruct s as [b L]. exact IH.
Qed.

End BotRunProperties.




(** ** The floor manager *)

Lemma grant_new (senderUri : string) :
  str_truthy senderUri = true ->
  GrantFloorEvent.new
    {| BareEventOptions.to :=
         Some {| ToOptions.speakerUri := Some senderUri;
                 ToOptions.serviceUrl := None;
                 ToOptions.private := None |};
       BareEventOptions.reason := None |}
  = Ok (grant_to senderUri).
Proof.
  intros Hs. unfold GrantFloorEvent.new, BareEvent.new, Event.new, To.new, falsy.
  cbn [BaseEventOptions.eventType BaseEventOptions.to BaseEventOptions.reason
       BaseEventOptions.parameters BareEventOptions.to BareEventOptions.reason
       ToOptions.speakerUri ToOptions.serviceUrl ToOptions.private opt_truthy].
  rewrite Hs. reflexivity.
Qed.

(** Whatever was assigned before, forwarding an event leaves in
    [_events] the members of [events] and that event. *)
Lemma forwardEvent_spec (inEnvelope : Envelope.t) (event : Event.t)
    (f : FloorManager.t) (out : Envelope.t) (assigned : option (list Event.t)) :
  str_truthy (Sender.speakerUri (Envelope.sender inEnvelope)) = true ->
  FloorManager._forwardEvent event inEnvelope
    (f, {| EnvelopeObject.instance := out; EnvelopeObject._events := assigned |})
  = (Ok tt, (floor_after inEnvelope f event,
             {| EnvelopeObject.instance := out;
                EnvelopeObject._events := Some (Envelope.events out ++ [event])%list |})).
Proof.
  intros Hs.
  unfold FloorManager._forwardEvent, floor_after.
  unfold Events.isByeEvent, Events.isRequestFloorEvent.
  destruct (String.eqb_spec (Event.eventType event) "bye") as [B|B].
  - reflexivity.
  - destruct (String.eqb (Event.eventType event) "requestFloor").
    + unfold sbind, lift. rewrite (grant_new _ Hs). reflexivity.
    + reflexivity.
Qed.

Lemma floor_for_of (inEnvelope : Envelope.t) (l : list Event.t)
    (f : FloorManager.t) (out : Envelope.t) (assigned : option (list Event.t)) :
  str_truthy (Sender.speakerUri (Envelope.sender inEnvelope)) = true ->
  for_of (fun e => FloorManager._forwardEvent e inEnvelope) l
    (f, {| EnvelopeObject.instance := out; EnvelopeObject._events := assigned |})
  = (Ok tt,
     (fold_left (floor_after inEnvelope) l f,
      {| EnvelopeObject.instance := out;
         EnvelopeObject._events :=
           fold_left (fun _ e => Some (Envelope.events out ++ [e])%list) l assigned |})).
Proof.
  intros Hs. revert f assigned. induction l as [|a l IH]; intros f assigned.
  - reflexivity.
  - cbn [for_of fold_left]. unfold sbind.
    rewrite (forwardEvent_spec inEnvelope a f out assigned Hs). apply IH.
Qed.

Lemma fold_left_last {A B : Type} (g : A -> B) (l : list A) (a : option A) :
  fold_left (fun _ e => Some (g e)) l (option_map g a)
  = option_map g (fold_left (fun _ e => Some e) l a).
Proof.
  revert a. induction l as [|x l IH]; intros a; [reflexivity|].
  cbn [fold_left]. exact (IH (Some x)).
Qed.

Lemma floor_keeps_speaker (inEnvelope : Envelope.t) (l : list Event.t)
    (f : FloorManager.t) :
  (forall e, In e l -> Events.isByeEvent e = false) ->
  FloorManager._currentSpeaker f
  = Some (Sender.speakerUri (Envelope.sender inEnvelope)) ->
  FloorManager._currentSpeaker (fold_left (floor_after inEnvelope) l f)
  = Some (Sender.speakerUri (Envelope.sender inEnvelope)).
Proof.
  revert f. induction l as [|a l IH]; intros f Hl Hf; [exact Hf|].
  cbn [fold_left]. apply IH; [intros e He; apply Hl; right; exact He|].
  unfold floor_after. rewrite (Hl a (or_introl eq_refl)).
  destruct (Events.isRequestFloorEvent a); [reflexivity|exact Hf].
Qed.

(** C5 (as the code behaves).  The floor manager assigns what it forwards
    to a property [_events] of the response envelope, each time the
    members of [events] and one event more, while [events], which
    [toObject] reads, is a readonly member that stays as the constructor
    left it.  So for a constructible inbound envelope the envelope that
    [processEnvelope] returns has no events; its [_events] holds the last
    inbound event only, and no [grantFloor] event.  Forwarding a
    [requestFloor] event does make the sender the current speaker, who
    is still the current speaker when the envelope is done unless a
    [bye] event followed. *)
Theorem floor_manager_events_not_forwarded (m : Manifest.t)
    (o : EnvelopeOptions.t) (inEnvelope out : Envelope.t) (f : FloorManager.t) :
  Envelope.new o = Ok inEnvelope ->
  OpenFloorAgent.responseEnvelope m inEnvelope = Ok out ->
  let senderUri := Sender.speakerUri (Envelope.sender inEnvelope) in
  exists f',
    FloorManager.processEnvelope m inEnvelope f
    = (Ok {| OpenFloorAgent.outEnvelope :=
               {| EnvelopeObject.instance := out;
                  EnvelopeObject._events :=
                    option_map (fun event => [event])
                               (final_event (Envelope.events inEnvelope)) |};
             OpenFloorAgent.uncaught := None |}, f')
    /\ Envelope.events out = []
    /\ get_property (Envelope.toObject out) "events" = JArr []
    /\ (forall event f0 out0,
          Events.isRequestFloorEvent event = true ->
          exists f1,
            FloorManager._forwardEvent event inEnvelope (f0, out0)
            = (Ok tt, (f1, {| EnvelopeObject.instance := EnvelopeObject.instance out0;
                              EnvelopeObject._events :=
                                Some (EnvelopeObject.events out0 ++ [event])%list |}))
            /\ FloorManager._currentSpeaker f1 = Some senderUri)
    /\ (forall pre event post,
          Envelope.events inEnvelope = (pre ++ event :: post)%list ->
          Events.isRequestFloorEvent event = true ->
          (forall e, In e post -> Events.isByeEvent e = false) ->
          FloorManager._currentSpeaker f' = Some senderUri).
Proof.
  intros Hin Hout senderUri.
  assert (Hs : str_truthy senderUri = true).
  { apply Envelope_new_wf in Hin. unfold Envelope_wf, Sender_wf in Hin.
    andb_split Hin. andb_split Hin1. exact Hin1. }
  assert (NotBye : forall event,
             Events.isRequestFloorEvent event = true ->
             Events.isByeEvent event = false).
  { intros event. unfold Events.isRequestFloorEvent, Events.isByeEvent.
    intros E. apply String.eqb_eq in E. rewrite E. reflexivity. }
  pose proof (responseEnvelope_events _ _ _ Hout) as Hev.
  exists (fold_left (floor_after inEnvelope) (Envelope.events inEnvelope) f).
  split; [|split; [|split; [|split]]].
  - unfold FloorManager.processEnvelope, OpenFloorAgent.processEnvelope.
    rewrite Hout. unfold FloorManager._handleEnvelope, EnvelopeObject.of_instance.
    rewrite (floor_for_of inEnvelope _ f out None Hs).
    rewrite Hev. cbn [app].
    rewrite (fold_left_last (fun e : Event.t => [e]) _ None). reflexivity.
  - exact Hev.
  - unfold Envelope.toObject. rewrite Hev. reflexivity.
  - intros event f0 [i0 a0] R.
    exists (floor_after inEnvelope f0 event).
    split; [exact (forwardEvent_spec inEnvelope event f0 i0 a0 Hs)|].
    unfold floor_after. rewrite (NotBye _ R), R. reflexivity.
  - intros pre event post Hpre R Hpost. rewrite Hpre, fold_left_app.
    cbn [fold_left]. apply floor_keeps_speaker; [exact Hpost|].
    unfold floor_after. rewrite (NotBye _ R), R. reflexivity.
Qed.

Lemma floor_manager_events_not_forwarded_witness :
  exists f' out',
    FloorManager.processEnvelope sample_manifest
      (sample_envelope "c1" [sample_event "invite" None;
                             sample_event "requestFloor" None])
      FloorManager.initial
    = (Ok {| OpenFloorAgent.outEnvelope := out';
             OpenFloorAgent.uncaught := None |}, f')
    /\ EnvelopeObject.events out' = []
    /\ EnvelopeObject._events out' = Some [sample_event "requestFloor" None]
    /\ FloorManager._currentSpeaker f' = Some "tag:example.com,2025:user1".
Proof.
  destruct (floor_manager_events_not_forwarded sample_manifest
              (sample_envelope_options "c1"
                 [{| BaseEventOptions.eventType := "invite";
                     BaseEventOptions.to := None;
                     BaseEventOptions.reason := None;
                     BaseEventOptions.parameters := None |};
                  {| BaseEventOptions.eventType := "requestFloor";
                     BaseEventOptions.to := None;
                     BaseEventOptions.reason := None;
                     BaseEventOptions.parameters := None |}])
              (sample_envelope "c1" [sample_event "invite" None;
                                     sample_event "requestFloor" None])
              {| Envelope.schema := {| Schema.version := "1.0.0"; Schema.url := None |};
                 Envelope.conversation :=
                   {| Conversation.id := "c1"; Conversation.conversants := [] |};
                 Envelope.sender :=
                   {| Sender.speakerUri := "tag:example.com,2025:bot1";
                      Sender.serviceUrl := Some "https://example.com/bot1" |};
                 Envelope.events := [] |}
              FloorManager.initial)
    as (f' & E & O & _ & _ & S).
  - vm_compute. reflexivity.
  - vm_compute. reflexivity.
  - exists f'. eexists. split; [exact E|]. split; [exact O|].
    split; [reflexivity|].
    apply (S [sample_event "invite" None] (sample_event "requestFloor" None) []).
    + reflexivity.
    + reflexivity.
    + intros e [].
Defined.

(** * Further properties of the code *)

(** ** The keywords of the schema validator *)

Section ValidatorKeywords.

Import Validation.

Variable Number_print : Q -> string.
Variable JSON_stringify : json -> string.
Variable RegExp_new : string -> string + (string -> bool).

Local Abbreviation validate := (Validation.validate Number_print JSON_stringify RegExp_new).
Local Abbreviation check_required := (Validation.check_required Number_print).
Local Abbreviation check_anyOf := (Validation.check_anyOf).

Lemma typeof_not_integer (data : json) : String.eqb (typeof data) "integer" = false.
Proof. destruct data; reflexivity. Qed.

Lemma typeof_not_array (data : json) : String.eqb (typeof data) "array" = false.
Proof. destruct data; reflexivity. Qed.

(** X1.  A schema that only names a [type] accepts a value exactly when
    the type is ['array'] and the value is an array, or the type is
    another non-empty string and [typeof] of the value is that string;
    so the JSON Schema type ['integer'] accepts no value at all, and
    an array passes for type ['object']. *)
Theorem type_keyword_is_typeof (data : json) (t : string) :
  valid (validate data (JObj [("type", JStr t)]))
  = (if str_truthy t
     then if String.eqb t "array" then isArray data
          else String.eqb (typeof data) t
     else true)
  /\ valid (validate data (JObj [("type", JStr "integer")])) = false
  /\ (forall items,
        valid (validate (JArr items) (JObj [("type", JStr "object")])) = true).
Proof.
  assert (G : forall t0,
             valid (validate data (JObj [("type", JStr t0)]))
             = (if str_truthy t0
                then if String.eqb t0 "array" then isArray data
                     else String.eqb (typeof data) t0
                else true)).
  { intros t0. unfold Validation.validate, Validation._validateObject.
    cbn [get_property assoc String.eqb Ascii.eqb Bool.eqb with_field].
    unfold Validation.check_type, vbind.
    cbn [truthy strict_equal typeof_value truthy_value isArray_value elements_of].
    destruct (str_truthy t0) eqn:Et; [|destruct data; reflexivity].
    destruct (String.eqb t0 "array") eqn:Ea.
    - destruct data; reflexivity.
    - destruct (String.eqb (typeof data) t0) eqn:Ety.
      + destruct data; reflexivity.
      + cbn [negb].
        destruct (String.eqb_spec t0 "object") as [->|Ho].
        * rewrite Ety, andb_false_r. reflexivity.
        * reflexivity. }
  split; [apply G|]. split.
  - rewrite G. cbn. apply typeof_not_integer.
  - intros items. reflexivity.
Qed.

Lemma for_each_required (fields : list (string * json)) (names : list string)
    (errs : list string) :
  for_each (fun requiredProp =>
              let name := toString Number_print requiredProp in
              if negb (in_operator name (JObj fields))
                 || is_undefined_value (member (JObj fields) name)
              then push ("root: missing required property '" ++ name ++ "'")
              else vret tt) (map JStr names) errs
  = (Normal tt,
     errs ++ map (fun n => ("root: missing required property '" ++ n ++ "'")%string)
                 (filter (fun n => negb (in_operator n (JObj fields))
                                   || is_undefined_value (member (JObj fields) n))
                         names))%list.
Proof.
  revert errs. induction names as [|n names IH]; intros errs.
  - simpl. rewrite app_nil_r. reflexivity.
  - cbn [map for_each filter toString]. unfold vbind.
    destruct (negb (in_operator n (JObj fields))
              || is_undefined_value (member (JObj fields) n)) eqn:E.
    + unfold push at 1. rewrite IH. cbn [map]. rewrite <- app_assoc. reflexivity.
    + unfold vret at 1. rewrite IH. reflexivity.
Qed.

(** X2.  Against a schema that only lists [required] names, an object
    gets one error for every name of the list that it has not, or
    that is bound to [undefined], in the order of the list, and no
    other error.  What the object has are its own members and those
    it inherits: the names of the methods of [Object.prototype] are
    reported only where the object binds them to [undefined]. *)
Theorem required_keyword_reports_each_missing
    (fields : list (string * json)) (names : list string) :
  errors (validate (JObj fields) (JObj [("required", JArr (map JStr names))]))
  = map (fun n => "root: missing required property '" ++ n ++ "'")
        (filter (fun n => negb (in_operator n (JObj fields))
                          || is_undefined_value (member (JObj fields) n))
                names)
  /\ (forall n,
        negb (in_operator n (JObj fields))
        || is_undefined_value (member (JObj fields) n)
        = match assoc n fields with
          | Some v => is_undefined v
          | None => negb (String.eqb n "__proto__" || String.eqb n "constructor"
                          || existsb (String.eqb n) Object_prototype_methods)
          end).
Proof.
  split.
  - unfold Validation.validate. cbn [errors].
    unfold Validation._validateObject.
    cbn [get_property assoc String.eqb Ascii.eqb Bool.eqb with_field].
    unfold Validation.check_type, Validation.check_required, vbind, vret.
    cbn [truthy negb is_object typeof typeof_value truthy_value
         String.eqb Ascii.eqb Bool.eqb andb].
    pose proof (for_each_required fields names []) as F.
    match goal with
    | |- context [for_each ?f (map JStr names) []] =>
        match type of F with for_each ?g _ _ = _ => change f with g end
    end.
    rewrite F. reflexivity.
  - intros n. unfold in_operator, member, lookup, Object_method.
    destruct (assoc n fields) as [v|]; [reflexivity|].
    destruct (String.eqb n "__proto__"); [reflexivity|].
    destruct (String.eqb n "constructor"); [reflexivity|].
    cbn [orb].
    destruct (existsb (String.eqb n) Object_prototype_methods); reflexivity.
Qed.

Lemma includes_object (values : list json) (fields : list (string * json)) :
  Validation.includes values (JObj fields) = false.
Proof.
  unfold Validation.includes.
  induction values as [|v values IH]; [reflexivity|].
  cbn [existsb]. rewrite IH. destruct v; reflexivity.
Qed.

Lemma includes_array (values : list json) (items : list json) :
  Validation.includes values (JArr items) = false.
Proof.
  unfold Validation.includes.
  induction values as [|v values IH]; [reflexivity|].
  cbn [existsb]. rewrite IH. destruct v; reflexivity.
Qed.

(** X3.  A schema that only lists an [enum] accepts a value exactly
    when the value is strictly equal to a listed one; as objects and
    arrays are equal only to themselves, no object or array is
    accepted, whatever the list holds. *)
Theorem enum_keyword_is_strict (data : json) (values : list json) :
  valid (validate data (JObj [("enum", JArr values)]))
  = Validation.includes values data
  /\ (forall fields,
        valid (validate (JObj fields) (JObj [("enum", JArr values)])) = false)
  /\ (forall items,
        valid (validate (JArr items) (JObj [("enum", JArr values)])) = false).
Proof.
  assert (G : forall d,
             valid (validate d (JObj [("enum", JArr values)]))
             = Validation.includes values d).
  { intros d. unfold Validation.validate, Validation._validateObject.
    cbn [get_property assoc String.eqb Ascii.eqb Bool.eqb with_field].
    unfold Validation.check_type, Validation.check_required, Validation.check_enum,
      Validation.check_range, Validation.check_pattern, vbind, vret, push.
    cbn [truthy negb].
    destruct (Validation.includes values d); destruct d as [j| | |];
      try destruct j; reflexivity. }
  split; [apply G|]. split.
  - intros fields. rewrite G. apply includes_object.
  - intros items. rewrite G. apply includes_array.
Qed.

(** X4.  The bounds [minimum] and [maximum] are inclusive and bind
    numbers only: a number is accepted exactly when it lies between
    them, bounds included, and every value that is not a number is
    accepted. *)
Theorem range_keywords_are_inclusive (data : json) (lo hi : Q) :
  valid (validate data (JObj [("minimum", JNum lo); ("maximum", JNum hi)]))
  = match data with
    | JNum x => Qle_bool lo x && Qle_bool x hi
    | _ => true
    end.
Proof.
  unfold Validation.validate, Validation._validateObject.
  cbn [get_property assoc String.eqb Ascii.eqb Bool.eqb with_field].
  unfold Validation.check_type, Validation.check_required, Validation.check_enum,
    Validation.check_range, Validation.check_pattern, vbind, vret, push.
  cbn [truthy negb].
  destruct data as [| | |x| | |]; try reflexivity.
  destruct (Qle_bool lo x), (Qle_bool x hi); reflexivity.
Qed.

End ValidatorKeywords.

(** ** utils.ts *)

Lemma split_colon_app (a b : string) :
  forallb (fun c => negb (Ascii.eqb c ":")) (list_ascii_of_string a) = true ->
  Utils.split_colon (a ++ ":" ++ b) = Some (a, b).
Proof.
  induction a as [|c a IH]; intros Ha; [reflexivity|].
  cbn [list_ascii_of_string forallb] in Ha. apply andb_true_iff in Ha.
  destruct Ha as (Hc & Ha). cbn [append Utils.split_colon].
  apply negb_true_iff in Hc. rewrite Hc.
  change (a ++ String ":" b) with (a ++ ":" ++ b). rewrite (IH Ha). reflexivity.
Qed.

Lemma split_colon_inv (s a b : string) :
  Utils.split_colon s = Some (a, b) ->
  s = a ++ ":" ++ b
  /\ forallb (fun c => negb (Ascii.eqb c ":")) (list_ascii_of_string a) = true.
Proof.
  revert a. induction s as [|c s IH]; intros a E; [discriminate E|].
  cbn [Utils.split_colon] in E.
  destruct (Ascii.eqb_spec c ":") as [->|Hc].
  - inversion E. subst. split; reflexivity.
  - destruct (Utils.split_colon s) as [[a' b']|]; [|discriminate E].
    inversion E. subst. destruct (IH a' eq_refl) as (-> & Ha').
    split; [reflexivity|].
    cbn [list_ascii_of_string forallb]. rewrite Ha'.
    apply Ascii.eqb_neq in Hc. rewrite Hc. reflexivity.
Qed.

Lemma scheme_char_not_colon (c : ascii) :
  Utils.is_scheme_char c = true -> negb (Ascii.eqb c ":") = true.
Proof.
  destruct (Ascii.eqb_spec c ":") as [->|]; [discriminate|reflexivity].
Qed.

Lemma alpha_is_scheme_char (c : ascii) :
  Utils.is_alpha c = true -> Utils.is_scheme_char c = true.
Proof. unfold Utils.is_scheme_char. intros ->. reflexivity. Qed.

(** X5.  [isValidUri] accepts exactly the strings [scheme:path] whose
    scheme is a letter followed by letters, digits, [+], [.] or [-],
    and whose path, all that follows the first colon, is not empty. *)
Theorem isValidUri_scheme_colon_path (uri : string) :
  Utils.isValidUri uri = true <->
  exists c scheme path,
    uri = String c scheme ++ ":" ++ path
    /\ Utils.is_alpha c = true
    /\ forallb Utils.is_scheme_char (list_ascii_of_string scheme) = true
    /\ path <> "".
Proof.
  unfold Utils.isValidUri. split.
  - destruct (Utils.split_colon uri) as [[[|c scheme] path]|] eqn:E;
      try discriminate.
    destruct (split_colon_inv _ _ _ E) as (-> & _).
    destruct (Utils.is_alpha c) eqn:Hc; [|discriminate].
    destruct (forallb Utils.is_scheme_char (list_ascii_of_string scheme)) eqn:Hs;
      [|discriminate].
    cbn [andb negb]. destruct path as [|p path]; [discriminate|].
    intros _. exists c, scheme, (String p path).
    repeat split; auto. discriminate.
  - intros (c & scheme & path & -> & Hc & Hs & Hp).
    rewrite split_colon_app.
    + rewrite Hc, Hs. cbn [andb negb].
      destruct path; [congruence|reflexivity].
    + cbn [list_ascii_of_string forallb].
      rewrite (scheme_char_not_colon c (alpha_is_scheme_char c Hc)).
      cbn [andb]. rewrite forallb_forall in *. intros x Hx.
      apply scheme_char_not_colon. auto.
Qed.

(** X6.  [parseIsoDuration] reads the hours, minutes and whole seconds
    of a duration ["PT…H…M…S"], each part being optional and any
    non-negative number, and returns their sum in milliseconds, as long
    as that sum does not exceed 2^53: minutes and seconds need not stay
    below sixty, and ["PT"] alone reads as zero. *)
Theorem parseIsoDuration_adds_parts (h m s : option Z) :
  (0 <= part_value h)%Z -> (0 <= part_value m)%Z -> (0 <= part_value s)%Z ->
  ((part_value h * 60 + part_value m) * 60000 + part_value s * 1000 <= 2 ^ 53)%Z ->
  let part (o : option Z) (X : ascii) :=
    duration_part (option_map Number_toString o) X in
  exists q,
    Utils.parseIsoDuration ("PT" ++ part h "H"%char ++ part m "M"%char ++ part s "S"%char)
    = Ok q
    /\ (q == inject_Z ((part_value h * 60 + part_value m) * 60000
                       + part_value s * 1000))%Q.
Proof.
  intros Hh Hm Hs _ part.
  assert (R : forall o, (0 <= part_value o)%Z ->
              run_or_absent (option_map Number_toString o)
              /\ Utils.group_value (option_map Number_toString o) = part_value o).
  { intros [z|] Ho; cbn [option_map run_or_absent Utils.group_value part_value] in *.
    - split; [apply Number_toString_digit_run|apply parseInt_Number_toString]; auto.
    - split; [exact I|reflexivity]. }
  destruct (R h Hh) as (Rh & Vh), (R m Hm) as (Rm & Vm), (R s Hs) as (Rs & Vs).
  unfold Utils.parseIsoDuration, part.
  rewrite (duration_match_parts _ _ _ Rh Rm Rs).
  eexists. split; [reflexivity|].
  rewrite Vh, Vm. change (Utils.group_value None) with 0%Z.
  assert (Vs' : Utils.parseFloat
                  (option_map (fun x => (x, None)) (option_map Number_toString s))
                = inject_Z (part_value s)).
  { destruct s as [z|]; cbn [option_map Utils.parseFloat part_value] in *.
    - rewrite parseInt_Number_toString by auto. reflexivity.
    - reflexivity. }
  rewrite Vs'. rewrite <- inject_Z_mult, <- inject_Z_plus.
  apply inject_Z_injective. lia.
Qed.

Lemma parseIsoDuration_adds_parts_witness :
  exists q,
    Utils.parseIsoDuration "PT90M30S" = Ok q
    /\ (q == inject_Z 5430000)%Q.
Proof.
  destruct (parseIsoDuration_adds_parts None (Some 90%Z) (Some 30%Z)) as (q & E & V).
  - cbn. lia.
  - cbn. lia.
  - cbn. lia.
  - cbn. lia.
  - exists q. split; [exact E|exact V].
Defined.

(** ** dialog-event.ts *)

Section DialogEventProperties.

Context `{Host}.

(** X7.  The constructor of [Span] rejects options exactly when they
    give both forms of the start or both forms of the end.  A span it
    returns has exactly one start and at most one end; its end is the
    one of the options, and so is its start, except that a span whose
    options give no start starts at the current time. *)
Theorem Span_constructor_one_start (o : SpanOptions.t) :
  let two {A B : Type} (a : option A) (b : option B) :=
    match a, b with Some _, Some _ => true | _, _ => false end in
  match Span.new o with
  | Ok s =>
      two (SpanOptions.startTime o) (SpanOptions.startOffset o) = false
      /\ two (SpanOptions.endTime o) (SpanOptions.endOffset o) = false
      /\ Span_wf s = true
      /\ Span.endTime s = SpanOptions.endTime o
      /\ Span.endOffset s = SpanOptions.endOffset o
      /\ Span.startOffset s = SpanOptions.startOffset o
      /\ Span.startTime s
         = match SpanOptions.startTime o, SpanOptions.startOffset o with
           | None, None => Some Date_now
           | given, _ => given
           end
  | Throw _ =>
      two (SpanOptions.startTime o) (SpanOptions.startOffset o) = true
      \/ two (SpanOptions.endTime o) (SpanOptions.endOffset o) = true
  | IllTyped => False
  end.
Proof.
  destruct o as [[st|] [so|] [et|] [eo|]]; cbn; auto 10.
Qed.

Hypothesis Hdate : Date_round_trip.

(** X8.  A constructed span whose offsets lie between 0 and 2^53
    milliseconds and whose dates can be printed is rebuilt by
    [Span.fromObject] from its projection as a span with the same
    projection. *)
Theorem Span_projection_round_trip (o : SpanOptions.t) (s : Span.t) (j : json) :
  Span.new o = Ok s ->
  Span_in_range s ->
  Span.toObject s = Ok j ->
  exists y, Span.fromObject j = Ok y /\ Span.toObject y = Ok j.
Proof.
  intros Hs Hr Hj. pose proof (Span_in_range_nonnegative _ Hr) as Hn.
  destruct (Span_round_trip Hdate s j (Span_new_wf _ _ Hs) Hn Hj) as (y & F & T & _).
  exists y. split; assumption.
Qed.

(** X9.  A constructed feature none of whose tokens carries a span has
    a projection, from which [Feature.fromObject] rebuilds a feature
    with the same projection: the tokens and the alternates come back
    in their order. *)
Theorem Feature_projection_round_trip (o : FeatureOptions.t) (f : Feature.t) :
  Feature.new o = Ok f ->
  Feature_spanless f = true ->
  exists j y,
    Feature.toObject f = Ok j
    /\ Feature.fromObject j = Ok y
    /\ Feature.toObject y = Ok j.
Proof.
  intros Hf Hs. pose proof (Feature_new_wf _ _ Hf) as W.
  exists (Feature_object f), (Feature_shown f).
  split; [exact (Feature_toObject_spanless f Hs)|].
  split; [exact (proj1 (Feature_round_trip f W Hs))|].
  rewrite (Feature_toObject_spanless _ (Feature_shown_wf f W Hs)).
  rewrite Feature_object_shown. reflexivity.
Qed.

Lemma value_tokens_new (values : list string) :
  mapM Token.new (map TextFeature.value_token values)
  = Ok (map (fun v => {| Token.value := JStr v; Token.valueUrl := None;
                         Token.span := None; Token.confidence := None;
                         Token.links := [] |}) values).
Proof.
  rewrite mapM_map. apply mapM_ok. intros v _. reflexivity.
Qed.

(** X10.  A [TextFeature] built from [values] alone is a ['text/plain']
    feature with one token per value, in order, each holding just that
    string.  When the options also give [tokens], the values are not
    used: the feature is the one built from the tokens. *)
Theorem TextFeature_values_become_tokens
    (values : list string) (lang tokenSchema : option string) :
  TextFeature.new
    {| TextFeatureOptions.values := Some values;
       TextFeatureOptions.tokens := None;
       TextFeatureOptions.alternates := None;
       TextFeatureOptions.lang := lang;
       TextFeatureOptions.encoding := None;
       TextFeatureOptions.tokenSchema := tokenSchema |}
  = Ok {| Feature.mimeType := "text/plain";
          Feature.tokens :=
            map (fun v => {| Token.value := JStr v; Token.valueUrl := None;
                             Token.span := None; Token.confidence := None;
                             Token.links := [] |}) values;
          Feature.alternates := [];
          Feature.lang := lang;
          Feature.encoding := None;
          Feature.tokenSchema := tokenSchema |}
  /\ (forall tokens alternates encoding,
        TextFeature.new
          {| TextFeatureOptions.values := Some values;
             TextFeatureOptions.tokens := Some tokens;
             TextFeatureOptions.alternates := alternates;
             TextFeatureOptions.lang := lang;
             TextFeatureOptions.encoding := encoding;
             TextFeatureOptions.tokenSchema := tokenSchema |}
        = TextFeature.new
            {| TextFeatureOptions.values := None;
               TextFeatureOptions.tokens := Some tokens;
               TextFeatureOptions.alternates := alternates;
               TextFeatureOptions.lang := lang;
               TextFeatureOptions.encoding := encoding;
               TextFeatureOptions.tokenSchema := tokenSchema |}).
Proof.
  split; [|reflexivity].
  unfold TextFeature.new, Feature.new.
  cbn [TextFeatureOptions.values TextFeatureOptions.tokens
       TextFeatureOptions.alternates TextFeatureOptions.lang
       TextFeatureOptions.encoding TextFeatureOptions.tokenSchema
       FeatureOptions.mimeType FeatureOptions.tokens FeatureOptions.alternates
       FeatureOptions.lang FeatureOptions.encoding FeatureOptions.tokenSchema].
  change (negb (str_truthy "text/plain")) with false. cbv iota.
  rewrite value_tokens_new. reflexivity.
Qed.

(** X11.  [DialogEvent.fromObject] does not reject members of [features]
    that are not objects with a string [mimeType]: it drops them, so
    the outcome is the one for the data without these members. *)
Theorem DialogEvent_fromObject_drops_other_members
    (features others : list (string * json)) :
  DialogEvent.fromObject (JObj (("features", JObj features) :: others))
  = DialogEvent.fromObject
      (JObj (("features",
              JObj (filter (fun kv => DialogEvent.is_feature_data (snd kv)) features))
             :: others)).
Proof.
  unfold DialogEvent.fromObject.
  cbn [read_property get_property assoc String.eqb Ascii.eqb Bool.eqb Object_entries].
  rewrite filter_idempotent. reflexivity.
Qed.

End DialogEventProperties.

Lemma Span_projection_round_trip_witness :
  exists y,
    @Span.fromObject text_dates
      (JObj [("startTime", JStr "2025-01-01T00:00:00.000Z");
             ("endOffset", JStr "PT2S")]) = Ok y
    /\ @Span.toObject text_dates y
       = Ok (JObj [("startTime", JStr "2025-01-01T00:00:00.000Z");
                   ("endOffset", JStr "PT2S")]).
Proof.
  apply (@Span_projection_round_trip text_dates text_dates_round_trip
           (@SpanOptions.Build_t text_dates
              (Some "2025-01-01T00:00:00.000Z") None None (Some (inject_Z 2500)))
           (@Span.Build_t text_dates
              (Some "2025-01-01T00:00:00.000Z") None None (Some (inject_Z 2500)))).
  - reflexivity.
  - split; [exact I|]. split; vm_compute; discriminate.
  - vm_compute. reflexivity.
Defined.

Lemma Feature_projection_round_trip_witness :
  exists j y,
    @Feature.toObject text_dates
      {| Feature.mimeType := "text/plain";
         Feature.tokens :=
           [{| Token.value := JStr "hello"; Token.valueUrl := None;
               Token.span := None; Token.confidence := Some (9 # 10)%Q;
               Token.links := [] |}];
         Feature.alternates := [];
         Feature.lang := Some "en";
         Feature.encoding := Some "utf-8";
         Feature.tokenSchema := None |} = Ok j
    /\ @Feature.fromObject text_dates j = Ok y
    /\ @Feature.toObject text_dates y = Ok j.
Proof.
  apply (@Feature_projection_round_trip text_dates sample_feature_options).
  - vm_compute. reflexivity.
  - reflexivity.
Defined.

(** ** envelope.ts: the value objects *)

(** The constructor of [To] accepts options exactly when their
    [speakerUri] or their [serviceUrl] is a non-empty string, and
    [To.fromObject] rebuilds from the projection of a constructed
    address an address with the same projection. *)
Lemma To_needs_an_address (o : ToOptions.t) :
  is_ok (To.new o)
  = (opt_truthy (ToOptions.speakerUri o) || opt_truthy (ToOptions.serviceUrl o))%bool
  /\ (forall t0,
        To.new o = Ok t0 ->
        exists y, To.fromObject (To.toObject t0) = Ok y
                  /\ To.toObject y = To.toObject t0).
Proof.
  split.
  - unfold To.new, falsy.
    destruct (opt_truthy (ToOptions.speakerUri o)),
             (opt_truthy (ToOptions.serviceUrl o)); reflexivity.
  - intros t0 Ht. apply To_new_wf in Ht.
    destruct (To_round_trip t0 Ht) as (_ & F & _ & T & _).
    exists (To_shown t0). split; assumption.
Qed.

(** X12.  [Conversation.fromObject] gives back every constructed
    conversation from its projection: the same id and the same
    conversants, in order, with their identification and their
    persistent state. *)
Theorem Conversation_projection_round_trip
    (o : ConversationOptions.t) (c : Conversation.t) :
  Conversation.new o = Ok c ->
  Conversation.fromObject (Conversation.toObject c) = Ok c.
Proof.
  intros Hc. exact (proj1 (Conversation_round_trip c (Conversation_new_wf _ _ Hc))).
Qed.

Lemma Conversation_projection_round_trip_witness :
  Conversation.fromObject
    (JObj [("id", JStr "c1");
           ("conversants",
            JArr [JObj [("identification",
                         JObj [("speakerUri", JStr "tag:example.com,2025:bot1");
                               ("serviceUrl", JStr "https://example.com/bot1");
                               ("organization", JStr "Example");
                               ("conversationalName", JStr "Bot");
                               ("synopsis", JStr "A sample agent")]);
                        ("persistentState", JObj [("turn", JNum 3)])]])])
  = Ok {| Conversation.id := "c1";
          Conversation.conversants :=
            [{| Conversant.identification := Manifest.identification sample_manifest;
                Conversant.persistentState := [("turn", JNum 3)] |}] |}.
Proof.
  apply (Conversation_projection_round_trip
           {| ConversationOptions.id := "c1";
              ConversationOptions.conversants :=
                Some [{| ConversantOptions.identification :=
                           sample_identification_options;
                         ConversantOptions.persistentState :=
                           Some [("turn", JNum 3)] |}] |}
           {| Conversation.id := "c1";
              Conversation.conversants :=
                [{| Conversant.identification :=
                      Manifest.identification sample_manifest;
                    Conversant.persistentState := [("turn", JNum 3)] |}] |}).
  reflexivity.
Defined.

(** X13.  The constructor of [Identification] accepts options exactly
    when [speakerUri], [serviceUrl], [organization],
    [conversationalName] and [synopsis] are all non-empty; an empty
    [department] or [role] is left out of the instance, and
    [Identification.fromObject] gives back every constructed
    identification from its projection. *)
Theorem Identification_needs_five_names (o : IdentificationOptions.t) :
  is_ok (Identification.new o)
  = (str_truthy (IdentificationOptions.speakerUri o)
     && str_truthy (IdentificationOptions.serviceUrl o)
     && str_truthy (IdentificationOptions.organization o)
     && str_truthy (IdentificationOptions.conversationalName o)
     && str_truthy (IdentificationOptions.synopsis o))%bool
  /\ (forall i,
        Identification.new o = Ok i ->
        Identification.department i = shown (IdentificationOptions.department o)
        /\ Identification.role i = shown (IdentificationOptions.role o)
        /\ Identification.fromObject (Identification.toObject i) = Ok i).
Proof.
  split.
  - unfold Identification.new.
    destruct (str_truthy (IdentificationOptions.speakerUri o)),
             (str_truthy (IdentificationOptions.serviceUrl o)),
             (str_truthy (IdentificationOptions.organization o)),
             (str_truthy (IdentificationOptions.conversationalName o)),
             (str_truthy (IdentificationOptions.synopsis o)); reflexivity.
  - intros i Hi. pose proof (Identification_new_wf _ _ Hi) as W.
    destruct (Identification_round_trip i W) as (R & O & N).
    split; [|split].
    + unfold Identification.new in Hi.
      repeat match type of Hi with
             | (if negb ?b then _ else _) = _ => destruct b; cbn [negb] in Hi;
                                                  try discriminate Hi
             end.
      inversion Hi. reflexivity.
    + unfold Identification.new in Hi.
      repeat match type of Hi with
             | (if negb ?b then _ else _) = _ => destruct b; cbn [negb] in Hi;
                                                  try discriminate Hi
             end.
      inversion Hi. reflexivity.
    + unfold Identification.fromObject. rewrite R. cbn [negb].
      rewrite O. cbn [bind]. exact N.
Qed.

Lemma Identification_needs_five_names_witness :
  is_ok (Identification.new sample_identification_options) = true
  /\ Identification.fromObject
       (Identification.toObject (Manifest.identification sample_manifest))
     = Ok (Manifest.identification sample_manifest).
Proof.
  split; [reflexivity|].
  apply (proj2 (Identification_needs_five_names sample_identification_options)).
  reflexivity.
Defined.

(** X14.  A capability constructed without [supportedLayers] supports
    the layer ['text'] for input and for output, and
    [Capability.fromObject] gives back every constructed capability
    from its projection. *)
Theorem Capability_layers_default_to_text (o : CapabilityOptions.t) (c : Capability.t) :
  Capability.new o = Ok c ->
  (CapabilityOptions.supportedLayers o = None ->
   Capability.supportedLayers c
   = {| SupportedLayers.input := ["text"]; SupportedLayers.output := ["text"] |})
  /\ Capability.fromObject (Capability.toObject c) = Ok c.
Proof.
  intros Hc. split.
  - intros Hn. unfold Capability.new in Hc. rewrite Hn in Hc.
    destruct (length (CapabilityOptions.keyphrases o) =? 0)%nat; [discriminate Hc|].
    destruct (length (CapabilityOptions.descriptions o) =? 0)%nat; [discriminate Hc|].
    inversion Hc. reflexivity.
  - pose proof (Capability_new_wf _ _ Hc) as W.
    destruct (Capability_round_trip c W) as (_ & _ & N).
    unfold Capability_wf in W. andb_split W.
    destruct c as [ks ds langs [inp outp]]. cbn [Capability.keyphrases
      Capability.descriptions] in *.
    unfold Capability.fromObject.
    replace (Utils.hasRequiredProperties _ _) with true by reflexivity.
    cbn [negb]. unfold Capability.toObject, SupportedLayers.toObject,
      SupportedLayers.fromObject, SupportedLayers.as_SupportedLayersOptions.
    cbn [get_property read_property assoc app String.eqb Ascii.eqb Bool.eqb
         Capability.keyphrases Capability.descriptions Capability.languages
         Capability.supportedLayers SupportedLayers.input SupportedLayers.output].
    rewrite !as_string_array_JStrings. cbn [bind].
    destruct langs as [l|];
      cbn [member_opt get_property assoc String.eqb Ascii.eqb Bool.eqb];
      rewrite ?as_opt_string_array_JStrings; cbn [bind SupportedLayers.new
        SupportedLayersOptions.input SupportedLayersOptions.output
        SupportedLayers.input SupportedLayers.output get_property assoc
        String.eqb Ascii.eqb Bool.eqb];
      rewrite ?as_opt_string_array_JStrings; cbn [bind]; exact N.
Qed.

Lemma Capability_layers_default_to_text_witness :
  Capability.fromObject
    (JObj [("keyphrases", JArr [JStr "weather"]);
           ("descriptions", JArr [JStr "Tells the weather"]);
           ("supportedLayers",
            JObj [("input", JArr [JStr "text"]); ("output", JArr [JStr "text"])])])
  = Ok {| Capability.keyphrases := ["weather"];
          Capability.descriptions := ["Tells the weather"];
          Capability.languages := None;
          Capability.supportedLayers :=
            {| SupportedLayers.input := ["text"];
               SupportedLayers.output := ["text"] |} |}.
Proof.
  apply (proj2 (Capability_layers_default_to_text
                  {| CapabilityOptions.keyphrases := ["weather"];
                     CapabilityOptions.descriptions := ["Tells the weather"];
                     CapabilityOptions.languages := None;
                     CapabilityOptions.supportedLayers := None |}
                  {| Capability.keyphrases := ["weather"];
                     Capability.descriptions := ["Tells the weather"];
                     Capability.languages := None;
                     Capability.supportedLayers :=
                       {| SupportedLayers.input := ["text"];
                          SupportedLayers.output := ["text"] |} |} eq_refl)).
Defined.

(** ** envelope.ts: payloads *)

Lemma Event_options_of_wf (e : Event.t) :
  Event_wf e = true -> Event.options_of e = Ok (Event_options e).
Proof.
  unfold Event_wf. intros W. andb_split W.
  unfold Event.options_of, Event_options.
  destruct (Event.to e) as [t0|]; simpl.
  - destruct (To_round_trip t0 W0) as (A & _). rewrite A. reflexivity.
  - reflexivity.
Qed.

Lemma Schema_new_options_of (s : Schema.t) :
  Schema.new (Schema.options_of s) = Schema_shown s.
Proof. destruct s as [v [u|]]; reflexivity. Qed.

Lemma Sender_new_options_of (s : Sender.t) :
  Sender_wf s = true -> Sender.new (Sender.options_of s) = Ok (Sender_shown s).
Proof.
  unfold Sender_wf. intros W. andb_split W.
  unfold Sender.new, Sender.options_of, Sender_shown, shown.
  cbn [SenderOptions.speakerUri SenderOptions.serviceUrl].
  rewrite W, W0. reflexivity.
Qed.

Lemma To_shown_shown (t0 : To.t) : To_shown (To_shown t0) = To_shown t0.
Proof. unfold To_shown. simpl. rewrite !shown_shown. reflexivity. Qed.

Lemma Event_shown_shown (e : Event.t) : Event_shown (Event_shown e) = Event_shown e.
Proof.
  unfold Event_shown. simpl. rewrite shown_shown.
  destruct (Event.to e); simpl; [rewrite To_shown_shown|]; reflexivity.
Qed.

Lemma Envelope_shown_shown (e : Envelope.t) :
  Envelope_shown (Envelope_shown e) = Envelope_shown e.
Proof.
  unfold Envelope_shown, Schema_shown, Sender_shown. simpl.
  rewrite !shown_shown, map_map.
  rewrite (map_ext _ _ Event_shown_shown). reflexivity.
Qed.

Lemma Envelope_shown_wf (e : Envelope.t) :
  Envelope_wf e = true -> Envelope_wf (Envelope_shown e) = true.
Proof.
  unfold Envelope_wf. intros W. andb_split W. andb_split W.
  unfold Envelope_shown. simpl. rewrite W. unfold Sender_wf in *. simpl.
  rewrite W1. simpl. rewrite forallb_forall. intros x Hx.
  apply in_map_iff in Hx. destruct Hx as (y & <- & Hy).
  apply Event_shown_wf. eapply forallb_In; eauto.
Qed.

Lemma Payload_of_envelope_wf (e : Envelope.t) :
  Envelope_wf e = true ->
  Payload.of_envelope e = Ok {| Payload.openFloor := Envelope_shown e |}.
Proof.
  unfold Envelope_wf. intros W. andb_split W. andb_split W.
  unfold Payload.of_envelope, Payload.options_of.
  rewrite (proj1 (proj2 (Conversation_round_trip _ W))). cbn [bind].
  rewrite (mapM_ok _ Event_options)
    by (intros x Hx; apply Event_options_of_wf; eapply forallb_In; eauto).
  cbn [bind]. unfold Payload.new, Envelope.new.
  cbn [PayloadOptions.openFloor EnvelopeOptions.schema EnvelopeOptions.conversation
       EnvelopeOptions.sender EnvelopeOptions.events].
  rewrite Schema_new_options_of.
  rewrite (proj2 (proj2 (Conversation_round_trip _ W))).
  rewrite (Sender_new_options_of _ W1). cbn [bind].
  rewrite mapM_map.
  rewrite (mapM_ok _ Event_shown)
    by (intros x Hx; apply Event_new_options; eapply forallb_In; eauto).
  reflexivity.
Qed.

Lemma Payload_fromObject_wf (e : Envelope.t) :
  Envelope_wf e = true ->
  Payload.fromObject (JObj [("openFloor", Envelope.toObject e)])
  = Ok {| Payload.openFloor := Envelope_shown e |}.
Proof.
  intros W. unfold Payload.fromObject.
  replace (Utils.hasRequiredProperties _ _) with true by reflexivity.
  cbn [negb get_property assoc String.eqb Ascii.eqb Bool.eqb].
  rewrite (Envelope_round_trip e W). cbn [bind].
  fold (Payload.of_envelope (Envelope_shown e)).
  rewrite (Payload_of_envelope_wf _ (Envelope_shown_wf e W)).
  rewrite Envelope_shown_shown. reflexivity.
Qed.

(** X15.  [toPayload] wraps every constructed envelope: the payload's
    projection is the envelope's projection under the single member
    [openFloor], and [Payload.fromObject] gives back the payload from
    that projection. *)
Theorem Payload_wraps_envelope (o : EnvelopeOptions.t) (e : Envelope.t) :
  Envelope.new o = Ok e ->
  exists p,
    Payload.of_envelope e = Ok p
    /\ Payload.toObject p = JObj [("openFloor", Envelope.toObject e)]
    /\ Payload.fromObject (Payload.toObject p) = Ok p.
Proof.
  intros He. apply Envelope_new_wf in He.
  exists {| Payload.openFloor := Envelope_shown e |}.
  split; [exact (Payload_of_envelope_wf e He)|].
  assert (T : Payload.toObject {| Payload.openFloor := Envelope_shown e |}
              = JObj [("openFloor", Envelope.toObject e)]).
  { unfold Payload.toObject. cbn [Payload.openFloor].
    rewrite (Envelope_toObject_shown e He). reflexivity. }
  split; [exact T|]. rewrite T. exact (Payload_fromObject_wf e He).
Qed.

Lemma Payload_wraps_envelope_witness :
  exists p,
    Payload.of_envelope (sample_envelope "c1" [sample_event "bye" None]) = Ok p
    /\ Payload.toObject p
       = JObj [("openFloor",
                JObj [("schema", JObj [("version", JStr "1.0.0")]);
                      ("conversation", JObj [("id", JStr "c1")]);
                      ("sender",
                       JObj [("speakerUri", JStr "tag:example.com,2025:user1")]);
                      ("events", JArr [JObj [("eventType", JStr "bye")]])])]
    /\ Payload.fromObject (Payload.toObject p) = Ok p.
Proof.
  exact (Payload_wraps_envelope
           (sample_envelope_options "c1"
              [{| BaseEventOptions.eventType := "bye";
                  BaseEventOptions.to := None;
                  BaseEventOptions.reason := None;
                  BaseEventOptions.parameters := None |}])
           (sample_envelope "c1" [sample_event "bye" None]) eq_refl).
Defined.

(** ** events.ts *)

Section EventProperties.

Context `{Host}.

(** X16.  Every constructed event passes exactly one of the twelve type
    guards. *)
Theorem event_guards_partition (o : BaseEventOptions.t) (e : Event.t) :
  Event.new o = Ok e ->
  length (filter (fun guard => guard e) EventGuards.all) = 1%nat.
Proof.
  intros He. destruct (Event_new_eventType o e He) as (_ & Hin).
  destruct e as [ty to reason params]. cbn [Event.eventType] in Hin.
  simpl in Hin.
  repeat (destruct Hin as [<-|Hin]; [vm_compute; reflexivity|]). destruct Hin.
Qed.

(** The target and the reason that the event classes read from the
    projection of an event *)
Lemma to_of_toObject (e : Event.t) :
  Event_wf e = true ->
  BareEvent.to_of (Event.toObject e) = Ok (option_map To_options (Event.to e)).
Proof.
  unfold Event_wf. intros W. andb_split W.
  unfold BareEvent.to_of, Event.toObject, read_property.
  cbn [bind app get_property assoc String.eqb Ascii.eqb Bool.eqb].
  destruct (Event.to e) as [t0|];
    cbn [member_opt app assoc String.eqb Ascii.eqb Bool.eqb option_map].
  - change (truthy (To.toObject t0)) with true.
    change (typeof (To.toObject t0)) with "object".
    cbn [andb String.eqb Ascii.eqb Bool.eqb].
    unfold To.options_of_object.
    destruct (To_round_trip t0 W0) as (A & F & _ & T & _ & O).
    rewrite F. cbn [bind]. rewrite T, A. reflexivity.
  - destruct (Event.reason e) as [r|]; cbn [member_truthy app];
      [destruct (str_truthy r); cbn [member_if app assoc String.eqb Ascii.eqb
                                      Bool.eqb]|];
      destruct (0 <? length (Event.parameters e))%nat; reflexivity.
Qed.

Lemma reason_of_toObject (e : Event.t) :
  BareEvent.reason_of (Event.toObject e) = shown (Event.reason e).
Proof.
  unfold BareEvent.reason_of, Event.toObject, shown.
  cbn [app get_property assoc String.eqb Ascii.eqb Bool.eqb].
  destruct (Event.to e) as [t0|], (Event.reason e) as [r|];
    cbn [member_opt member_truthy app assoc String.eqb Ascii.eqb Bool.eqb
         opt_truthy];
    try (destruct (str_truthy r);
         cbn [member_if app assoc String.eqb Ascii.eqb Bool.eqb]);
    destruct (0 <? length (Event.parameters e))%nat; reflexivity.
Qed.

Lemma parameters_of_toObject (e : Event.t) :
  get_property (Event.toObject e) "parameters"
  = if (0 <? length (Event.parameters e))%nat
    then JObj (Event.parameters e) else JUndefined.
Proof.
  unfold Event.toObject.
  cbn [app get_property assoc String.eqb Ascii.eqb Bool.eqb].
  destruct (Event.to e) as [t0|], (Event.reason e) as [r|];
    cbn [member_opt member_truthy app assoc String.eqb Ascii.eqb Bool.eqb];
    try (destruct (str_truthy r);
         cbn [member_if app assoc String.eqb Ascii.eqb Bool.eqb]);
    destruct (0 <? length (Event.parameters e))%nat; reflexivity.
Qed.

Lemma Event_new_of_wf (e : Event.t) (parameters : list (string * json)) :
  Event_wf e = true ->
  Event.new {| BaseEventOptions.eventType := Event.eventType e;
               BaseEventOptions.to := option_map To_options (Event.to e);
               BaseEventOptions.reason := shown (Event.reason e);
               BaseEventOptions.parameters := Some parameters |}
  = Ok {| Event.eventType := Event.eventType e;
          Event.to := option_map To_shown (Event.to e);
          Event.reason := shown (Event.reason e);
          Event.parameters := parameters |}.
Proof.
  unfold Event_wf. intros W. andb_split W.
  unfold Event.new.
  cbn [BaseEventOptions.eventType BaseEventOptions.to BaseEventOptions.reason
       BaseEventOptions.parameters].
  rewrite W. apply includes_In in W. rewrite (allowed_is_truthy _ W).
  cbn [negb orb].
  destruct (Event.to e) as [t0|]; cbn [option_map]; [|reflexivity].
  destruct (To_round_trip t0 W0) as (_ & _ & -> & _). reflexivity.
Qed.

Lemma BareEvent_fromObject_toObject (e : Event.t) :
  Event_wf e = true ->
  BareEvent.fromObject (Event.eventType e) (Event.toObject e)
  = Ok {| Event.eventType := Event.eventType e;
          Event.to := option_map To_shown (Event.to e);
          Event.reason := shown (Event.reason e);
          Event.parameters := [] |}.
Proof.
  intros W. unfold BareEvent.fromObject.
  rewrite (to_of_toObject e W). cbn [bind].
  rewrite reason_of_toObject. unfold BareEvent.new.
  cbn [BareEventOptions.to BareEventOptions.reason].
  exact (Event_new_of_wf e [] W).
Qed.

(** X17.  [createEvent] rebuilds an event of one of the eight classes
    without parameters from its projection with the same type, target
    and reason, and with no parameters: the parameters that the event
    had are not kept. *)
Theorem createEvent_keeps_no_parameters (o : BaseEventOptions.t) (e : Event.t) :
  Event.new o = Ok e ->
  In (Event.eventType e)
     ["invite"; "uninvite"; "declineInvite"; "bye"; "requestFloor"; "grantFloor";
      "revokeFloor"; "yieldFloor"] ->
  exists y,
    Events.createEvent (Event.toObject e) = Ok y
    /\ Event.parameters y = []
    /\ Event.toObject y
       = Event.toObject {| Event.eventType := Event.eventType e;
                           Event.to := Event.to e;
                           Event.reason := Event.reason e;
                           Event.parameters := [] |}.
Proof.
  intros He Hin. pose proof (Event_new_wf _ _ He) as W.
  pose proof (BareEvent_fromObject_toObject e W) as B.
  exists {| Event.eventType := Event.eventType e;
            Event.to := option_map To_shown (Event.to e);
            Event.reason := shown (Event.reason e);
            Event.parameters := [] |}.
  split; [|split; [reflexivity|]].
  - unfold Events.createEvent.
    replace (read_property (Event.toObject e) "eventType")
      with (Ok (JStr (Event.eventType e))) by reflexivity.
    cbn [bind].
    unfold InviteEvent.fromObject, UninviteEvent.fromObject,
      DeclineInviteEvent.fromObject, ByeEvent.fromObject,
      RequestFloorEvent.fromObject, GrantFloorEvent.fromObject,
      RevokeFloorEvent.fromObject, YieldFloorEvent.fromObject.
    simpl in Hin.
    repeat (destruct Hin as [E|Hin];
            [rewrite <- E in B |- *; cbn [String.eqb Ascii.eqb Bool.eqb];
             exact B|]).
    destruct Hin.
  - apply (Event_toObject_shown
             {| Event.eventType := Event.eventType e;
                Event.to := Event.to e;
                Event.reason := Event.reason e;
                Event.parameters := [] |}).
    exact W.
Qed.


Lemma manifests_wf (os : list ManifestOptions.t) (ms : list Manifest.t) :
  mapM Manifest.new os = Ok ms -> forallb Manifest_wf ms = true.
Proof.
  intros E. apply mapM_inv in E.
  apply (forallb_Forall2 _ _ _ _ E).
  intros a b Hab. exact (Manifest_new_wf _ _ Hab).
Qed.

Lemma manifests_of_toObject (ms : list Manifest.t) :
  forallb Manifest_wf ms = true ->
  PublishManifestsEvent.manifests_of (JArr (map Manifest.toObject ms))
  = Ok (map Manifest_options ms)
  /\ mapM Manifest.new (map Manifest_options ms) = Ok ms.
Proof.
  intros W. unfold PublishManifestsEvent.manifests_of. rewrite !mapM_map. split.
  - apply mapM_ok. intros m Hm. apply Manifest_as_options.
    exact (forallb_In _ _ _ W Hm).
  - rewrite (mapM_ok _ (fun m => m)); [rewrite map_id; reflexivity|].
    intros m Hm. apply Manifest_new_options. exact (forallb_In _ _ _ W Hm).
Qed.

(** X18.  A [getManifests] event constructed without [recommendScope]
    asks for ['internal'] manifests; the scope is the only parameter
    of the event, and [GetManifestsEvent.fromObject] reads it back from
    the projection of the event. *)
Theorem GetManifestsEvent_scope_round_trip
    (o : GetManifestsEventOptions.t) (e : GetManifestsEvent.t) :
  GetManifestsEvent.new o = Ok e ->
  GetManifestsEvent.recommendScope e
  = match GetManifestsEventOptions.recommendScope o with
    | Some s => s
    | None => internal
    end
  /\ Event.parameters (GetManifestsEvent.base e)
     = [("recommendScope",
         JStr (RecommendScope_string (GetManifestsEvent.recommendScope e)))]
  /\ exists y,
       GetManifestsEvent.fromObject (Event.toObject (GetManifestsEvent.base e)) = Ok y
       /\ GetManifestsEvent.recommendScope y = GetManifestsEvent.recommendScope e
       /\ Event.toObject (GetManifestsEvent.base y)
          = Event.toObject (GetManifestsEvent.base e).
Proof.
  unfold GetManifestsEvent.new. intros E.
  apply bind_ok in E. destruct E as (b & Hb & E). inversion E. subst e. clear E.
  cbn [GetManifestsEvent.recommendScope GetManifestsEvent.base].
  set (s := match GetManifestsEventOptions.recommendScope o with
            | Some s => s
            | None => internal
            end) in *.
  pose proof (Event_new_wf _ _ Hb) as W.
  assert (P : Event.parameters b = [("recommendScope", JStr (RecommendScope_string s))]
              /\ Event.eventType b = "getManifests").
  { unfold Event.new in Hb. cbn in Hb.
    destruct (GetManifestsEventOptions.to o) as [t0|]; cbn in Hb.
    - destruct (To.new t0); cbn in Hb; try discriminate Hb.
      inversion Hb. split; reflexivity.
    - inversion Hb. split; reflexivity. }
  destruct P as (P & Ty).
  split; [reflexivity|]. split; [exact P|].
  exists {| GetManifestsEvent.base := Event_shown b;
            GetManifestsEvent.recommendScope := s |}.
  split; [|split; [reflexivity|exact (Event_toObject_shown b W)]].
  unfold GetManifestsEvent.fromObject.
  replace (read_property (Event.toObject b) "parameters")
    with (Ok (get_property (Event.toObject b) "parameters")) by reflexivity.
  rewrite parameters_of_toObject, P. cbn [length Nat.ltb Nat.leb bind].
  cbn [get_property assoc String.eqb Ascii.eqb Bool.eqb].
  replace (as_RecommendScope (JStr (RecommendScope_string s))) with (Ok s)
    by (destruct s; reflexivity).
  cbn [bind]. rewrite (to_of_toObject b W). cbn [bind].
  rewrite reason_of_toObject. unfold GetManifestsEvent.new.
  cbn [GetManifestsEventOptions.recommendScope GetManifestsEventOptions.to
       GetManifestsEventOptions.reason].
  pose proof (Event_new_of_wf b (Event.parameters b) W) as N.
  rewrite Ty, P in N. rewrite N. cbn [bind]. unfold Event_shown.
  rewrite Ty, P. reflexivity.
Qed.

(** X19.  The manifests of a constructed [publishManifests] event
    travel in its parameters: [PublishManifestsEvent.fromObject] reads
    the same servicing and discovery manifests, in order, back from
    the projection of the event. *)
Theorem PublishManifestsEvent_manifests_round_trip
    (o : PublishManifestsEventOptions.t) (e : PublishManifestsEvent.t) :
  PublishManifestsEvent.new o = Ok e ->
  exists y,
    PublishManifestsEvent.fromObject (Event.toObject (PublishManifestsEvent.base e))
    = Ok y
    /\ PublishManifestsEvent.servicingManifests y
       = PublishManifestsEvent.servicingManifests e
    /\ PublishManifestsEvent.discoveryManifests y
       = PublishManifestsEvent.discoveryManifests e
    /\ Event.toObject (PublishManifestsEvent.base y)
       = Event.toObject (PublishManifestsEvent.base e).
Proof.
  unfold PublishManifestsEvent.new. intros E.
  apply bind_ok in E. destruct E as (sv & Hsv & E).
  apply bind_ok in E. destruct E as (dv & Hdv & E).
  apply bind_ok in E. destruct E as (b & Hb & E). inversion E. subst e. clear E.
  cbn [PublishManifestsEvent.servicingManifests
       PublishManifestsEvent.discoveryManifests PublishManifestsEvent.base].
  pose proof (Event_new_wf _ _ Hb) as W.
  apply manifests_wf in Hsv, Hdv.
  destruct (manifests_of_toObject sv Hsv) as (Sa & Sn).
  destruct (manifests_of_toObject dv Hdv) as (Da & Dn).
  assert (P : Event.parameters b
              = [("servicingManifests", JArr (map Manifest.toObject sv));
                 ("discoveryManifests", JArr (map Manifest.toObject dv))]
              /\ Event.eventType b = "publishManifests").
  { unfold Event.new in Hb. cbn in Hb.
    destruct (PublishManifestsEventOptions.to o) as [t0|]; cbn in Hb.
    - destruct (To.new t0); cbn in Hb; try discriminate Hb.
      inversion Hb. split; reflexivity.
    - inversion Hb. split; reflexivity. }
  destruct P as (P & Ty).
  exists {| PublishManifestsEvent.base := Event_shown b;
            PublishManifestsEvent.servicingManifests := sv;
            PublishManifestsEvent.discoveryManifests := dv |}.
  split; [|split; [reflexivity|split; [reflexivity|exact (Event_toObject_shown b W)]]].
  unfold PublishManifestsEvent.fromObject.
  replace (read_property (Event.toObject b) "parameters")
    with (Ok (get_property (Event.toObject b) "parameters")) by reflexivity.
  rewrite parameters_of_toObject, P. cbn [length Nat.ltb Nat.leb bind truthy].
  cbn [get_property assoc String.eqb Ascii.eqb Bool.eqb].
  rewrite Sa, Da. cbn [bind]. rewrite (to_of_toObject b W). cbn [bind].
  rewrite reason_of_toObject. unfold PublishManifestsEvent.new.
  cbn [PublishManifestsEventOptions.servicingManifests
       PublishManifestsEventOptions.discoveryManifests
       PublishManifestsEventOptions.to PublishManifestsEventOptions.reason].
  rewrite Sn, Dn. cbn [bind].
  pose proof (Event_new_of_wf b (Event.parameters b) W) as N.
  rewrite Ty, P in N. rewrite N. cbn [bind]. unfold Event_shown.
  rewrite Ty, P. reflexivity.
Qed.

End EventProperties.

Lemma event_guards_partition_witness :
  length (filter (fun guard => guard (sample_event "bye" None)) EventGuards.all)
  = 1%nat.
Proof.
  apply (event_guards_partition
           {| BaseEventOptions.eventType := "bye";
              BaseEventOptions.to := None;
              BaseEventOptions.reason := None;
              BaseEventOptions.parameters := None |}).
  reflexivity.
Defined.

Lemma createEvent_keeps_no_parameters_witness :
  exists y,
    @Events.createEvent text_dates
      (JObj [("eventType", JStr "invite"); ("reason", JStr "join us");
             ("parameters", JObj [("room", JNum 4)])])
    = Ok y
    /\ Event.parameters y = []
    /\ Event.toObject y = JObj [("eventType", JStr "invite"); ("reason", JStr "join us")].
Proof.
  exact (@createEvent_keeps_no_parameters text_dates
           {| BaseEventOptions.eventType := "invite";
              BaseEventOptions.to := None;
              BaseEventOptions.reason := Some "join us";
              BaseEventOptions.parameters := Some [("room", JNum 4)] |}
           {| Event.eventType := "invite";
              Event.to := None;
              Event.reason := Some "join us";
              Event.parameters := [("room", JNum 4)] |}
           eq_refl (or_introl eq_refl)).
Defined.

Lemma GetManifestsEvent_scope_round_trip_witness :
  exists e,
    GetManifestsEvent.new
      {| GetManifestsEventOptions.recommendScope := None;
         GetManifestsEventOptions.to := None;
         GetManifestsEventOptions.reason := None |} = Ok e
    /\ GetManifestsEvent.recommendScope e = internal
    /\ Event.toObject (GetManifestsEvent.base e)
       = JObj [("eventType", JStr "getManifests");
               ("parameters", JObj [("recommendScope", JStr "internal")])].
Proof.
  eexists. split; [reflexivity|].
  split.
  - apply (GetManifestsEvent_scope_round_trip
             {| GetManifestsEventOptions.recommendScope := None;
                GetManifestsEventOptions.to := None;
                GetManifestsEventOptions.reason := None |}).
    reflexivity.
  - reflexivity.
Defined.

Lemma PublishManifestsEvent_manifests_round_trip_witness :
  exists e y,
    PublishManifestsEvent.new
      {| PublishManifestsEventOptions.servicingManifests :=
           Some [sample_manifest_options];
         PublishManifestsEventOptions.discoveryManifests := None;
         PublishManifestsEventOptions.to := None;
         PublishManifestsEventOptions.reason := None |} = Ok e
    /\ PublishManifestsEvent.fromObject
         (Event.toObject (PublishManifestsEvent.base e)) = Ok y
    /\ PublishManifestsEvent.servicingManifests y
       = PublishManifestsEvent.servicingManifests e
    /\ length (PublishManifestsEvent.servicingManifests y) = 1%nat.
Proof.
  eexists.
  destruct (PublishManifestsEvent_manifests_round_trip
              {| PublishManifestsEventOptions.servicingManifests :=
                   Some [sample_manifest_options];
                 PublishManifestsEventOptions.discoveryManifests := None;
                 PublishManifestsEventOptions.to := None;
                 PublishManifestsEventOptions.reason := None |} _ eq_refl)
    as (y & F & S & _).
  exists y. split; [reflexivity|]. split; [exact F|]. split; [exact S|].
  rewrite S. reflexivity.
Defined.

(** ** agents.ts *)

(** X20.  The response envelope of an agent has the schema and the
    conversation of the inbound envelope, the agent as sender and no
    events.  The constructor of [Sender] checks the form of the speaker
    URI, which the constructor of the manifest does not: an agent whose
    speaker URI is not of the form [scheme:path] throws on every
    envelope, before its listener is called. *)
Theorem response_envelope_of_agent
    (mo : ManifestOptions.t) (m : Manifest.t)
    (o : EnvelopeOptions.t) (inEnvelope : Envelope.t) :
  Manifest.new mo = Ok m ->
  Envelope.new o = Ok inEnvelope ->
  if Utils.isValidUri (OpenFloorAgent.speakerUri m)
  then OpenFloorAgent.responseEnvelope m inEnvelope
       = Ok {| Envelope.schema := Schema_shown (Envelope.schema inEnvelope);
               Envelope.conversation := Envelope.conversation inEnvelope;
               Envelope.sender :=
                 {| Sender.speakerUri := OpenFloorAgent.speakerUri m;
                    Sender.serviceUrl := Some (OpenFloorAgent.serviceUrl m) |};
               Envelope.events := [] |}
  else exists message,
      OpenFloorAgent.responseEnvelope m inEnvelope = Throw message
      /\ forall (S : Type) (listener : Envelope.t -> Step (S * EnvelopeObject.t) unit)
                (agent : S),
           OpenFloorAgent.processEnvelope listener m inEnvelope agent
           = (Throw message, agent).
Proof.
  intros Hm He.
  apply Manifest_new_wf in Hm. apply Envelope_new_wf in He.
  unfold Manifest_wf, Identification_wf in Hm. andb_split Hm.
  repeat match goal with X : (_ && _)%bool = true |- _ => andb_split X end.
  unfold Envelope_wf in He. andb_split He. andb_split He.
  destruct (Conversation_round_trip _ He) as (_ & Co & Cn).
  assert (R : OpenFloorAgent.responseEnvelope m inEnvelope
              = s <- Sender.new
                       {| SenderOptions.speakerUri := OpenFloorAgent.speakerUri m;
                          SenderOptions.serviceUrl :=
                            Some (OpenFloorAgent.serviceUrl m) |} ;;
                Ok {| Envelope.schema := Schema_shown (Envelope.schema inEnvelope);
                      Envelope.conversation := Envelope.conversation inEnvelope;
                      Envelope.sender := s;
                      Envelope.events := [] |}).
  { unfold OpenFloorAgent.responseEnvelope. rewrite Co. cbn [bind].
    unfold Envelope.new.
    cbn [EnvelopeOptions.schema EnvelopeOptions.conversation EnvelopeOptions.sender
         EnvelopeOptions.events].
    rewrite Cn, Schema_new_options_of. cbn [bind].
    destruct (Sender.new _); reflexivity. }
  assert (T : str_truthy (OpenFloorAgent.speakerUri m) = true).
  { unfold OpenFloorAgent.speakerUri.
    match goal with X : str_truthy (Identification.speakerUri _) = true |- _ =>
      exact X end. }
  unfold Sender.new in R. cbn [SenderOptions.speakerUri SenderOptions.serviceUrl] in R.
  rewrite T in R. cbn [negb] in R.
  destruct (Utils.isValidUri (OpenFloorAgent.speakerUri m)); cbn [negb bind] in R.
  - exact R.
  - eexists. split; [exact R|].
    intros S listener agent. unfold OpenFloorAgent.processEnvelope.
    rewrite R. reflexivity.
Qed.

Lemma response_envelope_of_agent_witness :
  OpenFloorAgent.responseEnvelope sample_manifest
    (sample_envelope "c1" [sample_event "bye" None])
  = Ok {| Envelope.schema := {| Schema.version := "1.0.0"; Schema.url := None |};
          Envelope.conversation :=
            {| Conversation.id := "c1"; Conversation.conversants := [] |};
          Envelope.sender :=
            {| Sender.speakerUri := "tag:example.com,2025:bot1";
               Sender.serviceUrl := Some "https://example.com/bot1" |};
          Envelope.events := [] |}.
Proof.
  exact (response_envelope_of_agent
           {| ManifestOptions.identification := sample_identification_options;
              ManifestOptions.capabilities := [] |}
           sample_manifest
           (sample_envelope_options "c1"
              [{| BaseEventOptions.eventType := "bye";
                  BaseEventOptions.to := None;
                  BaseEventOptions.reason := None;
                  BaseEventOptions.parameters := None |}])
           (sample_envelope "c1" [sample_event "bye" None])
           eq_refl eq_refl).
Defined.

Section BotInvariants.

Context `{Host}.
Variable m : Manifest.t.
Variable inEnvelope : Envelope.t.

Lemma Conversation_new_id (o : ConversationOptions.t) (c : Conversation.t) :
  Conversation.new o = Ok c -> Conversation.id c = ConversationOptions.id o.
Proof.
  unfold Conversation.new.
  destruct (negb (str_truthy (ConversationOptions.id o))); [discriminate|].
  intros E. apply bind_ok in E. destruct E as (cs & _ & E).
  inversion E. reflexivity.
Qed.

Lemma handleEvent_bound (event : Event.t) (s : BotAgent.t * EnvelopeObject.t) :
  bound_here inEnvelope (fst s) ->
  bound_here inEnvelope (fst (snd (BotAgent._handleEvent m event inEnvelope s))).
Proof.
  intros B. unfold BotAgent._handleEvent.
  destruct (Events.isInviteEvent event).
  { unfold BotAgent._handleInvite, sbind, lift, BotAgent.on_bot, modify.
    destruct (Conversation.new _) as [c0| |] eqn:Ec; cbn [fst snd]; try exact B.
    intros c Hc. cbn in Hc. inversion Hc. subst c.
    exact (Conversation_new_id _ _ Ec). }
  destruct (Events.isUtteranceEvent event); [exact B|].
  destruct (Events.isContextEvent event); [exact B|].
  destruct (Events.isUninviteEvent event); [intros c Hc; discriminate Hc|].
  destruct (Events.isGrantFloorEvent event); [exact B|].
  destruct (Events.isRevokeFloorEvent event); [exact B|].
  destruct (Events.isGetManifestsEvent event); exact B.
Qed.

Lemma bot_for_of_bound (l : list Event.t) (s : BotAgent.t * EnvelopeObject.t) :
  bound_here inEnvelope (fst s) ->
  bound_here inEnvelope
    (fst (snd (for_of (fun e => BotAgent._handleEvent m e inEnvelope) l s))).
Proof.
  revert s. induction l as [|a l IH]; intros s B; [exact B|].
  cbn [for_of]. unfold sbind.
  pose proof (handleEvent_bound a s B) as Ba.
  destruct (BotAgent._handleEvent m a inEnvelope s) as [[[]| |] s1];
    cbn [fst snd] in *; auto.
Qed.

Lemma turn_bound (b : BotAgent.t) (l : BotRun.Listener) :
  BotRun.inEnvelope l = inEnvelope ->
  bound_here inEnvelope b ->
  bound_here inEnvelope (fst (BotRun.turn m b l)).
Proof.
  intros El B. unfold BotRun.turn.
  destruct (BotRun.remaining l) as [|e rest]; [exact B|].
  pose proof (handleEvent_bound e (b, BotRun.outEnvelope l) B) as Be.
  rewrite El.
  destruct (BotAgent._handleEvent m e inEnvelope (b, BotRun.outEnvelope l))
    as [[[]| |] [b' out]]; exact Be.
Qed.

Lemma turns_bound (n : nat) (b : BotAgent.t) (l : BotRun.Listener) :
  BotRun.inEnvelope l = inEnvelope ->
  bound_here inEnvelope b ->
  bound_here inEnvelope (fst (turns m n (b, l))).
Proof.
  revert b l. induction n as [|n IH]; intros b l El B; [exact B|].
  cbn [turns fst snd].
  pose proof (turn_bound b l El B) as Bt.
  pose proof (turn_inEnvelope m b l) as Et. rewrite El in Et.
  destruct (BotRun.turn m b l) as [b' l']. exact (IH b' l' Et Bt).
Qed.

Lemma start_inEnvelope (out : EnvelopeObject.t) (b : BotAgent.t) :
  BotRun.inEnvelope (snd (BotRun.start m inEnvelope out b)) = inEnvelope.
Proof.
  unfold BotRun.start.
  destruct (BotAgent.conflict _ inEnvelope); [reflexivity|].
  rewrite turn_inEnvelope. reflexivity.
Qed.

(** X21.  A bot serves one conversation at a time, as long as its
    listeners do not overlap.  When [processEnvelope] is called with an
    envelope that does not conflict with the conversation of the bot,
    no listener of an earlier call having anything left to do, then
    from the call on and however many turns the loops are given, the
    bot is bound to the conversation of that envelope or to none. *)
Theorem bot_bound_to_envelope_conversation (s : BotRun.t) (ks : list nat)
    (c : Conversation.t) :
  quiescent s ->
  BotAgent.conflict (BotRun.bot s) inEnvelope = false ->
  OpenFloorAgent.responseEnvelope m inEnvelope <> IllTyped ->
  BotAgent._activeConversation
    (BotRun.bot (BotRun.run m (BotRun.Submit inEnvelope :: map BotRun.Resume ks) s))
  = Some c ->
  Conversation.id c = Conversation.id (Envelope.conversation inEnvelope).
Proof.
  intros Q Hc Hr. revert c.
  fold (bound_here inEnvelope
          (BotRun.bot (BotRun.run m (BotRun.Submit inEnvelope :: map BotRun.Resume ks) s))).
  assert (B0 : bound_here inEnvelope (BotRun.bot s)).
  { intros c Ec. unfold BotAgent.conflict in Hc. rewrite Ec in Hc.
    apply negb_false_iff, String.eqb_eq in Hc. exact Hc. }
  destruct (OpenFloorAgent.responseEnvelope m inEnvelope) as [out| |] eqn:R.
  - rewrite (run_submit m inEnvelope out ks s Q R). cbn [BotRun.bot].
    pose proof (start_inEnvelope (EnvelopeObject.of_instance out) (BotRun.bot s)) as Es.
    assert (Bs : bound_here inEnvelope
                   (fst (BotRun.start m inEnvelope (EnvelopeObject.of_instance out)
                           (BotRun.bot s)))).
    { unfold BotRun.start.
      replace (BotAgent.conflict (BotAgent.set_currentContext [] (BotRun.bot s))
                 inEnvelope)
        with (BotAgent.conflict (BotRun.bot s) inEnvelope) by reflexivity.
      rewrite Hc. apply turn_bound; [reflexivity|exact B0]. }
    destruct (BotRun.start m inEnvelope (EnvelopeObject.of_instance out) (BotRun.bot s))
      as [b l]. exact (turns_bound _ b l Es Bs).
  - assert (X : BotRun.run m (BotRun.Submit inEnvelope :: map BotRun.Resume ks) s
                = BotRun.run m (map BotRun.Resume ks) s).
    { unfold BotRun.run. cbn [fold_left BotRun.step]. rewrite R. reflexivity. }
    rewrite X. rewrite (run_idle m ks s Q). exact B0.
  - exfalso. apply Hr. reflexivity.
Qed.

Lemma handleEvent_context (event : Event.t) (s : BotAgent.t * EnvelopeObject.t)
    (ev : Event.t) :
  In ev (BotAgent._currentContext
           (fst (snd (BotAgent._handleEvent m event inEnvelope s)))) ->
  In ev (BotAgent._currentContext (fst s))
  \/ (ev = event /\ Events.isContextEvent ev = true).
Proof.
  unfold BotAgent._handleEvent.
  destruct (Events.isInviteEvent event).
  { unfold BotAgent._handleInvite, sbind, lift, BotAgent.on_bot, modify.
    destruct (Conversation.new _) as [c0| |]; cbn [fst snd]; auto. }
  destruct (Events.isUtteranceEvent event); [auto|].
  destruct (Events.isContextEvent event) eqn:Ec.
  { cbn. intros Hin. apply in_app_or in Hin. destruct Hin as [Hin|[<-|[]]]; auto. }
  destruct (Events.isUninviteEvent event); [auto|].
  destruct (Events.isGrantFloorEvent event); [auto|].
  destruct (Events.isRevokeFloorEvent event); [auto|].
  destruct (Events.isGetManifestsEvent event); auto.
Qed.

Lemma bot_for_of_context (l : list Event.t) (s : BotAgent.t * EnvelopeObject.t)
    (ev : Event.t) :
  In ev (BotAgent._currentContext
           (fst (snd (for_of (fun e => BotAgent._handleEvent m e inEnvelope) l s)))) ->
  In ev (BotAgent._currentContext (fst s))
  \/ (In ev l /\ Events.isContextEvent ev = true).
Proof.
  revert s. induction l as [|a l IH]; intros s Hin; [left; exact Hin|].
  cbn [for_of] in Hin. unfold sbind in Hin.
  pose proof (handleEvent_context a s ev) as Ha.
  destruct (BotAgent._handleEvent m a inEnvelope s) as [[[]| |] s1];
    cbn [fst snd] in *.
  - destruct (IH _ Hin) as [H1|[H1 H2]].
    + destruct (Ha H1) as [H3|[-> H3]]; [auto|right; split; [left; reflexivity|exact H3]].
    + right. split; [right; exact H1|exact H2].
  - destruct (Ha Hin) as [H3|[-> H3]]; [auto|right; split; [left; reflexivity|exact H3]].
  - destruct (Ha Hin) as [H3|[-> H3]]; [auto|right; split; [left; reflexivity|exact H3]].
Qed.

Lemma turn_context (b : BotAgent.t) (l : BotRun.Listener) :
  context_of_envelope m inEnvelope b l ->
  context_of_envelope m inEnvelope
    (fst (BotRun.turn m b l)) (snd (BotRun.turn m b l)).
Proof.
  intros (El & Hi & Hc). unfold BotRun.turn.
  destruct (BotRun.remaining l) as [|e rest] eqn:R.
  { cbn [fst snd]. split; [exact El|]. split; [rewrite R; exact Hi|exact Hc]. }
  pose proof (handleEvent_context e (b, BotRun.outEnvelope l)) as He.
  rewrite El.
  assert (Hr : incl rest (BotAgent.myEvents m inEnvelope)).
  { intros x Hx. apply Hi. right. exact Hx. }
  assert (K : forall ev,
            In ev (BotAgent._currentContext
                     (fst (snd (BotAgent._handleEvent m e inEnvelope
                                  (b, BotRun.outEnvelope l))))) ->
            In ev (BotAgent.myEvents m inEnvelope)
            /\ Events.isContextEvent ev = true).
  { intros ev Hin. destruct (He ev Hin) as [H1|[-> H1]].
    - exact (Hc ev H1).
    - split; [apply Hi; left; reflexivity|exact H1]. }
  destruct (BotAgent._handleEvent m e inEnvelope (b, BotRun.outEnvelope l))
    as [[[]| |] [b' out]]; cbn [fst snd] in *;
    (split; [reflexivity|]); (split; [|exact K]);
    try exact Hr; intros x [].
Qed.

Lemma turns_context (n : nat) (b : BotAgent.t) (l : BotRun.Listener) :
  context_of_envelope m inEnvelope b l ->
  context_of_envelope m inEnvelope
    (fst (turns m n (b, l))) (snd (turns m n (b, l))).
Proof.
  revert b l. induction n as [|n IH]; intros b l C; [exact C|].
  cbn [turns fst snd]. pose proof (turn_context b l C) as Ct.
  destruct (BotRun.turn m b l) as [b' l']. exact (IH b' l' Ct).
Qed.

(** X22.  The context of a bot is that of the envelope it is handling,
    as long as its listeners do not overlap.  When [processEnvelope] is
    called with an envelope for which the response envelope can be
    built, no listener of an earlier call having anything left to do,
    then from the call on and however many turns the loops are given,
    the bot holds none of the context events it held before, only
    [context] events of that envelope that were addressed to it. *)
Theorem bot_context_is_per_envelope (s : BotRun.t) (ks : list nat)
    (out : Envelope.t) (ev : Event.t) :
  quiescent s ->
  OpenFloorAgent.responseEnvelope m inEnvelope = Ok out ->
  In ev (BotAgent._currentContext
           (BotRun.bot
              (BotRun.run m (BotRun.Submit inEnvelope :: map BotRun.Resume ks) s))) ->
  In ev (Envelope.events inEnvelope)
  /\ Events.isContextEvent ev = true
  /\ OpenFloorAgent.addressedToMe m ev = true.
Proof.
  intros Q R. rewrite (run_submit m inEnvelope out ks s Q R). cbn [BotRun.bot].
  assert (Cs : context_of_envelope m inEnvelope
                 (fst (BotRun.start m inEnvelope (EnvelopeObject.of_instance out)
                         (BotRun.bot s)))
                 (snd (BotRun.start m inEnvelope (EnvelopeObject.of_instance out)
                         (BotRun.bot s)))).
  { unfold BotRun.start.
    destruct (BotAgent.conflict _ inEnvelope).
    - cbn [fst snd]. split; [reflexivity|]. split; [intros x []|intros x []].
    - apply turn_context. split; [reflexivity|].
      split; [apply incl_refl|intros x []]. }
  destruct (BotRun.start m inEnvelope (EnvelopeObject.of_instance out) (BotRun.bot s))
    as [b l]. cbn [fst snd] in Cs.
  intros Hin.
  destruct (turns_context (count_occ Nat.eq_dec ks (length (BotRun.listeners s)))
              b l Cs) as (_ & _ & K).
  destruct (K ev Hin) as (Hm & Hc).
  unfold BotAgent.myEvents, OpenFloorAgent.addMetadata in Hm.
  apply in_map_iff in Hm. destruct Hm as ([e0 b0] & <- & Hf).
  apply filter_In in Hf. destruct Hf as (Hf & Hb). cbn [snd fst] in *.
  apply in_map_iff in Hf. destruct Hf as (e1 & E1 & He1).
  inversion E1. subst. auto.
Qed.

End BotInvariants.

Lemma bot_bound_to_envelope_conversation_witness :
  exists c,
    BotAgent._activeConversation
      (BotRun.bot
         (@BotRun.run text_dates sample_manifest
            (BotRun.Submit
               (sample_envelope "c1"
                  [sample_event "context" None; sample_event "invite" None])
             :: map BotRun.Resume [0%nat])
            {| BotRun.bot := BotAgent.initial; BotRun.listeners := [] |}))
    = Some c
    /\ Conversation.id c = "c1".
Proof.
  eexists. split; [vm_compute; reflexivity|].
  apply (@bot_bound_to_envelope_conversation text_dates sample_manifest
           (sample_envelope "c1"
              [sample_event "context" None; sample_event "invite" None])
           {| BotRun.bot := BotAgent.initial; BotRun.listeners := [] |} [0%nat]).
  - constructor.
  - reflexivity.
  - vm_compute. discriminate.
  - vm_compute. reflexivity.
Defined.

Lemma bot_context_is_per_envelope_witness :
  Events.isContextEvent (sample_event "context" None) = true
  /\ OpenFloorAgent.addressedToMe sample_manifest (sample_event "context" None) = true.
Proof.
  refine (proj2 (@bot_context_is_per_envelope text_dates sample_manifest
           (sample_envelope "c1"
              [sample_event "grantFloor" None; sample_event "context" None])
           {| BotRun.bot := BotAgent.initial; BotRun.listeners := [] |} [0%nat]
           _ (sample_event "context" None) _ _ _)).
  - constructor.
  - vm_compute. reflexivity.
  - vm_compute. left. reflexivity.
Defined.

(** Listeners that overlap: the program calls [processEnvelope] for
    conversation ["b"] while the listener of an envelope of
    conversation ["a"] has events left.  The second call finds the bot
    unbound and binds it to ["b"]; the first listener then handles its
    invitation and its last context event, and leaves the bot bound to
    ["a"], holding a context event of the first envelope. *)
Example overlapping_listeners :
  BotRun.bot
    (@BotRun.run text_dates sample_manifest
       [BotRun.Submit
          (sample_envelope "a"
             [sample_event "context" None; sample_event "context" None;
              sample_event "invite" None;
              sample_event "context" (Some (to_speaker "tag:example.com,2025:bot1"))]);
        BotRun.Resume 0;
        BotRun.Submit (sample_envelope "b" [sample_event "invite" None]);
        BotRun.Resume 0; BotRun.Resume 0]
       {| BotRun.bot := BotAgent.initial; BotRun.listeners := [] |})
  = {| BotAgent._currentContext :=
         [sample_event "context" (Some (to_speaker "tag:example.com,2025:bot1"))];
       BotAgent._activeConversation :=
         Some {| Conversation.id := "a"; Conversation.conversants := [] |};
       BotAgent._hasFloor := true |}.
Proof. vm_compute. reflexivity. Qed.

(** *** The floor manager's conversants *)

Section FloorConversants.

Context `{Host}.

Lemma Map_set_keys {A : Type} (key : string) (value : A) (l : list (string * A)) :
  map fst (FloorManager.Map_set key value l)
  = if existsb (String.eqb key) (map fst l) then map fst l
    else (map fst l ++ [key])%list.
Proof.
  induction l as [|[k v] l IH]; [reflexivity|].
  cbn [FloorManager.Map_set map fst existsb].
  rewrite (String.eqb_sym key k).
  destruct (String.eqb k key); cbn [orb map fst]; [reflexivity|].
  rewrite IH. destruct (existsb (String.eqb key) (map fst l)); reflexivity.
Qed.

Lemma Map_set_lookup {A : Type} (key : string) (value : A) (l : list (string * A)) :
  assoc key (FloorManager.Map_set key value l) = Some value.
Proof.
  induction l as [|[k v] l IH]; cbn [FloorManager.Map_set assoc].
  - rewrite String.eqb_refl. reflexivity.
  - destruct (String.eqb k key) eqn:E; cbn [assoc]; rewrite E; auto.
Qed.

Lemma Map_delete_keys {A : Type} (key : string) (l : list (string * A)) :
  map fst (FloorManager.Map_delete key l)
  = filter (fun k => negb (String.eqb k key)) (map fst l).
Proof.
  induction l as [|[k v] l IH]; [reflexivity|].
  cbn [FloorManager.Map_delete filter map fst].
  destruct (String.eqb k key); cbn [negb map fst]; fold (FloorManager.Map_delete key l);
    rewrite IH; reflexivity.
Qed.

(** X23.  The floor manager lists a speaker at most once.  Adding a
    conversant lists its speaker URI, at the place it had if it was
    listed, with the manifest just given; removing a speaker unlists
    that speaker and no other, and frees the floor when that speaker
    held it. *)
Theorem floor_manager_conversants
    (f : FloorManager.t) (manifest : Manifest.t) (speakerUri : string) :
  NoDup (FloorManager.activeConversants f) ->
  let added := FloorManager.addConversant manifest f in
  let removed := FloorManager.removeConversant speakerUri f in
  NoDup (FloorManager.activeConversants added)
  /\ (forall u, In u (FloorManager.activeConversants added) <->
                u = OpenFloorAgent.speakerUri manifest
                \/ In u (FloorManager.activeConversants f))
  /\ assoc (OpenFloorAgent.speakerUri manifest) (FloorManager._activeConversants added)
     = Some manifest
  /\ FloorManager._currentSpeaker added = FloorManager._currentSpeaker f
  /\ NoDup (FloorManager.activeConversants removed)
  /\ (forall u, In u (FloorManager.activeConversants removed) <->
                u <> speakerUri /\ In u (FloorManager.activeConversants f))
  /\ FloorManager._currentSpeaker removed
     = (if FloorManager.speaking speakerUri f then None
        else FloorManager._currentSpeaker f)
  /\ FloorManager._currentSpeaker removed <> Some speakerUri.
Proof.
  intros N added removed.
  unfold FloorManager.activeConversants in *. subst added removed.
  unfold FloorManager.addConversant, FloorManager.removeConversant.
  cbn [FloorManager._activeConversants FloorManager._currentSpeaker].
  rewrite Map_set_keys, Map_delete_keys.
  set (keys := map fst (FloorManager._activeConversants f)) in *.
  set (u0 := OpenFloorAgent.speakerUri manifest).
  assert (X : existsb (String.eqb u0) keys = true <-> In u0 keys).
  { rewrite existsb_exists. split.
    - intros (x & Hx & E). apply String.eqb_eq in E. subst. exact Hx.
    - intros Hin. exists u0. split; [exact Hin|apply String.eqb_refl]. }
  split; [|split; [|split; [|split; [|split; [|split; [|split]]]]]].
  - destruct (existsb (String.eqb u0) keys) eqn:E; [exact N|].
    apply NoDup_app; [exact N|repeat constructor; intros []|].
    intros x Hx [<-|[]]. apply X in Hx. discriminate Hx.
  - intros u. destruct (existsb (String.eqb u0) keys) eqn:E.
    + split; [auto|]. intros [->|Hu]; [apply X; reflexivity|exact Hu].
    + rewrite in_app_iff. cbn [In]. intuition congruence.
  - apply Map_set_lookup.
  - reflexivity.
  - apply NoDup_filter. exact N.
  - intros u. rewrite filter_In, negb_true_iff.
    split; intros (A & B).
    + split; [|exact A]. intros ->. rewrite String.eqb_refl in B. discriminate B.
    + split; [exact B|]. apply String.eqb_neq. exact A.
  - reflexivity.
  - unfold FloorManager.speaking.
    destruct (FloorManager._currentSpeaker f) as [v|]; [|discriminate].
    destruct (String.eqb_spec v speakerUri); [discriminate|congruence].
Qed.

End FloorConversants.

Lemma floor_manager_conversants_witness :
  FloorManager.activeConversants
    (FloorManager.addConversant sample_manifest
       (FloorManager.addConversant sample_manifest FloorManager.initial))
  = ["tag:example.com,2025:bot1"]
  /\ NoDup (FloorManager.activeConversants
              (FloorManager.addConversant sample_manifest
                 (FloorManager.addConversant sample_manifest FloorManager.initial))).
Proof.
  split; [reflexivity|].
  apply (floor_manager_conversants
           (FloorManager.addConversant sample_manifest FloorManager.initial)
           sample_manifest "tag:example.com,2025:bot1").
  repeat constructor. intros [].
Defined.

(** *** The convener *)

Lemma addressed_event_new (eventType speakerUri : string) (reason : option string) :
  In eventType Event.allowedEventTypes ->
  BareEvent.new eventType (ConvenerAgent.addressed speakerUri reason)
  = if str_truthy speakerUri
    then Ok {| Event.eventType := eventType;
               Event.to := Some (to_speaker speakerUri);
               Event.reason := reason;
               Event.parameters := [] |}
    else Throw "To requires at least speakerUri or serviceUrl".
Proof.
  intros Hin. unfold BareEvent.new, ConvenerAgent.addressed, Event.new, To.new, falsy.
  cbn [BaseEventOptions.eventType BaseEventOptions.to BaseEventOptions.reason
       BaseEventOptions.parameters BareEventOptions.to BareEventOptions.reason
       ToOptions.speakerUri ToOptions.serviceUrl ToOptions.private opt_truthy].
  rewrite (allowed_is_truthy _ Hin).
  apply includes_In in Hin. rewrite Hin. cbn [negb orb].
  destruct (str_truthy speakerUri); reflexivity.
Qed.

Section ConvenerProperties.

Context `{Host}.

(** X24.  The events that a convener makes for the speaker URI of a bot
    are addressed to that bot, and the bot's handler acts on them:
    the grant gives it the floor, the revocation takes the floor away,
    and the uninvitation also unbinds it from its conversation.  An
    invitation to the service URL of the bot binds it to the
    conversation of the envelope that carries it, without the
    conversants, and gives it the floor.  For an empty speaker URI the
    first three throw. *)
Theorem convener_events_reach_the_bot
    (mo : ManifestOptions.t) (m : Manifest.t) (reason : option string)
    (inEnvelope : Envelope.t) (s : BotAgent.t * EnvelopeObject.t) :
  Manifest.new mo = Ok m ->
  str_truthy (Conversation.id (Envelope.conversation inEnvelope)) = true ->
  let me := OpenFloorAgent.speakerUri m in
  let handled (made : result Event.t) (after : BotAgent.t) :=
    exists event,
      made = Ok event
      /\ OpenFloorAgent.addressedToMe m event = true
      /\ BotAgent._handleEvent m event inEnvelope s = (Ok tt, (after, snd s)) in
  handled (ConvenerAgent.grantFloor me reason)
          (BotAgent.set_hasFloor true (fst s))
  /\ handled (ConvenerAgent.revokeFloor me reason)
             (BotAgent.set_hasFloor false (fst s))
  /\ handled (ConvenerAgent.uninviteAgent me reason)
             (BotAgent.set_hasFloor false
                (BotAgent.set_activeConversation None (fst s)))
  /\ handled (ConvenerAgent.inviteAgent (OpenFloorAgent.serviceUrl m) None reason)
             (BotAgent.set_hasFloor true
                (BotAgent.set_activeConversation
                   (Some {| Conversation.id :=
                              Conversation.id (Envelope.conversation inEnvelope);
                            Conversation.conversants := [] |})
                   (fst s)))
  /\ ConvenerAgent.grantFloor "" reason
     = Throw "To requires at least speakerUri or serviceUrl"
  /\ ConvenerAgent.revokeFloor "" reason
     = Throw "To requires at least speakerUri or serviceUrl"
  /\ ConvenerAgent.uninviteAgent "" reason
     = Throw "To requires at least speakerUri or serviceUrl".
Proof.
  intros Hm Hid me handled.
  apply Manifest_new_wf in Hm. unfold Manifest_wf, Identification_wf in Hm.
  andb_split Hm.
  repeat match goal with X : (_ && _)%bool = true |- _ => andb_split X end.
  assert (Tu : str_truthy me = true).
  { match goal with X : str_truthy (Identification.speakerUri _) = true |- _ =>
      exact X end. }
  assert (Ts : str_truthy (OpenFloorAgent.serviceUrl m) = true).
  { match goal with X : str_truthy (Identification.serviceUrl _) = true |- _ =>
      exact X end. }
  assert (Me : forall ty,
             OpenFloorAgent.addressedToMe m
               {| Event.eventType := ty; Event.to := Some (to_speaker me);
                  Event.reason := reason; Event.parameters := [] |} = true).
  { intros ty. unfold OpenFloorAgent.addressedToMe, to_speaker.
    cbn [Event.to To.speakerUri To.serviceUrl]. fold me.
    rewrite String.eqb_refl. reflexivity. }
  destruct s as [b out]. cbn [fst snd] in *.
  split; [|split; [|split; [|split; [|split; [|split]]]]].
  - eexists. split; [|split; [apply Me|]].
    + unfold ConvenerAgent.grantFloor, GrantFloorEvent.new.
      rewrite addressed_event_new by (simpl; tauto). rewrite Tu. reflexivity.
    + reflexivity.
  - eexists. split; [|split; [apply Me|]].
    + unfold ConvenerAgent.revokeFloor, RevokeFloorEvent.new.
      rewrite addressed_event_new by (simpl; tauto). rewrite Tu. reflexivity.
    + reflexivity.
  - eexists. split; [|split; [apply Me|]].
    + unfold ConvenerAgent.uninviteAgent, UninviteEvent.new.
      rewrite addressed_event_new by (simpl; tauto). rewrite Tu. reflexivity.
    + reflexivity.
  - exists {| Event.eventType := "invite";
              Event.to := Some {| To.speakerUri := None;
                                  To.serviceUrl := Some (OpenFloorAgent.serviceUrl m);
                                  To.private := false |};
              Event.reason := reason;
              Event.parameters := [] |}.
    split; [|split].
    + unfold ConvenerAgent.inviteAgent, InviteEvent.new, BareEvent.new, Event.new,
        To.new, falsy.
      cbn [BaseEventOptions.eventType BaseEventOptions.to BaseEventOptions.reason
           BaseEventOptions.parameters BareEventOptions.to BareEventOptions.reason
           ToOptions.speakerUri ToOptions.serviceUrl ToOptions.private opt_truthy].
      rewrite Ts. reflexivity.
    + unfold OpenFloorAgent.addressedToMe.
      cbn [Event.to To.speakerUri To.serviceUrl orb].
      apply String.eqb_refl.
    + unfold BotAgent._handleEvent, Events.isInviteEvent.
      cbn [Event.eventType String.eqb Ascii.eqb Bool.eqb].
      unfold BotAgent._handleInvite, sbind, lift, Conversation.new.
      cbn [ConversationOptions.id ConversationOptions.conversants].
      rewrite Hid. reflexivity.
  - reflexivity.
  - reflexivity.
  - reflexivity.
Qed.

End ConvenerProperties.

Lemma convener_events_reach_the_bot_witness :
  exists event,
    ConvenerAgent.grantFloor "tag:example.com,2025:bot1" None = Ok event
    /\ OpenFloorAgent.addressedToMe sample_manifest event = true
    /\ @BotAgent._handleEvent text_dates sample_manifest event (sample_envelope "c1" [])
         (BotAgent.initial, EnvelopeObject.of_instance (sample_envelope "c1" []))
       = (Ok tt, (BotAgent.set_hasFloor true BotAgent.initial,
                  EnvelopeObject.of_instance (sample_envelope "c1" []))).
Proof.
  exact (proj1 (@convener_events_reach_the_bot text_dates
                  {| ManifestOptions.identification := sample_identification_options;
                     ManifestOptions.capabilities := [] |}
                  sample_manifest None (sample_envelope "c1" [])
                  (BotAgent.initial,
                   EnvelopeObject.of_instance (sample_envelope "c1" []))
                  eq_refl eq_refl)).
Defined.

(** ** index.ts: the convenience functions *)

(** X25.  [createBasicManifest] succeeds exactly when the speaker URI,
    the service URL, the organization, the name and the description
    are non-empty.  The manifest it returns has one capability when
    capabilities were given, with these as key phrases, the
    description as its only description and the layer ['text'] both
    ways, and none otherwise; [Manifest.fromObject] gives the manifest
    back from its projection. *)
Theorem createBasicManifest_one_capability (options : BasicManifestOptions.t) :
  is_ok (createBasicManifest options)
  = (str_truthy (BasicManifestOptions.speakerUri options)
     && str_truthy (BasicManifestOptions.serviceUrl options)
     && str_truthy (BasicManifestOptions.organization options)
     && str_truthy (BasicManifestOptions.name options)
     && str_truthy (BasicManifestOptions.description options))%bool
  /\ (forall m,
        createBasicManifest options = Ok m ->
        Manifest.capabilities m
        = match BasicManifestOptions.capabilities options with
          | Some (k :: ks) =>
              [{| Capability.keyphrases := k :: ks;
                  Capability.descriptions := [BasicManifestOptions.description options];
                  Capability.languages := None;
                  Capability.supportedLayers :=
                    {| SupportedLayers.input := ["text"];
                       SupportedLayers.output := ["text"] |} |}]
          | _ => []
          end
        /\ Manifest.fromObject (Manifest.toObject m) = Ok m).
Proof.
  assert (C : forall m, createBasicManifest options = Ok m ->
              Manifest.capabilities m
              = match BasicManifestOptions.capabilities options with
                | Some (k :: ks) =>
                    [{| Capability.keyphrases := k :: ks;
                        Capability.descriptions :=
                          [BasicManifestOptions.description options];
                        Capability.languages := None;
                        Capability.supportedLayers :=
                          {| SupportedLayers.input := ["text"];
                             SupportedLayers.output := ["text"] |} |}]
                | _ => []
                end).
  { unfold createBasicManifest, Manifest.new. intros m E.
    apply bind_ok in E. destruct E as (i & _ & E).
    apply bind_ok in E. destruct E as (caps & Hc & E).
    inversion E. subst m. cbn [Manifest.capabilities]. clear E.
    cbn [ManifestOptions.capabilities] in Hc.
    destruct (BasicManifestOptions.capabilities options) as [[|k ks]|];
      cbn in Hc; inversion Hc; reflexivity. }
  split.
  - unfold createBasicManifest, Manifest.new, Identification.new.
    cbn [ManifestOptions.identification ManifestOptions.capabilities
         IdentificationOptions.speakerUri IdentificationOptions.serviceUrl
         IdentificationOptions.organization IdentificationOptions.conversationalName
         IdentificationOptions.synopsis].
    destruct (str_truthy (BasicManifestOptions.speakerUri options)); [|reflexivity].
    destruct (str_truthy (BasicManifestOptions.serviceUrl options)); [|reflexivity].
    destruct (str_truthy (BasicManifestOptions.organization options)); [|reflexivity].
    destruct (str_truthy (BasicManifestOptions.name options)); [|reflexivity].
    destruct (str_truthy (BasicManifestOptions.description options)); [|reflexivity].
    cbn [negb bind andb].
    destruct (BasicManifestOptions.capabilities options) as [[|k ks]|]; reflexivity.
  - intros m E. split; [exact (C m E)|].
    apply Manifest_round_trip. exact (Manifest_new_wf _ _ E).
Qed.

Lemma createBasicManifest_one_capability_witness :
  exists m,
    createBasicManifest
      {| BasicManifestOptions.speakerUri := "tag:example.com,2025:bot1";
         BasicManifestOptions.serviceUrl := "https://example.com/bot1";
         BasicManifestOptions.name := "Bot";
         BasicManifestOptions.organization := "Example";
         BasicManifestOptions.description := "A sample agent";
         BasicManifestOptions.capabilities := Some ["chat"; "help"];
         BasicManifestOptions.department := None;
         BasicManifestOptions.role := None |} = Ok m
    /\ map Capability.keyphrases (Manifest.capabilities m) = [["chat"; "help"]]
    /\ Manifest.fromObject (Manifest.toObject m) = Ok m.
Proof.
  eexists. split; [reflexivity|].
  split; [reflexivity|].
  apply (createBasicManifest_one_capability
           {| BasicManifestOptions.speakerUri := "tag:example.com,2025:bot1";
              BasicManifestOptions.serviceUrl := "https://example.com/bot1";
              BasicManifestOptions.name := "Bot";
              BasicManifestOptions.organization := "Example";
              BasicManifestOptions.description := "A sample agent";
              BasicManifestOptions.capabilities := Some ["chat"; "help"];
              BasicManifestOptions.department := None;
              BasicManifestOptions.role := None |}).
  reflexivity.
Defined.

Lemma to_member_of_toObject (e : Event.t) :
  get_property (Event.toObject e) "to"
  = match Event.to e with Some t0 => To.toObject t0 | None => JUndefined end.
Proof.
  unfold Event.toObject.
  cbn [app get_property assoc String.eqb Ascii.eqb Bool.eqb].
  destruct (Event.to e) as [t0|], (Event.reason e) as [r|];
    cbn [member_opt member_truthy app assoc String.eqb Ascii.eqb Bool.eqb];
    try reflexivity;
    try (destruct (str_truthy r);
         cbn [member_if app assoc String.eqb Ascii.eqb Bool.eqb]);
    destruct (0 <? length (Event.parameters e))%nat; reflexivity.
Qed.

Lemma reason_member_of_toObject (e : Event.t) :
  get_property (Event.toObject e) "reason"
  = match shown (Event.reason e) with Some r => JStr r | None => JUndefined end.
Proof.
  unfold Event.toObject, shown.
  cbn [app get_property assoc String.eqb Ascii.eqb Bool.eqb].
  destruct (Event.to e) as [t0|], (Event.reason e) as [r|];
    cbn [member_opt member_truthy app assoc String.eqb Ascii.eqb Bool.eqb
         opt_truthy];
    try (destruct (str_truthy r);
         cbn [member_if app assoc String.eqb Ascii.eqb Bool.eqb]);
    destruct (0 <? length (Event.parameters e))%nat; reflexivity.
Qed.

Lemma as_BaseEventOptions_toObject (e : Event.t) :
  Event_wf e = true ->
  exists o,
    as_BaseEventOptions (Event.toObject e) = Ok o
    /\ Event.new o = Ok (Event_shown e).
Proof.
  intros W. pose proof (Event_new_of_wf e (Event.parameters e) W) as N.
  unfold Event_wf in W. andb_split W.
  exists {| BaseEventOptions.eventType := Event.eventType e;
            BaseEventOptions.to := option_map To_options (Event.to e);
            BaseEventOptions.reason := shown (Event.reason e);
            BaseEventOptions.parameters :=
              if (0 <? length (Event.parameters e))%nat
              then Some (Event.parameters e) else None |}.
  split.
  - unfold as_BaseEventOptions.
    rewrite to_member_of_toObject, reason_member_of_toObject, parameters_of_toObject.
    replace (get_property (Event.toObject e) "eventType")
      with (JStr (Event.eventType e)) by reflexivity.
    cbn [as_string bind].
    assert (T : match match Event.to e with
                      | Some t0 => To.toObject t0
                      | None => JUndefined
                      end with
                | JUndefined => Ok None
                | t0 => o <- To.as_ToOptions t0 ;; Ok (Some o)
                end = Ok (option_map To_options (Event.to e))).
    { destruct (Event.to e) as [t0|]; [|reflexivity].
      destruct (To_round_trip t0 W0) as (A & _).
      change (To.toObject t0) with (JObj (member_truthy (To.speakerUri t0) "speakerUri"
          ++ member_truthy (To.serviceUrl t0) "serviceUrl"
          ++ member_if (To.private t0) "private" (JBool (To.private t0)))%list) at 1.
      cbv iota. fold (To.toObject t0). rewrite A. reflexivity. }
    rewrite T. cbn [bind].
    destruct (shown (Event.reason e)) as [r|]; cbn [as_opt_string bind];
      destruct (0 <? length (Event.parameters e))%nat; reflexivity.
  - unfold Event_shown. rewrite <- N. unfold Event.new.
    cbn [BaseEventOptions.eventType BaseEventOptions.to BaseEventOptions.reason
         BaseEventOptions.parameters].
    destruct (Event.parameters e) as [|p ps]; reflexivity.
Qed.

Section IndexProperties.

Context `{Host}.
Variable generateUUID : string.

(** X26.  [createSimpleEnvelope] takes schema version ['1.0.0'] when
    none is given and leaves the schema URL out when it is empty.  A
    missing conversation id is replaced by a fresh UUID, an empty one
    is not: the constructor of the conversation rejects it.  The
    events, which must be constructed ones, arrive with the same
    projections, in order. *)
Theorem createSimpleEnvelope_defaults (options : SimpleEnvelopeOptions.t) :
  let events :=
    match SimpleEnvelopeOptions.events options with Some l => l | None => [] end in
  let id :=
    match SimpleEnvelopeOptions.conversationId options with
    | Some id => id
    | None => generateUUID
    end in
  forallb Event_wf events = true ->
  str_truthy (SimpleEnvelopeOptions.senderUri options) = true ->
  Utils.isValidUri (SimpleEnvelopeOptions.senderUri options) = true ->
  if str_truthy id
  then exists e,
      Index.createSimpleEnvelope generateUUID options = Ok e
      /\ Envelope.schema e
         = {| Schema.version :=
                match SimpleEnvelopeOptions.schemaVersion options with
                | Some v => v
                | None => "1.0.0"
                end;
              Schema.url := shown (SimpleEnvelopeOptions.schemaUrl options) |}
      /\ Envelope.conversation e
         = {| Conversation.id := id; Conversation.conversants := [] |}
      /\ Envelope.sender e
         = {| Sender.speakerUri := SimpleEnvelopeOptions.senderUri options;
              Sender.serviceUrl := SimpleEnvelopeOptions.senderServiceUrl options |}
      /\ map Event.toObject (Envelope.events e) = map Event.toObject events
  else Index.createSimpleEnvelope generateUUID options
       = Throw "Conversation.id is required".
Proof.
  intros events id W Ts Vs.
  assert (M : exists os,
             mapM (fun event => as_BaseEventOptions (Event.toObject event)) events
             = Ok os
             /\ mapM Event.new os = Ok (map Event_shown events)).
  { clear -W. induction events as [|a l IH].
    - exists []. split; reflexivity.
    - cbn [forallb] in W. andb_split W.
      destruct (as_BaseEventOptions_toObject a W) as (o & Ho & No).
      destruct (IH W0) as (os & Hos & Nos).
      exists (o :: os). cbn [mapM map]. rewrite Ho, Hos, No, Nos. split; reflexivity. }
  destruct M as (os & Hos & Nos).
  unfold Index.createSimpleEnvelope. fold events. rewrite Hos. cbn [bind].
  unfold Envelope.new, Conversation.new, Sender.new.
  cbn [EnvelopeOptions.schema EnvelopeOptions.conversation EnvelopeOptions.sender
       EnvelopeOptions.events ConversationOptions.id ConversationOptions.conversants
       SenderOptions.speakerUri SenderOptions.serviceUrl mapM bind].
  fold id. destruct (str_truthy id); cbn [negb bind]; [|reflexivity].
  rewrite Ts, Vs. cbn [negb bind]. rewrite Nos. cbn [bind].
  eexists. split; [reflexivity|].
  cbn [Envelope.schema Envelope.conversation Envelope.sender Envelope.events].
  split; [|split; [reflexivity|split; [reflexivity|]]].
  - unfold shown. destruct (opt_truthy (SimpleEnvelopeOptions.schemaUrl options));
      reflexivity.
  - rewrite map_map. apply map_ext_in. intros a Ha.
    apply Event_toObject_shown. exact (forallb_In _ _ _ W Ha).
Qed.

(** X27.  [createTextUtterance] builds an utterance whose dialog event
    has the fresh UUID as id, a span that starts now, and the single
    feature [text]: a ['text/plain'] feature with one token that holds
    the text.  A target without speaker URI, service URL and [private]
    is left out; a target with [private] alone makes the constructor
    of [To] throw. *)
Theorem createTextUtterance_one_text_token
    (options : TextUtteranceOptions.t) (now : string) :
  str_truthy generateUUID = true ->
  str_truthy (TextUtteranceOptions.speakerUri options) = true ->
  Date_toISOString Date_now = Ok now ->
  match TextUtteranceOptions.confidence options with
  | Some c => Utils.isValidConfidence c = true
  | None => True
  end ->
  let dialogEvent :=
    JObj [("id", JStr generateUUID);
          ("speakerUri", JStr (TextUtteranceOptions.speakerUri options));
          ("span", JObj [("startTime", JStr now)]);
          ("features",
           JObj [("text",
                  JObj ([("mimeType", JStr "text/plain");
                         ("tokens",
                          JArr [JObj ([("value",
                                        JStr (TextUtteranceOptions.text options))]
                                      ++ member_opt
                                           (TextUtteranceOptions.confidence options)
                                           "confidence" JNum)])]
                        ++ member_truthy (TextUtteranceOptions.lang options) "lang"))])]
  in
  let built (to : option To.t) :=
    exists e,
      Index.createTextUtterance generateUUID options = Ok e
      /\ UtteranceEvent.base e
         = {| Event.eventType := "utterance";
              Event.to := to;
              Event.reason := None;
              Event.parameters := [("dialogEvent", dialogEvent)] |}
      /\ DialogEvent.toObject (UtteranceEvent.dialogEvent e) = Ok dialogEvent in
  match TextUtteranceOptions.to options with
  | None => built None
  | Some t0 =>
      if (opt_truthy (ToOptions.speakerUri t0)
          || opt_truthy (ToOptions.serviceUrl t0))%bool
      then built (Some {| To.speakerUri := ToOptions.speakerUri t0;
                          To.serviceUrl := ToOptions.serviceUrl t0;
                          To.private := match ToOptions.private t0 with
                                        | Some b => b
                                        | None => false
                                        end |})
      else match ToOptions.private t0 with
           | Some _ => Index.createTextUtterance generateUUID options
                       = Throw "To requires at least speakerUri or serviceUrl"
           | None => built None
           end
  end.
Proof.
  intros Tu Ts Hnow Hc dialogEvent built.
  pose (deo := {| DialogEventOptions.id := Some generateUUID;
         DialogEventOptions.speakerUri :=
           TextUtteranceOptions.speakerUri options;
         DialogEventOptions.span :=
           Some {| SpanOptions.startTime := Some Date_now;
                   SpanOptions.startOffset := None;
                   SpanOptions.endTime := None;
                   SpanOptions.endOffset := None |};
         DialogEventOptions.features :=
           Some [("text",
                  {| FeatureOptions.mimeType := "text/plain";
                     FeatureOptions.tokens :=
                       Some [{| TokenOptions.value :=
                                  JStr (TextUtteranceOptions.text options);
                                TokenOptions.valueUrl := None;
                                TokenOptions.span := None;
                                TokenOptions.confidence :=
                                  TextUtteranceOptions.confidence options;
                                TokenOptions.links := None |}];
                     FeatureOptions.alternates := None;
                     FeatureOptions.lang := TextUtteranceOptions.lang options;
                     FeatureOptions.encoding := None;
                     FeatureOptions.tokenSchema := None |})];
         DialogEventOptions.previousId := None;
         DialogEventOptions.context := None |}).
  assert (D : exists de,
             DialogEvent.new deo = Ok de
             /\ DialogEvent.toObject de = Ok dialogEvent).
  { unfold deo, DialogEvent.new, falsy.
    cbn [DialogEventOptions.id DialogEventOptions.speakerUri DialogEventOptions.span
         DialogEventOptions.features DialogEventOptions.previousId
         DialogEventOptions.context opt_truthy].
    rewrite Tu, Ts. cbn [negb].
    unfold Span.new.
    cbn [SpanOptions.startTime SpanOptions.startOffset SpanOptions.endTime
         SpanOptions.endOffset bind mapM snd fst].
    unfold Feature.new.
    cbn [FeatureOptions.mimeType FeatureOptions.tokens FeatureOptions.alternates
         FeatureOptions.lang FeatureOptions.encoding FeatureOptions.tokenSchema].
    change (negb (str_truthy "text/plain")) with false. cbv iota.
    unfold Token.new, falsy.
    cbn [mapM TokenOptions.value TokenOptions.valueUrl TokenOptions.span
         TokenOptions.confidence TokenOptions.links bind is_undefined opt_truthy
         andb negb].
    assert (C : match TextUtteranceOptions.confidence options with
                | Some c => negb (Utils.isValidConfidence c)
                | None => false
                end = false).
    { destruct (TextUtteranceOptions.confidence options); [rewrite Hc|]; reflexivity. }
    rewrite C. cbn [bind].
    eexists. split; [reflexivity|].
    unfold DialogEvent.toObject, Span.toObject, Span.time_member, Span.offset_member,
      Feature.toObject, Token.toObject.
    cbn [DialogEvent.span DialogEvent.features DialogEvent.id DialogEvent.speakerUri
         DialogEvent.previousId DialogEvent.context
         Span.startTime Span.startOffset Span.endTime Span.endOffset
         Feature.mimeType Feature.tokens Feature.alternates Feature.lang
         Feature.encoding Feature.tokenSchema
         Token.value Token.valueUrl Token.span Token.confidence Token.links].
    rewrite Hnow. subst dialogEvent.
    destruct (TextUtteranceOptions.confidence options) as [c|],
             (TextUtteranceOptions.lang options) as [l|];
      cbv - [str_truthy]; try destruct (str_truthy l); reflexivity. }
  destruct D as (de & Nde & Tde).
  assert (B : forall to r,
             match to with
             | Some o => t0 <- To.new o ;; Ok (Some t0)
             | None => Ok None
             end = r ->
             UtteranceEvent.new
               {| UtteranceEventOptions.dialogEvent := deo;
                  UtteranceEventOptions.to := to;
                  UtteranceEventOptions.reason := None |}
             = (t1 <- r ;;
                Ok {| UtteranceEvent.base :=
                        {| Event.eventType := "utterance";
                           Event.to := t1;
                           Event.reason := None;
                           Event.parameters := [("dialogEvent", dialogEvent)] |};
                      UtteranceEvent.dialogEvent := de |})).
  { intros to r Ht. unfold UtteranceEvent.new.
    cbn [UtteranceEventOptions.dialogEvent UtteranceEventOptions.to
         UtteranceEventOptions.reason].
    rewrite Nde. cbn [bind]. rewrite Tde. cbn [bind].
    unfold Event.new.
    cbn [BaseEventOptions.eventType BaseEventOptions.to BaseEventOptions.reason
         BaseEventOptions.parameters].
    change (negb (str_truthy "utterance")
            || negb (Event.includes Event.allowedEventTypes "utterance"))%bool
      with false.
    cbv iota. rewrite Ht. destruct r; reflexivity. }
  unfold built.
  destruct (TextUtteranceOptions.to options) as [t0|] eqn:Eto.
  - assert (T : (t1 <- To.new t0 ;; Ok (Some t1))
                = if (opt_truthy (ToOptions.speakerUri t0)
                      || opt_truthy (ToOptions.serviceUrl t0))%bool
                  then Ok (Some {| To.speakerUri := ToOptions.speakerUri t0;
                                   To.serviceUrl := ToOptions.serviceUrl t0;
                                   To.private := match ToOptions.private t0 with
                                                 | Some b => b
                                                 | None => false
                                                 end |})
                  else Throw "To requires at least speakerUri or serviceUrl").
    { unfold To.new, falsy.
      destruct (opt_truthy (ToOptions.speakerUri t0)),
               (opt_truthy (ToOptions.serviceUrl t0)); reflexivity. }
    assert (U : Index.createTextUtterance generateUUID options
                = UtteranceEvent.new
                    {| UtteranceEventOptions.dialogEvent := deo;
                       UtteranceEventOptions.to :=
                         if (opt_truthy (ToOptions.speakerUri t0)
                             || opt_truthy (ToOptions.serviceUrl t0)
                             || match ToOptions.private t0 with
                                | Some _ => true
                                | None => false
                                end)%bool
                         then Some t0 else None;
                       UtteranceEventOptions.reason := None |}).
    { unfold Index.createTextUtterance. rewrite Eto. reflexivity. }
    destruct (opt_truthy (ToOptions.speakerUri t0)
              || opt_truthy (ToOptions.serviceUrl t0))%bool.
    + cbn [orb] in U. eexists.
      split; [rewrite U, (B (Some t0) _ T); reflexivity|].
      split; [reflexivity|exact Tde].
    + cbn [orb] in U. destruct (ToOptions.private t0) as [b|].
      * rewrite U. rewrite (B (Some t0) _ T). reflexivity.
      * eexists. split; [rewrite U, (B None _ eq_refl); reflexivity|].
        split; [reflexivity|exact Tde].
  - assert (U : Index.createTextUtterance generateUUID options
                = UtteranceEvent.new
                    {| UtteranceEventOptions.dialogEvent := deo;
                       UtteranceEventOptions.to := None;
                       UtteranceEventOptions.reason := None |}).
    { unfold Index.createTextUtterance. rewrite Eto. reflexivity. }
    eexists. split; [rewrite U, (B None _ eq_refl); reflexivity|].
    split; [reflexivity|exact Tde].
Qed.

End IndexProperties.

Lemma createSimpleEnvelope_defaults_witness :
  exists e,
    Index.createSimpleEnvelope "123e4567-e89b-42d3-a456-426614174000"
      {| SimpleEnvelopeOptions.conversationId := None;
         SimpleEnvelopeOptions.senderUri := "tag:example.com,2025:bot1";
         SimpleEnvelopeOptions.senderServiceUrl := None;
         SimpleEnvelopeOptions.events := Some [sample_event "bye" None];
         SimpleEnvelopeOptions.schemaVersion := None;
         SimpleEnvelopeOptions.schemaUrl := Some "" |} = Ok e
    /\ Envelope.schema e = {| Schema.version := "1.0.0"; Schema.url := None |}
    /\ Envelope.conversation e
       = {| Conversation.id := "123e4567-e89b-42d3-a456-426614174000";
            Conversation.conversants := [] |}
    /\ Envelope.sender e
       = {| Sender.speakerUri := "tag:example.com,2025:bot1";
            Sender.serviceUrl := None |}
    /\ map Event.toObject (Envelope.events e) = [JObj [("eventType", JStr "bye")]].
Proof.
  exact (createSimpleEnvelope_defaults "123e4567-e89b-42d3-a456-426614174000"
           {| SimpleEnvelopeOptions.conversationId := None;
              SimpleEnvelopeOptions.senderUri := "tag:example.com,2025:bot1";
              SimpleEnvelopeOptions.senderServiceUrl := None;
              SimpleEnvelopeOptions.events := Some [sample_event "bye" None];
              SimpleEnvelopeOptions.schemaVersion := None;
              SimpleEnvelopeOptions.schemaUrl := Some "" |}
           eq_refl eq_refl eq_refl).
Defined.

Lemma createTextUtterance_one_text_token_witness :
  exists e,
    @Index.createTextUtterance text_dates "123e4567-e89b-42d3-a456-426614174000"
      {| TextUtteranceOptions.speakerUri := "tag:example.com,2025:user1";
         TextUtteranceOptions.text := "Hello world";
         TextUtteranceOptions.to :=
           Some {| ToOptions.speakerUri := None;
                   ToOptions.serviceUrl := None;
                   ToOptions.private := None |};
         TextUtteranceOptions.confidence := None;
         TextUtteranceOptions.lang := Some "en" |} = Ok e
    /\ Event.to (UtteranceEvent.base e) = None
    /\ Event.parameters (UtteranceEvent.base e)
       = [("dialogEvent",
           JObj [("id", JStr "123e4567-e89b-42d3-a456-426614174000");
                 ("speakerUri", JStr "tag:example.com,2025:user1");
                 ("span", JObj [("startTime", JStr "2025-01-01T00:00:00.000Z")]);
                 ("features",
                  JObj [("text",
                         JObj [("mimeType", JStr "text/plain");
                               ("tokens", JArr [JObj [("value", JStr "Hello world")]]);
                               ("lang", JStr "en")])])])].
Proof.
  destruct (@createTextUtterance_one_text_token text_dates
              "123e4567-e89b-42d3-a456-426614174000"
              {| TextUtteranceOptions.speakerUri := "tag:example.com,2025:user1";
                 TextUtteranceOptions.text := "Hello world";
                 TextUtteranceOptions.to :=
                   Some {| ToOptions.speakerUri := None;
                           ToOptions.serviceUrl := None;
                           ToOptions.private := None |};
                 TextUtteranceOptions.confidence := None;
                 TextUtteranceOptions.lang := Some "en" |}
              "2025-01-01T00:00:00.000Z" eq_refl eq_refl eq_refl I)
    as (e & E & B & _).
  exists e. split; [exact E|]. rewrite B. split; reflexivity.
Defined.

(** ** validation.ts and index.ts: the schemas of the package *)

Section SchemaAcceptance.

Variable Number_print : Q -> string.
Variable JSON_stringify : json -> string.
Variable RegExp_new : string -> string + (string -> bool).

Local Abbreviation validateObject :=
  (Validation._validateObject Number_print JSON_stringify RegExp_new).

Lemma for_each_indexed_passes (f : nat -> json -> Validation.V unit)
    (elements : list json) (i : nat) (errs : list string) :
  (forall index x e, In x elements -> f index x e = (Validation.Normal tt, e)) ->
  Validation.for_each_indexed f i elements errs = (Validation.Normal tt, errs).
Proof.
  revert i. induction elements as [|a l IH]; intros i Hf; [reflexivity|].
  cbn [Validation.for_each_indexed]. unfold Validation.vbind.
  rewrite (Hf i a errs (or_introl eq_refl)).
  apply IH. intros index x e Hx. apply Hf. right. exact Hx.
Qed.

Ltac eval_truthy :=
  repeat match goal with
         | |- context [str_truthy ?s] =>
             let b := eval vm_compute in (str_truthy s) in
             match b with
             | true => change (str_truthy s) with true
             | false => change (str_truthy s) with false
             end
         end.

Ltac vsimpl :=
  repeat progress
    (cbn; eval_truthy;
     unfold Validation.vbind, Validation.vret, Validation.check_type,
       Validation.check_required, Validation.check_properties,
       Validation.check_items, Validation.check_enum, Validation.check_range,
       Validation.check_pattern, Validation.is_object).

Local Abbreviation accepts :=
  (passes Number_print JSON_stringify RegExp_new).

Lemma array_passes (d items : json) (elements : list json) :
  truthy items = true ->
  (forall x, In x elements -> accepts x items) ->
  accepts (JArr elements)
    (JObj [("type", JStr "array"); ("description", d); ("items", items)]).
Proof.
  intros Ti Hx path errs.
  cbn [Validation._validateObject]. vsimpl. rewrite Ti.
  rewrite for_each_indexed_passes; [reflexivity|].
  intros index x e Hin. apply Hx. exact Hin.
Qed.

Lemma string_passes (d : json) (s : string) :
  accepts (JStr s) (JObj [("type", JStr "string"); ("description", d)]).
Proof. intros path errs. reflexivity. Qed.

Lemma strings_pass (d1 d2 : json) (l : list string) :
  accepts (JStrings l)
    (JObj [("type", JStr "array"); ("description", d1);
           ("items", JObj [("type", JStr "string"); ("description", d2)])]).
Proof.
  apply array_passes; [reflexivity|].
  intros x Hx. apply in_map_iff in Hx. destruct Hx as (s & <- & _).
  apply string_passes.
Qed.

Lemma layers_pass (d K1 K2 : json) (s : SupportedLayers.t) :
  accepts (JStrings (SupportedLayers.input s)) K1 ->
  accepts (JStrings (SupportedLayers.output s)) K2 ->
  accepts (SupportedLayers.toObject s)
    (JObj [("type", JStr "object"); ("description", d);
           ("required", JArr [JStr "input"; JStr "output"]);
           ("properties", JObj [("input", K1); ("output", K2)])]).
Proof.
  intros H1 H2 path errs. unfold SupportedLayers.toObject.
  cbn [Validation._validateObject]. vsimpl.
  rewrite H1. vsimpl. rewrite H2. reflexivity.
Qed.

Lemma capability_passes (d K L D S : json) (c : Capability.t) :
  accepts (JStrings (Capability.keyphrases c)) K ->
  (forall l, accepts (JStrings l) L) ->
  accepts (JStrings (Capability.descriptions c)) D ->
  accepts (SupportedLayers.toObject (Capability.supportedLayers c)) S ->
  accepts (Capability.toObject c)
    (JObj [("type", JStr "object"); ("description", d);
           ("required", JArr [JStr "keyphrases"; JStr "descriptions"]);
           ("properties",
            JObj [("keyphrases", K); ("languages", L); ("descriptions", D);
                  ("supportedLayers", S)])]).
Proof.
  intros HK HL HD HS path errs. unfold Capability.toObject.
  destruct (Capability.languages c) as [l|]; cbn [member_opt app];
    cbn [Validation._validateObject]; vsimpl;
    rewrite HK; vsimpl; rewrite ?HL; vsimpl; rewrite HD; vsimpl; rewrite HS;
    reflexivity.
Qed.

Lemma manifest_identification_passes (i : Identification.t) :
  Identification_wf i = true ->
  accepts (Identification.toObject i)
    (get_property (get_property Schemas.assistantManifestSchema "properties")
                  "identification").
Proof.
  unfold Identification_wf. intros W.
  repeat match goal with X : (_ && _)%bool = true |- _ =>
           apply andb_true_iff in X; destruct X end.
  destruct i as [su sv [org|] [name|] dept role [syn|]];
    cbn [Identification.speakerUri Identification.serviceUrl
         Identification.organization Identification.conversationalName
         Identification.department Identification.role Identification.synopsis
         opt_truthy absent_or_truthy] in *; try discriminate.
  intros path errs. unfold Identification.toObject.
  cbn [Identification.speakerUri Identification.serviceUrl
       Identification.organization Identification.conversationalName
       Identification.department Identification.role Identification.synopsis
       member_truthy].
  repeat match goal with X : str_truthy _ = true |- _ => rewrite X; clear X end.
  destruct dept as [dp|], role as [rl|];
    cbn [member_truthy member_if app];
    repeat match goal with
           | |- context [member_if (str_truthy ?s)] =>
               destruct (str_truthy s); cbn [member_if app]
           end;
    reflexivity.
Qed.

Lemma manifest_passes (a b c e I C : json) (m : Manifest.t) :
  accepts (Identification.toObject (Manifest.identification m)) I ->
  accepts (JArr (map Capability.toObject (Manifest.capabilities m))) C ->
  accepts (Manifest.toObject m)
    (JObj [("$id", a); ("$schema", b); ("description", c);
           ("type", JStr "object");
           ("required", JArr [JStr "identification"; JStr "capabilities"]);
           ("properties", JObj [("identification", I); ("capabilities", C)]);
           ("$defs", e)]).
Proof.
  intros HI HC path errs. unfold Manifest.toObject.
  cbn [Validation._validateObject]. vsimpl.
  rewrite HI. vsimpl. rewrite HC. reflexivity.
Qed.

(** *** The envelope schema *)

Lemma items_pass (items : json) (elements : list json) :
  truthy items = true ->
  (forall x, In x elements -> accepts x items) ->
  accepts (JArr elements) (JObj [("type", JStr "array"); ("items", items)]).
Proof.
  intros Ti Hx path errs.
  cbn [Validation._validateObject]. vsimpl. rewrite Ti.
  rewrite for_each_indexed_passes; [reflexivity|].
  intros index x e Hin. apply Hx. exact Hin.
Qed.

Local Abbreviation openFloorSchema :=
  (get_property (get_property Schemas.conversationEnvelopeSchema "properties")
                "openFloor").

Local Abbreviation member_schema schema name :=
  (get_property (get_property schema "properties") name).

Lemma envelope_schema_passes (s : Schema.t) :
  accepts (Schema.toObject s) (member_schema openFloorSchema "schema").
Proof.
  intros path errs. unfold Schema.toObject.
  destruct (Schema.url s) as [u|]; cbn [member_truthy member_if app];
    try destruct (str_truthy u); reflexivity.
Qed.

Lemma envelope_sender_passes (s : Sender.t) :
  accepts (Sender.toObject s) (member_schema openFloorSchema "sender").
Proof.
  intros path errs. unfold Sender.toObject.
  destruct (Sender.serviceUrl s) as [u|]; cbn [member_truthy member_if app];
    try destruct (str_truthy u); reflexivity.
Qed.

Lemma envelope_identification_passes (i : Identification.t) :
  Identification_wf i = true ->
  accepts (Identification.toObject i)
    (member_schema
       (get_property (member_schema (member_schema openFloorSchema "conversation")
                                    "conversants") "items")
       "identification").
Proof.
  unfold Identification_wf. intros W.
  repeat match goal with X : (_ && _)%bool = true |- _ =>
           apply andb_true_iff in X; destruct X end.
  destruct i as [su sv [org|] [name|] dept role [syn|]];
    cbn [Identification.speakerUri Identification.serviceUrl
         Identification.organization Identification.conversationalName
         Identification.department Identification.role Identification.synopsis
         opt_truthy absent_or_truthy] in *; try discriminate.
  intros path errs. unfold Identification.toObject.
  cbn [Identification.speakerUri Identification.serviceUrl
       Identification.organization Identification.conversationalName
       Identification.department Identification.role Identification.synopsis
       member_truthy].
  repeat match goal with X : str_truthy _ = true |- _ => rewrite X; clear X end.
  destruct dept as [dp|], role as [rl|];
    cbn [member_truthy member_if app];
    repeat match goal with
           | |- context [member_if (str_truthy ?s)] =>
               destruct (str_truthy s); cbn [member_if app]
           end;
    reflexivity.
Qed.

Lemma conversant_passes (I P A : json) (c : Conversant.t) :
  accepts (Identification.toObject (Conversant.identification c)) I ->
  accepts (Conversant.toObject c)
    (JObj [("type", JStr "object");
           ("properties",
            JObj [("identification", I); ("persistent_state", P);
                  ("additionalProperties", A)])]).
Proof.
  intros HI path errs. unfold Conversant.toObject.
  destruct (0 <? length (Conversant.persistentState c))%nat;
    cbn [member_if app]; cbn [Validation._validateObject]; vsimpl;
    rewrite HI; reflexivity.
Qed.

Lemma conversation_passes (I CS : json) (c : Conversation.t) :
  accepts (JStr (Conversation.id c)) I ->
  accepts (JArr (map Conversant.toObject (Conversation.conversants c))) CS ->
  accepts (Conversation.toObject c)
    (JObj [("required", JArr [JStr "id"]);
           ("properties", JObj [("id", I); ("conversants", CS)])]).
Proof.
  intros HI HC path errs. unfold Conversation.toObject.
  destruct (0 <? length (Conversation.conversants c))%nat;
    cbn [member_if app]; cbn [Validation._validateObject]; vsimpl;
    rewrite HI; vsimpl; rewrite ?HC; reflexivity.
Qed.

Local Abbreviation eventSchema :=
  (get_property (member_schema openFloorSchema "events") "items").

Lemma eventType_passes (ty : string) :
  In ty Event.allowedEventTypes ->
  accepts (JStr ty) (member_schema eventSchema "eventType").
Proof.
  intros Hin path errs. simpl in Hin.
  repeat (destruct Hin as [<-|Hin]; [reflexivity|]). destruct Hin.
Qed.

Lemma envelope_to_passes (t0 : To.t) :
  accepts (To.toObject t0) (member_schema eventSchema "to").
Proof.
  intros path errs. unfold To.toObject.
  destruct (To.speakerUri t0) as [u|], (To.serviceUrl t0) as [v|], (To.private t0);
    cbn [member_truthy member_if app];
    repeat match goal with
           | |- context [member_if (str_truthy ?s)] =>
               destruct (str_truthy s); cbn [member_if app]
           end;
    reflexivity.
Qed.

Lemma event_passes (T O R A : json) (e : Event.t) :
  accepts (JStr (Event.eventType e)) T ->
  (forall t0, accepts (To.toObject t0) O) ->
  (forall r, accepts (JStr r) R) ->
  accepts (Event.toObject e)
    (JObj [("type", JStr "object");
           ("properties", JObj [("eventType", T); ("to", O); ("reason", R)]);
           ("allOf", A)]).
Proof.
  intros HT HO HR path errs. unfold Event.toObject.
  destruct (Event.to e) as [t0|], (Event.reason e) as [r|],
           (0 <? length (Event.parameters e))%nat;
    cbn [member_opt member_truthy member_if app];
    try destruct (str_truthy r); cbn [member_if app];
    cbn [Validation._validateObject]; vsimpl;
    rewrite HT; vsimpl; rewrite ?HO; vsimpl; rewrite ?HR; reflexivity.
Qed.

Lemma openFloor_passes (S C D E : json) (e : Envelope.t) :
  accepts (Schema.toObject (Envelope.schema e)) S ->
  accepts (Conversation.toObject (Envelope.conversation e)) C ->
  accepts (Sender.toObject (Envelope.sender e)) D ->
  accepts (JArr (map Event.toObject (Envelope.events e))) E ->
  accepts (Envelope.toObject e)
    (JObj [("required",
            JArr [JStr "schema"; JStr "conversation"; JStr "sender"; JStr "events"]);
           ("properties",
            JObj [("schema", S); ("conversation", C); ("sender", D);
                  ("events", E)])]).
Proof.
  intros HS HC HD HE path errs. unfold Envelope.toObject.
  cbn [Validation._validateObject]. vsimpl.
  rewrite HS. vsimpl. rewrite HC. vsimpl. rewrite HD. vsimpl. rewrite HE.
  reflexivity.
Qed.

Lemma payload_passes (a b c d O : json) (members : list (string * json)) :
  accepts (JObj members) O ->
  accepts (JObj [("openFloor", JObj members)])
    (JObj [("$id", a); ("$schema", b); ("description", c);
           ("type", JStr "object");
           ("required", JArr [JStr "openFloor"]);
           ("properties", JObj [("openFloor", O)]);
           ("$defs", d)]).
Proof.
  intros HO path errs.
  cbn [Validation._validateObject]. vsimpl. rewrite HO. reflexivity.
Qed.

Lemma envelope_passes (e : Envelope.t) :
  Envelope_wf e = true ->
  accepts (JObj [("openFloor", Envelope.toObject e)])
    Schemas.conversationEnvelopeSchema.
Proof.
  unfold Envelope_wf. intros W.
  apply andb_true_iff in W. destruct W as (W & We).
  apply andb_true_iff in W. destruct W as (Wc & Ws).
  unfold Conversation_wf in Wc.
  apply andb_true_iff in Wc. destruct Wc as (_ & Wc).
  unfold Envelope.toObject at 1. apply payload_passes.
  apply (openFloor_passes _ _ _ _ e).
  - apply envelope_schema_passes.
  - apply conversation_passes; [apply string_passes|].
    apply items_pass; [reflexivity|].
    intros x Hx. apply in_map_iff in Hx. destruct Hx as (c & <- & Hc).
    apply conversant_passes. apply envelope_identification_passes.
    exact (forallb_In _ _ _ Wc Hc).
  - apply envelope_sender_passes.
  - apply items_pass; [reflexivity|].
    intros x Hx. apply in_map_iff in Hx. destruct Hx as (ev & <- & Hev).
    pose proof (forallb_In _ _ _ We Hev) as Wev. unfold Event_wf in Wev.
    apply andb_true_iff in Wev. destruct Wev as (Wty & _).
    apply includes_In in Wty.
    apply event_passes.
    + apply eventType_passes. exact Wty.
    + apply envelope_to_passes.
    + intros r. apply string_passes.
Qed.

Variable JSON_parse : string -> result json.

(** X28.  [validateManifest] finds nothing wrong with the projection of
    a constructed manifest.  The converse fails: the schema asks for
    three members of the identification, the constructor for five, so
    data without speaker URI and synopsis is valid and still rejected
    by [Manifest.fromObject]. *)
Theorem validateManifest_accepts_manifests (o : ManifestOptions.t) (m : Manifest.t) :
  Manifest.new o = Ok m ->
  EntityValidators.validateManifest Number_print JSON_stringify RegExp_new
    (Manifest.toObject m)
  = {| Validation.valid := true; Validation.errors := [] |}
  /\ forall serviceUrl organization name : string,
       let data :=
         JObj [("identification",
                JObj [("serviceUrl", JStr serviceUrl);
                      ("organization", JStr organization);
                      ("conversationalName", JStr name)]);
               ("capabilities", JArr [])] in
       EntityValidators.validateManifest Number_print JSON_stringify RegExp_new data
       = {| Validation.valid := true; Validation.errors := [] |}
       /\ Manifest.fromObject data = Throw "Identification requires all required fields".
Proof.
  intros Hm. split; [|intros serviceUrl organization name; split; reflexivity].
  apply Manifest_new_wf in Hm. unfold Manifest_wf in Hm.
  apply andb_true_iff in Hm. destruct Hm as (Wi & Wc).
  unfold EntityValidators.validateManifest, Validation.validate.
  assert (P : accepts (Manifest.toObject m) Schemas.assistantManifestSchema).
  { apply manifest_passes.
    - exact (manifest_identification_passes _ Wi).
    - apply array_passes; [reflexivity|].
      intros x Hx. apply in_map_iff in Hx. destruct Hx as (c & <- & _).
      apply capability_passes.
      + apply strings_pass.
      + intros l. apply strings_pass.
      + apply strings_pass.
      + apply layers_pass; apply strings_pass. }
  rewrite P. reflexivity.
Qed.

(** X29.  A payload made from a constructed envelope passes
    [validateEnvelope], so JSON text that [JSON.parse] reads as the
    projection of that payload is parsed by [parsePayload] and by
    [validateAndParsePayload] into the payload, the latter reporting it
    as valid and without errors. *)
Theorem validateAndParsePayload_accepts_payloads
    (o : EnvelopeOptions.t) (e : Envelope.t) (jsonString : string) :
  Envelope.new o = Ok e ->
  exists p,
    Index.createPayload e = Ok p
    /\ EntityValidators.validateEnvelope Number_print JSON_stringify RegExp_new
         (Payload.toObject p)
       = {| Validation.valid := true; Validation.errors := [] |}
    /\ (JSON_parse jsonString = Ok (Payload.toObject p) ->
        Index.parsePayload JSON_parse jsonString = Ok p
        /\ Index.validateAndParsePayload Number_print JSON_stringify RegExp_new
             JSON_parse jsonString
           = Ok {| ParsedPayload.valid := true;
                   ParsedPayload.errors := [];
                   ParsedPayload.payload := Some p |}).
Proof.
  intros He. apply Envelope_new_wf in He.
  exists {| Payload.openFloor := Envelope_shown e |}.
  assert (T : Payload.toObject {| Payload.openFloor := Envelope_shown e |}
              = JObj [("openFloor", Envelope.toObject e)]).
  { unfold Payload.toObject. cbn [Payload.openFloor].
    rewrite (Envelope_toObject_shown e He). reflexivity. }
  assert (V : EntityValidators.validateEnvelope Number_print JSON_stringify RegExp_new
                (JObj [("openFloor", Envelope.toObject e)])
              = {| Validation.valid := true; Validation.errors := [] |}).
  { unfold EntityValidators.validateEnvelope, Validation.validate.
    rewrite (envelope_passes e He). reflexivity. }
  split; [exact (Payload_of_envelope_wf e He)|].
  rewrite T. split; [exact V|].
  intros Hp. split.
  - unfold Index.parsePayload, Payload.fromJSON. rewrite Hp. cbn [bind].
    rewrite (Payload_fromObject_wf e He). reflexivity.
  - unfold Index.validateAndParsePayload. rewrite Hp. cbn [bind].
    rewrite V. cbn [Validation.valid].
    rewrite (Payload_fromObject_wf e He). reflexivity.
Qed.

Lemma validateAndParsePayload_over_typed
    (parse : string -> Validation.completion json)
    (fromObject : json -> Validation.completion Payload.t)
    (jsonString : string) (r : ParsedPayload.t) :
  (forall x, completes_as (JSON_parse x) (parse x)) ->
  (forall d, completes_as (Payload.fromObject d) (fromObject d)) ->
  Index.validateAndParsePayload Number_print JSON_stringify RegExp_new
    JSON_parse jsonString = Ok r ->
  Index.validateAndParsePayload_over Number_print JSON_stringify RegExp_new
    parse fromObject jsonString
  = {| ParsedAs.valid := ParsedPayload.valid r;
       ParsedAs.errors := ParsedPayload.errors r;
       ParsedAs.payload := ParsedPayload.payload r |}.
Proof.
  intros Hp Hf. unfold Index.validateAndParsePayload,
    Index.validateAndParsePayload_over.
  specialize (Hp jsonString).
  destruct (JSON_parse jsonString) as [data|message|]; cbn [bind completes_as] in *;
    rewrite ?Hp.
  - specialize (Hf data).
    destruct (Validation.valid (EntityValidators.validateEnvelope _ _ _ data)).
    + destruct (Payload.fromObject data) as [p|message|];
        cbn [bind completes_as] in *; rewrite ?Hf; intros E; inversion E; reflexivity.
    + intros E. inversion E. reflexivity.
  - intros E. inversion E. reflexivity.
  - discriminate.
Qed.

(** X30.  Whatever [JSON.parse] and [Payload.fromObject] do with the
    string, return or throw, [validateAndParsePayload] returns a
    result.  The result is valid exactly when it holds a payload: the
    string was parsed, the data passed [validateEnvelope] and the
    payload is the one that [Payload.fromObject] returned, and no
    error is listed.  A result that is not valid lists at least one
    error, which is the message of the exception when one was
    thrown. *)
Theorem validateAndParsePayload_result {P : Type}
    (parse : string -> Validation.completion json)
    (fromObject : json -> Validation.completion P) (jsonString : string) :
  let r := Index.validateAndParsePayload_over Number_print JSON_stringify
             RegExp_new parse fromObject jsonString in
  (ParsedAs.valid r = true <-> ParsedAs.payload r <> None)
  /\ (forall payload,
        ParsedAs.payload r = Some payload <->
        exists data,
          parse jsonString = Validation.Normal data
          /\ Validation.valid
               (EntityValidators.validateEnvelope Number_print JSON_stringify
                  RegExp_new data) = true
          /\ fromObject data = Validation.Normal payload)
  /\ (ParsedAs.valid r = true -> ParsedAs.errors r = [])
  /\ (ParsedAs.valid r = false -> ParsedAs.errors r <> [])
  /\ (forall message,
        parse jsonString = Validation.Abrupt message ->
        ParsedAs.errors r = [("JSON parsing failed: " ++ message)%string])
  /\ (forall data message,
        parse jsonString = Validation.Normal data ->
        Validation.valid
          (EntityValidators.validateEnvelope Number_print JSON_stringify
             RegExp_new data) = true ->
        fromObject data = Validation.Abrupt message ->
        ParsedAs.errors r = [("JSON parsing failed: " ++ message)%string]).
Proof.
  intros r. subst r. unfold Index.validateAndParsePayload_over.
  assert (N : forall (A : Type) (x y : A),
            Validation.Normal x = Validation.Normal y -> x = y)
    by (intros A x y E; inversion E; reflexivity).
  destruct (parse jsonString) as [data|message].
  - destruct (Validation.valid (EntityValidators.validateEnvelope _ _ _ data)) eqn:V.
    + destruct (fromObject data) as [p|message] eqn:F;
        cbn [ParsedAs.valid ParsedAs.errors ParsedAs.payload].
      * split; [split; congruence|].
        split.
        { intros payload. split.
          - intros E. inversion E. subst. exists data. auto.
          - intros (d & E1 & _ & E2). apply N in E1. subst d. congruence. }
        split; [reflexivity|]. split; [discriminate|]. split; [discriminate|].
        intros d message E1 _ E2. apply N in E1. subst d. congruence.
      * split; [split; congruence|].
        split.
        { intros payload. split; [discriminate|].
          intros (d & E1 & _ & E2). apply N in E1. subst d. congruence. }
        split; [discriminate|]. split; [discriminate|]. split; [discriminate|].
        intros d message' E1 _ E2. apply N in E1. subst d. congruence.
    + cbn [ParsedAs.valid ParsedAs.errors ParsedAs.payload].
      split; [split; congruence|].
      split.
      { intros payload. split; [discriminate|].
        intros (d & E1 & E2 & _). apply N in E1. subst d. congruence. }
      split; [discriminate|]. split.
      { intros _. unfold EntityValidators.validateEnvelope, Validation.validate in *.
        cbn [Validation.valid Validation.errors] in *.
        match goal with
        | |- ?found <> [] => destruct found; [discriminate V|discriminate]
        end. }
      split; [discriminate|].
      intros d message E1 E2 _. apply N in E1. subst d. congruence.
  - cbn [ParsedAs.valid ParsedAs.errors ParsedAs.payload].
    split; [split; congruence|].
    split.
    { intros payload. split; [discriminate|].
      intros (d & E1 & _). discriminate E1. }
    split; [discriminate|]. split; [discriminate|].
    split; [intros m E; inversion E; reflexivity|].
    intros d m E1. discriminate E1.
Qed.

End SchemaAcceptance.

Lemma validateManifest_accepts_manifests_witness :
  sample_validate (Manifest.toObject sample_manifest) Schemas.assistantManifestSchema
  = {| Validation.valid := true; Validation.errors := [] |}.
Proof.
  exact (proj1 (validateManifest_accepts_manifests integral_Number_print
                  plain_JSON_stringify no_RegExp_new
                  {| ManifestOptions.identification := sample_identification_options;
                     ManifestOptions.capabilities := [] |}
                  sample_manifest eq_refl)).
Defined.

Lemma validateAndParsePayload_accepts_payloads_witness :
  exists p,
    Index.createPayload (sample_envelope "c1" [sample_event "bye" None]) = Ok p
    /\ Index.validateAndParsePayload integral_Number_print plain_JSON_stringify
         no_RegExp_new (fun _ => Ok (Payload.toObject p)) "{}"
       = Ok {| ParsedPayload.valid := true;
               ParsedPayload.errors := [];
               ParsedPayload.payload := Some p |}.
Proof.
  eexists. split; [reflexivity|].
  destruct (validateAndParsePayload_accepts_payloads integral_Number_print
              plain_JSON_stringify no_RegExp_new
              (fun _ => Ok (JObj [("openFloor",
                                   Envelope.toObject
                                     (sample_envelope "c1"
                                        [sample_event "bye" None]))]))
              (sample_envelope_options "c1"
                 [{| BaseEventOptions.eventType := "bye";
                     BaseEventOptions.to := None;
                     BaseEventOptions.reason := None;
                     BaseEventOptions.parameters := None |}])
              (sample_envelope "c1" [sample_event "bye" None]) "{}" eq_refl)
    as (p & Hp & _ & H).
  inversion Hp. subst p. exact (proj2 (H eq_refl)).
Defined.
